(* ===== verification/_CoqProject ===== *)
-Q . S2P
Prelude.v
Transport.v
Netip.v
Http1Types.v
Http1Fields.v
Http1Parser.v
Http1Wf.v
Http1Stream.v
Http1Names.v
Http1Numbers.v
Http1Props.v
H2Frame.v
H2FrameWf.v
H2FrameSpec.v
H2BlockSpec.v
H2FrameCodec.v
H2Props.v
H2FrameHost.v
H2Hpack.v
H2Headers.v
H2HeadersSpec.v
H2Session.v
H2SessionTable.v
H2SessionWf.v
H2SessionInbound.v
H2SessionOutbound.v
H2SessionLife.v
H2SessionFlow.v
H2SessionProps.v
H2HeaderProps.v
H2ReceiveProps.v
H2SessionFindings.v
Http1Request.v
Http1RequestWire.v
Http1RequestSteps.v
Http1RequestHead.v
Http1RequestExchange.v
Http1RequestProps.v
H2Request.v
H2Response.v
H2ResponseInv.v
H2Exchange.v
H2RequestWire.v
H2RequestSection.v
H2RequestProps.v
Registration.v
RegistrationProps.v
H2Abi.v
H2AbiSound.v
H2AbiProps.v
H2Server.v
H2ServerSound.v
H2ServerProps.v
H2Mux.v
H2MuxSound.v
H2MuxWorld.v
H2MuxProps.v
H2Pool.v
H2PoolProps.v
