(* ===== verification/Prelude.v ===== *)
(** * Verification of the wago HTTP protocol engines

    ** The program

    The repository is a set of Go packages that give WebAssembly guests, and Go
    programs, HTTP over transports they own.  Nothing in it dials or listens:
    every part is a state machine on bytes, or a loop between such a machine and
    a byte stream of the caller.

    - [src/http/parser.go]: an incremental, allocation-free HTTP/1 parser with
      callbacks, limits and the framing rules of RFC 9112.
    - [src/http/request/request.go]: HTTP/1 requests, validated by that parser,
      encoded into a buffer or written to a stream, and the synchronous exchange.
    - [src/http2/frame.go]: an incremental HTTP/2 frame parser with callbacks, and
      the frame encoder [AppendFrame].
    - [src/http2/hpack.go]: limits around [golang.org/x/net/http2/hpack].
    - [src/http2/session.go]: one HTTP/2 connection: it is the host of the frame
      parser's callbacks and keeps the streams, the windows, the settings, an
      output queue and an event queue.
    - [src/http2/request/request.go]: a client for one request per connection, on
      the frame parser alone.
    - [src/http2/request/transport.go], [pool.go]: a client that multiplexes
      the requests of many goroutines over a session, and a pool of such clients
      that retries refused requests.
    - [src/http2/server/server.go]: a server connection over a session.
    - [src/http2/abi.go], [http2.go]: the functions through which a guest drives
      sessions by handle, with arguments in its memory.
    - [src/internal/plugin], [src/internal/stubabi], [src/http.go] and the three
      scaffold modules: selection and registration of protocols.

    ** The files

    [Prelude] (this file) holds the scope [go_scope], machine widths, byte
    strings, the tactics ([widths], [bool_to_prop] and others), the hint and
    rewrite databases and the lemmas on lists, numbers and bits that the
    components share.  [Transport] has the interface to byte streams: the class
    [Stream] of operations, the classes [Writer], [Reader] and [Duplex] with the
    promises of Go's [io], the loop [writeAll], and a pipe that satisfies them.

    HTTP/1, [src/http/parser.go]:
    - [Netip]: the part of [net/netip] the parser calls;
    - [Http1Types], [Http1Fields], [Http1Parser]: the translation: data, leaf
      automata, then one definition per [case] of [parse], the loop and the
      exported methods ([Init], [Parse], [ParseOne], [Finish], [Reset], ...);
    - [Http1Wf]: the invariant [wf] and termination; [Http1Stream]: independence
      of the cuts of the input; [Http1Names], [Http1Numbers]: tokens and numbers
      against their reference definitions; [Http1Props]: the claims.

    HTTP/1 requests, [src/http/request/request.go]: [Http1Request] is the
    translation ([Validate], [Encode], [Append], [Write], [DoBuffer]);
    [Http1RequestWire], [Http1RequestSteps], [Http1RequestHead] relate what is
    validated, counted, encoded and written; [Http1RequestExchange] has the
    loops; [Http1RequestProps] the claims.

    HTTP/2 frames, [src/http2/frame.go]: [H2Frame] is the translation, on a host
    of any type; [H2FrameWf] the invariant and termination; [H2FrameSpec] and
    [H2BlockSpec] a reference decoder on whole frames and the refinement of the
    parser to it; [H2FrameCodec] the layout of the fields of each frame type;
    [H2FrameHost] the contract with the host, a class of
    invariants which the session and the client instantiate; [H2Props] the
    claims.

    HTTP/2 sessions, [src/http2/hpack.go] and [session.go]: [H2Hpack] (with the
    class [Hpack] for the library), [H2Headers] and [H2Session] are the
    translation: a [Core] record with the fields of [Session], one definition per
    callback and operation, [Feed] on top of the modelled frame parser.
    [H2HeadersSpec] states the rules of field sections; [H2SessionTable],
    [H2SessionWf] the invariant; [H2SessionInbound], [H2SessionOutbound] that
    callbacks and operations keep it; [H2SessionLife] the operations as data and
    every reachable session; [H2SessionFlow] what operations do;
    [H2SessionProps], [H2HeaderProps], [H2ReceiveProps] the claims;
    [H2SessionFindings] runs that differ from RFC 9113 or the documents.  The
    limits of a session are those of their Go types, except that [MaxHeaders] is
    not the largest number of 32 bits.

    The HTTP/2 client, [src/http2/request/request.go]: [H2Request], [H2Response]
    are the translation; [H2ResponseInv] the invariant of the response;
    [H2Exchange] the loops; [H2RequestWire], [H2RequestSection] what goes out and
    that a server session accepts it; [H2RequestProps] the claims.

    [Registration], [RegistrationProps]: the set of protocol descriptors, the
    selection of transports and the composition in [Extension.Register].

    The guest bindings, [src/http2/abi.go]: [H2Abi] is the translation on the
    guest's memory, [H2AbiSound] its safety, [H2AbiProps] the claims.

    The server, [src/http2/server/server.go]: [H2Server] is the translation, one
    function per critical section; [H2ServerSound] the step relation of their
    interleavings and its invariant; [H2ServerProps] the claims.

    The multiplexed client, [src/http2/request/transport.go]: [H2Mux] is the
    translation: a goroutine is a value that says where it stands in its
    function, [step] moves it by one critical section, channel operation or call
    of the caller's code, and [perform] is the scheduler's choice; [H2MuxSound]
    and [H2MuxWorld] are the invariant of all interleavings, on that of the
    server's session and stream; [H2MuxProps] the claims, and runs that go wrong.
    The pool, [pool.go]: [H2Pool] in the same style, [H2PoolProps] its claim.

    ** What the theorems show

    - Parsers: they return on every input and every callback, keep their
      invariants, give the same result for every cut of the input (HTTP/1), and
      deliver what a reference decoder reads (HTTP/2 frames, names, numbers,
      chunk sizes, field sections, message framing).
    - Encoders: what is written is read back by the parsers or the reference
      decoder (frames, header blocks, settings, HTTP/1 and HTTP/2 requests); a
      validated HTTP/1 request is one message.
    - Sessions: every sequence of operations and received bytes keeps the
      invariant and the configured bounds, moves stream states along RFC 9113 and
      emits whole valid frames; flow control charges what it should.
    - Exchanges and serving: the loops end on every transport that delivers
      finitely many bytes, with a complete response, or an error.
    - Concurrent clients: in every interleaving the bytes sent are whole frames,
      events reach only the exchange of their stream, responses that return are
      complete, nothing panics as long as nobody calls [Close], and all callers
      return once the connection has failed; a pool retries only what was
      refused, a bounded number of times, and loses no connection.
    - Guests: no call panics below 4 GiB of memory, writes outside its output
      ranges or touches another instance; handles name one live session.
    - Registration: the selection is valid and constant once frozen, and the
      contributions are the specified ones.

    ** Conventions

    Machine integers are [Z]; each wrap-around of the code is written out ([u8]
    to [u64]), [int] is 64 bits wide, and the invariants say where none happens.
    Bytes are [Z] in 0..255 and slices are lists; a function on [src, n] is one
    on the unread suffix.  A pointer that may be [nil] is an [option]; an error
    is an [option] or a code; mutation is state passing.

    A loop that is not structural runs on fuel, the length of what it consumes:
    the input of a parser (plus a constant for the turns that consume nothing),
    the queue it empties, the bytes a stream still delivers.  [None] is running
    out of fuel, and in [H2Abi] a panic of Go as well; the claims show that it
    does not happen.

    What is not in the repository is a parameter.  [Hpack] is the HPACK library,
    with [HpackFits] (decoded strings have machine lengths) where a bound needs
    it; [RangeOrder] and [rangeWriters] are the orders of Go's maps, with
    [RangeComplete] (every key is visited) where needed; [Stream] is the
    connection, with the documented promises in [Writer], [Reader], [Duplex];
    [BodySource] the reader of a request body;
    [Wago] is the runtime and the network extension; [statusCode] the numbers of
    [wagonet.Status].  The witnesses instantiate them: [plainHpack], [mapOrder],
    [pipe] and others.

    ** What is not modelled

    [Error], [Unwrap] and [String] methods and accessors that return one field;
    the metadata of the extension ([Info], the manifest file); the conformance
    command and the [register] packages, which call the modelled functions; the
    locks of packages whose operations run to the end under one lock; the
    recycling of body buffers in [transport.go]. *)

From Stdlib Require Import String Ascii.
From Stdlib Require Export ZArith Lia.
From stdpp Require Export base tactics list numbers.
Export Ascii.AsciiSyntax String.StringSyntax.

(** ** Scope of the development *)

Declare Scope go_scope.
Delimit Scope go_scope with go.
#[global] Open Scope Z_scope.
#[global] Open Scope go_scope.

(** ** Fixed-width integers

    Go's unsigned integers wrap silently: a value of width [w] is a [Z] in
    [0, 2^w) and every arithmetic operation of the source is followed by the
    wrap of its type. *)

Definition u8 (x : Z) : Z := x mod 2 ^ 8.
Definition u16 (x : Z) : Z := x mod 2 ^ 16.
Definition u32 (x : Z) : Z := x mod 2 ^ 32.
Definition u64 (x : Z) : Z := x mod 2 ^ 64.

Definition MaxUint8 : Z := 255.
Definition MaxUint16 : Z := 65535.
Definition MaxUint32 : Z := 4294967295.
Definition MaxUint64 : Z := 18446744073709551615.
Definition MaxInt32 : Z := 2147483647.
Definition MinInt32 : Z := -2147483648.

Definition in_u8 (x : Z) : Prop := 0 <= x <= MaxUint8.
Definition in_u16 (x : Z) : Prop := 0 <= x <= MaxUint16.
Definition in_u32 (x : Z) : Prop := 0 <= x <= MaxUint32.
Definition in_u64 (x : Z) : Prop := 0 <= x <= MaxUint64.

Create HintDb go.
Create Rewrite HintDb go_simpl.

Lemma u8_small x : 0 <= x <= MaxUint8 -> u8 x = x.
Proof. intros. apply Z.mod_small. unfold MaxUint8 in *. lia. Qed.
Lemma u16_small x : 0 <= x <= MaxUint16 -> u16 x = x.
Proof. intros. apply Z.mod_small. unfold MaxUint16 in *. lia. Qed.
Lemma u32_small x : 0 <= x <= MaxUint32 -> u32 x = x.
Proof. intros. apply Z.mod_small. unfold MaxUint32 in *. lia. Qed.
Lemma u64_small x : 0 <= x <= MaxUint64 -> u64 x = x.
Proof. intros. apply Z.mod_small. unfold MaxUint64 in *. lia. Qed.

Lemma u8_range x : 0 <= u8 x <= MaxUint8.
Proof. unfold u8, MaxUint8. pose proof (Z.mod_pos_bound x (2 ^ 8)). lia. Qed.
Lemma u16_range x : 0 <= u16 x <= MaxUint16.
Proof. unfold u16, MaxUint16. pose proof (Z.mod_pos_bound x (2 ^ 16)). lia. Qed.
Lemma u32_range x : 0 <= u32 x <= MaxUint32.
Proof. unfold u32, MaxUint32. pose proof (Z.mod_pos_bound x (2 ^ 32)). lia. Qed.
Lemma u64_range x : 0 <= u64 x <= MaxUint64.
Proof. unfold u64, MaxUint64. pose proof (Z.mod_pos_bound x (2 ^ 64)). lia. Qed.

Lemma u64_add_l x y : u64 (u64 x + y) = u64 (x + y).
Proof. apply Z.add_mod_idemp_l. lia. Qed.
Lemma u64_sub_l x y : u64 (u64 x - y) = u64 (x - y).
Proof. apply Zminus_mod_idemp_l. Qed.

(** Shifting a number above another and joining them is arithmetic. *)
Lemma lor_shiftl_add a b k : 0 <= k -> 0 <= b < 2 ^ k -> Z.lor (Z.shiftl a k) b = a * 2 ^ k + b.
Proof.
  intros Hk Hb. rewrite <- Z.add_nocarry_lor; [by rewrite Z.shiftl_mul_pow2 by lia|].
  apply Z.bits_inj'. intros n Hn. rewrite Z.land_spec, Z.bits_0, Z.shiftl_spec by lia.
  destruct (Z.lt_ge_cases n k) as [Hlt|Hge].
  - rewrite Z.testbit_neg_r by lia. done.
  - replace (Z.testbit b n) with false; [apply andb_false_r|]. symmetry.
    destruct (Z.eq_dec b 0) as [->|Hne]; [apply Z.bits_0|].
    apply Z.bits_above_log2; [lia|]. apply Z.log2_lt_pow2; [lia|].
    eapply Z.lt_le_trans; [apply Hb|]. apply Z.pow_le_mono_r; lia.
Qed.

#[export] Hint Rewrite u64_add_l u64_sub_l : go_simpl.
#[export] Hint Resolve u8_range u16_range u32_range u64_range : go.

#[global] Opaque u8 u16 u32 u64.

(** ** Bytes and strings

    A byte is a [Z]; a Go string or byte slice is a [list Z].  [ch "x"] is the
    code of a character and [str "..."] the bytes of a literal, both replaced
    by their value when the definition is elaborated. *)

Definition byte_of_ascii (c : ascii) : Z := Z.of_N (N_of_ascii c).

Fixpoint bytes_of_string (s : String.string) : list Z :=
  match s with
  | EmptyString => []
  | String c s => byte_of_ascii c :: bytes_of_string s
  end.

Ltac eval_byte c := let v := eval vm_compute in (byte_of_ascii c) in exact v.
Ltac eval_bytes s := let v := eval vm_compute in (bytes_of_string s) in exact v.
Notation "'eval_ch' c" := (ltac:(eval_byte c)) (at level 9, c at level 0, only parsing) : go_scope.
Notation "'eval_str' s" := (ltac:(eval_bytes s)) (at level 9, s at level 0, only parsing) : go_scope.
Notation "'ch' c" := (eval_ch (c%char)) (at level 9, c at level 0, only parsing) : go_scope.
Notation "'str' s" := (eval_str (s%string)) (at level 9, s at level 0, only parsing) : go_scope.

(** [s[i]] on a string; the code guards every such access, and the value out
    of range is no byte. *)
Definition str_at (s : list Z) (i : Z) : Z := nth (Z.to_nat i) s (-1).

(** [len(s)] *)
Definition len {A} (s : list A) : Z := Z.of_nat (length s).

(** [x == y] on strings *)
Definition bytes_eqb (x y : list Z) : bool := bool_decide (x = y).

(** A [switch b { case 'x', 'y', ...: ... }] over bytes. *)
Definition one_of (b : Z) (s : list Z) : bool := existsb (Z.eqb b) s.

(** [b >= lo && b <= hi] *)
Definition between (lo b hi : Z) : bool := (lo <=? b) && (b <=? hi).

(** The bytes of a slice between two cursors: [rest0] is what was unread at
    [start], [rest1] what is unread at [n]; the result is [src[start:n]]. *)
Definition span {A} (rest0 rest1 : list A) : list A :=
  take (length rest0 - length rest1) rest0.

Lemma len_nonneg {A} (s : list A) : 0 <= len s.
Proof. unfold len. lia. Qed.
Lemma len_cons {A} (a : A) s : len (a :: s) = len s + 1.
Proof. unfold len. cbn [length]. lia. Qed.
Lemma len_app {A} (s t : list A) : len (s ++ t) = len s + len t.
Proof. unfold len. rewrite length_app. lia. Qed.
Lemma len_nil {A} : len (@nil A) = 0.
Proof. reflexivity. Qed.
#[export] Hint Rewrite @len_cons @len_app @len_nil : go_simpl.

Lemma span_app {A} (s t : list A) : span (s ++ t) t = s.
Proof.
  unfold span. rewrite length_app.
  replace (length s + length t - length t)%nat with (length s) by lia.
  apply take_app_length.
Qed.
Lemma span_nil {A} (s : list A) : span s s = [].
Proof. unfold span. by rewrite Nat.sub_diag. Qed.

(** ** Digits

    Numbers accumulated digit by digit behind an overflow test. *)

(** The value of a digit string in a base. *)
Definition digits_value (base : Z) (ds : list Z) (acc : Z) : Z :=
  foldl (fun v d => v * base + d) acc ds.

Lemma digits_value_mono base ds acc :
  0 < base -> 0 <= acc -> Forall (fun d => 0 <= d) ds -> acc <= digits_value base ds acc.
Proof.
  intros Hb Hacc Hds. revert acc Hacc. induction Hds as [|d ds Hd Hds IH]; intros acc Hacc; cbn; [lia|].
  etrans; [|apply IH]; nia.
Qed.

(** [(MaxUint64-digit)/base < v] is the test that [v * base + digit] does not fit. *)
Lemma overflow_test base v d :
  0 < base -> 0 <= d -> ((MaxUint64 - d) / base <? v) = true <-> MaxUint64 < v * base + d.
Proof.
  intros Hb Hd. rewrite Z.ltb_lt. split; intros H.
  - pose proof (Z.mul_succ_div_gt (MaxUint64 - d) base Hb). nia.
  - apply Z.div_lt_upper_bound; lia.
Qed.

Definition digitOf (b : Z) : Z := b - ch "0".

(** The decimal value of a string of digits. *)
Definition decimal (ds : list Z) : Z := digits_value 10 (digitOf <$> ds) 0.

(** [strconv.FormatUint(v, 10)]: twenty digits hold a [uint64]. *)
Fixpoint decimalDigits (fuel : nat) (v : Z) : list Z :=
  match fuel with
  | O => []
  | S fuel => (if v <? 10 then [] else decimalDigits fuel (v / 10)) ++ [ch "0" + v mod 10]
  end.
Definition formatUint (v : Z) : list Z := decimalDigits 20 v.

Lemma digits_value_snoc base xs d acc : digits_value base (xs ++ [d]) acc = digits_value base xs acc * base + d.
Proof. unfold digits_value. by rewrite foldl_app. Qed.

Lemma decimal_snoc ds b : decimal (ds ++ [b]) = decimal ds * 10 + digitOf b.
Proof. unfold decimal. rewrite fmap_app. apply (digits_value_snoc 10). Qed.

Definition is_digit (b : Z) : Prop := ch "0" <= b <= ch "9".

Lemma decimalDigits_value fuel v : 0 <= v < 10 ^ Z.of_nat (S fuel) ->
  decimal (decimalDigits (S fuel) v) = v /\ Forall is_digit (decimalDigits (S fuel) v).
Proof.
  revert v. induction fuel as [|fuel IH]; intros v Hv; cbn [decimalDigits].
  all: pose proof (Z.mod_pos_bound v 10 ltac:(lia)) as Hm; assert (is_digit (ch "0" + v mod 10)) as Hd by (unfold is_digit; lia).
  all: rewrite decimal_snoc, Forall_app, Forall_singleton; unfold digitOf; pose proof (Z.div_mod v 10).
  - destruct (Z.ltb_spec v 10); [|cbn in Hv; lia]. change (decimal []) with 0. split; [lia | by split].
  - destruct (Z.ltb_spec v 10); [change (decimal []) with 0; rewrite Z.div_small in * by lia; split; [lia | by split]|].
    rewrite Nat2Z.inj_succ, Z.pow_succ_r in Hv by lia.
    destruct (IH (v / 10)) as [E F]; [split; [apply Z.div_pos; lia | apply Z.div_lt_upper_bound; lia]|].
    cbn [decimalDigits] in E, F. rewrite E. split; [lia | by split].
Qed.

Lemma formatUint_value v : 0 <= v <= MaxUint64 ->
  decimal (formatUint v) = v /\ Forall is_digit (formatUint v).
Proof. intros Hv. apply decimalDigits_value. unfold MaxUint64 in Hv. change (10 ^ Z.of_nat 20) with 100000000000000000000. lia. Qed.

(** ** Record update

    [p <| f := v |>] is the assignment [p.f = v].  Every state record has one
    [Setter] instance per field, built by [mk_setter] from its eta expansion. *)

Class Setter {R T} (proj : R -> T) := set : T -> R -> R.
Arguments set {R T} proj {_} _ _.

Class Eta (R : Type) := eta : R -> R.

Ltac head_of e := lazymatch e with ?f _ => head_of f | _ => e end.

Ltac mk_setter f :=
  let v := fresh "v" in let p := fresh "p" in
  intros v p;
  let R := type of p in
  let e := constr:(_ : Eta R) in
  let e := match e with ?x => x end in
  let h := head_of e in
  let body := eval cbv beta delta [h] in (e p) in
  match eval pattern (f p) in body with
  | ?g _ => let r := eval cbv beta in (g v) in exact r
  end.

#[warnings="-postfix-notation-not-level-1"]
Notation "p <| f := v |>" := (set f v p)
  (at level 12, left associativity, f at level 1, v at level 99,
   format "p <| f  :=  v |>") : go_scope.

(** ** Tactics *)

(** Split the booleans and enumerations an operation branches on, and simplify
    the record projections that appear. *)
Ltac break_if :=
  match goal with
  | |- context [if ?x then _ else _] =>
      lazymatch x with
      | context [if _ then _ else _] => fail
      | context [match _ with _ => _ end] => fail
      | _ => destruct x eqn:?
      end
  | H : context [if ?x then _ else _] |- _ =>
      lazymatch x with
      | context [if _ then _ else _] => fail
      | context [match _ with _ => _ end] => fail
      | _ => destruct x eqn:?
      end
  end.

Ltac break_ifs := repeat (break_if; cbn in *; try discriminate).

(** Turn boolean comparisons in the context into propositions for [lia]. *)
Ltac bool_to_prop :=
  repeat match goal with
  | H : (_ && _)%bool = true |- _ => apply andb_prop in H; destruct H
  | H : (_ || _)%bool = false |- _ => apply orb_false_elim in H; destruct H
  | H : negb _ = true |- _ => apply negb_true_iff in H
  | H : negb _ = false |- _ => apply negb_false_iff in H
  | H : (_ =? _) = true |- _ => apply Z.eqb_eq in H
  | H : (_ =? _) = false |- _ => apply Z.eqb_neq in H
  | H : (_ <=? _) = true |- _ => apply Z.leb_le in H
  | H : (_ <=? _) = false |- _ => apply Z.leb_gt in H
  | H : (_ <? _) = true |- _ => apply Z.ltb_lt in H
  | H : (_ <? _) = false |- _ => apply Z.ltb_ge in H
  end.
