(* ===== verification/Transport.v ===== *)
(** * Byte streams

    The connections the clients and the server are given: Go's [io.Reader] and
    [io.Writer].  They are the caller's, so the class [Stream] only names their
    operations, and the classes [Writer] and [Reader] state what the
    documentation of [io] promises of them.  [writeLoop] is the loop of the
    three functions [writeAll] of the repository, which differ only in the
    package they are in. *)

From S2P Require Import Prelude.

(** A connected transport: [Write(data)] returns the count and the error, and
    [Read(buffer)] also the contents it leaves in the buffer. *)
Class Stream := {
  Conn : Type;
  StreamError : Type;
  is_EOF : StreamError -> bool;
  SWrite : Conn -> list Z -> Conn * (Z * option StreamError);
  SRead : Conn -> list Z -> Conn * list Z * (Z * option StreamError);
}.

(** The errors of package [io], and those of the transport. *)
Inductive IoFailure `{Stream} :=
  | IoShortWrite (* io.ErrShortWrite *)
  | IoShortBuffer (* io.ErrShortBuffer *)
  | IoNoProgress (* io.ErrNoProgress *)
  | IoUnexpectedEOF (* io.ErrUnexpectedEOF *)
  | IoError (e : StreamError).

(** What [io.Writer] promises: the count is within the data, and so many bytes
    of it were written. *)
Class Writer `{ST : Stream} := {
  sent : Conn -> list Z;
  write_law w data w' n err : SWrite w data = (w', (n, err)) ->
    0 <= n <= len data /\ sent w' = sent w ++ take (Z.to_nat n) data;
}.

(** What [io.Reader] promises: the count is within the buffer, and so many of
    the bytes the peer sends are at its front. *)
Class Reader `{ST : Stream} := {
  pending : Conn -> list Z;
  read_law w buffer w' filled n err : SRead w buffer = ((w', filled), (n, err)) ->
    0 <= n <= len buffer /\ len filled = len buffer /\ pending w = take (Z.to_nat n) filled ++ pending w';
}.

(** A full-duplex connection: writing does not take from what the peer sends,
    reading sends nothing. *)
Class Duplex `{WR : Writer} `{RD : !Reader} : Prop := {
  write_keeps w data w' r : SWrite w data = (w', r) -> pending w' = pending w;
  read_keeps w buffer w' filled r : SRead w buffer = ((w', filled), r) -> sent w' = sent w;
}.

Section Writing.
Context `{ST : Stream}.
Implicit Types w : Conn.

(** Every turn of the loop shortens the data or returns, so its length is
    enough fuel; [None] is running out of it. *)
Fixpoint writeLoop (fuel : nat) (w : Conn) (data : list Z) : option (Conn * option IoFailure) :=
  match data with
  | [] => Some (w, None)
  | _ =>
      match fuel with
      | O => None
      | S fuel =>
          let '(w, (written, err)) := SWrite w data in
          if (written <? 0) || (len data <? written) then Some (w, Some IoShortWrite)
          else
            let data := if 0 <? written then drop (Z.to_nat written) data else data in
            match err with
            | Some e => Some (w, Some (IoError e))
            | None => if written =? 0 then Some (w, Some IoShortWrite) else writeLoop fuel w data
            end
      end
  end.

(** The loop in a package with errors [E]. *)
Definition writeData {E} (mk : IoFailure -> E) (w : Conn) (data : list Z) : option (Conn * option E) :=
  match writeLoop (length data) w data with
  | Some (w, err) => Some (w, option_map mk err)
  | None => None
  end.

(** [err := c; if err != nil { return err }; k] *)
Definition andThenWrite {E} (c : option (Conn * option E)) (k : Conn -> option (Conn * option E)) : option (Conn * option E) :=
  match c with
  | Some (w, None) => k w
  | r => r
  end.

(** The loop ends on any stream: a count outside the data is an error. *)
Lemma writeLoop_total fuel w data : (length data <= fuel)%nat -> exists w' err, writeLoop fuel w data = Some (w', err).
Proof.
  revert w data. induction fuel as [|fuel IH]; intros w data Hf; destruct data as [|b data]; cbn [length] in Hf; try lia;
    [by do 2 eexists | by do 2 eexists|].
  cbn [writeLoop]. destruct (SWrite w (b :: data)) as [w1 [n err]].
  destruct (Z.ltb_spec n 0); cbn [orb]; [by do 2 eexists|]. destruct (Z.ltb_spec (len (b :: data)) n); [by do 2 eexists|].
  destruct err as [e|]; [by do 2 eexists|]. destruct (Z.eqb_spec n 0); [by do 2 eexists|].
  rewrite (proj2 (Z.ltb_lt 0 n)) by lia. apply IH. rewrite length_drop. cbn [length]. lia.
Qed.

Lemma writeData_total {E} (mk : IoFailure -> E) w data : exists w' err, writeData mk w data = Some (w', err).
Proof.
  unfold writeData. destruct (writeLoop_total (length data) w data) as (w' & err & ->); [done|]. by do 2 eexists.
Qed.

Lemma writeLoop_pending `{RD : !Reader} fuel w data w' err :
  (forall w data w' r, SWrite w data = (w', r) -> pending w' = pending w) ->
  writeLoop fuel w data = Some (w', err) -> pending w' = pending w.
Proof.
  intros Hk. revert w data. induction fuel as [|fuel IH]; intros w data; destruct data as [|b data]; cbn [writeLoop];
    try (by intros [= <- _]).
  destruct (SWrite w (b :: data)) as [w1 [n e]] eqn:E. apply Hk in E as <-.
  destruct (_ || _); [by intros [= <- _]|]. destruct e as [e|]; [by intros [= <- _]|]. destruct (n =? 0); [by intros [= <- _] | apply IH].
Qed.

Context `{WR : !Writer}.

(** A write ended: it sent a prefix of the data, and all of it without an
    error. *)
Definition wrote {E} w (data : list Z) (res : option (Conn * option E)) : Prop :=
  exists w' err pre, res = Some (w', err) /\ sent w' = sent w ++ pre /\ pre `prefix_of` data /\ (err = None -> pre = data).

Lemma wrote_nil {E} w : wrote (E := E) w [] (Some (w, None)).
Proof. exists w, None, []. rewrite app_nil_r. by split_and!. Qed.

Lemma wrote_app {E} w x y (res : option (Conn * option E)) k :
  wrote w x res -> (forall w1, sent w1 = sent w ++ x -> wrote w1 y (k w1)) -> wrote w (x ++ y) (andThenWrite res k).
Proof.
  intros (w1 & err & pre & -> & Hs & Hp & He) Hk. destruct err as [e|]; cbn.
  - exists w1, (Some e), pre. split_and!; [done | done | by apply prefix_app_r | done].
  - rewrite (He eq_refl) in Hs. destruct (Hk w1 Hs) as (w2 & err & pre' & -> & Hs' & Hp' & He').
    exists w2, err, (x ++ pre'). rewrite Hs', Hs, app_assoc. split_and!; [done | done | by apply prefix_app | intros E0; by rewrite He'].
Qed.

Lemma writeLoop_wrote fuel w data : (length data <= fuel)%nat -> wrote w data (writeLoop fuel w data).
Proof.
  revert w data. induction fuel as [|fuel IH]; intros w data Hf; destruct data as [|b data]; cbn [length] in Hf;
    try lia; [apply wrote_nil | apply wrote_nil|].
  cbn [writeLoop]. destruct (SWrite w (b :: data)) as [w1 [n err]] eqn:E. apply write_law in E as [Hn Hs].
  rewrite (proj2 (Z.ltb_ge n 0)), (proj2 (Z.ltb_ge _ n)) by lia. cbn [orb].
  assert (take (Z.to_nat n) (b :: data) `prefix_of` b :: data) as Hp by apply prefix_take.
  destruct err as [e|]; [by exists w1, (Some (IoError e)), (take (Z.to_nat n) (b :: data))|].
  destruct (Z.eqb_spec n 0) as [->|Hne]; [by exists w1, (Some IoShortWrite), []|].
  rewrite (proj2 (Z.ltb_lt 0 n)) by lia.
  destruct (IH w1 (drop (Z.to_nat n) (b :: data))) as (w2 & err & pre & -> & Hs2 & Hp2 & He).
  { rewrite length_drop. cbn [length]. lia. }
  exists w2, err, (take (Z.to_nat n) (b :: data) ++ pre). rewrite Hs2, Hs, app_assoc. split_and!; [done | done | |].
  - rewrite <- (take_drop (Z.to_nat n) (b :: data)) at 2. by apply prefix_app.
  - intros H. by rewrite (He H), take_drop.
Qed.

Lemma writeData_wrote {E} (mk : IoFailure -> E) w data : wrote w data (writeData mk w data).
Proof.
  destruct (writeLoop_wrote (length data) w data ltac:(done)) as (w' & err & pre & H1 & H2 & H3 & H4). unfold writeData. rewrite H1.
  exists w', (option_map mk err), pre. split_and!; [done | done | done|]. destruct err; [done | auto].
Qed.
End Writing.

Lemma writeData_pending `{DX : Duplex} {E} (mk : IoFailure -> E) w data w' err :
  writeData mk w data = Some (w', err) -> pending w' = pending w.
Proof.
  unfold writeData. destruct (writeLoop _ w data) as [[w1 e]|] eqn:E1; [|done]. intros [= <- _].
  eapply writeLoop_pending; [exact write_keeps | exact E1].
Qed.

(** ** A pipe *)

(** A transport that takes three bytes per write and ends when it is empty:
    what was sent, and what is still to be read. *)
Definition pipeWrite (w : list Z * list Z) (data : list Z) : (list Z * list Z) * (Z * option unit) :=
  let n := Z.min 3 (len data) in ((w.1 ++ take (Z.to_nat n) data, w.2), (n, None)).

Definition pipeRead (w : list Z * list Z) (buffer : list Z) : (list Z * list Z) * list Z * (Z * option unit) :=
  let n := Z.min (len buffer) (len w.2) in
  (((w.1, drop (Z.to_nat n) w.2), take (Z.to_nat n) w.2 ++ drop (Z.to_nat n) buffer), (n, if n =? 0 then Some tt else None)).

Definition pipe : Stream :=
  {| Conn := list Z * list Z; StreamError := unit; is_EOF := fun _ => true; SWrite := pipeWrite; SRead := pipeRead |}.

#[export] Instance pipe_writer : @Writer pipe.
Proof.
  refine {| sent := (fst : @Conn pipe -> list Z) |}. intros w data w' n err [= <- <- _]. cbn.
  pose proof (len_nonneg data). split; [lia | done].
Defined.

#[export] Instance pipe_reader : @Reader pipe.
Proof.
  refine {| pending := (snd : @Conn pipe -> list Z) |}. intros w buffer w' filled n err [= <- <- <- _]. cbn.
  pose proof (len_nonneg buffer). pose proof (len_nonneg w.2).
  assert (length (take (Z.to_nat (len buffer `min` len w.2)) w.2) = Z.to_nat (len buffer `min` len w.2)) as Hl
    by (rewrite length_take; unfold len in *; lia).
  split_and!; [lia | lia | |].
  - unfold len at 1. rewrite length_app, Hl, length_drop. unfold len in *. lia.
  - rewrite take_app_le by lia. rewrite take_take, Nat.min_id. by rewrite take_drop.
Defined.

#[export] Instance pipe_duplex : @Duplex pipe pipe_writer pipe_reader.
Proof.
  split; [intros w data w' r [= <- _]; done | intros w buffer w' filled r [= <- _ _]; done].
Qed.
