(* ===== verification/Netip.v ===== *)
(** * Go's [net/netip] address parser

    The HTTP/1 parser hands bracketed host literals to [netip.ParseAddr] and
    keeps those whose address [Is6].  This file models that part of the Go
    standard library: [ParseAddr], [parseIPv6] and [parseIPv4Fields], reduced
    to whether the text is accepted and whether the result is an IPv6 address
    (the 16 address bytes are never read by this repository). *)

From S2P Require Import Prelude.

(** [parseIPv4Fields]: four dot-separated decimal octets without leading
    zeros.  [prev] is the preceding byte, [first] tells [i == 0]. *)
Fixpoint parseIPv4Fields_loop (s : list Z) (first : bool) (prev val digLen pos : Z) : bool :=
  match s with
  | [] => negb (pos <? 3)
  | b :: s' =>
      if between (ch "0") b (ch "9") then
        if (digLen =? 1) && (val =? 0) then false
        else
          let val := val * 10 + (b - ch "0") in
          if 255 <? val then false
          else parseIPv4Fields_loop s' false b val (digLen + 1) pos
      else if b =? ch "." then
        if first || bool_decide (s' = []) || (prev =? ch ".") then false
        else if pos =? 3 then false
        else parseIPv4Fields_loop s' false b 0 0 (pos + 1)
      else false
  end.

Definition parseIPv4Fields (s : list Z) : bool := parseIPv4Fields_loop s true 0 0 0 0.

(** The hexadecimal group at the head of [s]: [None] when it has more than
    four digits or overflows 16 bits, else the digits read and what follows. *)
Fixpoint hexGroup (s : list Z) (off acc : Z) : option (Z * list Z) :=
  let digit (c : Z) : option Z :=
    if between (ch "0") c (ch "9") then Some (c - ch "0")
    else if between (ch "a") c (ch "f") then Some (c - ch "a" + 10)
    else if between (ch "A") c (ch "F") then Some (c - ch "A" + 10)
    else None in
  match s with
  | [] => Some (off, [])
  | c :: s' =>
      match digit c with
      | None => Some (off, s)
      | Some d =>
          let acc := u32 (Z.shiftl acc 4 + d) in
          if 3 <? off then None
          else if MaxUint16 <? acc then None
          else hexGroup s' (off + 1) acc
      end
  end.

(** The body of [parseIPv6] after the zone and a leading "::" are removed:
    [i] counts the address bytes written so far, [ellipsis] tells whether "::"
    was seen.  Each turn of the loop writes two bytes, so [fuel = 8] covers
    [i < 16]. *)
Definition finishIPv6 (s : list Z) (i : Z) (ellipsis : bool) : bool :=
  if negb (len s =? 0) then false
  else if i <? 16 then ellipsis
  else negb ellipsis.

Fixpoint parseIPv6_loop (fuel : nat) (s : list Z) (i : Z) (ellipsis : bool) : bool :=
  match fuel with
  | O => finishIPv6 s i ellipsis
  | S fuel =>
      match hexGroup s 0 0 with
      | None => false
      | Some (off, after) =>
          if off =? 0 then false
          else
            match after with
            | [] => finishIPv6 [] (i + 2) ellipsis
            | c :: more =>
                if c =? ch "." then
                  if negb ellipsis && negb (i =? 12) then false
                  else if 16 <? i + 4 then false
                  else if parseIPv4Fields s then finishIPv6 [] (i + 4) ellipsis
                  else false
                else if negb (c =? ch ":") then false
                else
                  match more with
                  | [] => false
                  | d :: more' =>
                      if d =? ch ":" then
                        if ellipsis then false
                        else
                          match more' with
                          | [] => finishIPv6 [] (i + 2) true
                          | _ => parseIPv6_loop fuel more' (i + 2) true
                          end
                      else parseIPv6_loop fuel more (i + 2) ellipsis
                  end
            end
      end
  end.

(** The text before the first occurrence of [c] and what follows it. *)
Fixpoint cutByte (c : Z) (s : list Z) : list Z * option (list Z) :=
  match s with
  | [] => ([], None)
  | b :: s' =>
      if b =? c then ([], Some s')
      else let (h, t) := cutByte c s' in (b :: h, t)
  end.

Definition parseIPv6 (s : list Z) : bool :=
  let (addr, zone) := cutByte (ch "%") s in
  match zone with
  | Some [] => false
  | _ =>
      match addr with
      | c :: d :: rest =>
          if (c =? ch ":") && (d =? ch ":") then
            match rest with
            | [] => true
            | _ => parseIPv6_loop 8 rest 0 true
            end
          else parseIPv6_loop 8 addr 0 false
      | _ => parseIPv6_loop 8 addr 0 false
      end
  end.

(** [addr, err := netip.ParseAddr(s); err == nil && addr.Is6()]: the first
    '.', ':' or '%' selects the grammar; dotted text is IPv4 and never [Is6]. *)
Fixpoint parseAddr_scan (s whole : list Z) : bool :=
  match s with
  | [] => false
  | b :: s' =>
      if b =? ch "." then false
      else if b =? ch ":" then parseIPv6 whole
      else if b =? ch "%" then false
      else parseAddr_scan s' whole
  end.

Definition ParseAddr_Is6 (s : list Z) : bool := parseAddr_scan s s.

(** Sanity of the model on the address forms of RFC 4291. *)
Example ParseAddr_Is6_samples :
  map ParseAddr_Is6
    [str "::"; str "::1"; str "2001:db8::1"; str "fe80::1%eth0"; str "::ffff:1.2.3.4";
     str "1:2:3:4:5:6:7:8"; str "1:2:3:4:5:6:1.2.3.4"; str "1::"]
  = repeat true 8 /\
  map ParseAddr_Is6
    [str ""; str "1.2.3.4"; str "1:2:3:4:5:6:7"; str "1:2:3:4:5:6:7:8:9"; str "1::2::3";
     str "12345::"; str "::1%"; str ":1"; str "1:"; str "::1.2.3.04"; str "::1.2.3";
     str "1:2:3:4:5:6:7::8"; str "v1.x"; str "1:2:3:4:5:6:7:1.2.3.4"]
  = repeat false 14.
Proof. split; vm_compute; reflexivity. Qed.
