(* ===== verification/Http1Types.v ===== *)
(** * HTTP/1 parser: data model

    The types of [src/http/parser.go]: message kinds, result codes, limits,
    callbacks, the parser's enumerations and the [Parser] struct, field for
    field, with its machine widths.

    A callback is an optional function.  What it can do to the parser is only
    to call one of its methods while [parsing] is set, which every method
    answers with [fail(CodeReentrantCall)]; so a callback is modelled by the
    predicate telling whether it re-enters, as a function of all that was
    delivered before (the [Trace], newest event first) and of its argument. *)

From S2P Require Import Prelude.

(** [Kind] is a [uint8]; values other than the two constants are rejected by
    [Init]. *)
Inductive Kind := Request | Response | KindOther (n : Z).

Definition is_Request (k : Kind) : bool := match k with Request => true | _ => false end.
Definition is_Response (k : Kind) : bool := match k with Response => true | _ => false end.

(** ** Limits *)

Record Limits := mkLimits {
  MaxStartLineBytes : Z;
  MaxHeaderBytes : Z;
  MaxChunkLineBytes : Z;
  MaxChunks : Z;
  MaxChunkMetadataBytes : Z;
  MaxHeaderNameBytes : Z;
  MaxHeaders : Z;
  MaxBodyBytes : Z;
}.

Definition maxIPLiteralBytes : nat := 64.

Definition defaultMaxStartLineBytes : Z := Z.shiftl 8 10.
Definition defaultMaxHeaderBytes : Z := Z.shiftl 32 10.
Definition defaultMaxChunkLineBytes : Z := Z.shiftl 8 10.
Definition defaultMaxChunks : Z := Z.shiftl 1 16.
Definition defaultMaxChunkMetadataBytes : Z := Z.shiftl 1 20.
Definition defaultMaxHeaderNameBytes : Z := 256.
Definition defaultMaxHeaders : Z := 100.
Definition defaultMaxBodyBytes : Z := Z.shiftl 64 20.

Definition or_default (v default : Z) : Z := if v =? 0 then default else v.

Definition normalized (l : Limits) : Limits :=
  {| MaxStartLineBytes := or_default l.(MaxStartLineBytes) defaultMaxStartLineBytes;
     MaxHeaderBytes := or_default l.(MaxHeaderBytes) defaultMaxHeaderBytes;
     MaxChunkLineBytes := or_default l.(MaxChunkLineBytes) defaultMaxChunkLineBytes;
     MaxChunks := or_default l.(MaxChunks) defaultMaxChunks;
     MaxChunkMetadataBytes := or_default l.(MaxChunkMetadataBytes) defaultMaxChunkMetadataBytes;
     MaxHeaderNameBytes := or_default l.(MaxHeaderNameBytes) defaultMaxHeaderNameBytes;
     MaxHeaders := or_default l.(MaxHeaders) defaultMaxHeaders;
     MaxBodyBytes := or_default l.(MaxBodyBytes) defaultMaxBodyBytes |}.

(** ** Result codes *)

Inductive Code :=
  | CodeNone
  | CodeUpgrade
  | CodeReentrantCall
  | CodeInvalidKind
  | CodeInvalidStartLine
  | CodeInvalidMethod
  | CodeInvalidTarget
  | CodeInvalidVersion
  | CodeInvalidStatus
  | CodeInvalidHeaderName
  | CodeInvalidHeaderValue
  | CodeInvalidLineEnding
  | CodeStartLineTooLarge
  | CodeHeadersTooLarge
  | CodeHeaderNameTooLarge
  | CodeChunkLineTooLarge
  | CodeChunkMetadataTooLarge
  | CodeTooManyChunks
  | CodeTooManyHeaders
  | CodeInvalidContentLength
  | CodeContentLengthConflict
  | CodeInvalidTransferEncoding
  | CodeMissingHost
  | CodeDuplicateHost
  | CodeBodyTooLarge
  | CodeInvalidChunkSize
  | CodeInvalidChunkExtension
  | CodeUnexpectedEOF.

#[export] Instance Code_eq_dec : EqDecision Code.
Proof. solve_decision. Defined.

(** [code == CodeNone] *)
Definition is_none (c : Code) : bool := match c with CodeNone => true | _ => false end.

Lemma is_none_spec c : reflect (c = CodeNone) (is_none c).
Proof. destruct c; constructor; congruence. Qed.

(** ** Methods *)

Inductive Method :=
  | MethodOther
  | MethodGET
  | MethodHEAD
  | MethodPOST
  | MethodPUT
  | MethodDELETE
  | MethodCONNECT
  | MethodOPTIONS
  | MethodTRACE
  | MethodPATCH.

#[export] Instance Method_eq_dec : EqDecision Method.
Proof. solve_decision. Defined.

(** The value of the [iota] constant. *)
Definition methodIndex (m : Method) : Z :=
  match m with
  | MethodOther => 0 | MethodGET => 1 | MethodHEAD => 2 | MethodPOST => 3
  | MethodPUT => 4 | MethodDELETE => 5 | MethodCONNECT => 6 | MethodOPTIONS => 7
  | MethodTRACE => 8 | MethodPATCH => 9
  end.

(** [Method(i)] for [1 <= i < len(methodNames)], in increasing order. *)
Definition namedMethods : list Method :=
  [MethodGET; MethodHEAD; MethodPOST; MethodPUT; MethodDELETE; MethodCONNECT;
   MethodOPTIONS; MethodTRACE; MethodPATCH].

Definition methodNames (m : Method) : list Z :=
  match m with
  | MethodOther => []
  | MethodGET => str "GET"
  | MethodHEAD => str "HEAD"
  | MethodPOST => str "POST"
  | MethodPUT => str "PUT"
  | MethodDELETE => str "DELETE"
  | MethodCONNECT => str "CONNECT"
  | MethodOPTIONS => str "OPTIONS"
  | MethodTRACE => str "TRACE"
  | MethodPATCH => str "PATCH"
  end.

Definition is_CONNECT (m : Method) : bool :=
  match m with MethodCONNECT => true | _ => false end.

(** ** Messages, events and callbacks *)

Record Message := mkMessage {
  msgKind : Kind;
  msgMethod : Method;
  msgStatus : Z;
  msgMajor : Z;
  msgMinor : Z;
  msgContentLength : Z;
  msgHasContentLength : bool;
  msgKeepAlive : bool;
  msgMessageNumber : Z;
  msgExchangeNumber : Z;
  msgUpgradeRequested : bool;
  msgConnectRequested : bool;
}.

(** The callbacks that receive a borrowed span of the input. *)
Inductive SpanKind := SpanMethod | SpanTarget | SpanReason | SpanHeaderName | SpanHeaderValue | SpanBody.

#[export] Instance SpanKind_eq_dec : EqDecision SpanKind.
Proof. solve_decision. Defined.

(** One callback invocation with its argument. *)
Inductive Event :=
  | EvResponseContext (exchangeNumber : Z)
  | EvMessageBegin
  | EvSpan (k : SpanKind) (bytes : list Z)
  | EvStartLine (m : Message)
  | EvHeaderEnd (trailer : bool)
  | EvHeadersComplete (m : Message)
  | EvChunkHeader (size : Z)
  | EvChunkComplete
  | EvMessageComplete (m : Message).

Definition Trace := list Event.

(** [true] means the callback calls back into the parser. *)
Definition Callback (A : Type) := option (Trace -> A -> bool).

Record Callbacks := mkCallbacks {
  cbResponseContext : option (Trace -> Z -> (bool * bool) * bool);
  cbMessageBegin : Callback unit;
  cbMethod : Callback (list Z);
  cbTarget : Callback (list Z);
  cbReason : Callback (list Z);
  cbStartLine : Callback Message;
  cbHeaderName : Callback (list Z);
  cbHeaderValue : Callback (list Z);
  cbHeaderEnd : Callback bool;
  cbHeadersComplete : Callback Message;
  cbChunkHeader : Callback Z;
  cbBody : Callback (list Z);
  cbChunkComplete : Callback unit;
  cbMessageComplete : Callback Message;
}.

(** ** Parser states *)

Inductive targetForm_t :=
  | targetUnknown | targetOrigin | targetAsterisk | targetScheme | targetAbsolute | targetAuthority.

Inductive parserState :=
  | stateStart
  | stateLeadingLF
  | stateReqMethod
  | stateReqTarget
  | stateReqHTTP
  | stateVersionMajor
  | stateVersionDot
  | stateVersionMinor
  | stateReqLineCR
  | stateReqLineLF
  | stateResHTTP
  | stateResSpaceBeforeStatus
  | stateResStatus
  | stateResReasonStart
  | stateResReason
  | stateResLineLF
  | stateHeaderStart
  | stateHeaderName
  | stateHeaderValueStart
  | stateHeaderValue
  | stateHeaderValueLF
  | stateHeadersLF
  | stateFixedBody
  | stateCloseBody
  | stateChunkSizeStart
  | stateChunkSize
  | stateChunkExt
  | stateChunkSizeLF
  | stateChunkBody
  | stateChunkBodyCR
  | stateChunkBodyLF
  | stateUpgrade
  | stateDead.

#[export] Instance parserState_eq_dec : EqDecision parserState.
Proof. solve_decision. Defined.

Definition is_stateUpgrade (s : parserState) : bool :=
  match s with stateUpgrade => true | _ => false end.

Inductive fieldKind :=
  | fieldOther
  | fieldContentLength
  | fieldTransferEncoding
  | fieldConnection
  | fieldUpgrade
  | fieldHost
  | fieldTrailer.

#[export] Instance fieldKind_eq_dec : EqDecision fieldKind.
Proof. solve_decision. Defined.

Definition fieldIndex (f : fieldKind) : Z :=
  match f with
  | fieldOther => 0 | fieldContentLength => 1 | fieldTransferEncoding => 2 | fieldConnection => 3
  | fieldUpgrade => 4 | fieldHost => 5 | fieldTrailer => 6
  end.

Definition namedFields : list fieldKind :=
  [fieldContentLength; fieldTransferEncoding; fieldConnection; fieldUpgrade; fieldHost; fieldTrailer].

Definition fieldNames (f : fieldKind) : list Z :=
  match f with
  | fieldOther => []
  | fieldContentLength => str "content-length"
  | fieldTransferEncoding => str "transfer-encoding"
  | fieldConnection => str "connection"
  | fieldUpgrade => str "upgrade"
  | fieldHost => str "host"
  | fieldTrailer => str "trailer"
  end.

Inductive transferState_t :=
  | transferBeforeToken
  | transferToken
  | transferAfterToken
  | transferParamBeforeName
  | transferParamName
  | transferParamAfterName
  | transferParamBeforeValue
  | transferParamTokenValue
  | transferParamQuoted
  | transferParamQuotedEscape
  | transferParamAfterValue.

Inductive connectionState_t := connectionBeforeToken | connectionToken | connectionAfterToken.

Inductive hostState_t :=
  | hostStart
  | hostRegName
  | hostPercentFirst
  | hostPercentSecond
  | hostIPLiteral
  | hostAfterLiteral
  | hostPortStart
  | hostPort
  | hostTrailing.

Inductive upgradeState_t :=
  | upgradeBeforeProtocol
  | upgradeName
  | upgradeAfterName
  | upgradeVersionStart
  | upgradeVersion
  | upgradeAfterProtocol.

Inductive chunkExtState_t :=
  | chunkExtBeforeName
  | chunkExtName
  | chunkExtAfterName
  | chunkExtBeforeValue
  | chunkExtTokenValue
  | chunkExtQuotedValue
  | chunkExtQuotedEscape
  | chunkExtAfterValue.

(** ** The parser

    The struct [Parser]; a comment gives the Go type where [Z] stands for a
    fixed-width integer. *)

#[projections(primitive)]
Record Parser := mkParser {
  callbacks : option Callbacks;
  limits : Limits;
  kind : Kind;
  state : parserState;
  code : Code;
  major : Z; (* uint16 *)
  minor : Z; (* uint16 *)
  status : Z; (* uint16 *)
  method : Method;
  messageNum : Z; (* uint64 *)
  exchangeNum : Z; (* uint64 *)
  startBytes : Z; (* uint32 *)
  prefixBytes : Z; (* uint32 *)
  headerBytes : Z; (* uint32 *)
  chunkLineBytes : Z; (* uint32 *)
  chunkCount : Z; (* uint32 *)
  chunkMetadataBytes : Z; (* uint64 *)
  headerCount : Z; (* uint16 *)
  headerNameBytes : Z; (* uint16 *)
  bodyBytes : Z; (* uint64 *)
  remaining : Z; (* uint64 *)
  chunkSize : Z; (* uint64 *)
  literalPos : Z; (* uint8 *)
  statusDigits : Z; (* uint8 *)
  methodPos : Z; (* uint8 *)
  methodMask : Z; (* uint16 *)
  targetBytes : Z; (* uint32 *)
  targetPercent : Z; (* uint8 *)
  targetForm : targetForm_t;
  targetAuthorityBracket : bool;
  targetAuthorityClosed : bool;
  targetAuthorityColon : bool;
  targetAuthorityPort : bool;
  ipLiteral : list Z; (* [64]byte *)
  ipLiteralLen : Z; (* uint16 *)
  fieldPos : Z; (* uint16 *)
  fieldMask : Z; (* uint16 *)
  field : fieldKind;
  messageActive : bool;
  trailers : bool;
  hasContentLength : bool;
  hasTransferEncoding : bool;
  hasHost : bool;
  hostNonEmpty : bool;
  hostLiteralNonEmpty : bool;
  hostState : hostState_t;
  hasUpgrade : bool;
  upgradeState : upgradeState_t;
  upgradeSawProtocol : bool;
  connectionClose : bool;
  connectionUpgrade : bool;
  connectionKeepAlive : bool;
  responseToHEAD : bool;
  responseToCONNECT : bool;
  parsing : bool;
  pauseAfterMessage : bool;
  paused : bool;
  contentLengthDigits : bool;
  contentLengthTrailing : bool;
  transferState : transferState_t;
  transferTokenPos : Z; (* uint8 *)
  transferChunked : bool;
  transferCurrentChunked : bool;
  transferSawToken : bool;
  transferSawChunked : bool;
  connectionState : connectionState_t;
  connectionTokenPos : Z; (* uint8 *)
  connectionCloseMatch : bool;
  connectionUpgradeMatch : bool;
  connectionKeepAliveMatch : bool;
  chunkDigits : bool;
  chunkExtState : chunkExtState_t;
}.

#[export] Instance eta_Parser : Eta Parser := fun p =>
  {| callbacks := p.(callbacks);
     limits := p.(limits);
     kind := p.(kind);
     state := p.(state);
     code := p.(code);
     major := p.(major);
     minor := p.(minor);
     status := p.(status);
     method := p.(method);
     messageNum := p.(messageNum);
     exchangeNum := p.(exchangeNum);
     startBytes := p.(startBytes);
     prefixBytes := p.(prefixBytes);
     headerBytes := p.(headerBytes);
     chunkLineBytes := p.(chunkLineBytes);
     chunkCount := p.(chunkCount);
     chunkMetadataBytes := p.(chunkMetadataBytes);
     headerCount := p.(headerCount);
     headerNameBytes := p.(headerNameBytes);
     bodyBytes := p.(bodyBytes);
     remaining := p.(remaining);
     chunkSize := p.(chunkSize);
     literalPos := p.(literalPos);
     statusDigits := p.(statusDigits);
     methodPos := p.(methodPos);
     methodMask := p.(methodMask);
     targetBytes := p.(targetBytes);
     targetPercent := p.(targetPercent);
     targetForm := p.(targetForm);
     targetAuthorityBracket := p.(targetAuthorityBracket);
     targetAuthorityClosed := p.(targetAuthorityClosed);
     targetAuthorityColon := p.(targetAuthorityColon);
     targetAuthorityPort := p.(targetAuthorityPort);
     ipLiteral := p.(ipLiteral);
     ipLiteralLen := p.(ipLiteralLen);
     fieldPos := p.(fieldPos);
     fieldMask := p.(fieldMask);
     field := p.(field);
     messageActive := p.(messageActive);
     trailers := p.(trailers);
     hasContentLength := p.(hasContentLength);
     hasTransferEncoding := p.(hasTransferEncoding);
     hasHost := p.(hasHost);
     hostNonEmpty := p.(hostNonEmpty);
     hostLiteralNonEmpty := p.(hostLiteralNonEmpty);
     hostState := p.(hostState);
     hasUpgrade := p.(hasUpgrade);
     upgradeState := p.(upgradeState);
     upgradeSawProtocol := p.(upgradeSawProtocol);
     connectionClose := p.(connectionClose);
     connectionUpgrade := p.(connectionUpgrade);
     connectionKeepAlive := p.(connectionKeepAlive);
     responseToHEAD := p.(responseToHEAD);
     responseToCONNECT := p.(responseToCONNECT);
     parsing := p.(parsing);
     pauseAfterMessage := p.(pauseAfterMessage);
     paused := p.(paused);
     contentLengthDigits := p.(contentLengthDigits);
     contentLengthTrailing := p.(contentLengthTrailing);
     transferState := p.(transferState);
     transferTokenPos := p.(transferTokenPos);
     transferChunked := p.(transferChunked);
     transferCurrentChunked := p.(transferCurrentChunked);
     transferSawToken := p.(transferSawToken);
     transferSawChunked := p.(transferSawChunked);
     connectionState := p.(connectionState);
     connectionTokenPos := p.(connectionTokenPos);
     connectionCloseMatch := p.(connectionCloseMatch);
     connectionUpgradeMatch := p.(connectionUpgradeMatch);
     connectionKeepAliveMatch := p.(connectionKeepAliveMatch);
     chunkDigits := p.(chunkDigits);
     chunkExtState := p.(chunkExtState) |}.

#[export] Instance set_callbacks : Setter callbacks := ltac:(mk_setter callbacks).
#[export] Instance set_limits : Setter limits := ltac:(mk_setter limits).
#[export] Instance set_kind : Setter kind := ltac:(mk_setter kind).
#[export] Instance set_state : Setter state := ltac:(mk_setter state).
#[export] Instance set_code : Setter code := ltac:(mk_setter code).
#[export] Instance set_major : Setter major := ltac:(mk_setter major).
#[export] Instance set_minor : Setter minor := ltac:(mk_setter minor).
#[export] Instance set_status : Setter status := ltac:(mk_setter status).
#[export] Instance set_method : Setter method := ltac:(mk_setter method).
#[export] Instance set_messageNum : Setter messageNum := ltac:(mk_setter messageNum).
#[export] Instance set_exchangeNum : Setter exchangeNum := ltac:(mk_setter exchangeNum).
#[export] Instance set_startBytes : Setter startBytes := ltac:(mk_setter startBytes).
#[export] Instance set_prefixBytes : Setter prefixBytes := ltac:(mk_setter prefixBytes).
#[export] Instance set_headerBytes : Setter headerBytes := ltac:(mk_setter headerBytes).
#[export] Instance set_chunkLineBytes : Setter chunkLineBytes := ltac:(mk_setter chunkLineBytes).
#[export] Instance set_chunkCount : Setter chunkCount := ltac:(mk_setter chunkCount).
#[export] Instance set_chunkMetadataBytes : Setter chunkMetadataBytes := ltac:(mk_setter chunkMetadataBytes).
#[export] Instance set_headerCount : Setter headerCount := ltac:(mk_setter headerCount).
#[export] Instance set_headerNameBytes : Setter headerNameBytes := ltac:(mk_setter headerNameBytes).
#[export] Instance set_bodyBytes : Setter bodyBytes := ltac:(mk_setter bodyBytes).
#[export] Instance set_remaining : Setter remaining := ltac:(mk_setter remaining).
#[export] Instance set_chunkSize : Setter chunkSize := ltac:(mk_setter chunkSize).
#[export] Instance set_literalPos : Setter literalPos := ltac:(mk_setter literalPos).
#[export] Instance set_statusDigits : Setter statusDigits := ltac:(mk_setter statusDigits).
#[export] Instance set_methodPos : Setter methodPos := ltac:(mk_setter methodPos).
#[export] Instance set_methodMask : Setter methodMask := ltac:(mk_setter methodMask).
#[export] Instance set_targetBytes : Setter targetBytes := ltac:(mk_setter targetBytes).
#[export] Instance set_targetPercent : Setter targetPercent := ltac:(mk_setter targetPercent).
#[export] Instance set_targetForm : Setter targetForm := ltac:(mk_setter targetForm).
#[export] Instance set_targetAuthorityBracket : Setter targetAuthorityBracket := ltac:(mk_setter targetAuthorityBracket).
#[export] Instance set_targetAuthorityClosed : Setter targetAuthorityClosed := ltac:(mk_setter targetAuthorityClosed).
#[export] Instance set_targetAuthorityColon : Setter targetAuthorityColon := ltac:(mk_setter targetAuthorityColon).
#[export] Instance set_targetAuthorityPort : Setter targetAuthorityPort := ltac:(mk_setter targetAuthorityPort).
#[export] Instance set_ipLiteral : Setter ipLiteral := ltac:(mk_setter ipLiteral).
#[export] Instance set_ipLiteralLen : Setter ipLiteralLen := ltac:(mk_setter ipLiteralLen).
#[export] Instance set_fieldPos : Setter fieldPos := ltac:(mk_setter fieldPos).
#[export] Instance set_fieldMask : Setter fieldMask := ltac:(mk_setter fieldMask).
#[export] Instance set_field : Setter field := ltac:(mk_setter field).
#[export] Instance set_messageActive : Setter messageActive := ltac:(mk_setter messageActive).
#[export] Instance set_trailers : Setter trailers := ltac:(mk_setter trailers).
#[export] Instance set_hasContentLength : Setter hasContentLength := ltac:(mk_setter hasContentLength).
#[export] Instance set_hasTransferEncoding : Setter hasTransferEncoding := ltac:(mk_setter hasTransferEncoding).
#[export] Instance set_hasHost : Setter hasHost := ltac:(mk_setter hasHost).
#[export] Instance set_hostNonEmpty : Setter hostNonEmpty := ltac:(mk_setter hostNonEmpty).
#[export] Instance set_hostLiteralNonEmpty : Setter hostLiteralNonEmpty := ltac:(mk_setter hostLiteralNonEmpty).
#[export] Instance set_hostState : Setter hostState := ltac:(mk_setter hostState).
#[export] Instance set_hasUpgrade : Setter hasUpgrade := ltac:(mk_setter hasUpgrade).
#[export] Instance set_upgradeState : Setter upgradeState := ltac:(mk_setter upgradeState).
#[export] Instance set_upgradeSawProtocol : Setter upgradeSawProtocol := ltac:(mk_setter upgradeSawProtocol).
#[export] Instance set_connectionClose : Setter connectionClose := ltac:(mk_setter connectionClose).
#[export] Instance set_connectionUpgrade : Setter connectionUpgrade := ltac:(mk_setter connectionUpgrade).
#[export] Instance set_connectionKeepAlive : Setter connectionKeepAlive := ltac:(mk_setter connectionKeepAlive).
#[export] Instance set_responseToHEAD : Setter responseToHEAD := ltac:(mk_setter responseToHEAD).
#[export] Instance set_responseToCONNECT : Setter responseToCONNECT := ltac:(mk_setter responseToCONNECT).
#[export] Instance set_parsing : Setter parsing := ltac:(mk_setter parsing).
#[export] Instance set_pauseAfterMessage : Setter pauseAfterMessage := ltac:(mk_setter pauseAfterMessage).
#[export] Instance set_paused : Setter paused := ltac:(mk_setter paused).
#[export] Instance set_contentLengthDigits : Setter contentLengthDigits := ltac:(mk_setter contentLengthDigits).
#[export] Instance set_contentLengthTrailing : Setter contentLengthTrailing := ltac:(mk_setter contentLengthTrailing).
#[export] Instance set_transferState : Setter transferState := ltac:(mk_setter transferState).
#[export] Instance set_transferTokenPos : Setter transferTokenPos := ltac:(mk_setter transferTokenPos).
#[export] Instance set_transferChunked : Setter transferChunked := ltac:(mk_setter transferChunked).
#[export] Instance set_transferCurrentChunked : Setter transferCurrentChunked := ltac:(mk_setter transferCurrentChunked).
#[export] Instance set_transferSawToken : Setter transferSawToken := ltac:(mk_setter transferSawToken).
#[export] Instance set_transferSawChunked : Setter transferSawChunked := ltac:(mk_setter transferSawChunked).
#[export] Instance set_connectionState : Setter connectionState := ltac:(mk_setter connectionState).
#[export] Instance set_connectionTokenPos : Setter connectionTokenPos := ltac:(mk_setter connectionTokenPos).
#[export] Instance set_connectionCloseMatch : Setter connectionCloseMatch := ltac:(mk_setter connectionCloseMatch).
#[export] Instance set_connectionUpgradeMatch : Setter connectionUpgradeMatch := ltac:(mk_setter connectionUpgradeMatch).
#[export] Instance set_connectionKeepAliveMatch : Setter connectionKeepAliveMatch := ltac:(mk_setter connectionKeepAliveMatch).
#[export] Instance set_chunkDigits : Setter chunkDigits := ltac:(mk_setter chunkDigits).
#[export] Instance set_chunkExtState : Setter chunkExtState := ltac:(mk_setter chunkExtState).

(** [Parser{kind: k, callbacks: cb, limits: lim, state: stateStart}]: every other
    field has Go's zero value. *)
Definition zeroParser (k : Kind) (cb : option Callbacks) (lim : Limits) : Parser :=
  {| callbacks := cb;
     limits := lim;
     kind := k;
     state := stateStart;
     code := CodeNone;
     major := 0;
     minor := 0;
     status := 0;
     method := MethodOther;
     messageNum := 0;
     exchangeNum := 0;
     startBytes := 0;
     prefixBytes := 0;
     headerBytes := 0;
     chunkLineBytes := 0;
     chunkCount := 0;
     chunkMetadataBytes := 0;
     headerCount := 0;
     headerNameBytes := 0;
     bodyBytes := 0;
     remaining := 0;
     chunkSize := 0;
     literalPos := 0;
     statusDigits := 0;
     methodPos := 0;
     methodMask := 0;
     targetBytes := 0;
     targetPercent := 0;
     targetForm := targetUnknown;
     targetAuthorityBracket := false;
     targetAuthorityClosed := false;
     targetAuthorityColon := false;
     targetAuthorityPort := false;
     ipLiteral := replicate maxIPLiteralBytes 0;
     ipLiteralLen := 0;
     fieldPos := 0;
     fieldMask := 0;
     field := fieldOther;
     messageActive := false;
     trailers := false;
     hasContentLength := false;
     hasTransferEncoding := false;
     hasHost := false;
     hostNonEmpty := false;
     hostLiteralNonEmpty := false;
     hostState := hostStart;
     hasUpgrade := false;
     upgradeState := upgradeBeforeProtocol;
     upgradeSawProtocol := false;
     connectionClose := false;
     connectionUpgrade := false;
     connectionKeepAlive := false;
     responseToHEAD := false;
     responseToCONNECT := false;
     parsing := false;
     pauseAfterMessage := false;
     paused := false;
     contentLengthDigits := false;
     contentLengthTrailing := false;
     transferState := transferBeforeToken;
     transferTokenPos := 0;
     transferChunked := false;
     transferCurrentChunked := false;
     transferSawToken := false;
     transferSawChunked := false;
     connectionState := connectionBeforeToken;
     connectionTokenPos := 0;
     connectionCloseMatch := false;
     connectionUpgradeMatch := false;
     connectionKeepAliveMatch := false;
     chunkDigits := false;
     chunkExtState := chunkExtBeforeName |}.
