(* ===== verification/Http1Fields.v ===== *)
(** * HTTP/1 parser: byte classes, counters and field automata

    The leaf operations of [src/http/parser.go]: [fail], the limit counters,
    the method and field-name matchers, the automata that check field values,
    chunk extensions and request targets, and the byte classes they use.  An
    operation that returns a Go [bool] is a function to [Parser * bool]. *)

From S2P Require Import Prelude Netip Http1Types.

(** ** Byte classes *)

Definition isDigit (b : Z) : bool := between (ch "0") b (ch "9").
Definition isUpper (b : Z) : bool := between (ch "A") b (ch "Z").
Definition isLower (b : Z) : bool := between (ch "a") b (ch "z").

(** [b == ' ' || b == '\t'] *)
Definition isOWS (b : Z) : bool := (b =? ch " ") || (b =? 9).

Definition CR : Z := 13.
Definition LF : Z := 10.
Definition DQUOTE : Z := 34.

Definition isSchemeChar (b : Z) : bool :=
  isDigit b || isUpper b || isLower b || (b =? ch "+") || (b =? ch "-") || (b =? ch ".").

Definition validTargetByte (b : Z) : bool :=
  if isDigit b || isUpper b || isLower b then true
  else one_of b (str "!$%&'()*+,-./:;=?@[]_~").

Definition isQDText (b : Z) : bool :=
  (b =? 9) || (b =? ch " ") || (b =? ch "!") || between 35 b 91 || between 93 b 126 || (128 <=? b).

Definition isQuotedPairByte (b : Z) : bool :=
  (b =? 9) || (b =? ch " ") || between 33 b 126 || (128 <=? b).

Definition validReasonByte (b : Z) : bool := (b =? 9) || (32 <=? b) && negb (b =? 127).

Definition validFieldValueByte (b : Z) : bool := (b =? 9) || (32 <=? b) && negb (b =? 127).

Definition asciiLower (b : Z) : Z := if isUpper b then u8 (b + 32) else b.

Definition isTChar (b : Z) : bool :=
  if isDigit b || isUpper b || isLower b then true
  else one_of b (str "!#$%&'*+-.^_`|~").

Definition isRegNameChar (b : Z) : bool :=
  if isDigit b || isUpper b || isLower b then true
  else one_of b (str "!$&'()*+-.;=_~").

Definition isHexByte (b : Z) : bool :=
  isDigit b || between (ch "a") b (ch "f") || between (ch "A") b (ch "F").

(** [hexValue(b)]: the digit and whether [b] is one. *)
Definition hexValue (b : Z) : option Z :=
  if isDigit b then Some (b - ch "0")
  else if between (ch "a") b (ch "f") then Some (b - ch "a" + 10)
  else if between (ch "A") b (ch "F") then Some (b - ch "A" + 10)
  else None.

Definition validHTTPVersion (major minor : Z) : bool :=
  (major =? 1) && ((minor =? 0) || (minor =? 1)).

(** ** Failure and limit counters *)

Definition fail (p : Parser) (c : Code) : Parser :=
  if is_none p.(code) then p <| code := c |> <| state := stateDead |> else p.

(** [p.fail(c); return false] *)
Definition reject (p : Parser) (c : Code) : Parser * bool := (fail p c, false).

Definition takeStartByte (p : Parser) : Parser * bool :=
  if p.(startBytes) =? p.(limits).(MaxStartLineBytes) then reject p CodeStartLineTooLarge
  else (p <| startBytes := u32 (p.(startBytes) + 1) |>, true).

Definition takePrefixByte (p : Parser) : Parser * bool :=
  if p.(prefixBytes) =? p.(limits).(MaxStartLineBytes) then reject p CodeStartLineTooLarge
  else (p <| prefixBytes := u32 (p.(prefixBytes) + 1) |>, true).

Definition takeHeaderByte (p : Parser) : Parser * bool :=
  if p.(headerBytes) =? p.(limits).(MaxHeaderBytes) then reject p CodeHeadersTooLarge
  else (p <| headerBytes := u32 (p.(headerBytes) + 1) |>, true).

Definition takeChunkLineByte (p : Parser) : Parser * bool :=
  if p.(chunkLineBytes) =? p.(limits).(MaxChunkLineBytes) then reject p CodeChunkLineTooLarge
  else if p.(limits).(MaxChunkMetadataBytes) <=? p.(chunkMetadataBytes)
  then reject p CodeChunkMetadataTooLarge
  else (p <| chunkLineBytes := u32 (p.(chunkLineBytes) + 1) |>
          <| chunkMetadataBytes := u64 (p.(chunkMetadataBytes) + 1) |>, true).

Definition addBody (p : Parser) (n : Z) : Parser * bool :=
  if u64 (p.(limits).(MaxBodyBytes) - p.(bodyBytes)) <? n then reject p CodeBodyTooLarge
  else (p <| bodyBytes := u64 (p.(bodyBytes) + n) |>, true).

(** ** Method names *)

Definition methodBit (m : Method) : Z := Z.shiftl 1 (methodIndex m - 1).

(** [Method(bits.TrailingZeros16(mask) + 1)] for a mask with one bit set. *)
Definition methodOfBit (mask : Z) : Method :=
  match find (fun m => Z.testbit mask (methodIndex m - 1)) namedMethods with
  | Some m => m
  | None => MethodOther
  end.

(** [mask &^= bit] unless [b] is the byte of [name] at [pos]. *)
Definition mismatch (name : list Z) (pos b : Z) : bool :=
  (len name <=? pos) || negb (b =? str_at name pos).

Definition clearUnless (mask bit : Z) (name : list Z) (pos b : Z) : Z :=
  if mismatch name pos b then Z.ldiff mask bit else mask.

Definition firstMethodMask (b : Z) : Z :=
  if b =? ch "G" then methodBit MethodGET
  else if b =? ch "H" then methodBit MethodHEAD
  else if b =? ch "P" then
    Z.lor (Z.lor (methodBit MethodPOST) (methodBit MethodPUT)) (methodBit MethodPATCH)
  else if b =? ch "D" then methodBit MethodDELETE
  else if b =? ch "C" then methodBit MethodCONNECT
  else if b =? ch "O" then methodBit MethodOPTIONS
  else if b =? ch "T" then methodBit MethodTRACE
  else 0.

Definition nextMethodMask (mask pos b : Z) : Z :=
  if (Z.land mask (u16 (mask - 1)) =? 0) && negb (mask =? 0) then
    if mismatch (methodNames (methodOfBit mask)) pos b then 0 else mask
  else if negb (mask =? 0) then
    let drop (m : Method) (cur : Z) : Z :=
      if negb (Z.land mask (methodBit m) =? 0) && mismatch (methodNames m) pos b
      then Z.ldiff cur (methodBit m) else cur in
    drop MethodPATCH (drop MethodPUT (drop MethodPOST mask))
  else mask.

Definition matchMethod (p : Parser) (b : Z) : Parser :=
  let p :=
    if p.(methodPos) =? 0 then p <| methodMask := firstMethodMask b |>
    else p <| methodMask := nextMethodMask p.(methodMask) p.(methodPos) b |> in
  if negb (p.(methodPos) =? MaxUint8) then p <| methodPos := u8 (p.(methodPos) + 1) |> else p.

Definition finishMethod (p : Parser) : Parser :=
  p <| method :=
    match find (fun m => negb (Z.land p.(methodMask) (methodBit m) =? 0) &&
                         (p.(methodPos) =? len (methodNames m))) namedMethods with
    | Some m => m
    | None => MethodOther
    end |>.

(** ** Field names *)

Definition fieldBit (f : fieldKind) : Z := Z.shiftl 1 (fieldIndex f - 1).

Definition firstFieldMask (lower : Z) : Z :=
  if lower =? ch "c" then Z.lor (fieldBit fieldContentLength) (fieldBit fieldConnection)
  else if lower =? ch "t" then Z.lor (fieldBit fieldTransferEncoding) (fieldBit fieldTrailer)
  else if lower =? ch "u" then fieldBit fieldUpgrade
  else if lower =? ch "h" then fieldBit fieldHost
  else 0.

Definition nextFieldMask (mask pos lower : Z) : Z :=
  let single (f : fieldKind) : Z := if mismatch (fieldNames f) pos lower then 0 else mask in
  if mask =? fieldBit fieldContentLength then single fieldContentLength
  else if mask =? fieldBit fieldTransferEncoding then single fieldTransferEncoding
  else if mask =? fieldBit fieldConnection then single fieldConnection
  else if mask =? fieldBit fieldUpgrade then single fieldUpgrade
  else if mask =? fieldBit fieldHost then single fieldHost
  else if mask =? fieldBit fieldTrailer then single fieldTrailer
  else if mask =? Z.lor (fieldBit fieldContentLength) (fieldBit fieldConnection) then
    let mask := clearUnless mask (fieldBit fieldContentLength) (fieldNames fieldContentLength) pos lower in
    clearUnless mask (fieldBit fieldConnection) (fieldNames fieldConnection) pos lower
  else if mask =? Z.lor (fieldBit fieldTransferEncoding) (fieldBit fieldTrailer) then
    let mask := clearUnless mask (fieldBit fieldTransferEncoding) (fieldNames fieldTransferEncoding) pos lower in
    clearUnless mask (fieldBit fieldTrailer) (fieldNames fieldTrailer) pos lower
  else mask.

Definition matchField (p : Parser) (b : Z) : Parser :=
  let lower := asciiLower b in
  let p :=
    if p.(fieldPos) =? 0 then p <| fieldMask := firstFieldMask lower |>
    else p <| fieldMask := nextFieldMask p.(fieldMask) p.(fieldPos) lower |> in
  p <| fieldPos := u16 (p.(fieldPos) + 1) |>.

Definition beginHeader (p : Parser) : Parser :=
  if p.(limits).(MaxHeaders) <=? p.(headerCount) then fail p CodeTooManyHeaders
  else
    p <| headerCount := u16 (p.(headerCount) + 1) |>
      <| headerNameBytes := 0 |>
      <| fieldPos := 0 |>
      <| fieldMask := Z.shiftl 1 6 - 1 |>
      <| field := fieldOther |>.

(** The loop over [fieldNames] at the head of [finishFieldName]. *)
Definition lookupField (p : Parser) : fieldKind :=
  match find (fun f => negb (Z.land p.(fieldMask) (fieldBit f) =? 0) &&
                       (p.(fieldPos) =? len (fieldNames f))) namedFields with
  | Some f => f
  | None => fieldOther
  end.

(** The switch at the end of [finishFieldName]: start the value of a field. *)
Definition startFieldValue (p : Parser) : Parser :=
  match p.(field) with
  | fieldContentLength =>
      if p.(hasContentLength) then fail p CodeInvalidContentLength
      else if p.(hasTransferEncoding) then fail p CodeContentLengthConflict
      else p <| hasContentLength := true |> <| contentLengthDigits := false |>
             <| contentLengthTrailing := false |> <| remaining := 0 |>
  | fieldTransferEncoding =>
      if p.(hasTransferEncoding) then fail p CodeInvalidTransferEncoding
      else if p.(hasContentLength) then fail p CodeContentLengthConflict
      else p <| hasTransferEncoding := true |> <| transferState := transferBeforeToken |>
             <| transferSawToken := false |> <| transferSawChunked := false |>
             <| transferCurrentChunked := false |> <| transferChunked := false |>
  | fieldConnection => p <| connectionState := connectionBeforeToken |>
  | fieldHost =>
      if p.(hasHost) then fail p CodeDuplicateHost
      else p <| hasHost := true |> <| hostNonEmpty := false |>
             <| hostLiteralNonEmpty := false |> <| hostState := hostStart |>
  | fieldUpgrade => p <| upgradeState := upgradeBeforeProtocol |> <| upgradeSawProtocol := false |>
  | fieldOther | fieldTrailer => p
  end.

Definition is_fieldOther (f : fieldKind) : bool := match f with fieldOther => true | _ => false end.
Definition is_fieldHost (f : fieldKind) : bool := match f with fieldHost => true | _ => false end.
Definition is_fieldTrailer (f : fieldKind) : bool := match f with fieldTrailer => true | _ => false end.

Definition finishFieldName (p : Parser) : Parser :=
  let p := p <| field := lookupField p |> in
  let p :=
    if is_Response p.(kind) && negb p.(trailers) && is_fieldHost p.(field)
    then p <| field := fieldOther |> else p in
  if p.(trailers) && negb (is_fieldOther p.(field)) then fail p CodeInvalidHeaderName
  else startFieldValue p.

(** ** Transfer-Encoding *)

Definition finishTransferToken (p : Parser) : Parser :=
  let cur := p.(transferCurrentChunked) && (p.(transferTokenPos) =? 7) in
  let p := p <| transferSawToken := true |> <| transferCurrentChunked := cur |>
             <| transferChunked := cur |> in
  if cur then
    if p.(transferSawChunked) then fail p CodeInvalidTransferEncoding
    else p <| transferSawChunked := true |>
  else p.

(** A byte after a complete coding name: parameter, next coding or error. *)
Definition afterTransferToken (p : Parser) (b : Z) : Parser * bool :=
  if isOWS b then (p <| transferState := transferAfterToken |>, true)
  else if b =? ch ";" then
    if p.(transferChunked) then reject p CodeInvalidTransferEncoding
    else (p <| transferState := transferParamBeforeName |>, true)
  else if b =? ch "," then (p <| transferState := transferBeforeToken |>, true)
  else reject p CodeInvalidTransferEncoding.

Definition consumeTransferToken (p : Parser) (b : Z) : Parser * bool :=
  if isTChar b then
    let p :=
      if mismatch (str "chunked") p.(transferTokenPos) (asciiLower b)
      then p <| transferCurrentChunked := false |> else p in
    (if negb (p.(transferTokenPos) =? MaxUint8)
     then p <| transferTokenPos := u8 (p.(transferTokenPos) + 1) |> else p, true)
  else if p.(transferTokenPos) =? 0 then reject p CodeInvalidTransferEncoding
  else
    let p := finishTransferToken p in
    if negb (is_none p.(code)) then (p, false)
    else afterTransferToken p b.

Definition consumeTransferValue (p : Parser) (b : Z) : Parser * bool :=
  match p.(transferState) with
  | transferBeforeToken =>
      if isOWS b then (p, true)
      else if negb (isTChar b) || p.(transferSawChunked) && is_Request p.(kind)
      then reject p CodeInvalidTransferEncoding
      else consumeTransferToken
             (p <| transferState := transferToken |> <| transferTokenPos := 0 |>
                <| transferCurrentChunked := true |>) b
  | transferToken => consumeTransferToken p b
  | transferAfterToken =>
      if isOWS b then (p, true) else afterTransferToken p b
  | transferParamBeforeName =>
      if isOWS b then (p, true)
      else if negb (isTChar b) then reject p CodeInvalidTransferEncoding
      else (p <| transferState := transferParamName |>, true)
  | transferParamName =>
      if isTChar b then (p, true)
      else if isOWS b then (p <| transferState := transferParamAfterName |>, true)
      else if b =? ch "=" then (p <| transferState := transferParamBeforeValue |>, true)
      else reject p CodeInvalidTransferEncoding
  | transferParamAfterName =>
      if isOWS b then (p, true)
      else if b =? ch "=" then (p <| transferState := transferParamBeforeValue |>, true)
      else reject p CodeInvalidTransferEncoding
  | transferParamBeforeValue =>
      if isOWS b then (p, true)
      else if b =? DQUOTE then (p <| transferState := transferParamQuoted |>, true)
      else if isTChar b then (p <| transferState := transferParamTokenValue |>, true)
      else reject p CodeInvalidTransferEncoding
  | transferParamTokenValue =>
      if isTChar b then (p, true)
      else if isOWS b then (p <| transferState := transferParamAfterValue |>, true)
      else if b =? ch ";" then (p <| transferState := transferParamBeforeName |>, true)
      else if b =? ch "," then (p <| transferState := transferBeforeToken |>, true)
      else reject p CodeInvalidTransferEncoding
  | transferParamQuoted =>
      if b =? ch "\" then (p <| transferState := transferParamQuotedEscape |>, true)
      else if b =? DQUOTE then (p <| transferState := transferParamAfterValue |>, true)
      else if negb (isQDText b) then reject p CodeInvalidTransferEncoding
      else (p, true)
  | transferParamQuotedEscape =>
      if negb (isQuotedPairByte b) then reject p CodeInvalidTransferEncoding
      else (p <| transferState := transferParamQuoted |>, true)
  | transferParamAfterValue =>
      if isOWS b then (p, true)
      else if b =? ch ";" then (p <| transferState := transferParamBeforeName |>, true)
      else if b =? ch "," then (p <| transferState := transferBeforeToken |>, true)
      else reject p CodeInvalidTransferEncoding
  end.

Definition finishTransferValue (p : Parser) : Parser * bool :=
  let sawToken (p : Parser) : Parser * bool :=
    if negb p.(transferSawToken) then reject p CodeInvalidTransferEncoding else (p, true) in
  match p.(transferState) with
  | transferToken =>
      let p := finishTransferToken p in
      if negb (is_none p.(code)) then (p, false) else sawToken p
  | transferAfterToken | transferParamTokenValue | transferParamAfterValue => sawToken p
  | transferBeforeToken | transferParamBeforeName | transferParamName | transferParamAfterName
  | transferParamBeforeValue | transferParamQuoted | transferParamQuotedEscape =>
      reject p CodeInvalidTransferEncoding
  end.

(** ** Upgrade *)

Definition consumeUpgradeValue (p : Parser) (b : Z) : Parser * bool :=
  let to (s : upgradeState_t) : Parser * bool := (p <| upgradeState := s |>, true) in
  match p.(upgradeState) with
  | upgradeBeforeProtocol =>
      if isOWS b then (p, true)
      else if isTChar b then
        (p <| upgradeState := upgradeName |> <| upgradeSawProtocol := true |>, true)
      else reject p CodeInvalidHeaderValue
  | upgradeName =>
      if isTChar b then (p, true)
      else if b =? ch "/" then to upgradeVersionStart
      else if isOWS b then to upgradeAfterName
      else if b =? ch "," then to upgradeBeforeProtocol
      else reject p CodeInvalidHeaderValue
  | upgradeAfterName =>
      if isOWS b then (p, true)
      else if b =? ch "," then to upgradeBeforeProtocol
      else reject p CodeInvalidHeaderValue
  | upgradeVersionStart =>
      if isTChar b then to upgradeVersion else reject p CodeInvalidHeaderValue
  | upgradeVersion =>
      if isTChar b then (p, true)
      else if isOWS b then to upgradeAfterProtocol
      else if b =? ch "," then to upgradeBeforeProtocol
      else reject p CodeInvalidHeaderValue
  | upgradeAfterProtocol =>
      if isOWS b then (p, true)
      else if b =? ch "," then to upgradeBeforeProtocol
      else reject p CodeInvalidHeaderValue
  end.

Definition finishUpgradeValue (p : Parser) : Parser * bool :=
  if negb p.(upgradeSawProtocol) then reject p CodeInvalidHeaderValue
  else
    match p.(upgradeState) with
    | upgradeName | upgradeVersion | upgradeAfterName | upgradeAfterProtocol =>
        (p <| hasUpgrade := true |>, true)
    | _ => reject p CodeInvalidHeaderValue
    end.

(** ** Host and bracketed literals *)

Definition appendIPLiteral (p : Parser) (b : Z) : Parser * bool :=
  if p.(ipLiteralLen) =? Z.of_nat maxIPLiteralBytes then (p, false)
  else (p <| ipLiteral := <[Z.to_nat p.(ipLiteralLen) := b]> p.(ipLiteral) |>
          <| ipLiteralLen := u16 (p.(ipLiteralLen) + 1) |>, true).

(** The percent-decoding loop of [validIPLiteral]; [acc] holds the decoded
    bytes in reverse. *)
Fixpoint decodeIPLiteral (raw acc : list Z) : option (list Z) :=
  let push (b : Z) : option (list Z) :=
    if (b =? 0) || (length acc =? maxIPLiteralBytes)%nat then None else Some (b :: acc) in
  match raw with
  | [] => Some (rev acc)
  | b :: raw =>
      if b =? ch "%" then
        match raw with
        | h :: l :: raw' =>
            match hexValue h, hexValue l with
            | Some high, Some low =>
                match push (u8 (Z.lor (Z.shiftl high 4) low)) with
                | Some acc => decodeIPLiteral raw' acc
                | None => None
                end
            | _, _ => None
            end
        | _ => None
        end
      else
        match push b with
        | Some acc => decodeIPLiteral raw acc
        | None => None
        end
  end.

Definition validIPLiteral (raw : list Z) : bool :=
  if (length raw =? 0)%nat || (maxIPLiteralBytes <? length raw)%nat then false
  else
    match decodeIPLiteral raw [] with
    | Some decoded => ParseAddr_Is6 decoded
    | None => false
    end.

(** [p.ipLiteral[:p.ipLiteralLen]] *)
Definition currentIPLiteral (p : Parser) : list Z := take (Z.to_nat p.(ipLiteralLen)) p.(ipLiteral).

Definition consumeHostValue (p : Parser) (b : Z) : Parser * bool :=
  let to (s : hostState_t) : Parser * bool := (p <| hostState := s |>, true) in
  match p.(hostState) with
  | hostStart =>
      if b =? ch "[" then
        (p <| hostNonEmpty := true |> <| hostLiteralNonEmpty := false |>
           <| ipLiteralLen := 0 |> <| hostState := hostIPLiteral |>, true)
      else if isRegNameChar b then (p <| hostNonEmpty := true |> <| hostState := hostRegName |>, true)
      else if b =? ch "%" then (p <| hostNonEmpty := true |> <| hostState := hostPercentFirst |>, true)
      else reject p CodeInvalidHeaderValue
  | hostRegName =>
      if isRegNameChar b then (p, true)
      else if b =? ch "%" then to hostPercentFirst
      else if b =? ch ":" then to hostPortStart
      else if isOWS b then to hostTrailing
      else reject p CodeInvalidHeaderValue
  | hostPercentFirst =>
      if isHexByte b then to hostPercentSecond else reject p CodeInvalidHeaderValue
  | hostPercentSecond =>
      if isHexByte b then to hostRegName else reject p CodeInvalidHeaderValue
  | hostIPLiteral =>
      if b =? ch "]" then
        if negb p.(hostLiteralNonEmpty) || negb (validIPLiteral (currentIPLiteral p))
        then reject p CodeInvalidHeaderValue
        else to hostAfterLiteral
      else
        let (p, ok) := appendIPLiteral p b in
        if ok then (p <| hostLiteralNonEmpty := true |>, true)
        else reject p CodeInvalidHeaderValue
  | hostAfterLiteral =>
      if b =? ch ":" then to hostPortStart
      else if isOWS b then to hostTrailing
      else reject p CodeInvalidHeaderValue
  | hostPortStart =>
      if isDigit b then to hostPort
      else if isOWS b then to hostTrailing
      else reject p CodeInvalidHeaderValue
  | hostPort =>
      if isDigit b then (p, true)
      else if isOWS b then to hostTrailing
      else reject p CodeInvalidHeaderValue
  | hostTrailing =>
      if isOWS b then (p, true) else reject p CodeInvalidHeaderValue
  end.

Definition finishHostValue (p : Parser) : Parser * bool :=
  if negb p.(hostNonEmpty) then reject p CodeMissingHost
  else
    match p.(hostState) with
    | hostRegName | hostAfterLiteral | hostPortStart | hostPort | hostTrailing => (p, true)
    | _ => reject p CodeInvalidHeaderValue
    end.

(** ** Connection *)

Definition finishConnectionToken (p : Parser) : Parser :=
  let length := p.(connectionTokenPos) in
  p <| connectionClose := p.(connectionClose) || p.(connectionCloseMatch) && (length =? 5) |>
    <| connectionUpgrade := p.(connectionUpgrade) || p.(connectionUpgradeMatch) && (length =? 7) |>
    <| connectionKeepAlive := p.(connectionKeepAlive) || p.(connectionKeepAliveMatch) && (length =? 10) |>.

Definition consumeConnectionToken (p : Parser) (b : Z) : Parser * bool :=
  if isTChar b then
    let pos := p.(connectionTokenPos) in
    let lower := asciiLower b in
    let p := if mismatch (str "close") pos lower then p <| connectionCloseMatch := false |> else p in
    let p := if mismatch (str "upgrade") pos lower then p <| connectionUpgradeMatch := false |> else p in
    let p := if mismatch (str "keep-alive") pos lower then p <| connectionKeepAliveMatch := false |> else p in
    (if negb (p.(connectionTokenPos) =? MaxUint8)
     then p <| connectionTokenPos := u8 (p.(connectionTokenPos) + 1) |> else p, true)
  else
    let p := finishConnectionToken p in
    if isOWS b then (p <| connectionState := connectionAfterToken |>, true)
    else if b =? ch "," then (p <| connectionState := connectionBeforeToken |>, true)
    else reject p CodeInvalidHeaderValue.

Definition consumeConnectionValue (p : Parser) (b : Z) : Parser * bool :=
  match p.(connectionState) with
  | connectionBeforeToken =>
      if isOWS b then (p, true)
      else if negb (isTChar b) then reject p CodeInvalidHeaderValue
      else consumeConnectionToken
             (p <| connectionState := connectionToken |> <| connectionTokenPos := 0 |>
                <| connectionCloseMatch := true |> <| connectionUpgradeMatch := true |>
                <| connectionKeepAliveMatch := true |>) b
  | connectionToken => consumeConnectionToken p b
  | connectionAfterToken =>
      if isOWS b then (p, true)
      else if b =? ch "," then (p <| connectionState := connectionBeforeToken |>, true)
      else reject p CodeInvalidHeaderValue
  end.

Definition finishConnectionValue (p : Parser) : Parser * bool :=
  match p.(connectionState) with
  | connectionToken => (finishConnectionToken p, true)
  | connectionAfterToken => (p, true)
  | connectionBeforeToken => reject p CodeInvalidHeaderValue
  end.

(** ** Field values *)

Definition consumeContentLength (p : Parser) (b : Z) : Parser * bool :=
  if isOWS b then
    (if p.(contentLengthDigits) then p <| contentLengthTrailing := true |> else p, true)
  else if negb (isDigit b) || p.(contentLengthTrailing) then reject p CodeInvalidContentLength
  else
    let p := p <| contentLengthDigits := true |> in
    let digit := b - ch "0" in
    if (MaxUint64 - digit) / 10 <? p.(remaining) then reject p CodeInvalidContentLength
    else (p <| remaining := u64 (p.(remaining) * 10 + digit) |>, true).

Definition consumeFieldValue (p : Parser) (b : Z) : Parser * bool :=
  match p.(field) with
  | fieldContentLength => consumeContentLength p b
  | fieldTransferEncoding => consumeTransferValue p b
  | fieldConnection => consumeConnectionValue p b
  | fieldHost => consumeHostValue p b
  | fieldUpgrade => consumeUpgradeValue p b
  | fieldOther | fieldTrailer => (p, true)
  end.

Definition finishFieldValue (p : Parser) : Parser * bool :=
  match p.(field) with
  | fieldContentLength =>
      if negb p.(contentLengthDigits) then
        let p := fail p CodeInvalidContentLength in (p, is_none p.(code))
      else (p, true)
  | fieldTransferEncoding => finishTransferValue p
  | fieldConnection => finishConnectionValue p
  | fieldHost => finishHostValue p
  | fieldUpgrade => finishUpgradeValue p
  | fieldOther | fieldTrailer => (p, true)
  end.

(** ** Chunk extensions *)

Definition consumeChunkExtension (p : Parser) (b : Z) : Parser * bool :=
  let to (s : chunkExtState_t) : Parser * bool := (p <| chunkExtState := s |>, true) in
  match p.(chunkExtState) with
  | chunkExtBeforeName =>
      if isOWS b then (p, true)
      else if negb (isTChar b) then reject p CodeInvalidChunkExtension
      else to chunkExtName
  | chunkExtName =>
      if isTChar b then (p, true)
      else if isOWS b then to chunkExtAfterName
      else if b =? ch "=" then to chunkExtBeforeValue
      else if b =? ch ";" then to chunkExtBeforeName
      else reject p CodeInvalidChunkExtension
  | chunkExtAfterName =>
      if isOWS b then (p, true)
      else if b =? ch "=" then to chunkExtBeforeValue
      else if b =? ch ";" then to chunkExtBeforeName
      else reject p CodeInvalidChunkExtension
  | chunkExtBeforeValue =>
      if isOWS b then (p, true)
      else if b =? DQUOTE then to chunkExtQuotedValue
      else if isTChar b then to chunkExtTokenValue
      else reject p CodeInvalidChunkExtension
  | chunkExtTokenValue =>
      if isTChar b then (p, true)
      else if isOWS b then to chunkExtAfterValue
      else if b =? ch ";" then to chunkExtBeforeName
      else reject p CodeInvalidChunkExtension
  | chunkExtQuotedValue =>
      if b =? ch "\" then to chunkExtQuotedEscape
      else if b =? DQUOTE then to chunkExtAfterValue
      else if negb (isQDText b) then reject p CodeInvalidChunkExtension
      else (p, true)
  | chunkExtQuotedEscape =>
      if negb (isQuotedPairByte b) then reject p CodeInvalidChunkExtension
      else to chunkExtQuotedValue
  | chunkExtAfterValue =>
      if isOWS b then (p, true)
      else if b =? ch ";" then to chunkExtBeforeName
      else reject p CodeInvalidChunkExtension
  end.

Definition finishChunkExtension (p : Parser) : Parser * bool :=
  match p.(chunkExtState) with
  | chunkExtName | chunkExtAfterName | chunkExtTokenValue | chunkExtAfterValue => (p, true)
  | _ => reject p CodeInvalidChunkExtension
  end.

(** ** Request targets *)

(** The switch on the first byte of a target. *)
Definition startTargetForm (p : Parser) (b : Z) : Parser * bool :=
  if b =? ch "/" then (p <| targetForm := targetOrigin |>, true)
  else if b =? ch "*" then (p <| targetForm := targetAsterisk |>, true)
  else if is_CONNECT p.(method) then
    let p := p <| targetForm := targetAuthority |> in
    if b =? ch "[" then (p <| targetAuthorityBracket := true |> <| ipLiteralLen := 0 |>, true)
    else if one_of b (str ":/?@]") then reject p CodeInvalidTarget
    else (p, true)
  else if isUpper b || isLower b then (p <| targetForm := targetScheme |>, true)
  else reject p CodeInvalidTarget.

Definition consumeTargetAuthority (p : Parser) (b : Z) : Parser * bool :=
  if p.(targetAuthorityBracket) then
    if b =? ch "]" then
      if negb (validIPLiteral (currentIPLiteral p)) then reject p CodeInvalidTarget
      else (p <| targetAuthorityBracket := false |> <| targetAuthorityClosed := true |>, true)
    else
      let (p, ok) := appendIPLiteral p b in
      if negb ok then reject p CodeInvalidTarget else (p, true)
  else if negb p.(targetAuthorityColon) then
    if p.(targetAuthorityClosed) && negb (b =? ch ":") then reject p CodeInvalidTarget
    else if b =? ch ":" then (p <| targetAuthorityColon := true |>, true)
    else if one_of b (str "/?@[]") then reject p CodeInvalidTarget
    else (p, true)
  else if negb (isDigit b) then reject p CodeInvalidTarget
  else (p <| targetAuthorityPort := true |>, true).

Definition consumeTargetForm (p : Parser) (b : Z) : Parser * bool :=
  if p.(targetBytes) =? 0 then startTargetForm p b
  else
    match p.(targetForm) with
    | targetAsterisk => reject p CodeInvalidTarget
    | targetScheme =>
        if b =? ch ":" then (p <| targetForm := targetAbsolute |>, true)
        else if negb (isSchemeChar b) then reject p CodeInvalidTarget
        else (p, true)
    | targetAuthority => consumeTargetAuthority p b
    | targetUnknown | targetOrigin | targetAbsolute => (p, true)
    end.

Definition is_targetScheme (f : targetForm_t) : bool := match f with targetScheme => true | _ => false end.
Definition is_targetAuthority (f : targetForm_t) : bool := match f with targetAuthority => true | _ => false end.

Definition finishTarget (p : Parser) : Parser * bool :=
  if (p.(targetBytes) =? 0) || negb (p.(targetPercent) =? 0) || is_targetScheme p.(targetForm)
  then reject p CodeInvalidTarget
  else if is_targetAuthority p.(targetForm) &&
          (p.(targetAuthorityBracket) || negb p.(targetAuthorityColon) || negb p.(targetAuthorityPort))
  then reject p CodeInvalidTarget
  else (p, true).

(** Operations are unfolded explicitly, never by simplification. *)
#[global] Arguments isDigit : simpl never.
#[global] Arguments isUpper : simpl never.
#[global] Arguments isLower : simpl never.
#[global] Arguments isOWS : simpl never.
#[global] Arguments isTChar : simpl never.
#[global] Arguments isRegNameChar : simpl never.
#[global] Arguments isHexByte : simpl never.
#[global] Arguments isSchemeChar : simpl never.
#[global] Arguments isQDText : simpl never.
#[global] Arguments isQuotedPairByte : simpl never.
#[global] Arguments validTargetByte : simpl never.
#[global] Arguments validReasonByte : simpl never.
#[global] Arguments validFieldValueByte : simpl never.
#[global] Arguments validHTTPVersion : simpl never.
#[global] Arguments asciiLower : simpl never.
#[global] Arguments hexValue : simpl never.
#[global] Arguments mismatch : simpl never.
#[global] Arguments validIPLiteral : simpl never.
#[global] Arguments currentIPLiteral : simpl never.
#[global] Arguments firstMethodMask : simpl never.
#[global] Arguments nextMethodMask : simpl never.
#[global] Arguments firstFieldMask : simpl never.
#[global] Arguments nextFieldMask : simpl never.
#[global] Arguments lookupField : simpl never.
#[global] Arguments fail : simpl never.
#[global] Arguments takeStartByte : simpl never.
#[global] Arguments takePrefixByte : simpl never.
#[global] Arguments takeHeaderByte : simpl never.
#[global] Arguments takeChunkLineByte : simpl never.
#[global] Arguments addBody : simpl never.
#[global] Arguments matchMethod : simpl never.
#[global] Arguments finishMethod : simpl never.
#[global] Arguments matchField : simpl never.
#[global] Arguments beginHeader : simpl never.
#[global] Arguments startFieldValue : simpl never.
#[global] Arguments finishFieldName : simpl never.
#[global] Arguments finishTransferToken : simpl never.
#[global] Arguments afterTransferToken : simpl never.
#[global] Arguments consumeTransferToken : simpl never.
#[global] Arguments consumeTransferValue : simpl never.
#[global] Arguments finishTransferValue : simpl never.
#[global] Arguments consumeUpgradeValue : simpl never.
#[global] Arguments finishUpgradeValue : simpl never.
#[global] Arguments appendIPLiteral : simpl never.
#[global] Arguments consumeHostValue : simpl never.
#[global] Arguments finishHostValue : simpl never.
#[global] Arguments finishConnectionToken : simpl never.
#[global] Arguments consumeConnectionToken : simpl never.
#[global] Arguments consumeConnectionValue : simpl never.
#[global] Arguments finishConnectionValue : simpl never.
#[global] Arguments consumeContentLength : simpl never.
#[global] Arguments consumeFieldValue : simpl never.
#[global] Arguments finishFieldValue : simpl never.
#[global] Arguments consumeChunkExtension : simpl never.
#[global] Arguments finishChunkExtension : simpl never.
#[global] Arguments startTargetForm : simpl never.
#[global] Arguments consumeTargetAuthority : simpl never.
#[global] Arguments consumeTargetForm : simpl never.
#[global] Arguments finishTarget : simpl never.
#[global] Arguments reject : simpl never.
#[global] Arguments one_of : simpl never.
#[global] Arguments between : simpl never.
