(* ===== verification/Http1Parser.v ===== *)
(** * HTTP/1 parser: messages, the parse loop and the public methods

    [parse] of [src/http/parser.go], one definition per [case] of its switch,
    each on the unread suffix of the input: the cursor [n] of the code is the
    length of what was consumed.  The inner [for] loops are fixpoints on that
    suffix; the outer loop runs on fuel, which [Http1Wf] shows to be
    enough. *)

From S2P Require Import Prelude Http1Types Http1Fields.

(** ** Message metadata *)

Definition statusInformational (s : Z) : bool := (100 <=? s) && (s <? 200).
Definition statusSuccess (s : Z) : bool := (200 <=? s) && (s <? 300).

(** [noBody] of [KeepAlive], [noResponseBody] of [headersComplete]. *)
Definition responseHasNoBody (p : Parser) : bool :=
  p.(responseToHEAD) || statusInformational p.(status) || (p.(status) =? 204) || (p.(status) =? 304) ||
  p.(responseToCONNECT) && statusSuccess p.(status).

Definition KeepAlive (p : Parser) : bool :=
  if p.(connectionClose) || p.(connectionUpgrade) && p.(hasUpgrade)
     || is_Request p.(kind) && is_CONNECT p.(method)
  then false
  else if is_Response p.(kind) && negb (responseHasNoBody p) &&
          ((negb p.(hasContentLength) && negb p.(hasTransferEncoding))
           || p.(hasTransferEncoding) && negb p.(transferChunked))
  then false
  else if (1 <? p.(major)) || ((p.(major) =? 1) && (1 <=? p.(minor))) then true
  else p.(connectionKeepAlive).

Definition message (p : Parser) : Message :=
  {| msgKind := p.(kind);
     msgMethod := p.(method);
     msgStatus := p.(status);
     msgMajor := p.(major);
     msgMinor := p.(minor);
     msgContentLength := if p.(hasContentLength) then u64 (p.(remaining) + p.(bodyBytes)) else 0;
     msgHasContentLength := p.(hasContentLength);
     msgKeepAlive := KeepAlive p;
     msgMessageNumber := p.(messageNum);
     msgExchangeNumber := p.(exchangeNum);
     msgUpgradeRequested := is_Request p.(kind) && p.(connectionUpgrade) && p.(hasUpgrade);
     msgConnectRequested := is_Request p.(kind) && is_CONNECT p.(method) |}.

(** ** Callbacks *)

(** [p.callbacks != nil && p.callbacks.F != nil] *)
Definition getCallback {A} (F : Callbacks -> option A) (p : Parser) : option A :=
  match p.(callbacks) with Some c => F c | None => None end.

(** Invoke a callback if it is set: record the event, and fail the parser when
    the callback re-enters it. *)
Definition invoke {A} (F : Callbacks -> Callback A) (mk : A -> Event) (a : A)
    (p : Parser) (tr : Trace) : Parser * Trace :=
  match getCallback F p with
  | None => (p, tr)
  | Some f => (if f tr a then fail p CodeReentrantCall else p, mk a :: tr)
  end.

(** [if n > start && ... { p.callbacks.F(src[start:n:n]) }] *)
Definition invokeSpan (F : Callbacks -> Callback (list Z)) (k : SpanKind) (bytes : list Z)
    (p : Parser) (tr : Trace) : Parser * Trace :=
  match bytes with
  | [] => (p, tr)
  | _ => invoke F (EvSpan k) bytes p tr
  end.

(** ** Message boundaries *)

Definition resetMessage (p : Parser) : Parser :=
  p <| major := 0 |> <| minor := 0 |> <| status := 0 |> <| method := MethodOther |>
    <| startBytes := 0 |> <| prefixBytes := 0 |> <| headerBytes := 0 |> <| chunkLineBytes := 0 |>
    <| chunkCount := 0 |> <| chunkMetadataBytes := 0 |> <| headerCount := 0 |> <| bodyBytes := 0 |>
    <| remaining := 0 |> <| chunkSize := 0 |> <| literalPos := 0 |> <| statusDigits := 0 |>
    <| methodPos := 0 |> <| methodMask := Z.shiftl 1 9 - 1 |> <| targetBytes := 0 |>
    <| targetPercent := 0 |> <| targetForm := targetUnknown |> <| targetAuthorityBracket := false |>
    <| targetAuthorityClosed := false |> <| targetAuthorityColon := false |>
    <| targetAuthorityPort := false |> <| ipLiteralLen := 0 |> <| hasContentLength := false |>
    <| hasTransferEncoding := false |> <| hasHost := false |> <| hostNonEmpty := false |>
    <| hostLiteralNonEmpty := false |> <| hostState := hostStart |> <| hasUpgrade := false |>
    <| upgradeState := upgradeBeforeProtocol |> <| upgradeSawProtocol := false |>
    <| connectionClose := false |> <| connectionUpgrade := false |> <| connectionKeepAlive := false |>
    <| trailers := false |> <| messageActive := true |>.

(** The [ResponseContext] query at the head of [beginMessage]. *)
Definition queryResponseContext (p : Parser) (tr : Trace) : Parser * Trace :=
  if is_Response p.(kind) then
    match getCallback cbResponseContext p with
    | None => (p, tr)
    | Some f =>
        let '((head, connect), reenter) := f tr p.(exchangeNum) in
        let ev := EvResponseContext p.(exchangeNum) in
        let p := if reenter then fail p CodeReentrantCall else p in
        (p <| responseToHEAD := head |> <| responseToCONNECT := connect |>, ev :: tr)
    end
  else (p, tr).

Definition beginMessage (p : Parser) (tr : Trace) : Parser * Trace :=
  let (p, tr) := queryResponseContext p tr in
  if negb (is_none p.(code)) then (p, tr)
  else invoke cbMessageBegin (fun _ => EvMessageBegin) tt (resetMessage p) tr.

Definition startLineComplete (p : Parser) (tr : Trace) : Parser * Trace :=
  let (p, tr) := invoke cbStartLine EvStartLine (message p) p tr in
  if negb (is_none p.(code)) then (p, tr) else (p <| state := stateHeaderStart |>, tr).

Definition completeMessage (p : Parser) (tr : Trace) : Parser * Trace :=
  let (p, tr) := invoke cbMessageComplete EvMessageComplete (message p) p tr in
  if negb (is_none p.(code)) then (p, tr)
  else
    let p := p <| messageNum := u64 (p.(messageNum) + 1) |> in
    let p :=
      if is_Response p.(kind) && ((p.(status) =? 101) || (200 <=? p.(status)))
      then p <| exchangeNum := u64 (p.(exchangeNum) + 1) |> else p in
    (p <| messageActive := false |> <| trailers := false |> <| state := stateStart |>
       <| paused := p.(pauseAfterMessage) |>, tr).

(** The checks of [headersComplete] before its callback: the code to fail
    with, if any. *)
Definition headersError (p : Parser) : option Code :=
  if is_Request p.(kind) && (p.(major) =? 1) && (p.(minor) =? 1) && negb p.(hasHost)
  then Some CodeMissingHost
  else if p.(hasTransferEncoding) && (negb (p.(major) =? 1) || negb (p.(minor) =? 1))
  then Some CodeInvalidTransferEncoding
  else if is_Response p.(kind) && ((p.(status) =? 101) && (negb p.(connectionUpgrade) || negb p.(hasUpgrade)))
  then Some CodeInvalidHeaderValue
  else if is_Response p.(kind) &&
          ((statusInformational p.(status) || (p.(status) =? 204)
            || p.(responseToCONNECT) && statusSuccess p.(status)) &&
           (p.(hasContentLength) || p.(hasTransferEncoding)))
  then Some CodeContentLengthConflict
  else if p.(hasTransferEncoding) && (is_Request p.(kind) && negb p.(transferChunked))
  then Some CodeInvalidTransferEncoding
  else None.

(** [upgrade] of [headersComplete] *)
Definition switchesProtocol (p : Parser) : bool :=
  is_Response p.(kind) && (p.(status) =? 101) && p.(connectionUpgrade) && p.(hasUpgrade)
  || is_Response p.(kind) && p.(responseToCONNECT) && statusSuccess p.(status).

(** What follows the callback of [headersComplete]: select the body framing.
    [completeMessage] may fail through its callback. *)
Definition selectBody (p : Parser) (tr : Trace) : (Parser * Trace) * bool :=
  let complete (after : Parser -> Parser) : (Parser * Trace) * bool :=
    let (p, tr) := completeMessage p tr in
    if negb (is_none p.(code)) then ((p, tr), false) else ((after p, tr), true) in
  let upgrade := switchesProtocol p in
  if is_Response p.(kind) && responseHasNoBody p then
    complete (fun p => if upgrade then p <| state := stateUpgrade |> else p)
  else if p.(hasTransferEncoding) then
    if p.(transferChunked) then ((p <| state := stateChunkSizeStart |>, tr), true)
    else ((p <| state := stateCloseBody |>, tr), true)
  else if p.(hasContentLength) then
    if p.(limits).(MaxBodyBytes) <? p.(remaining) then ((fail p CodeBodyTooLarge, tr), false)
    else if p.(remaining) =? 0 then complete (fun p => p)
    else ((p <| state := stateFixedBody |>, tr), true)
  else if is_Request p.(kind) then complete (fun p => p)
  else ((p <| state := stateCloseBody |>, tr), true).

Definition headersComplete (p : Parser) (tr : Trace) : (Parser * Trace) * bool :=
  match headersError p with
  | Some c => ((fail p c, tr), false)
  | None =>
      let (p, tr) := invoke cbHeadersComplete EvHeadersComplete (message p) p tr in
      if negb (is_none p.(code)) then ((p, tr), false) else selectBody p tr
  end.

(** ** The parse loop *)

(** One turn of the outer loop: go on at the unread suffix [rest], or return
    with it unread. *)
Inductive Iter :=
  | Next (p : Parser) (tr : Trace) (rest : list Z)
  | Return (p : Parser) (tr : Trace) (rest : list Z) (c : Code).

(** [return n, p.code] *)
Definition ret (p : Parser) (tr : Trace) (rest : list Z) : Iter := Return p tr rest p.(code).

(** [return n, p.fail(c)] *)
Definition retFail (p : Parser) (tr : Trace) (rest : list Z) (c : Code) : Iter :=
  ret (fail p c) tr rest.

(** [if !op() { return n, p.code }] followed by [k] *)
Definition andThen (r : Parser * bool) (tr : Trace) (rest : list Z) (k : Parser -> Iter) : Iter :=
  let (p, ok) := r in if ok then k p else ret p tr rest.

(** [callback; if p.code != CodeNone { return n, p.code }] followed by [k] *)
Definition afterCallback (r : Parser * Trace) (rest : list Z) (k : Parser -> Trace -> Iter) : Iter :=
  let (p, tr) := r in if is_none p.(code) then k p tr else ret p tr rest.

(** An inner [for] loop: the state and the unread suffix where it stops, and
    [false] when its body returned [n, p.code]. *)
Definition LoopResult : Type := (Parser * list Z) * bool.

Definition afterLoop (r : LoopResult) (tr : Trace) (k : Parser -> list Z -> Iter) : Iter :=
  let '((p, rest), ok) := r in if ok then k p rest else ret p tr rest.

(** A loop [for n < len(src) && guard(p, src[n]) { if !body { return }; n++ }]. *)
Fixpoint forBytes (guard : Parser -> Z -> bool) (body : Parser -> Z -> Parser * bool)
    (p : Parser) (rest : list Z) : LoopResult :=
  match rest with
  | [] => ((p, []), true)
  | b :: rest' =>
      if guard p b then
        let (p', ok) := body p b in
        if ok then forBytes guard body p' rest' else ((p', rest), false)
      else ((p, rest), true)
  end.

Definition caseStart (p : Parser) (tr : Trace) (b : Z) (rest : list Z) : Iter :=
  if is_Request p.(kind) && (b =? CR) then
    andThen (takePrefixByte p) tr (b :: rest) (fun p => Next (p <| state := stateLeadingLF |>) tr rest)
  else
    afterCallback (beginMessage p tr) (b :: rest) (fun p tr =>
      if is_Request p.(kind) then Next (p <| state := stateReqMethod |>) tr (b :: rest)
      else Next (p <| state := stateResHTTP |>) tr (b :: rest)).

Definition caseLeadingLF (p : Parser) (tr : Trace) (b : Z) (rest : list Z) : Iter :=
  if negb (b =? LF) then retFail p tr (b :: rest) CodeInvalidLineEnding
  else andThen (takePrefixByte p) tr (b :: rest) (fun p => Next (p <| state := stateStart |>) tr rest).

Definition methodByte (p : Parser) (b : Z) : Parser * bool :=
  let (p, ok) := takeStartByte p in
  if ok then (matchMethod p b, true) else (p, false).

Definition caseReqMethod (p : Parser) (tr : Trace) (src : list Z) : Iter :=
  afterLoop (forBytes (fun _ => isTChar) methodByte p src) tr (fun p rest =>
  afterCallback (invokeSpan cbMethod SpanMethod (span src rest) p tr) rest (fun p tr =>
    match rest with
    | [] => Next p tr []
    | b :: rest' =>
        if (p.(methodPos) =? 0) || negb (b =? ch " ") then retFail p tr rest CodeInvalidMethod
        else
          andThen (takeStartByte (finishMethod p)) tr rest (fun p =>
            Next (p <| state := stateReqTarget |>) tr rest')
    end)).

Definition targetByte (p : Parser) (b : Z) : Parser * bool :=
  let (p, ok) := consumeTargetForm p b in
  if negb ok then (p, false)
  else
    let percent :=
      if negb (p.(targetPercent) =? 0) then
        if negb (isHexByte b) then reject p CodeInvalidTarget
        else
          let p := p <| targetPercent := u8 (p.(targetPercent) + 1) |> in
          (if p.(targetPercent) =? 3 then p <| targetPercent := 0 |> else p, true)
      else if b =? ch "%" then (p <| targetPercent := 1 |>, true)
      else (p, true) in
    let (p, ok) := percent in
    if negb ok then (p, false)
    else
      let (p, ok) := takeStartByte p in
      if negb ok then (p, false) else (p <| targetBytes := u32 (p.(targetBytes) + 1) |>, true).

Definition caseReqTarget (p : Parser) (tr : Trace) (src : list Z) : Iter :=
  afterLoop (forBytes (fun _ => validTargetByte) targetByte p src) tr (fun p rest =>
  afterCallback (invokeSpan cbTarget SpanTarget (span src rest) p tr) rest (fun p tr =>
    match rest with
    | [] => Next p tr []
    | b :: rest' =>
        let (p, ok) := finishTarget p in
        if negb ok || negb (b =? ch " ") then retFail p tr rest CodeInvalidTarget
        else
          andThen (takeStartByte p) tr rest (fun p =>
            Next (p <| literalPos := 0 |> <| state := stateReqHTTP |>) tr rest')
    end)).

Definition literalByte (p : Parser) (b : Z) : Parser * bool :=
  if negb (b =? str_at (str "HTTP/") p.(literalPos)) then reject p CodeInvalidStartLine
  else
    let (p, ok) := takeStartByte p in
    if ok then (p <| literalPos := u8 (p.(literalPos) + 1) |>, true) else (p, false).

Definition caseHTTP (p : Parser) (tr : Trace) (src : list Z) : Iter :=
  afterLoop (forBytes (fun p _ => p.(literalPos) <? 5) literalByte p src) tr (fun p rest =>
    if p.(literalPos) =? 5 then
      Next (p <| major := 0 |> <| minor := 0 |> <| state := stateVersionMajor |>) tr rest
    else Next p tr rest).

Definition caseVersionMajor (p : Parser) (tr : Trace) (b : Z) (rest : list Z) : Iter :=
  if negb (isDigit b) then retFail p tr (b :: rest) CodeInvalidVersion
  else andThen (takeStartByte p) tr (b :: rest) (fun p =>
    Next (p <| major := b - ch "0" |> <| state := stateVersionDot |>) tr rest).

Definition caseVersionDot (p : Parser) (tr : Trace) (b : Z) (rest : list Z) : Iter :=
  if negb (b =? ch ".") then retFail p tr (b :: rest) CodeInvalidVersion
  else andThen (takeStartByte p) tr (b :: rest) (fun p =>
    Next (p <| state := stateVersionMinor |>) tr rest).

Definition caseVersionMinor (p : Parser) (tr : Trace) (b : Z) (rest : list Z) : Iter :=
  if negb (isDigit b) then retFail p tr (b :: rest) CodeInvalidVersion
  else andThen (takeStartByte p) tr (b :: rest) (fun p =>
    let p := p <| minor := b - ch "0" |> in
    Next (if is_Request p.(kind) then p <| state := stateReqLineCR |>
          else p <| state := stateResSpaceBeforeStatus |>) tr rest).

Definition caseReqLineCR (p : Parser) (tr : Trace) (b : Z) (rest : list Z) : Iter :=
  if negb (b =? CR) then retFail p tr (b :: rest) CodeInvalidLineEnding
  else if negb (validHTTPVersion p.(major) p.(minor)) then retFail p tr (b :: rest) CodeInvalidVersion
  else andThen (takeStartByte p) tr (b :: rest) (fun p => Next (p <| state := stateReqLineLF |>) tr rest).

(** The cases [stateReqLineLF] and [stateResLineLF]. *)
Definition caseLineLF (p : Parser) (tr : Trace) (b : Z) (rest : list Z) : Iter :=
  if negb (b =? LF) then retFail p tr (b :: rest) CodeInvalidLineEnding
  else andThen (takeStartByte p) tr (b :: rest) (fun p =>
    afterCallback (startLineComplete p tr) rest (fun p tr => Next p tr rest)).

Definition caseResSpaceBeforeStatus (p : Parser) (tr : Trace) (b : Z) (rest : list Z) : Iter :=
  if negb (b =? ch " ") || negb (validHTTPVersion p.(major) p.(minor))
  then retFail p tr (b :: rest) CodeInvalidStartLine
  else andThen (takeStartByte p) tr (b :: rest) (fun p =>
    Next (p <| status := 0 |> <| statusDigits := 0 |> <| state := stateResStatus |>) tr rest).

Definition statusByte (p : Parser) (b : Z) : Parser * bool :=
  if negb (isDigit b) then reject p CodeInvalidStatus
  else
    let (p, ok) := takeStartByte p in
    if ok then
      (p <| status := u16 (p.(status) * 10 + (b - ch "0")) |>
         <| statusDigits := u8 (p.(statusDigits) + 1) |>, true)
    else (p, false).

Definition caseResStatus (p : Parser) (tr : Trace) (src : list Z) : Iter :=
  afterLoop (forBytes (fun p _ => p.(statusDigits) <? 3) statusByte p src) tr (fun p rest =>
    if p.(statusDigits) =? 3 then
      if p.(status) <? 100 then retFail p tr rest CodeInvalidStatus
      else Next (p <| state := stateResReasonStart |>) tr rest
    else Next p tr rest).

Definition caseResReasonStart (p : Parser) (tr : Trace) (b : Z) (rest : list Z) : Iter :=
  if negb (b =? ch " ") then retFail p tr (b :: rest) CodeInvalidStatus
  else andThen (takeStartByte p) tr (b :: rest) (fun p => Next (p <| state := stateResReason |>) tr rest).

Definition reasonByte (p : Parser) (b : Z) : Parser * bool :=
  if negb (validReasonByte b) then reject p CodeInvalidStatus else takeStartByte p.

Definition caseResReason (p : Parser) (tr : Trace) (src : list Z) : Iter :=
  afterLoop (forBytes (fun _ b => negb (b =? CR)) reasonByte p src) tr (fun p rest =>
  afterCallback (invokeSpan cbReason SpanReason (span src rest) p tr) rest (fun p tr =>
    match rest with
    | [] => Next p tr []
    | b :: rest' =>
        andThen (takeStartByte p) tr rest (fun p => Next (p <| state := stateResLineLF |>) tr rest')
    end)).

Definition caseHeaderStart (p : Parser) (tr : Trace) (b : Z) (rest : list Z) : Iter :=
  if b =? CR then
    andThen (takeHeaderByte p) tr (b :: rest) (fun p => Next (p <| state := stateHeadersLF |>) tr rest)
  else if isOWS b then retFail p tr (b :: rest) CodeInvalidHeaderName
  else
    let p := beginHeader p in
    if negb (is_none p.(code)) then ret p tr (b :: rest)
    else Next (p <| state := stateHeaderName |>) tr (b :: rest).

Definition headerNameByte (p : Parser) (b : Z) : Parser * bool :=
  let (p, ok) := takeHeaderByte p in
  if negb ok then (p, false)
  else if p.(headerNameBytes) =? p.(limits).(MaxHeaderNameBytes) then reject p CodeHeaderNameTooLarge
  else (matchField (p <| headerNameBytes := u16 (p.(headerNameBytes) + 1) |>) b, true).

Definition caseHeaderName (p : Parser) (tr : Trace) (src : list Z) : Iter :=
  afterLoop (forBytes (fun _ => isTChar) headerNameByte p src) tr (fun p rest =>
  afterCallback (invokeSpan cbHeaderName SpanHeaderName (span src rest) p tr) rest (fun p tr =>
    match rest with
    | [] => Next p tr []
    | b :: rest' =>
        if (p.(headerNameBytes) =? 0) || negb (b =? ch ":") then retFail p tr rest CodeInvalidHeaderName
        else
          andThen (takeHeaderByte p) tr rest (fun p =>
            let p := finishFieldName p in
            if negb (is_none p.(code)) then ret p tr rest'
            else Next (p <| state := stateHeaderValueStart |>) tr rest')
    end)).

Definition caseHeaderValueStart (p : Parser) (tr : Trace) (src : list Z) : Iter :=
  afterLoop (forBytes (fun _ => isOWS) (fun p _ => takeHeaderByte p) p src) tr (fun p rest =>
    match rest with
    | [] => Next p tr []
    | _ => Next (p <| state := stateHeaderValue |>) tr rest
    end).

(** [parseValue] does not change during the loop: no value automaton assigns
    [p.field]. *)
Definition parsesValue (p : Parser) : bool :=
  negb (is_fieldOther p.(field)) && negb (is_fieldTrailer p.(field)).

Definition headerValueByte (parseValue : bool) (p : Parser) (b : Z) : Parser * bool :=
  if negb (validFieldValueByte b) then reject p CodeInvalidHeaderValue
  else
    let (p, ok) := takeHeaderByte p in
    if negb ok then (p, false)
    else if parseValue then consumeFieldValue p b
    else (p, true).

Definition caseHeaderValue (p : Parser) (tr : Trace) (src : list Z) : Iter :=
  afterLoop (forBytes (fun _ b => negb (b =? CR)) (headerValueByte (parsesValue p)) p src) tr (fun p rest =>
  afterCallback (invokeSpan cbHeaderValue SpanHeaderValue (span src rest) p tr) rest (fun p tr =>
    match rest with
    | [] => Next p tr []
    | b :: rest' =>
        andThen (finishFieldValue p) tr rest (fun p =>
        andThen (takeHeaderByte p) tr rest (fun p =>
          Next (p <| state := stateHeaderValueLF |>) tr rest'))
    end)).

Definition caseHeaderValueLF (p : Parser) (tr : Trace) (b : Z) (rest : list Z) : Iter :=
  if negb (b =? LF) then retFail p tr (b :: rest) CodeInvalidLineEnding
  else andThen (takeHeaderByte p) tr (b :: rest) (fun p =>
    afterCallback (invoke cbHeaderEnd EvHeaderEnd p.(trailers) p tr) rest (fun p tr =>
      Next (p <| state := stateHeaderStart |>) tr rest)).

Definition caseHeadersLF (p : Parser) (tr : Trace) (b : Z) (rest : list Z) : Iter :=
  if negb (b =? LF) then retFail p tr (b :: rest) CodeInvalidLineEnding
  else andThen (takeHeaderByte p) tr (b :: rest) (fun p =>
    if p.(trailers) then
      afterCallback (invoke cbChunkComplete (fun _ => EvChunkComplete) tt p tr) rest (fun p tr =>
      afterCallback (completeMessage p tr) rest (fun p tr => Next p tr rest))
    else
      let '((p, tr), ok) := headersComplete p tr in
      if negb ok then ret p tr rest
      else if is_stateUpgrade p.(state) then Return p tr rest CodeUpgrade
      else Next p tr rest).

(** The cases [stateFixedBody] and [stateChunkBody] up to the last test:
    [take = min(available, p.remaining)] bytes of body.  The conversion
    [uint64(len(src) - n)] is exact: a slice length is a non-negative [int]. *)
Definition takeBody (p : Parser) (tr : Trace) (src : list Z) (done : Parser -> Trace -> list Z -> Iter) : Iter :=
  let available := len src in
  let n := if p.(remaining) <? available then p.(remaining) else available in
  andThen (addBody p n) tr src (fun p =>
    let rest := drop (Z.to_nat n) src in
    let p := p <| remaining := u64 (p.(remaining) - n) |> in
    afterCallback (invokeSpan cbBody SpanBody (take (Z.to_nat n) src) p tr) rest (fun p tr =>
      if p.(remaining) =? 0 then done p tr rest else Next p tr rest)).

Definition caseFixedBody (p : Parser) (tr : Trace) (src : list Z) : Iter :=
  takeBody p tr src (fun p tr rest =>
    afterCallback (completeMessage p tr) rest (fun p tr => Next p tr rest)).

Definition caseCloseBody (p : Parser) (tr : Trace) (src : list Z) : Iter :=
  let available := len src in
  let bodyBudget := u64 (p.(limits).(MaxBodyBytes) - p.(bodyBytes)) in
  let n := if bodyBudget <? available then bodyBudget else available in
  let p := p <| bodyBytes := u64 (p.(bodyBytes) + n) |> in
  let rest := drop (Z.to_nat n) src in
  afterCallback (invokeSpan cbBody SpanBody (take (Z.to_nat n) src) p tr) rest (fun p tr =>
    if negb (n =? available) then retFail p tr rest CodeBodyTooLarge else Next p tr rest).

Definition caseChunkSizeStart (p : Parser) (tr : Trace) (src : list Z) : Iter :=
  Next (p <| chunkSize := 0 |> <| chunkDigits := false |> <| chunkLineBytes := 0 |>
          <| state := stateChunkSize |>) tr src.

Definition isHexDigit (b : Z) : bool := match hexValue b with Some _ => true | None => false end.

Definition chunkSizeByte (p : Parser) (b : Z) : Parser * bool :=
  match hexValue b with
  | None => (p, true)
  | Some digit =>
      let (p, ok) := takeChunkLineByte (p <| chunkDigits := true |>) in
      if negb ok then (p, false)
      else if (MaxUint64 - digit) / 16 <? p.(chunkSize) then reject p CodeInvalidChunkSize
      else (p <| chunkSize := u64 (p.(chunkSize) * 16 + digit) |>, true)
  end.

Definition caseChunkSize (p : Parser) (tr : Trace) (src : list Z) : Iter :=
  afterLoop (forBytes (fun _ => isHexDigit) chunkSizeByte p src) tr (fun p rest =>
    match rest with
    | [] => Next p tr []
    | b :: rest' =>
        if negb p.(chunkDigits) then retFail p tr rest CodeInvalidChunkSize
        else if b =? ch ";" then
          andThen (takeChunkLineByte p) tr rest (fun p =>
            Next (p <| chunkExtState := chunkExtBeforeName |> <| state := stateChunkExt |>) tr rest')
        else if negb (b =? CR) then retFail p tr rest CodeInvalidChunkSize
        else
          andThen (takeChunkLineByte p) tr rest (fun p =>
            Next (p <| state := stateChunkSizeLF |>) tr rest')
    end).

Definition chunkExtByte (p : Parser) (b : Z) : Parser * bool :=
  let (p, ok) := takeChunkLineByte p in
  if ok then consumeChunkExtension p b else (p, false).

Definition caseChunkExt (p : Parser) (tr : Trace) (src : list Z) : Iter :=
  afterLoop (forBytes (fun _ b => negb (b =? CR)) chunkExtByte p src) tr (fun p rest =>
    match rest with
    | [] => Next p tr []
    | b :: rest' =>
        andThen (finishChunkExtension p) tr rest (fun p =>
        andThen (takeChunkLineByte p) tr rest (fun p =>
          Next (p <| state := stateChunkSizeLF |>) tr rest'))
    end).

Definition caseChunkSizeLF (p : Parser) (tr : Trace) (b : Z) (rest : list Z) : Iter :=
  if negb (b =? LF) then retFail p tr (b :: rest) CodeInvalidLineEnding
  else andThen (takeChunkLineByte p) tr (b :: rest) (fun p =>
    if u64 (p.(limits).(MaxBodyBytes) - p.(bodyBytes)) <? p.(chunkSize)
    then retFail p tr rest CodeBodyTooLarge
    else if negb (p.(chunkSize) =? 0) && (p.(limits).(MaxChunks) <=? p.(chunkCount))
    then retFail p tr rest CodeTooManyChunks
    else
      let p := if negb (p.(chunkSize) =? 0) then p <| chunkCount := u32 (p.(chunkCount) + 1) |> else p in
      afterCallback (invoke cbChunkHeader EvChunkHeader p.(chunkSize) p tr) rest (fun p tr =>
        if p.(chunkSize) =? 0 then
          Next (p <| trailers := true |> <| state := stateHeaderStart |>) tr rest
        else
          Next (p <| remaining := p.(chunkSize) |> <| state := stateChunkBody |>) tr rest)).

Definition caseChunkBody (p : Parser) (tr : Trace) (src : list Z) : Iter :=
  takeBody p tr src (fun p tr rest => Next (p <| state := stateChunkBodyCR |>) tr rest).

Definition caseChunkBodyCR (p : Parser) (tr : Trace) (b : Z) (rest : list Z) : Iter :=
  if negb (b =? CR) then retFail p tr (b :: rest) CodeInvalidLineEnding
  else Next (p <| state := stateChunkBodyLF |>) tr rest.

Definition caseChunkBodyLF (p : Parser) (tr : Trace) (b : Z) (rest : list Z) : Iter :=
  if negb (b =? LF) then retFail p tr (b :: rest) CodeInvalidLineEnding
  else
    afterCallback (invoke cbChunkComplete (fun _ => EvChunkComplete) tt p tr) rest (fun p tr =>
      Next (p <| state := stateChunkSizeStart |>) tr rest).

(** The switch of [parse] on a non-empty unread suffix [b :: rest]. *)
Definition parseSwitch (p : Parser) (tr : Trace) (b : Z) (rest : list Z) : Iter :=
  let src := b :: rest in
  match p.(state) with
  | stateStart => caseStart p tr b rest
  | stateLeadingLF => caseLeadingLF p tr b rest
  | stateReqMethod => caseReqMethod p tr src
  | stateReqTarget => caseReqTarget p tr src
  | stateReqHTTP | stateResHTTP => caseHTTP p tr src
  | stateVersionMajor => caseVersionMajor p tr b rest
  | stateVersionDot => caseVersionDot p tr b rest
  | stateVersionMinor => caseVersionMinor p tr b rest
  | stateReqLineCR => caseReqLineCR p tr b rest
  | stateReqLineLF | stateResLineLF => caseLineLF p tr b rest
  | stateResSpaceBeforeStatus => caseResSpaceBeforeStatus p tr b rest
  | stateResStatus => caseResStatus p tr src
  | stateResReasonStart => caseResReasonStart p tr b rest
  | stateResReason => caseResReason p tr src
  | stateHeaderStart => caseHeaderStart p tr b rest
  | stateHeaderName => caseHeaderName p tr src
  | stateHeaderValueStart => caseHeaderValueStart p tr src
  | stateHeaderValue => caseHeaderValue p tr src
  | stateHeaderValueLF => caseHeaderValueLF p tr b rest
  | stateHeadersLF => caseHeadersLF p tr b rest
  | stateFixedBody => caseFixedBody p tr src
  | stateCloseBody => caseCloseBody p tr src
  | stateChunkSizeStart => caseChunkSizeStart p tr src
  | stateChunkSize => caseChunkSize p tr src
  | stateChunkExt => caseChunkExt p tr src
  | stateChunkSizeLF => caseChunkSizeLF p tr b rest
  | stateChunkBody => caseChunkBody p tr src
  | stateChunkBodyCR => caseChunkBodyCR p tr b rest
  | stateChunkBodyLF => caseChunkBodyLF p tr b rest
  | stateUpgrade | stateDead => retFail p tr src CodeInvalidStartLine
  end.

(** The result of a run: the parser, what was delivered, the unread suffix and
    the returned code. *)
Record Outcome := mkOutcome {
  outParser : Parser;
  outTrace : Trace;
  outRest : list Z;
  outCode : Code;
}.

(** The outer loop; [None] is running out of fuel. *)
Fixpoint parseLoop (fuel : nat) (p : Parser) (tr : Trace) (src : list Z) : option Outcome :=
  match src with
  | [] => Some (mkOutcome p tr [] CodeNone)
  | b :: rest =>
      if p.(paused) then Some (mkOutcome p tr src CodeNone)
      else
        match fuel with
        | O => None
        | S fuel =>
            match parseSwitch p tr b rest with
            | Next p tr rest => parseLoop fuel p tr rest
            | Return p tr rest c => Some (mkOutcome p tr rest c)
            end
        end
  end.

(** Two turns per byte are enough: [Http1Wf.parseLoop_ok]. *)
Definition parseFuel (src : list Z) : nat := 2 * length src + 2.

Definition parse (p : Parser) (tr : Trace) (src : list Z) : option Outcome :=
  if negb (is_none p.(code)) then Some (mkOutcome p tr src p.(code))
  else if is_stateUpgrade p.(state) then Some (mkOutcome p tr src CodeUpgrade)
  else parseLoop (parseFuel src) p tr src.

(** ** Public methods *)

Definition Init (p : Parser) (k : Kind) (cb : option Callbacks) (lim : Limits) : Parser :=
  if p.(parsing) then fail p CodeReentrantCall
  else
    let p := zeroParser k cb (normalized lim) in
    match k with
    | Request | Response => p
    | KindOther _ => fail p CodeInvalidKind
    end.

(** [var p Parser; p.Init(...)]: the receiver is Go's zero value. *)
Definition NewParser (k : Kind) (cb : option Callbacks) (lim : Limits) : Parser :=
  Init (zeroParser (KindOther 0) None (mkLimits 0 0 0 0 0 0 0 0)) k cb lim.

Definition Reset (p : Parser) : Parser :=
  if p.(parsing) then fail p CodeReentrantCall
  else Init p p.(kind) p.(callbacks) p.(limits).

Definition SetResponseContext (p : Parser) (head connect : bool) : Parser :=
  if p.(parsing) then fail p CodeReentrantCall
  else p <| responseToHEAD := head |> <| responseToCONNECT := connect |>.

Definition runParse (p : Parser) (tr : Trace) (src : list Z) (pauseAfterMessage_ : bool) : option Outcome :=
  if p.(parsing) then
    let p := fail p CodeReentrantCall in Some (mkOutcome p tr src p.(code))
  else
    let p := p <| parsing := true |> <| pauseAfterMessage := pauseAfterMessage_ |> <| paused := false |> in
    match parse p tr src with
    | None => None
    | Some o =>
        Some (mkOutcome (o.(outParser) <| pauseAfterMessage := false |> <| parsing := false |>)
                        o.(outTrace) o.(outRest) o.(outCode))
    end.

Definition Parse (p : Parser) (tr : Trace) (src : list Z) : option Outcome := runParse p tr src false.

(** [ParseOne]: the outcome and whether a message boundary was reached. *)
Definition ParseOne (p : Parser) (tr : Trace) (src : list Z) : option (Outcome * bool) :=
  match runParse p tr src true with
  | None => None
  | Some o => Some (o, o.(outParser).(paused))
  end.

Definition is_stateCloseBody (s : parserState) : bool :=
  match s with stateCloseBody => true | _ => false end.
Definition is_stateStart (s : parserState) : bool :=
  match s with stateStart => true | _ => false end.

Definition Finish (p : Parser) (tr : Trace) : Parser * Trace * Code :=
  if p.(parsing) then let p := fail p CodeReentrantCall in (p, tr, p.(code))
  else if negb (is_none p.(code)) then (p, tr, p.(code))
  else
    let p := p <| parsing := true |> in
    let finish (p : Parser) : Parser := p <| parsing := false |> in
    if is_stateUpgrade p.(state) then (finish p, tr, CodeUpgrade)
    else if is_stateCloseBody p.(state) then
      let (p, tr) := completeMessage p tr in (finish p, tr, p.(code))
    else if is_stateStart p.(state) && negb p.(messageActive) then (finish p, tr, CodeNone)
    else let p := fail p CodeUnexpectedEOF in (finish p, tr, p.(code)).

(** [n] of [Parse]: how many bytes were consumed. *)
Definition consumed (src : list Z) (o : Outcome) : nat := length src - length o.(outRest).
