(* ===== verification/Http1Wf.v ===== *)
(** * HTTP/1 parser: the well-formedness invariant and termination

    [wf] collects what holds of every reachable parser: each counter is within
    its configured limit and its machine width, Content-Length and
    Transfer-Encoding exclude each other, and the facts each state relies on.
    Every turn of the parse loop preserves it and makes progress, so the loop
    terminates within [parseFuel] turns whatever the callbacks do. *)

From S2P Require Import Prelude Http1Types Http1Fields Http1Parser.

(** ** The invariant *)

Definition limits_ok (l : Limits) : Prop :=
  0 < l.(MaxStartLineBytes) <= MaxUint32 /\
  0 < l.(MaxHeaderBytes) <= MaxUint32 /\
  0 < l.(MaxChunkLineBytes) <= MaxUint32 /\
  0 < l.(MaxChunks) <= MaxUint32 /\
  0 < l.(MaxChunkMetadataBytes) <= MaxUint64 /\
  0 < l.(MaxHeaderNameBytes) <= MaxUint16 /\
  0 < l.(MaxHeaders) <= MaxUint16 /\
  0 < l.(MaxBodyBytes) <= MaxUint64.

(** The values a [Limits] struct can hold. *)
Definition limits_typed (l : Limits) : Prop :=
  in_u32 l.(MaxStartLineBytes) /\ in_u32 l.(MaxHeaderBytes) /\ in_u32 l.(MaxChunkLineBytes) /\
  in_u32 l.(MaxChunks) /\ in_u64 l.(MaxChunkMetadataBytes) /\ in_u16 l.(MaxHeaderNameBytes) /\
  in_u16 l.(MaxHeaders) /\ in_u64 l.(MaxBodyBytes).

Definition line_counters_ok (p : Parser) : Prop :=
  0 <= p.(startBytes) <= p.(limits).(MaxStartLineBytes) /\
  0 <= p.(prefixBytes) <= p.(limits).(MaxStartLineBytes) /\
  0 <= p.(headerBytes) <= p.(limits).(MaxHeaderBytes) /\
  0 <= p.(headerCount) <= p.(limits).(MaxHeaders) /\
  0 <= p.(headerNameBytes) <= p.(limits).(MaxHeaderNameBytes).

Definition chunk_counters_ok (p : Parser) : Prop :=
  0 <= p.(chunkLineBytes) <= p.(limits).(MaxChunkLineBytes) /\
  0 <= p.(chunkMetadataBytes) <= p.(limits).(MaxChunkMetadataBytes) /\
  0 <= p.(chunkCount) <= p.(limits).(MaxChunks) /\
  0 <= p.(chunkSize) <= MaxUint64.

Definition body_counters_ok (p : Parser) : Prop :=
  0 <= p.(bodyBytes) <= p.(limits).(MaxBodyBytes) /\
  0 <= p.(remaining) <= MaxUint64.

Definition cursors_ok (p : Parser) : Prop :=
  0 <= p.(literalPos) <= 5 /\
  0 <= p.(statusDigits) <= 3 /\
  0 <= p.(status) <= MaxUint16 /\
  0 <= p.(ipLiteralLen) <= 64 /\
  length p.(ipLiteral) = maxIPLiteralBytes.

(** A message never carries both length framings. *)
Definition framing_ok (p : Parser) : Prop :=
  p.(hasContentLength) && p.(hasTransferEncoding) = false.

(** Parsing pauses only between messages. *)
Definition pause_ok (p : Parser) : Prop := p.(paused) && p.(messageActive) = false.

Definition wfc (p : Parser) : Prop :=
  limits_ok p.(limits) /\ line_counters_ok p /\ chunk_counters_ok p /\ body_counters_ok p /\
  cursors_ok p /\ framing_ok p /\ pause_ok p.

(** What the current state guarantees. *)
Definition wfs (p : Parser) : Prop :=
  match p.(state) with
  | stateDead => p.(code) <> CodeNone
  | stateReqHTTP | stateResHTTP => p.(code) = CodeNone /\ p.(literalPos) < 5
  | stateResStatus => p.(code) = CodeNone /\ p.(statusDigits) < 3
  | stateFixedBody =>
      p.(code) = CodeNone /\ p.(hasContentLength) = true /\
      0 < p.(remaining) /\ p.(bodyBytes) + p.(remaining) <= p.(limits).(MaxBodyBytes)
  | stateChunkBody =>
      p.(code) = CodeNone /\
      0 < p.(remaining) /\ p.(bodyBytes) + p.(remaining) <= p.(limits).(MaxBodyBytes)
  | _ => p.(code) = CodeNone
  end.

(** Where a message stands: whether one is active, whether its trailers are
    being read, and that no body byte is counted before its head is complete. *)
Definition phase_ok (p : Parser) : Prop :=
  match p.(state) with
  | stateDead => True
  | stateStart | stateUpgrade => p.(messageActive) = false /\ p.(trailers) = false
  | stateLeadingLF => p.(messageActive) = false /\ p.(trailers) = false /\ p.(paused) = false
  | stateHeaderStart | stateHeaderName | stateHeaderValueStart | stateHeaderValue
  | stateHeaderValueLF | stateHeadersLF =>
      p.(messageActive) = true /\ (p.(trailers) = false -> p.(bodyBytes) = 0)
  | stateFixedBody | stateCloseBody | stateChunkSizeStart | stateChunkSize | stateChunkExt
  | stateChunkSizeLF | stateChunkBody | stateChunkBodyCR | stateChunkBodyLF =>
      p.(messageActive) = true /\ p.(trailers) = false
  | _ => p.(messageActive) = true /\ p.(trailers) = false /\ p.(bodyBytes) = 0
  end.

Definition wf (p : Parser) : Prop := wfc p /\ wfs p /\ phase_ok p.

(** ** Operations preserve the state-independent part *)

Ltac wfc_unfold :=
  unfold wfc, limits_ok, line_counters_ok, chunk_counters_ok, body_counters_ok, cursors_ok,
    framing_ok, pause_ok, MaxUint8, MaxUint16, MaxUint32, MaxUint64 in *.

(** Case analysis on an operation's branches, outermost first. *)
Ltac branch_of t :=
  lazymatch t with
  | match ?x with _ => _ end => first [branch_of x | destruct x eqn:?]
  | _ =>
      match t with
      | context [match ?x with _ => _ end] =>
          lazymatch x with
          | context [match _ with _ => _ end] => fail
          | _ => destruct x eqn:?
          end
      end
  end.

Lemma fail_wfc p c : wfc p -> wfc (fail p c).
Proof. intros H. unfold fail. break_if; exact H. Qed.

Lemma takeStartByte_wfc p : wfc p -> wfc (takeStartByte p).1.
Proof.
  intros H. unfold takeStartByte, reject. break_if; cbn; [by apply fail_wfc|].
  bool_to_prop. wfc_unfold. cbn. rewrite u32_small; unfold MaxUint32; intuition lia.
Qed.

Lemma takePrefixByte_wfc p : wfc p -> wfc (takePrefixByte p).1.
Proof.
  intros H. unfold takePrefixByte, reject. break_if; cbn; [by apply fail_wfc|].
  bool_to_prop. wfc_unfold. cbn. rewrite u32_small; unfold MaxUint32; intuition lia.
Qed.

Lemma takeHeaderByte_wfc p : wfc p -> wfc (takeHeaderByte p).1.
Proof.
  intros H. unfold takeHeaderByte, reject. break_if; cbn; [by apply fail_wfc|].
  bool_to_prop. wfc_unfold. cbn. rewrite u32_small; unfold MaxUint32; intuition lia.
Qed.

Lemma takeChunkLineByte_wfc p : wfc p -> wfc (takeChunkLineByte p).1.
Proof.
  intros H. unfold takeChunkLineByte, reject. break_ifs; [by apply fail_wfc..|].
  bool_to_prop. wfc_unfold. cbn.
  rewrite u32_small, u64_small; unfold MaxUint32, MaxUint64; intuition lia.
Qed.

(** ** Specification of the boolean operations

    An operation that returns [true] leaves the control state alone; one that
    returns [false] has failed the parser.  Neither changes the configuration. *)

Definition same_config (p q : Parser) : Prop :=
  q.(limits) = p.(limits) /\ q.(kind) = p.(kind) /\ q.(callbacks) = p.(callbacks) /\
  q.(paused) = p.(paused) /\ q.(pauseAfterMessage) = p.(pauseAfterMessage) /\
  q.(parsing) = p.(parsing) /\ q.(messageNum) = p.(messageNum) /\ q.(exchangeNum) = p.(exchangeNum) /\
  q.(responseToHEAD) = p.(responseToHEAD) /\ q.(responseToCONNECT) = p.(responseToCONNECT) /\
  q.(trailers) = p.(trailers) /\ q.(messageActive) = p.(messageActive) /\
  q.(bodyBytes) = p.(bodyBytes).

Definition dead (p : Parser) : Prop := p.(state) = stateDead /\ p.(code) <> CodeNone.

Definition op_ok (p : Parser) (r : Parser * bool) : Prop :=
  (wfc p -> wfc r.1) /\ same_config p r.1 /\
  (if r.2 then r.1.(state) = p.(state) /\ r.1.(code) = p.(code)
   else p.(code) = CodeNone -> dead r.1).

(** An operation without a result is judged by the code it leaves. *)
Definition step_ok (p q : Parser) : Prop := op_ok p (q, is_none q.(code)).

#[export] Instance same_config_refl : Reflexive same_config.
Proof. intros p. repeat split. Qed.
#[export] Instance same_config_trans : Transitive same_config.
Proof. unfold same_config. intros p q r H1 H2. destruct_and!. split_and!; by etrans. Qed.

Lemma op_ok_fail p c : c <> CodeNone -> op_ok p (reject p c).
Proof.
  intros Hc. split_and!.
  - apply fail_wfc.
  - unfold reject, fail. cbn. break_ifs; repeat split.
  - unfold reject, fail, dead. cbn. intros ->. done.
Qed.

Lemma op_ok_trans p q r :
  (wfc p -> wfc q) -> same_config p q -> q.(state) = p.(state) -> q.(code) = p.(code) ->
  op_ok q r -> op_ok p r.
Proof.
  unfold op_ok. intros Hw Hc Hs Hk (Hw' & Hc' & Hr). split_and!; [tauto|by etrans|].
  destruct r as [r []]; cbn in *; rewrite <- Hk, <- ?Hs; done.
Qed.

(** Sequencing: [if !op1() { return false }; ...]. *)
Lemma op_ok_seq p q r : op_ok p (q, true) -> op_ok q r -> op_ok p r.
Proof. intros (Hw & Hc & Hs & Hk). by apply op_ok_trans. Qed.

(** An update of fields the invariant and the configuration do not mention is
    recognised by conversion. *)
Ltac is_update q p :=
  lazymatch q with
  | p => idtac
  | set _ _ ?q' => is_update q' p
  end.

Ltac keeps_wfc :=
  first [exact (fun H => H) | let H := fresh in intros H; wfc_unfold; cbn in *; intuition lia].

Ltac op_ok_leaf :=
  lazymatch goal with
  | |- op_ok ?p (reject ?p _) => apply op_ok_fail; discriminate
  | |- op_ok ?p (reject ?q _) =>
      is_update q p;
      eapply op_ok_trans; [..|apply op_ok_fail; discriminate];
        cbn; [keeps_wfc | repeat split | reflexivity | reflexivity]
  | |- op_ok ?p (?q, true) =>
      is_update q p;
      split_and!; cbn; [keeps_wfc | repeat split | split; reflexivity]
  end.

Ltac branches :=
  repeat (lazymatch goal with
  | |- op_ok _ ?t => branch_of t
  | |- step_ok _ ?t => branch_of t
  end; cbn).

Ltac op_ok_branches := branches; try op_ok_leaf.

Ltac take_ok p wfc_lemma op :=
  pose proof (wfc_lemma p) as Hw; unfold op in *; break_ifs;
  [by apply op_ok_fail.. | split; [exact Hw | by repeat split]].

Lemma takeStartByte_ok p : op_ok p (takeStartByte p).
Proof. take_ok p takeStartByte_wfc takeStartByte. Qed.
Lemma takePrefixByte_ok p : op_ok p (takePrefixByte p).
Proof. take_ok p takePrefixByte_wfc takePrefixByte. Qed.
Lemma takeHeaderByte_ok p : op_ok p (takeHeaderByte p).
Proof. take_ok p takeHeaderByte_wfc takeHeaderByte. Qed.
Lemma takeChunkLineByte_ok p : op_ok p (takeChunkLineByte p).
Proof. take_ok p takeChunkLineByte_wfc takeChunkLineByte. Qed.

Lemma op_ok_refl p : op_ok p (p, true).
Proof. op_ok_leaf. Qed.

Lemma step_ok_fail p c : c <> CodeNone -> step_ok p (fail p c).
Proof.
  intros Hc. unfold step_ok. replace (is_none _) with false; [by apply op_ok_fail|].
  unfold fail. destruct (is_none_spec (code p)); cbn; [by destruct c|]. by destruct (code p).
Qed.

Lemma step_ok_same p q :
  (wfc p -> wfc q) -> same_config p q -> q.(state) = p.(state) -> q.(code) = p.(code) -> step_ok p q.
Proof.
  intros Hw Hc Hs Hk. split_and!; [done..|]. cbn. rewrite Hk.
  destruct (is_none_spec (code p)); done.
Qed.

Lemma step_ok_trans p q r :
  (wfc p -> wfc q) -> same_config p q -> q.(state) = p.(state) -> q.(code) = p.(code) ->
  step_ok q r -> step_ok p r.
Proof. intros. by eapply op_ok_trans. Qed.

Ltac step_ok_leaf :=
  lazymatch goal with
  | |- step_ok ?p (fail ?q _) =>
      is_update q p;
      eapply step_ok_trans; [..|apply step_ok_fail; discriminate];
        cbn; [keeps_wfc | repeat split | reflexivity | reflexivity]
  | |- step_ok ?p ?q =>
      is_update q p;
      apply step_ok_same; cbn; [keeps_wfc | repeat split | reflexivity | reflexivity]
  end.

(** Continue an operation after a step that left [CodeNone]. *)
Lemma op_ok_step p q r : step_ok p q -> q.(code) = CodeNone -> op_ok q r -> op_ok p r.
Proof. unfold step_ok. intros H Hq. rewrite Hq in H. by apply op_ok_seq. Qed.

Lemma step_ok_failed p q : step_ok p q -> q.(code) <> CodeNone -> op_ok p (q, false).
Proof. unfold step_ok. intros H Hq. by destruct (is_none_spec (code q)). Qed.

(** ** The field automata *)

Lemma finishTransferToken_ok p : step_ok p (finishTransferToken p).
Proof. unfold finishTransferToken. branches; step_ok_leaf. Qed.

Lemma afterTransferToken_ok p b : op_ok p (afterTransferToken p b).
Proof. unfold afterTransferToken. op_ok_branches. Qed.

Lemma consumeTransferToken_ok p b : op_ok p (consumeTransferToken p b).
Proof.
  unfold consumeTransferToken. op_ok_branches; pose proof (finishTransferToken_ok p) as Hf;
    destruct (is_none_spec (code (finishTransferToken p))); try discriminate.
  - by apply step_ok_failed.
  - eapply op_ok_step; [done..|]. apply afterTransferToken_ok.
Qed.

Lemma consumeTransferValue_ok p b : op_ok p (consumeTransferValue p b).
Proof.
  unfold consumeTransferValue. op_ok_branches;
    first [apply consumeTransferToken_ok | apply afterTransferToken_ok
          | eapply op_ok_trans; [..|apply consumeTransferToken_ok]; done].
Qed.

Lemma consumeUpgradeValue_ok p b : op_ok p (consumeUpgradeValue p b).
Proof. unfold consumeUpgradeValue. op_ok_branches. Qed.

Lemma consumeConnectionToken_ok p b : op_ok p (consumeConnectionToken p b).
Proof. unfold consumeConnectionToken, finishConnectionToken. op_ok_branches. Qed.

Lemma consumeConnectionValue_ok p b : op_ok p (consumeConnectionValue p b).
Proof.
  unfold consumeConnectionValue. op_ok_branches;
    first [apply consumeConnectionToken_ok
          | eapply op_ok_trans; [..|apply consumeConnectionToken_ok]; done].
Qed.

(** [appendIPLiteral] fails nothing itself; its callers reject. *)
Lemma appendIPLiteral_ok p b q ok :
  appendIPLiteral p b = (q, ok) ->
  (wfc p -> wfc q) /\ same_config p q /\ q.(state) = p.(state) /\ q.(code) = p.(code).
Proof.
  unfold appendIPLiteral. break_if; intros [= <- <-]; (split; [|by repeat split]); [done|].
  intros H. bool_to_prop. unfold maxIPLiteralBytes in *.
  unfold wfc, cursors_ok in *. cbn. destruct_and!.
  rewrite u16_small by (unfold MaxUint16; lia). rewrite length_insert.
  split_and!; first [done | lia].
Qed.

Ltac after_append :=
  lazymatch goal with
  | H : appendIPLiteral _ _ = (?q, _) |- op_ok ?p _ =>
      destruct (appendIPLiteral_ok _ _ _ _ H) as (?&?&?&?);
      apply (op_ok_trans p q); [done..|op_ok_leaf]
  end.

Lemma consumeHostValue_ok p b : op_ok p (consumeHostValue p b).
Proof.
  unfold consumeHostValue. op_ok_branches; after_append.
Qed.

Lemma consumeContentLength_ok p b : op_ok p (consumeContentLength p b).
Proof.
  unfold consumeContentLength. op_ok_branches.
  split; [|by repeat split]. intros H. wfc_unfold. cbn.
  pose proof (u64_range (remaining p * 10 + (b - 48))). unfold MaxUint64 in *. intuition lia.
Qed.

Lemma consumeFieldValue_ok p b : op_ok p (consumeFieldValue p b).
Proof.
  unfold consumeFieldValue. op_ok_branches;
    first [apply consumeContentLength_ok | apply consumeTransferValue_ok
          | apply consumeConnectionValue_ok | apply consumeHostValue_ok | apply consumeUpgradeValue_ok].
Qed.

Lemma finishTransferValue_ok p : op_ok p (finishTransferValue p).
Proof.
  unfold finishTransferValue. op_ok_branches;
    pose proof (finishTransferToken_ok p) as Hf;
    destruct (is_none_spec (code (finishTransferToken p))); try discriminate;
    first [by apply step_ok_failed | eapply op_ok_step; [done..|]; op_ok_leaf].
Qed.

Lemma finishFieldValue_ok p : op_ok p (finishFieldValue p).
Proof.
  unfold finishFieldValue, finishConnectionValue, finishHostValue, finishUpgradeValue,
    finishConnectionToken.
  op_ok_branches; first [apply finishTransferValue_ok | by apply step_ok_fail].
Qed.

Lemma consumeChunkExtension_ok p b : op_ok p (consumeChunkExtension p b).
Proof. unfold consumeChunkExtension. op_ok_branches. Qed.

Lemma finishChunkExtension_ok p : op_ok p (finishChunkExtension p).
Proof. unfold finishChunkExtension. op_ok_branches. Qed.

Lemma consumeTargetForm_ok p b : op_ok p (consumeTargetForm p b).
Proof.
  unfold consumeTargetForm, startTargetForm, consumeTargetAuthority. op_ok_branches.
  all: after_append.
Qed.

Lemma finishTarget_ok p : op_ok p (finishTarget p).
Proof. unfold finishTarget. op_ok_branches. Qed.

(** ** The loop bodies *)

(** Sequence an operation whose result [E] names. *)
Ltac op_then lemma E :=
  lazymatch type of E with
  | _ = (?q, true) => apply (op_ok_seq _ q); [rewrite <- E; apply lemma|]
  | _ = (?q, false) => rewrite <- E; apply lemma
  end.

Lemma matchMethod_ok p b : op_ok p (matchMethod p b, true).
Proof. unfold matchMethod. op_ok_branches. Qed.

Lemma methodByte_ok p b : op_ok p (methodByte p b).
Proof.
  unfold methodByte. destruct (takeStartByte p) as [q []] eqn:E; op_then takeStartByte_ok E.
  apply matchMethod_ok.
Qed.

Lemma targetByte_ok p b : op_ok p (targetByte p b).
Proof.
  unfold targetByte.
  destruct (consumeTargetForm p b) as [q []] eqn:E; cbn; op_then consumeTargetForm_ok E.
  assert (forall r, op_ok r (let (p, ok) := takeStartByte r in
            if negb ok then (p, false) else (p <| targetBytes := u32 (p.(targetBytes) + 1) |>, true))) as Htake.
  { intros r. destruct (takeStartByte r) as [r' []] eqn:Er; cbn; op_then takeStartByte_ok Er. op_ok_leaf. }
  destruct (negb (targetPercent q =? 0)); [destruct (isHexByte b)|destruct (b =? _)]; cbn.
  - destruct (u8 _ =? 3); (eapply op_ok_seq; [|apply Htake]; op_ok_leaf).
  - change (op_ok q (reject q CodeInvalidTarget)). op_ok_leaf.
  - eapply op_ok_seq; [|apply Htake]; op_ok_leaf.
  - apply Htake.
Qed.

Lemma literalByte_ok p b : (p.(literalPos) <? 5) = true -> op_ok p (literalByte p b).
Proof.
  intros Hl. unfold literalByte. destruct (negb _); [op_ok_leaf|].
  assert (literalPos (takeStartByte p).1 = literalPos p) as Hp.
  { unfold takeStartByte, reject, fail. break_ifs; done. }
  destruct (takeStartByte p) as [q []] eqn:E; cbn in *; op_then takeStartByte_ok E.
  split; [|by repeat split]. intros H. bool_to_prop. wfc_unfold. cbn.
  rewrite u8_small; unfold MaxUint8; intuition lia.
Qed.

Lemma statusByte_ok p b :
  (p.(statusDigits) <? 3) = true -> op_ok p (statusByte p b).
Proof.
  intros Hl. unfold statusByte. destruct (isDigit b) eqn:Hd; cbn; [|op_ok_leaf].
  assert (statusDigits (takeStartByte p).1 = statusDigits p /\
          status (takeStartByte p).1 = status p) as [Hp Hp'].
  { unfold takeStartByte, reject, fail. break_ifs; done. }
  destruct (takeStartByte p) as [q []] eqn:E; cbn in *; op_then takeStartByte_ok E.
  split; [|by repeat split]. intros H. unfold isDigit, between in Hd. bool_to_prop. wfc_unfold. cbn.
  pose proof (u16_range (status q * 10 + (b - 48))). unfold MaxUint16 in *.
  rewrite u8_small; unfold MaxUint8; intuition lia.
Qed.

Lemma reasonByte_ok p b : op_ok p (reasonByte p b).
Proof. unfold reasonByte. break_if; [op_ok_leaf | apply takeStartByte_ok]. Qed.

Lemma matchField_ok p b : op_ok p (matchField p b, true).
Proof. unfold matchField. op_ok_branches. Qed.

Lemma headerNameByte_ok p b : op_ok p (headerNameByte p b).
Proof.
  unfold headerNameByte. destruct (takeHeaderByte p) as [q []] eqn:E; cbn; op_then takeHeaderByte_ok E.
  break_if; [op_ok_leaf|]. apply (op_ok_seq _ (q <| headerNameBytes := u16 (q.(headerNameBytes) + 1) |>)).
  - split; [|by repeat split]. intros H. bool_to_prop. wfc_unfold. cbn.
    rewrite u16_small; unfold MaxUint16; intuition lia.
  - apply matchField_ok.
Qed.

Lemma headerValueByte_ok v p b : op_ok p (headerValueByte v p b).
Proof.
  unfold headerValueByte. break_if; [op_ok_leaf|].
  destruct (takeHeaderByte p) as [q []] eqn:E; cbn; op_then takeHeaderByte_ok E.
  destruct v; [apply consumeFieldValue_ok | apply op_ok_refl].
Qed.

Lemma chunkSizeByte_ok p b : op_ok p (chunkSizeByte p b).
Proof.
  unfold chunkSizeByte. destruct (hexValue b) as [d|] eqn:Hd; [|apply op_ok_refl].
  eapply (op_ok_seq _ (p <| chunkDigits := true |>)); [op_ok_leaf|].
  destruct (takeChunkLineByte _) as [q []] eqn:E; cbn; op_then takeChunkLineByte_ok E.
  break_if; [op_ok_leaf|]. split; [|by repeat split]. intros H. wfc_unfold. cbn.
  pose proof (u64_range (chunkSize q * 16 + d)). unfold MaxUint64 in *. intuition lia.
Qed.

Lemma chunkExtByte_ok p b : op_ok p (chunkExtByte p b).
Proof.
  unfold chunkExtByte. destruct (takeChunkLineByte p) as [q []] eqn:E; op_then takeChunkLineByte_ok E.
  apply consumeChunkExtension_ok.
Qed.

(** ** Loops *)

(** A loop is an operation; it stops at a suffix of its input, at the end or
    at a byte its guard refuses. *)
Lemma forBytes_ok g f p src :
  (forall p b, g p b = true -> op_ok p (f p b)) ->
  forall q rest ok, forBytes g f p src = ((q, rest), ok) ->
  op_ok p (q, ok) /\ (exists pre, src = pre ++ rest) /\
  (ok = true -> match rest with [] => True | b :: _ => g q b = false end).
Proof.
  intros Hf. revert p. induction src as [|b src IH]; intros p q rest ok; cbn.
  { intros [= <- <- <-]. split_and!; [apply op_ok_refl | by exists [] | done]. }
  destruct (g p b) eqn:Hg.
  - pose proof (Hf p b Hg) as Hb. destruct (f p b) as [p' []].
    + intros H. apply IH in H as (Hop & [pre ->] & Hstop). split_and!; [|by exists (b :: pre)|done].
      by eapply op_ok_seq.
    + intros [= <- <- <-]. split_and!; [done | by exists [] | done].
  - intros [= <- <- <-]. split_and!; [apply op_ok_refl | by exists [] | done].
Qed.

(** A loop that starts on a byte its guard accepts consumes it. *)
Lemma forBytes_progress g f p b src q rest :
  g p b = true -> forBytes g f p (b :: src) = ((q, rest), true) -> (length rest <= length src)%nat.
Proof.
  intros Hg. cbn. rewrite Hg. destruct (f p b) as [p' []]; [|done]. revert p'.
  induction src as [|c src IH]; intros p'; cbn; [by intros [= <- <-]|].
  destruct (g p' c); [|by intros [= <- <-]]. destruct (f p' c) as [p'' []]; [|done].
  intros H%IH. lia.
Qed.

(** ** One turn of the parse loop *)

(** [paused] is kept, or set from [pauseAfterMessage]. *)
Definition pause_from (p q : Parser) : Prop :=
  forall P : bool -> Prop, P p.(paused) -> P q.(pauseAfterMessage) -> P q.(paused).

#[export] Hint Extern 0 (pause_from _ _) => (intros ? ? ?; assumption) : core.

(** The configuration a run never changes. *)
Definition static (p q : Parser) : Prop :=
  q.(limits) = p.(limits) /\ q.(kind) = p.(kind) /\ q.(callbacks) = p.(callbacks) /\
  q.(pauseAfterMessage) = p.(pauseAfterMessage) /\ q.(parsing) = p.(parsing) /\
  pause_from p q.

#[export] Instance static_refl : Reflexive static.
Proof. intros p. repeat split. by intros P. Qed.
#[export] Instance static_trans : Transitive static.
Proof.
  unfold static. intros p q r (?&?&?&Hp&?&Hpq) (?&?&?&Hp'&?&Hqr). split_and!; try by etrans.
  intros P HP HP2. apply Hqr; [|done]. apply Hpq; [done|]. by rewrite <- Hp'.
Qed.

Lemma same_config_static p q : same_config p q -> static p q.
Proof.
  unfold same_config, static, pause_from. intros (?&?&?&Hp&?&?&_). split_and!; try done.
  intros P. by rewrite Hp.
Qed.

(** States entered without consuming a byte are left for one that consumes. *)
Definition rank (s : parserState) : nat :=
  match s with
  | stateStart | stateHeaderStart | stateHeaderValueStart | stateChunkSizeStart => 1
  | _ => 0
  end.

Definition iter_ok (p : Parser) (src : list Z) (it : Iter) : Prop :=
  match it with
  | Next q tr rest =>
      wf q /\ q.(code) = CodeNone /\ q.(state) <> stateUpgrade /\ static p q /\
      (exists pre, src = pre ++ rest) /\
      (2 * length rest + rank q.(state) < 2 * length src + rank p.(state))%nat
  | Return q tr rest c =>
      wf q /\ static p q /\ (exists pre, src = pre ++ rest) /\
      ((q.(code) <> CodeNone /\ c = q.(code)) \/
       (q.(code) = CodeNone /\ q.(state) = stateUpgrade /\ c = CodeUpgrade))
  end.

Lemma dead_wf p : wfc p -> dead p -> wf p.
Proof. intros Hw [Hs Hc]. unfold wf, wfs, phase_ok. by rewrite Hs. Qed.

Lemma ret_ok p src q tr rest :
  wfc q -> dead q -> static p q -> (exists pre, src = pre ++ rest) -> iter_ok p src (ret q tr rest).
Proof. intros. unfold ret. cbn. split_and!; [by apply dead_wf|done..|]. left. split; [|done]. by destruct H0. Qed.

Lemma fail_dead p c : c <> CodeNone -> p.(code) = CodeNone -> dead (fail p c).
Proof. intros Hc Hp. unfold fail, dead. rewrite Hp. done. Qed.

Lemma fail_static p c : static p (fail p c).
Proof. unfold fail. break_if; by repeat split. Qed.

Lemma retFail_ok p src q tr rest c :
  wfc q -> q.(code) = CodeNone -> c <> CodeNone -> static p q -> (exists pre, src = pre ++ rest) ->
  iter_ok p src (retFail q tr rest c).
Proof.
  intros. apply (ret_ok p src _ tr rest); [by apply fail_wfc | by apply fail_dead | | done].
  etrans; [done|]. apply fail_static.
Qed.

(** The combinators: a guarded operation, a callback, a loop. *)
Lemma andThen_ok p src q r tr rest k :
  op_ok q r -> wfc q -> q.(code) = CodeNone -> static p q -> (exists pre, src = pre ++ rest) ->
  (forall s, r = (s, true) -> wfc s -> s.(code) = CodeNone -> s.(state) = q.(state) ->
     same_config q s -> iter_ok p src (k s)) ->
  iter_ok p src (andThen r tr rest k).
Proof.
  intros (Hw & Hc & Hr) Hq Hn Hst Hsuf Hk. unfold andThen. destruct r as [s []]; cbn in *.
  - destruct Hr as [Hs Hcode]. apply Hk; try done; [tauto | by rewrite Hcode].
  - apply (ret_ok p src s tr rest); [tauto | by apply Hr | | done].
    etrans; [done|]. by apply same_config_static.
Qed.

Lemma invoke_spec {A} (F : Callbacks -> Callback A) mk a p tr q tr' :
  invoke F mk a p tr = (q, tr') -> q = p \/ q = fail p CodeReentrantCall.
Proof. unfold invoke. destruct (getCallback F p); [break_if|]; intros [= <- <-]; auto. Qed.

Lemma invokeSpan_spec F k bytes p tr q tr' :
  invokeSpan F k bytes p tr = (q, tr') -> q = p \/ q = fail p CodeReentrantCall.
Proof. unfold invokeSpan. destruct bytes; [intros [= <- <-]; auto | apply invoke_spec]. Qed.

(** After a callback the parser is unchanged or dead. *)
Lemma afterCallback_ok p src q r rest k :
  (r.1 = q \/ r.1 = fail q CodeReentrantCall) ->
  wfc q -> q.(code) = CodeNone -> static p q -> (exists pre, src = pre ++ rest) ->
  (forall tr, iter_ok p src (k q tr)) ->
  iter_ok p src (afterCallback r rest k).
Proof.
  intros Hr Hq Hn Hst Hsuf Hk. unfold afterCallback. destruct r as [s tr]. cbn in Hr.
  destruct Hr as [-> | ->].
  - rewrite Hn. apply Hk.
  - pose proof (fail_dead q CodeReentrantCall ltac:(done) Hn) as Hd. destruct Hd as [Hd1 Hd2].
    destruct (is_none_spec (code (fail q CodeReentrantCall))); [done|].
    apply (ret_ok p src _ tr rest); [by apply fail_wfc | done | etrans; [done|apply fail_static] | done].
Qed.

Lemma afterLoop_ok p src q g f tr k :
  (forall p b, g p b = true -> op_ok p (f p b)) ->
  wfc q -> q.(code) = CodeNone -> static p q ->
  (forall s rest, forBytes g f q src = ((s, rest), true) -> wfc s -> s.(code) = CodeNone ->
     s.(state) = q.(state) -> same_config q s -> static p s -> (exists pre, src = pre ++ rest) ->
     match rest with [] => True | b :: _ => g s b = false end -> iter_ok p src (k s rest)) ->
  iter_ok p src (afterLoop (forBytes g f q src) tr k).
Proof.
  intros Hf Hq Hn Hst Hk. unfold afterLoop. destruct (forBytes g f q src) as [[s rest] ok] eqn:E.
  destruct (forBytes_ok _ _ _ _ Hf _ _ _ E) as ((Hw & Hc & Hr) & Hsuf & Hstop). cbn in *.
  assert (static p s) by (etrans; [done|]; by apply same_config_static).
  destruct ok.
  - destruct Hr as [Hs Hcode]. apply Hk; try done; [tauto | by rewrite Hcode | by apply Hstop].
  - apply (ret_ok p src s tr rest); [tauto | by apply Hr | done | done].
Qed.

(** ** The cases of the switch *)

Lemma suffix_refl (src : list Z) : exists pre, src = pre ++ src.
Proof. by exists []. Qed.
Lemma suffix_tail (b : Z) rest : exists pre, b :: rest = pre ++ rest.
Proof. by exists [b]. Qed.
Lemma suffix_cons (src : list Z) b rest :
  (exists pre, src = pre ++ b :: rest) -> exists pre, src = pre ++ rest.
Proof. intros [pre ->]. exists (pre ++ [b]). by rewrite <- app_assoc. Qed.
Lemma suffix_length (src rest : list Z) : (exists pre, src = pre ++ rest) -> (length rest <= length src)%nat.
Proof. intros [pre ->]. rewrite length_app. lia. Qed.
Lemma suffix_cons_length (src : list Z) b rest :
  (exists pre, src = pre ++ b :: rest) -> (length rest < length src)%nat.
Proof. intros [pre ->]. rewrite length_app. cbn. lia. Qed.

#[export] Hint Resolve suffix_refl suffix_tail suffix_cons : go.

(** Close a [Next]: invariant by conversion, control state, suffix, measure. *)
Ltac use_state :=
  repeat match goal with H : state ?p = _ |- context [state ?p] => rewrite H end; cbn.

(** The phase of a parser reached through operations that keep the
    configuration. *)
Ltac phase :=
  repeat match goal with
  | H : same_config ?p ?q |- _ =>
      let Ht := fresh in let Ha := fresh in let Hb := fresh in
      destruct H as (_&_&_&_&_&_&_&_&_&_&Ht&Ha&Hb)
  end;
  unfold phase_ok in *; cbn in *; use_state;
  repeat match goal with
  | H : state ?p = _, H' : context [state ?p] |- _ => rewrite H in H'; cbn in H'
  | H : trailers ?s = trailers ?q |- context [trailers ?s] => rewrite H
  | H : messageActive ?s = messageActive ?q |- context [messageActive ?s] => rewrite H
  | H : bodyBytes ?s = bodyBytes ?q |- context [bodyBytes ?s] => rewrite H
  end; destruct_and?; split_and?; first [assumption | done | auto].

Ltac next_ok :=
  cbn [iter_ok]; split_and!;
  [ split_and!; [first [assumption | done]
           | unfold wfs; cbn; use_state; first [assumption | done | intuition (congruence || lia)]
           | phase ]
  | first [assumption | done]
  | cbn; use_state; first [assumption | done]
  | first [assumption | done | etrans; [eassumption|]; apply same_config_static; eassumption ]
  | eauto with go
  | cbn; use_state;
    first [ lia | repeat match goal with
      | H : exists pre, _ = pre ++ _ :: _ |- _ => apply suffix_cons_length in H; cbn in H
      end; lia ] ].

Lemma andThen_simple p src q r tr rest k :
  op_ok q r -> wfc q -> q.(code) = CodeNone -> static p q -> (exists pre, src = pre ++ rest) ->
  (forall s, wfc s -> s.(code) = CodeNone -> s.(state) = q.(state) -> same_config q s ->
     static p s -> iter_ok p src (k s)) ->
  iter_ok p src (andThen r tr rest k).
Proof.
  intros. eapply andThen_ok; eauto. intros. apply H4; try done.
  etrans; [done|]. by apply same_config_static.
Qed.

Section Cases.
Context (p : Parser) (tr : Trace) (b : Z) (rest : list Z).
Context (Hwc : wfc p) (Hcode : p.(code) = CodeNone) (Hph : phase_ok p).

Let src := b :: rest.

Ltac take_then lemma :=
  apply (andThen_simple _ _ p); [apply lemma | done | done | done | eauto with go |];
  intros s Hws Hcs Hss Hsc Hsts.

Ltac fails := apply retFail_ok; [done | done | done | done | eauto with go].

Lemma caseLeadingLF_ok : p.(state) = stateLeadingLF -> iter_ok p src (caseLeadingLF p tr b rest).
Proof. intros Hst. unfold caseLeadingLF. break_if; [fails|]. take_then takePrefixByte_ok. next_ok. Qed.

Lemma caseVersionMajor_ok : p.(state) = stateVersionMajor -> iter_ok p src (caseVersionMajor p tr b rest).
Proof. intros Hst. unfold caseVersionMajor. break_if; [fails|]. take_then takeStartByte_ok. next_ok. Qed.

Lemma caseVersionDot_ok : p.(state) = stateVersionDot -> iter_ok p src (caseVersionDot p tr b rest).
Proof. intros Hst. unfold caseVersionDot. break_if; [fails|]. take_then takeStartByte_ok. next_ok. Qed.

Lemma caseVersionMinor_ok : p.(state) = stateVersionMinor -> iter_ok p src (caseVersionMinor p tr b rest).
Proof. intros Hst.
  unfold caseVersionMinor. break_if; [fails|]. take_then takeStartByte_ok. cbn.
  destruct (is_Request _); next_ok.
Qed.

Lemma caseReqLineCR_ok : p.(state) = stateReqLineCR -> iter_ok p src (caseReqLineCR p tr b rest).
Proof. intros Hst. unfold caseReqLineCR. break_if; [fails|]. break_if; [fails|]. take_then takeStartByte_ok. next_ok. Qed.

Lemma caseResSpaceBeforeStatus_ok : p.(state) = stateResSpaceBeforeStatus -> iter_ok p src (caseResSpaceBeforeStatus p tr b rest).
Proof. intros Hst.
  unfold caseResSpaceBeforeStatus. break_if; [fails|]. take_then takeStartByte_ok.
  assert (wfc (s <| status := 0 |> <| statusDigits := 0 |> <| state := stateResStatus |>)).
  { wfc_unfold. cbn. intuition lia. }
  next_ok.
Qed.

Lemma caseResReasonStart_ok : p.(state) = stateResReasonStart -> iter_ok p src (caseResReasonStart p tr b rest).
Proof. intros Hst. unfold caseResReasonStart. break_if; [fails|]. take_then takeStartByte_ok. next_ok. Qed.

Lemma caseChunkBodyCR_ok : p.(state) = stateChunkBodyCR -> iter_ok p src (caseChunkBodyCR p tr b rest).
Proof. intros Hst. unfold caseChunkBodyCR. break_if; [fails|]. next_ok. Qed.

Lemma caseChunkSizeStart_ok : p.(state) = stateChunkSizeStart -> iter_ok p src (caseChunkSizeStart p tr src).
Proof.
  intros Hst. unfold caseChunkSizeStart.
  assert (wfc (p <| chunkSize := 0 |> <| chunkDigits := false |> <| chunkLineBytes := 0 |>
                 <| state := stateChunkSize |>)).
  { wfc_unfold. cbn. intuition lia. }
  next_ok.
Qed.

(** Loops that end with a callback on the span and a final byte. *)
Ltac loop lemma :=
  eapply afterLoop_ok; [intros; by apply lemma | done | done | done |];
  intros s r Hloop Hws Hcs Hss Hsc Hsts Hsuf Hstop.

Ltac span_callback s :=
  apply (afterCallback_ok _ _ s);
    [destruct (invokeSpan _ _ _ _ _) eqn:Hinv; cbn; by eapply invokeSpan_spec | done.. |]; intros tr'.

Ltac fails_at s := apply (retFail_ok _ _ s); [assumption | assumption | done | assumption | eauto with go].

Ltac take_from q lemma t :=
  apply (andThen_simple _ _ q);
    [apply lemma | assumption || (by assumption) | assumption || done | assumption || done | eauto with go |];
  intros t ? ? ? ? ?.

Lemma caseReqMethod_ok : p.(state) = stateReqMethod -> iter_ok p src (caseReqMethod p tr src).
Proof.
  intros Hst. unfold caseReqMethod. loop methodByte_ok. span_callback s.
  destruct r as [|c r]; [next_ok|].
  break_if; [fails_at s|].
  take_from (finishMethod s) takeStartByte_ok t. unfold finishMethod in *. next_ok.
Qed.

Lemma caseReqTarget_ok : p.(state) = stateReqTarget -> iter_ok p src (caseReqTarget p tr src).
Proof.
  intros Hst. unfold caseReqTarget. loop targetByte_ok. span_callback s.
  destruct r as [|c r]; [next_ok|].
  pose proof (finishTarget_ok s) as Hf. destruct (finishTarget s) as [t ok]. destruct Hf as (Hwt & Hct & Hrt).
  cbn in *. specialize (Hwt Hws).
  assert (static p t) by (etrans; [done|]; by apply same_config_static).
  destruct ok; cbn.
  - destruct Hrt as [Hts Htc]. rewrite Hcs in Htc. break_if; [fails_at t|].
    take_from t takeStartByte_ok u.
    assert (wfc (u <| literalPos := 0 |> <| state := stateReqHTTP |>)) by (wfc_unfold; cbn; intuition lia).
    next_ok.
  - specialize (Hrt Hcs). apply (ret_ok _ _ _ tr'); [by apply fail_wfc | | | done].
    + unfold fail. destruct Hrt as [? ?]. destruct (is_none_spec (code t)); done.
    + etrans; [done|]. apply fail_static.
Qed.

Lemma caseHTTP_ok :
  p.(state) = stateReqHTTP \/ p.(state) = stateResHTTP -> p.(literalPos) < 5 ->
  iter_ok p src (caseHTTP p tr src).
Proof.
  intros Hst Hl. unfold caseHTTP. loop literalByte_ok.
  assert (length r <= length rest)%nat.
  { eapply forBytes_progress; [|done]. cbn. by apply Z.ltb_lt. }
  break_if.
  - assert (wfc (s <| major := 0 |> <| minor := 0 |> <| state := stateVersionMajor |>)) by done.
    destruct Hst; next_ok.
  - assert (literalPos s < 5).
    { destruct Hws as (_&_&_&_&Hcur&_&_). unfold cursors_ok in Hcur. bool_to_prop. lia. }
    destruct Hst; next_ok.
Qed.

Lemma caseResStatus_ok :
  p.(state) = stateResStatus -> p.(statusDigits) < 3 -> iter_ok p src (caseResStatus p tr src).
Proof.
  intros Hst Hl. unfold caseResStatus. loop statusByte_ok.
  assert (length r <= length rest)%nat.
  { eapply forBytes_progress; [|done]. cbn. by apply Z.ltb_lt. }
  break_if; [break_if; [fails_at s|next_ok]|].
  assert (statusDigits s < 3).
  { destruct Hws as (_&_&_&_&Hcur&_&_). unfold cursors_ok in Hcur. bool_to_prop. lia. }
  next_ok.
Qed.

Lemma caseResReason_ok : p.(state) = stateResReason -> iter_ok p src (caseResReason p tr src).
Proof.
  intros Hst. unfold caseResReason. loop reasonByte_ok. span_callback s.
  destruct r as [|c r]; [next_ok|]. take_from s takeStartByte_ok t. next_ok.
Qed.

Lemma caseHeaderValueStart_ok :
  p.(state) = stateHeaderValueStart -> iter_ok p src (caseHeaderValueStart p tr src).
Proof.
  intros Hst. unfold caseHeaderValueStart. loop takeHeaderByte_ok.
  destruct r as [|c r]; [next_ok|].
  pose proof (suffix_length _ _ Hsuf) as Hlen. cbn in Hlen. next_ok.
Qed.

Lemma caseHeaderValue_ok : p.(state) = stateHeaderValue -> iter_ok p src (caseHeaderValue p tr src).
Proof.
  intros Hst. unfold caseHeaderValue. loop headerValueByte_ok. span_callback s.
  destruct r as [|c r]; [next_ok|].
  take_from s finishFieldValue_ok t. take_from t takeHeaderByte_ok u. next_ok.
Qed.

Lemma caseChunkSize_ok : p.(state) = stateChunkSize -> iter_ok p src (caseChunkSize p tr src).
Proof.
  intros Hst. unfold caseChunkSize. loop chunkSizeByte_ok.
  destruct r as [|c r]; [next_ok|].
  break_if; [fails_at s|]. break_if; [|break_if; [fails_at s|]];
    take_from s takeChunkLineByte_ok t; next_ok.
Qed.

Lemma caseChunkExt_ok : p.(state) = stateChunkExt -> iter_ok p src (caseChunkExt p tr src).
Proof.
  intros Hst. unfold caseChunkExt. loop chunkExtByte_ok.
  destruct r as [|c r]; [next_ok|].
  take_from s finishChunkExtension_ok t. take_from t takeChunkLineByte_ok u. next_ok.
Qed.
End Cases.

(** ** Message boundaries *)

Lemma beginHeader_ok p : step_ok p (beginHeader p).
Proof.
  unfold beginHeader. break_if; [step_ok_leaf|]. apply step_ok_same; cbn; [|by repeat split|done|done].
  intros H. bool_to_prop. wfc_unfold. cbn. rewrite u16_small; unfold MaxUint16; intuition lia.
Qed.

Lemma startFieldValue_ok p : step_ok p (startFieldValue p).
Proof.
  unfold startFieldValue. branches; try step_ok_leaf;
    (apply step_ok_same; cbn; [|by repeat split|done|done]); intros H; wfc_unfold; cbn;
    repeat match goal with E : _ = false |- _ => rewrite E in * end; cbn; intuition lia.
Qed.

Lemma finishFieldName_ok p : step_ok p (finishFieldName p).
Proof.
  unfold finishFieldName. cbn.
  destruct (is_Response (kind p) && negb (trailers p) && is_fieldHost (lookupField p)); cbn;
    break_if; try step_ok_leaf; (eapply step_ok_trans; [..|apply startFieldValue_ok]); done.
Qed.

(** How a message-level operation ends when one of its callbacks re-enters. *)
Definition failed (p q : Parser) : Prop := wfc q /\ static p q /\ dead q.

Lemma fail_failed p c : c <> CodeNone -> wfc p -> p.(code) = CodeNone -> failed p (fail p c).
Proof. intros. split_and!; [by apply fail_wfc | apply fail_static | by apply fail_dead]. Qed.

Lemma failed_wf p q : failed p q -> wf q.
Proof. intros (? & _ & ?). by apply dead_wf. Qed.

Lemma failed_code p q : failed p q -> is_none q.(code) = false.
Proof. intros (_ & _ & _ & ?). by destruct (is_none_spec (code q)). Qed.

Lemma failed_static p p' q : static p p' -> failed p' q -> failed p q.
Proof. intros ? (? & ? & ?). split_and!; [done | by etrans | done]. Qed.

Lemma invoke_failed {A} (F : Callbacks -> Callback A) mk a p tr q tr' :
  wfc p -> p.(code) = CodeNone -> invoke F mk a p tr = (q, tr') -> q = p \/ failed p q.
Proof.
  intros Hw Hn H. apply invoke_spec in H as [-> | ->]; [by left | right]. by apply fail_failed.
Qed.

Lemma resetMessage_wfc p : wfc p -> p.(paused) = false -> wfc (resetMessage p).
Proof. intros H Hp. wfc_unfold. cbn. rewrite Hp. intuition lia. Qed.

Lemma queryResponseContext_ok p tr q tr' :
  wfc p -> p.(code) = CodeNone -> queryResponseContext p tr = (q, tr') ->
  failed p q \/ exists h c, q = p <| responseToHEAD := h |> <| responseToCONNECT := c |>.
Proof.
  intros Hw Hn. unfold queryResponseContext.
  assert (exists h c, p = p <| responseToHEAD := h |> <| responseToCONNECT := c |>) by
    (by exists (responseToHEAD p), (responseToCONNECT p)).
  destruct (is_Response (kind p)); [|by intros [= <- <-]; right].
  destruct (getCallback cbResponseContext p) as [f|]; [|by intros [= <- <-]; right].
  destruct (f tr (exchangeNum p)) as [[h c] []]; intros [= <- <-]; [left | by right; exists h, c].
  exact (fail_failed p CodeReentrantCall ltac:(done) Hw Hn).
Qed.

Lemma beginMessage_ok p tr q tr' :
  wfc p -> p.(paused) = false -> p.(code) = CodeNone -> beginMessage p tr = (q, tr') ->
  failed p q \/
  exists h c, q = resetMessage (p <| responseToHEAD := h |> <| responseToCONNECT := c |>).
Proof.
  intros Hw Hp Hn. unfold beginMessage.
  destruct (queryResponseContext p tr) as [r tr0] eqn:E.
  apply queryResponseContext_ok in E as [Hf | (h & c & ->)]; [..|done|done].
  - rewrite (failed_code _ _ Hf). intros [= <- <-]. by left.
  - cbn. rewrite Hn. cbn. intros H. apply invoke_failed in H as [-> | Hf];
      [right; by exists h, c | left | by apply resetMessage_wfc | done].
    eapply failed_static; [|done]. done.
Qed.

Lemma startLineComplete_ok p tr q tr' :
  wfc p -> p.(code) = CodeNone -> startLineComplete p tr = (q, tr') ->
  failed p q \/ q = p <| state := stateHeaderStart |>.
Proof.
  intros Hw Hn. unfold startLineComplete. destruct (invoke _ _ _ _ _) as [r tr0] eqn:E.
  apply invoke_failed in E as [-> | Hf]; [..|done|done].
  - rewrite Hn. intros [= <- <-]. by right.
  - rewrite (failed_code _ _ Hf). intros [= <- <-]. by left.
Qed.

(** The parser after a message whose callback did not re-enter. *)
Definition completed (p : Parser) : Parser :=
  p <| messageNum := u64 (p.(messageNum) + 1) |>
    <| exchangeNum :=
         if is_Response p.(kind) && ((p.(status) =? 101) || (200 <=? p.(status)))
         then u64 (p.(exchangeNum) + 1) else p.(exchangeNum) |>
    <| messageActive := false |> <| trailers := false |> <| state := stateStart |>
    <| paused := p.(pauseAfterMessage) |>.

Lemma completeMessage_ok p tr q tr' :
  wfc p -> p.(code) = CodeNone -> completeMessage p tr = (q, tr') ->
  failed p q \/ q = completed p.
Proof.
  intros Hw Hn. unfold completeMessage. destruct (invoke _ _ _ _ _) as [r tr0] eqn:E.
  apply invoke_failed in E as [-> | Hf]; [..|done|done].
  - rewrite Hn. cbn. intros [= <- <-]. right. unfold completed. break_if; done.
  - rewrite (failed_code _ _ Hf). intros [= <- <-]. by left.
Qed.

Lemma completed_wf p : wfc p -> p.(code) = CodeNone -> wf (completed p) /\ static p (completed p).
Proof.
  intros Hw Hn. split; [|by repeat split]. split_and!; [|exact Hn | done].
  unfold wfc, pause_ok in *. destruct_and!. split_and!; try done. cbn. apply andb_false_r.
Qed.

(** [selectBody] leaves the parser in a state whose invariant holds; when it
    answers [false] the parser is dead. *)
Definition select_ok (p q : Parser) (ok : bool) : Prop :=
  wf q /\ static p q /\ (if ok then q.(code) = CodeNone else dead q).

Lemma select_ok_intro p q :
  wfc q -> wfs q -> phase_ok q -> static p q -> q.(code) = CodeNone -> select_ok p q true.
Proof. intros. by split_and!. Qed.

Lemma completeMessage_then p tr (after : Parser -> Parser) q tr' ok :
  wfc p -> p.(code) = CodeNone -> select_ok p (after (completed p)) true ->
  (let (p0, tr0) := completeMessage p tr in
   if negb (is_none (code p0)) then (p0, tr0, false) else (after p0, tr0, true)) = (q, tr', ok) ->
  select_ok p q ok.
Proof.
  intros Hw Hn Hafter. destruct (completeMessage p tr) as [r tr2] eqn:E.
  apply completeMessage_ok in E as [Hf | ->]; [..|done|done].
  - rewrite (failed_code _ _ Hf). intros [= <- <- <-].
    split_and!; [by eapply failed_wf | apply Hf | apply Hf].
  - cbn. rewrite Hn. cbn. by intros [= <- <- <-].
Qed.

Lemma selectBody_ok p tr q tr' ok :
  wfc p -> p.(code) = CodeNone -> p.(messageActive) = true -> p.(trailers) = false ->
  p.(bodyBytes) = 0 -> selectBody p tr = ((q, tr'), ok) -> select_ok p q ok.
Proof.
  intros Hw Hn Ha Ht Hb.
  destruct (completed_wf p Hw Hn) as [Hcw Hcs].
  assert (select_ok p (completed p) true) as Hid by (split_and!; [exact Hcw|exact Hcs|exact Hn]).
  assert (forall s, s = stateChunkSizeStart \/ s = stateCloseBody ->
    select_ok p (p <| state := s |>) true) as Hbody.
  { intros s [-> | ->]; (apply select_ok_intro; [exact Hw | exact Hn | done | by repeat split | exact Hn]). }
  unfold selectBody. destruct (is_Response (kind p) && responseHasNoBody p).
  { apply (completeMessage_then p tr); [done..|]. destruct (switchesProtocol p); [|done].
    apply select_ok_intro; [exact (proj1 Hcw) | exact Hn | done | exact Hcs | exact Hn]. }
  destruct (hasTransferEncoding p).
  { destruct (transferChunked p); intros [= <- <- <-]; apply Hbody; auto. }
  destruct (hasContentLength p) eqn:Hcl.
  - break_if; [|break_if].
    + intros [= <- <- <-]. pose proof (fail_failed p CodeBodyTooLarge ltac:(done) Hw Hn) as Hf.
      split_and!; [by eapply failed_wf | apply Hf | apply Hf].
    + by apply (completeMessage_then p tr (fun p => p)).
    + intros [= <- <- <-]. apply select_ok_intro; [exact Hw | | done | by repeat split | exact Hn].
      unfold wfs. cbn. bool_to_prop. wfc_unfold. intuition lia.
  - destruct (is_Request (kind p)).
    + by apply (completeMessage_then p tr (fun p => p)).
    + intros [= <- <- <-]. apply Hbody. auto.
Qed.

(** A message-level operation that fails or leaves the parser as [good] says. *)
Lemma afterMessage_ok p src (good : Parser -> Prop) r rest k :
  (failed p r.1 \/ good r.1) -> (forall q, good q -> q.(code) = CodeNone) ->
  (exists pre, src = pre ++ rest) ->
  (forall q tr, good q -> iter_ok p src (k q tr)) ->
  iter_ok p src (afterCallback r rest k).
Proof.
  intros Hr Hgood Hsuf Hk. unfold afterCallback. destruct r as [q tr]; cbn in Hr.
  destruct Hr as [Hf | Hg].
  - rewrite (failed_code _ _ Hf). destruct Hf as (? & ? & ?). by apply (ret_ok p src q tr rest).
  - rewrite (Hgood _ Hg). by apply Hk.
Qed.

Section MessageCases.
Context (p : Parser) (tr : Trace) (b : Z) (rest : list Z).
Context (Hwc : wfc p) (Hcode : p.(code) = CodeNone) (Hph : phase_ok p).

Let src := b :: rest.

Ltac take_then lemma :=
  apply (andThen_simple _ _ p); [apply lemma | done | done | done | eauto with go |];
  intros s Hws Hcs Hss Hsc Hsts.

Ltac fails := apply retFail_ok; [done | done | done | done | eauto with go].

Lemma caseStart_ok : p.(state) = stateStart -> p.(paused) = false -> iter_ok p src (caseStart p tr b rest).
Proof.
  intros Hst Hp. unfold caseStart. break_if.
  { take_then takePrefixByte_ok. assert (paused s = false) by (rewrite <- Hp; apply Hsc). next_ok. }
  destruct (beginMessage p tr) as [q tr'] eqn:E. apply beginMessage_ok in E; [|done..].
  apply (afterMessage_ok _ _ (fun q => exists h c,
    q = resetMessage (p <| responseToHEAD := h |> <| responseToCONNECT := c |>)));
    [done | by intros ? (h & c & ->) | eauto with go |].
  intros s tr0 (h & c & ->). pose proof (resetMessage_wfc p Hwc Hp) as Hw'.
  destruct (is_Request _); next_ok.
Qed.

Lemma caseLineLF_ok :
  p.(state) = stateReqLineLF \/ p.(state) = stateResLineLF -> iter_ok p src (caseLineLF p tr b rest).
Proof.
  intros Hst. unfold caseLineLF. break_if; [fails|]. take_then takeStartByte_ok.
  destruct (startLineComplete s tr) as [q tr'] eqn:E. apply startLineComplete_ok in E; [|done..].
  apply (afterMessage_ok _ _ (fun q => q = s <| state := stateHeaderStart |>));
    [destruct E; [left; by eapply failed_static | by right] | by intros ? -> | eauto with go |].
  intros ? tr0 ->. destruct Hst; next_ok.
Qed.

Lemma caseHeaderStart_ok : p.(state) = stateHeaderStart -> iter_ok p src (caseHeaderStart p tr b rest).
Proof.
  intros Hst. unfold caseHeaderStart. break_if; [take_then takeHeaderByte_ok; next_ok|].
  break_if; [fails|]. destruct (beginHeader_ok p) as (Hw & Hc & Hr). cbn in *.
  pose proof (same_config_static _ _ Hc).
  destruct (is_none_spec (code (beginHeader p))) as [Hn|Hn]; cbn.
  - destruct Hr as [Hs _]. specialize (Hw Hwc). next_ok.
  - apply (ret_ok p src _ tr); [auto | auto | done | eauto with go].
Qed.

Lemma caseHeaderName_ok : p.(state) = stateHeaderName -> iter_ok p src (caseHeaderName p tr src).
Proof.
  intros Hst. unfold caseHeaderName.
  eapply afterLoop_ok; [intros; apply headerNameByte_ok | done | done | done |].
  intros s r Hloop Hws Hcs Hss Hsc Hsts Hsuf Hstop.
  apply (afterCallback_ok _ _ s);
    [destruct (invokeSpan _ _ _ _ _) eqn:Hinv; cbn; by eapply invokeSpan_spec | done.. |]; intros tr'.
  destruct r as [|c r]; [next_ok|].
  break_if; [apply (retFail_ok _ _ s); done|].
  apply (andThen_simple _ _ s); [apply takeHeaderByte_ok | done..|].
  intros t Hwt Hct Hst' Hsct Hstt.
  destruct (finishFieldName_ok t) as (Hw & Hc & Hr). cbn in *.
  assert (static p (finishFieldName t)) by (etrans; [done | by apply same_config_static]).
  destruct (is_none_spec (code (finishFieldName t))) as [Hn|Hn]; cbn.
  - destruct Hr as [Hs _]. specialize (Hw Hwt). next_ok.
  - apply (ret_ok p src _ tr'); [auto | auto | done | eauto with go].
Qed.

Lemma caseHeaderValueLF_ok :
  p.(state) = stateHeaderValueLF -> iter_ok p src (caseHeaderValueLF p tr b rest).
Proof.
  intros Hst. unfold caseHeaderValueLF. break_if; [fails|]. take_then takeHeaderByte_ok.
  apply (afterCallback_ok _ _ s);
    [destruct (invoke _ _ _ _ _) eqn:Hinv; cbn; by eapply invoke_spec | done..|eauto with go|].
  intros tr'. next_ok.
Qed.

Lemma caseChunkBodyLF_ok :
  p.(state) = stateChunkBodyLF -> iter_ok p src (caseChunkBodyLF p tr b rest).
Proof.
  intros Hst. unfold caseChunkBodyLF. break_if; [fails|].
  apply (afterCallback_ok _ _ p);
    [destruct (invoke _ _ _ _ _) eqn:Hinv; cbn; by eapply invoke_spec | done..|eauto with go|].
  intros tr'. next_ok.
Qed.
End MessageCases.

(** ** Body bytes *)

(** The budget test of [addBody] is exact under the invariant. *)
Lemma addBody_fits p n :
  wfc p -> 0 <= n <= p.(limits).(MaxBodyBytes) - p.(bodyBytes) ->
  addBody p n = (p <| bodyBytes := p.(bodyBytes) + n |>, true).
Proof.
  intros Hw Hn. unfold addBody. wfc_unfold. destruct_and!.
  rewrite !u64_small by (unfold MaxUint64; lia). destruct (Z.ltb_spec (MaxBodyBytes (limits p) - bodyBytes p) n); [lia|done].
Qed.

(** How many bytes [takeBody] takes. *)
Definition bodyTake (p : Parser) (src : list Z) : Z := Z.min p.(remaining) (len src).

Lemma bodyTake_eq p src :
  (if p.(remaining) <? len src then p.(remaining) else len src) = bodyTake p src.
Proof. unfold bodyTake. destruct (Z.ltb_spec (remaining p) (len src)); lia. Qed.

(** The parser after [n] body bytes of a fixed-size part. *)
Definition bodyTaken (p : Parser) (n : Z) : Parser :=
  p <| bodyBytes := p.(bodyBytes) + n |> <| remaining := p.(remaining) - n |>.

Lemma drop_suffix {A} n (src : list A) : exists pre, src = pre ++ drop n src.
Proof. exists (take n src). by rewrite take_drop. Qed.
#[local] Hint Resolve drop_suffix : go.

Lemma bodyTaken_wfc p n :
  wfc p -> 0 <= n <= p.(remaining) -> p.(bodyBytes) + p.(remaining) <= p.(limits).(MaxBodyBytes) ->
  wfc (bodyTaken p n).
Proof. intros. wfc_unfold. cbn. intuition lia. Qed.

Lemma takeBody_eq p tr src done :
  wfc p -> 0 < p.(remaining) -> p.(bodyBytes) + p.(remaining) <= p.(limits).(MaxBodyBytes) ->
  takeBody p tr src done =
    (let n := bodyTake p src in
     let rest := drop (Z.to_nat n) src in
     afterCallback (invokeSpan cbBody SpanBody (take (Z.to_nat n) src) (bodyTaken p n) tr) rest (fun p tr =>
       if p.(remaining) =? 0 then done p tr rest else Next p tr rest)).
Proof.
  intros Hw Hr Hb. unfold takeBody. rewrite bodyTake_eq.
  assert (0 <= bodyTake p src <= remaining p) as Hn by (unfold bodyTake; pose proof (len_nonneg src); lia).
  rewrite addBody_fits by (done || lia). unfold andThen. cbn.
  rewrite (u64_small (remaining p - _)); [done|]. wfc_unfold. destruct_and!. lia.
Qed.

Lemma takeBody_ok p tr b rest done :
  wfc p -> p.(code) = CodeNone -> 0 < p.(remaining) ->
  p.(bodyBytes) + p.(remaining) <= p.(limits).(MaxBodyBytes) ->
  p.(state) = stateFixedBody /\ p.(hasContentLength) = true \/ p.(state) = stateChunkBody -> phase_ok p ->
  (forall q tr r, wfc q -> q.(code) = CodeNone -> static p q -> q.(messageActive) = true ->
     q.(trailers) = false -> (exists pre, b :: rest = pre ++ r) -> (length r <= length rest)%nat ->
     iter_ok p (b :: rest) (done q tr r)) ->
  iter_ok p (b :: rest) (takeBody p tr (b :: rest) done).
Proof.
  intros Hw Hn Hr Hb Hst Hph Hdone. rewrite takeBody_eq by done. cbn zeta.
  assert (0 < bodyTake p (b :: rest) <= remaining p) as Ht.
  { unfold bodyTake. autorewrite with go_simpl. pose proof (len_nonneg rest). lia. }
  pose proof (bodyTaken_wfc p (bodyTake p (b :: rest)) Hw ltac:(lia) Hb) as Hw'.
  assert (length (drop (Z.to_nat (bodyTake p (b :: rest))) (b :: rest)) <= length rest)%nat as Hlen.
  { rewrite length_drop. cbn [length]. lia. }
  assert (messageActive p = true /\ trailers p = false) as [Hact Htr].
  { unfold phase_ok in Hph. by destruct Hst as [[Hst _]|Hst]; rewrite Hst in Hph. }
  apply (afterCallback_ok _ _ (bodyTaken p (bodyTake p (b :: rest))));
    [destruct (invokeSpan _ _ _ _ _) eqn:Hinv; cbn; by eapply invokeSpan_spec | done.. | eauto with go |].
  intros tr'. break_if; [apply Hdone; first [done | eauto with go]|].
  cbn [iter_ok]. bool_to_prop. cbn in *. split_and!; [split_and! | done | | done | eauto with go |].
  - done.
  - unfold wfs. cbn. destruct Hst as [[-> Hcl]| ->]; split_and!; try done; lia.
  - unfold phase_ok. cbn. by destruct Hst as [[-> _]| ->].
  - by destruct Hst as [[-> _]| ->].
  - cbn. lia.
Qed.

Lemma afterComplete_ok p src q tr r :
  wfc q -> q.(code) = CodeNone -> static p q -> (exists pre, src = pre ++ r) ->
  (2 * length r + 1 < 2 * length src + rank p.(state))%nat ->
  iter_ok p src (afterCallback (completeMessage q tr) r (fun p tr => Next p tr r)).
Proof.
  intros Hw Hn Hst Hsuf Hlen. destruct (completeMessage q tr) as [s tr'] eqn:E.
  apply completeMessage_ok in E; [|done..]. destruct (completed_wf q Hw Hn) as [Hcw Hcs].
  apply (afterMessage_ok _ _ (fun s => s = completed q));
    [destruct E; [left; by eapply failed_static | by right] | by intros ? -> | done |].
  intros ? tr0 ->. cbn [iter_ok]. split_and!; [exact Hcw | done | done | | done | done].
  by etrans.
Qed.

Section BodyCases.
Context (p : Parser) (tr : Trace) (b : Z) (rest : list Z).
Context (Hwf : wf p) (Hcode : p.(code) = CodeNone).

Let src := b :: rest.

Lemma caseFixedBody_ok : p.(state) = stateFixedBody -> iter_ok p src (caseFixedBody p tr src).
Proof.
  intros Hst. destruct Hwf as (Hw & Hs & Hph). unfold wfs in Hs. rewrite Hst in Hs.
  destruct Hs as (_ & Hcl & Hr & Hb). apply takeBody_ok; [done..|by left|done|].
  intros. apply afterComplete_ok; [done..|]. unfold src. rewrite Hst. cbn. lia.
Qed.

Lemma caseChunkBody_ok : p.(state) = stateChunkBody -> iter_ok p src (caseChunkBody p tr src).
Proof.
  intros Hst. destruct Hwf as (Hw & Hs & Hph). unfold wfs in Hs. rewrite Hst in Hs.
  destruct Hs as (_ & Hr & Hb). apply takeBody_ok; [done..|by right|done|].
  intros. cbn [iter_ok]. split_and!; [split_and! | done | done | done | done |]; [exact H | exact H0 | done |].
  rewrite Hst. cbn. lia.
Qed.

Lemma caseCloseBody_ok : p.(state) = stateCloseBody -> iter_ok p src (caseCloseBody p tr src).
Proof.
  intros Hst. destruct Hwf as (Hw & Hs & Hph). unfold caseCloseBody.
  set (n := if _ <? _ then _ else _).
  assert (0 <= n <= MaxBodyBytes (limits p) - bodyBytes p /\ n <= len src) as [Hn Hnl].
  { subst n. wfc_unfold. destruct_and!. rewrite u64_small by (unfold MaxUint64; lia).
    pose proof (len_nonneg src). destruct (Z.ltb_spec (MaxBodyBytes (limits p) - bodyBytes p) (len src)); lia. }
  assert (wfc (p <| bodyBytes := u64 (bodyBytes p + n) |>)) as Hw'.
  { wfc_unfold. cbn. destruct_and!. rewrite u64_small by (unfold MaxUint64; lia). intuition lia. }
  apply (afterCallback_ok _ _ (p <| bodyBytes := u64 (bodyBytes p + n) |>));
    [destruct (invokeSpan _ _ _ _ _) eqn:Hinv; cbn; by eapply invokeSpan_spec | done.. | eauto with go |].
  intros tr'. unfold src in *. break_if; [by apply retFail_ok; eauto with go|].
  bool_to_prop. cbn [iter_ok]. split_and!; [split_and! | done | cbn; by rewrite Hst | done | eauto with go |];
    [exact Hw' | unfold wfs; cbn; by rewrite Hst
    | unfold phase_ok in *; cbn; rewrite Hst in *; exact Hph |].
  rewrite length_drop. change (state (p <| bodyBytes := _ |>)) with (state p). rewrite Hst. cbn [rank]. unfold len in *. cbn [length] in *. lia.
Qed.

Lemma caseChunkSizeLF_ok : p.(state) = stateChunkSizeLF -> iter_ok p src (caseChunkSizeLF p tr b rest).
Proof.
  intros Hst. destruct Hwf as (Hw & Hs & Hph). unfold caseChunkSizeLF.
  break_if; [by apply retFail_ok; eauto with go|].
  apply (andThen_simple _ _ p); [apply takeChunkLineByte_ok | done | done | done | eauto with go |].
  intros s Hws Hcs Hss Hsc Hsts.
  break_if; [by apply retFail_ok; eauto with go|]. break_if; [by apply retFail_ok; eauto with go|].
  set (q := if negb (chunkSize s =? 0) then _ else s).
  assert (wfc q /\ same_config s q /\ state q = state s /\ code q = code s /\ chunkSize q = chunkSize s)
    as (Hwq & Hcq & Hsq & Hkq & Hzq).
  { subst q. destruct (negb (chunkSize s =? 0)) eqn:Hz; [|done]. split; [|by repeat split].
    cbn in *. bool_to_prop. wfc_unfold. cbn. destruct_and!. rewrite u32_small by (unfold MaxUint32; lia). intuition lia. }
  clearbody q. rewrite Hcs in Hkq. rewrite Hss in Hsq.
  assert (static p q) by (etrans; [done | by apply same_config_static]).
  apply (afterCallback_ok _ _ q);
    [destruct (invoke _ _ _ _ _) eqn:Hinv; cbn; by eapply invoke_spec | done.. | eauto with go |].
  intros tr'. assert (0 <= chunkSize q) by (wfc_unfold; destruct_and!; lia).
  break_if; [next_ok|].
  assert (wfc (q <| remaining := chunkSize q |> <| state := stateChunkBody |>)) by (wfc_unfold; cbn; intuition lia).
  assert (bodyBytes q + chunkSize q <= MaxBodyBytes (limits q)).
  { destruct Hcq as (Hl & _ & _ & _ & _ & _ & _ & _ & _ & _ & _ & _ & Hb). rewrite Hl, Hb, Hzq.
    bool_to_prop. clear Hwq. wfc_unfold. destruct_and!. rewrite u64_small in * by (unfold MaxUint64; lia). lia. }
  bool_to_prop. next_ok.
Qed.

Lemma headersComplete_ok tr0 q tr' ok s :
  wfc s -> s.(code) = CodeNone -> s.(messageActive) = true -> s.(trailers) = false ->
  s.(bodyBytes) = 0 -> headersComplete s tr0 = ((q, tr'), ok) -> select_ok s q ok.
Proof.
  intros Hw Hn Ha Ht Hb. unfold headersComplete.
  assert (forall r, failed s r -> select_ok s r false) as Hfail.
  { intros r Hf. split_and!; [by eapply failed_wf | apply Hf | apply Hf]. }
  destruct (headersError s) as [c|] eqn:E.
  { intros [= <- <- <-]. apply Hfail, fail_failed; [|done..].
    unfold headersError in E. by break_ifs; simplify_eq. }
  destruct (invoke _ _ _ _ _) as [r tr1] eqn:Ei. apply invoke_failed in Ei as [-> | Hf]; [..|done|done].
  - rewrite Hn. cbn. by apply selectBody_ok.
  - rewrite (failed_code _ _ Hf). intros [= <- <- <-]. by apply Hfail.
Qed.

Lemma caseHeadersLF_ok : p.(state) = stateHeadersLF -> iter_ok p src (caseHeadersLF p tr b rest).
Proof.
  intros Hst. destruct Hwf as (Hw & Hs & Hph). unfold caseHeadersLF.
  break_if; [by apply retFail_ok; eauto with go|].
  apply (andThen_simple _ _ p); [apply takeHeaderByte_ok | done | done | done | eauto with go |].
  intros s Hws Hcs Hss Hsc Hsts.
  unfold phase_ok in Hph. rewrite Hst in Hph. destruct Hph as [Hact Hbody].
  destruct Hsc as (_&_&_&_&_&_&_&_&_&_&Ht&Ha&Hb). rewrite Hact in Ha. rewrite <- Ht, <- Hb in Hbody.
  destruct (trailers s) eqn:Htr.
  { apply (afterCallback_ok _ _ s);
      [destruct (invoke _ _ _ _ _) eqn:Hinv; cbn; by eapply invoke_spec | done.. | eauto with go |].
    intros tr'. apply afterComplete_ok; [done..| eauto with go |]. unfold src. rewrite Hst. cbn. lia. }
  destruct (headersComplete s tr) as [[q tr'] ok] eqn:E.
  apply headersComplete_ok in E as (Hwq & Hsq & Hq); [..|done|done|done|done|auto].
  assert (static p q) by by etrans.
  destruct ok; cbn.
  - destruct (is_stateUpgrade (state q)) eqn:Hu; cbn.
    + split_and!; [done|done|eauto with go|]. right. by destruct (state q).
    + split_and!; [done|done|by destruct (state q)|done|eauto with go|].
      unfold src. rewrite Hst. cbn. destruct (state q); cbn; lia.
  - apply (ret_ok p src q tr' rest); [apply Hwq | done | done | unfold src; eauto with go].
Qed.
End BodyCases.

(** ** The loop *)

Lemma parseSwitch_ok p tr b rest :
  wf p -> p.(code) = CodeNone -> p.(paused) = false -> iter_ok p (b :: rest) (parseSwitch p tr b rest).
Proof.
  intros Hwf Hn Hp. pose proof Hwf as (Hw & Hs & Hph). unfold parseSwitch, wfs in *.
  destruct (state p) eqn:Hst.
  - by apply caseStart_ok.
  - by apply caseLeadingLF_ok.
  - by apply caseReqMethod_ok.
  - by apply caseReqTarget_ok.
  - apply caseHTTP_ok; auto. apply Hs.
  - by apply caseVersionMajor_ok.
  - by apply caseVersionDot_ok.
  - by apply caseVersionMinor_ok.
  - by apply caseReqLineCR_ok.
  - apply caseLineLF_ok; auto.
  - apply caseHTTP_ok; auto. apply Hs.
  - by apply caseResSpaceBeforeStatus_ok.
  - apply caseResStatus_ok; auto. apply Hs.
  - by apply caseResReasonStart_ok.
  - by apply caseResReason_ok.
  - apply caseLineLF_ok; auto.
  - by apply caseHeaderStart_ok.
  - by apply caseHeaderName_ok.
  - by apply caseHeaderValueStart_ok.
  - by apply caseHeaderValue_ok.
  - by apply caseHeaderValueLF_ok.
  - by apply caseHeadersLF_ok.
  - by apply caseFixedBody_ok.
  - by apply caseCloseBody_ok.
  - by apply caseChunkSizeStart_ok.
  - by apply caseChunkSize_ok.
  - by apply caseChunkExt_ok.
  - by apply caseChunkSizeLF_ok.
  - by apply caseChunkBody_ok.
  - by apply caseChunkBodyCR_ok.
  - by apply caseChunkBodyLF_ok.
  - apply retFail_ok; eauto with go; done.
  - done.
Qed.

(** What a run returns. *)
Definition result_ok (o : Outcome) : Prop :=
  let q := o.(outParser) in
  (o.(outCode) = CodeNone /\ q.(code) = CodeNone /\ q.(state) <> stateUpgrade /\
   (o.(outRest) = [] \/ q.(paused) = true)) \/
  (q.(code) <> CodeNone /\ o.(outCode) = q.(code)) \/
  (q.(code) = CodeNone /\ q.(state) = stateUpgrade /\ o.(outCode) = CodeUpgrade).

Definition outcome_ok (p : Parser) (src : list Z) (o : Outcome) : Prop :=
  wf o.(outParser) /\ static p o.(outParser) /\ (exists pre, src = pre ++ o.(outRest)) /\ result_ok o.

Lemma outcome_ok_step p src q rest o :
  static p q -> (exists pre, src = pre ++ rest) -> outcome_ok q rest o -> outcome_ok p src o.
Proof.
  intros Hst [pre ->] (? & ? & [pre' ->] & ?). split_and!; [done | by etrans | | done].
  exists (pre ++ pre'). by rewrite <- app_assoc.
Qed.

(** With [2 * length src + rank] turns the loop returns, and its outcome is
    well formed. *)
Lemma parseLoop_ok fuel p tr src :
  wf p -> p.(code) = CodeNone -> p.(state) <> stateUpgrade ->
  (2 * length src + rank p.(state) < fuel + 2)%nat ->
  exists o, parseLoop fuel p tr src = Some o /\ outcome_ok p src o.
Proof.
  revert p tr src. induction fuel as [|fuel IH]; intros p tr [|b rest] Hwf Hn Hu Hfuel; cbn [parseLoop].
  1, 3: eexists; split; [done|]; split_and!; [apply Hwf..|done|by exists []|by left; auto].
  - cbn in Hfuel. lia.
  - destruct (paused p) eqn:Hp.
    { eexists. split; [done|]. split_and!; [apply Hwf..|done|by exists []|left; auto]. }
    pose proof (parseSwitch_ok p tr b rest Hwf Hn Hp) as Hi.
    destruct (parseSwitch p tr b rest) as [q tr' r | q tr' r c]; cbn [iter_ok] in Hi.
    + destruct Hi as (Hwq & Hnq & Huq & Hst & Hsuf & Hlt).
      destruct (IH q tr' r Hwq Hnq Huq ltac:(lia)) as (o & Ho & Hok). exists o. split; [done|].
      by eapply outcome_ok_step.
    + destruct Hi as (Hwq & Hst & Hsuf & Hr). eexists. split; [done|]. split_and!; try done. by right.
Qed.

Lemma parse_ok p tr src :
  wf p -> exists o, parse p tr src = Some o /\ outcome_ok p src o.
Proof.
  intros Hwf. unfold parse. destruct (is_none_spec (code p)) as [Hn|Hn]; cbn.
  - destruct (is_stateUpgrade (state p)) eqn:Hu.
    + eexists. split; [done|]. split_and!; [apply Hwf..|done|by exists []|].
      right. right. cbn. by destruct (state p).
    + apply parseLoop_ok; [done|done|by destruct (state p)|]. unfold parseFuel. destruct (state p); cbn; lia.
  - eexists. split; [done|]. split_and!; [apply Hwf..|done|by exists []|]. right. by left.
Qed.

(** ** The public methods *)

Lemma wf_idle p b1 b2 b3 :
  wf p -> p.(messageActive) = false \/ b3 = false ->
  (p.(state) = stateLeadingLF -> b3 = false) ->
  wf (p <| parsing := b1 |> <| pauseAfterMessage := b2 |> <| paused := b3 |>).
Proof.
  intros (Hw & Hs & Hph) Hb Hl. split_and!; [|exact Hs|].
  - unfold wfc in *. destruct_and!. split_and!; try done. unfold pause_ok. cbn.
    destruct Hb as [-> | ->]; [apply andb_false_r | done].
  - unfold phase_ok in *. cbn. destruct (state p); try done. split_and!; [apply Hph..|auto].
Qed.

Lemma wf_parsing p b : wf p -> wf (p <| parsing := b |>).
Proof. done. Qed.

Lemma fail_wf p c : c <> CodeNone -> wf p -> wf (fail p c).
Proof.
  intros Hc Hw. unfold fail. destruct (is_none_spec (code p)); [|done].
  apply dead_wf; [apply Hw | done].
Qed.

Lemma normalized_ok l : limits_typed l -> limits_ok (normalized l).
Proof.
  assert (forall v d m, 0 <= v <= m -> 0 < d <= m -> 0 < or_default v d <= m) as Hd.
  { intros v d m Hv Hd. unfold or_default. destruct (Z.eqb_spec v 0); lia. }
  unfold limits_typed, limits_ok, in_u16, in_u32, in_u64, MaxUint16, MaxUint32, MaxUint64.
  intros (?&?&?&?&?&?&?&?). repeat (apply conj; [apply Hd|]); [..|apply Hd]; try done;
    unfold defaultMaxStartLineBytes, defaultMaxHeaderBytes, defaultMaxChunkLineBytes, defaultMaxChunks,
      defaultMaxChunkMetadataBytes, defaultMaxHeaderNameBytes, defaultMaxHeaders, defaultMaxBodyBytes; by split.
Qed.

Lemma zeroParser_wf k cb l : limits_ok l -> wf (zeroParser k cb l).
Proof.
  intros Hl. split_and!; [|done|done]. wfc_unfold. cbn. destruct_and!. split_and!; try done; lia.
Qed.

Lemma Init_wf p k cb l : (p.(parsing) = true -> wf p) -> limits_typed l -> wf (Init p k cb l).
Proof.
  intros Hp Hl. unfold Init. destruct (parsing p); [by apply fail_wf; auto|].
  pose proof (zeroParser_wf k cb _ (normalized_ok _ Hl)). destruct k; [done|done|by apply fail_wf].
Qed.

Lemma limits_ok_typed l : limits_ok l -> limits_typed l.
Proof. unfold limits_ok, limits_typed, in_u16, in_u32, in_u64. intros. destruct_and!. split_and!; lia. Qed.

Lemma Reset_wf p : wf p -> wf (Reset p).
Proof.
  intros Hw. unfold Reset. destruct (parsing p) eqn:Hp; [by apply fail_wf|].
  apply Init_wf; [done|]. apply limits_ok_typed, Hw.
Qed.

Lemma SetResponseContext_wf p h c : wf p -> wf (SetResponseContext p h c).
Proof. intros Hw. unfold SetResponseContext. destruct (parsing p); [by apply fail_wf | exact Hw]. Qed.

(** The state of a run at its first turn. *)
Definition started (p : Parser) (pause : bool) : Parser :=
  p <| parsing := true |> <| pauseAfterMessage := pause |> <| paused := false |>.

Definition stopped (p : Parser) : Parser := p <| pauseAfterMessage := false |> <| parsing := false |>.

Lemma started_wf p pause : wf p -> wf (started p pause).
Proof. intros. apply wf_idle; auto. Qed.

Lemma stopped_wf p : wf p -> wf (stopped p).
Proof. done. Qed.

(** A run of an idle parser: it returns, the parser is well formed, idle
    again, and configured as before. *)
Lemma runParse_ok p tr src pause :
  wf p -> p.(parsing) = false ->
  exists o, runParse p tr src pause = Some o /\
    wf o.(outParser) /\ o.(outParser).(parsing) = false /\
    o.(outParser).(limits) = p.(limits) /\ o.(outParser).(kind) = p.(kind) /\
    o.(outParser).(callbacks) = p.(callbacks) /\
    (exists pre, src = pre ++ o.(outRest)) /\ result_ok o /\
    (o.(outParser).(paused) = true -> pause = true).
Proof.
  intros Hw Hp. unfold runParse. rewrite Hp.
  destruct (parse_ok (started p pause) tr src (started_wf p pause Hw)) as (o & Ho & Hwo & Hst & Hsuf & Hres).
  unfold started in *. rewrite Ho. eexists. split; [done|]. cbn.
  destruct Hst as (Hl & Hk & Hc & Hpa & _ & Hpf). split_and!; try done.
  apply Hpf; [done|]. by rewrite Hpa.
Qed.

Lemma Finish_wf p tr q tr' c : wf p -> Finish p tr = (q, tr', c) -> wf q.
Proof.
  intros Hw. unfold Finish. destruct (parsing p); [intros [= <- <- <-]; by apply fail_wf|].
  destruct (is_none_spec (code p)) as [Hn|Hn]; cbn; [|by intros [= <- <- <-]].
  destruct (is_stateUpgrade (state p)); [by intros [= <- <- <-]|].
  destruct (is_stateCloseBody (state p)).
  { destruct (completeMessage _ tr) as [r tr0] eqn:E. intros [= <- <- <-]. apply wf_parsing.
    apply completeMessage_ok in E as [Hf | ->]; [by eapply failed_wf | | apply Hw | done].
    apply completed_wf; [apply Hw | done]. }
  destruct (is_stateStart (state p) && negb (messageActive p)); intros [= <- <- <-]; [done|].
  apply wf_parsing, (fail_wf (p <| parsing := true |>)); done.
Qed.
