(* ===== verification/Http1Stream.v ===== *)
(** * HTTP/1 parser: independence of how the input is cut

    A connection hands the parser its bytes in pieces of arbitrary sizes.  With
    callbacks that do not call back into the parser, every cut of the input
    gives the same final parser, the same unread suffix and the same code, and
    delivers the same events up to the cutting of the spans themselves. *)

From S2P Require Import Prelude Http1Types Http1Fields Http1Parser Http1Wf.

(** ** Events up to the cutting of spans *)

(** Put an event on a trace, joining it to a span of the same kind. *)
Definition push (e : Event) (t : Trace) : Trace :=
  match e, t with
  | EvSpan k bs, EvSpan k' bs' :: u => if decide (k = k') then EvSpan k (bs' ++ bs) :: u else e :: t
  | _, _ => e :: t
  end.

Fixpoint coalesce (t : Trace) : Trace :=
  match t with [] => [] | e :: t => push e (coalesce t) end.

(** Traces that deliver the same bytes. *)
Definition same_events (t u : Trace) : Prop := coalesce t = coalesce u.

#[export] Instance same_events_equiv : Equivalence same_events.
Proof. unfold same_events. split; red; congruence. Qed.

Lemma same_events_cons e t u : same_events t u -> same_events (e :: t) (e :: u).
Proof. unfold same_events. by cbn; intros ->. Qed.

Lemma same_events_merge k x y t u :
  same_events t u -> same_events (EvSpan k y :: EvSpan k x :: t) (EvSpan k (x ++ y) :: u).
Proof.
  unfold same_events. cbn. intros ->. destruct (coalesce u) as [|[] v]; cbn; rewrite ?decide_True by done; try done.
  destruct (decide (k = k0)) as [<-|Hne]; cbn; rewrite decide_True by done; [by rewrite <- app_assoc|done].
Qed.

(** ** Callbacks that do not re-enter *)

Definition never {A} (c : Callback A) : Prop :=
  match c with Some f => forall tr a, f tr a = false | None => True end.

(** No callback re-enters the parser, and the response context depends on the
    exchange number only. *)
Definition quiet (cb : option Callbacks) : Prop :=
  match cb with
  | None => True
  | Some c =>
      match c.(cbResponseContext) with
      | Some f => forall tr tr' n, f tr n = f tr' n /\ (f tr n).2 = false
      | None => True
      end /\
      never c.(cbMessageBegin) /\ never c.(cbMethod) /\ never c.(cbTarget) /\ never c.(cbReason) /\
      never c.(cbStartLine) /\ never c.(cbHeaderName) /\ never c.(cbHeaderValue) /\
      never c.(cbHeaderEnd) /\ never c.(cbHeadersComplete) /\ never c.(cbChunkHeader) /\
      never c.(cbBody) /\ never c.(cbChunkComplete) /\ never c.(cbMessageComplete)
  end.

(** The event of a callback that is set. *)
Definition emit {A B} (F : Callbacks -> option A) (p : Parser) (mk : B -> Event) (a : B) (tr : Trace) : Trace :=
  match getCallback F p with Some _ => mk a :: tr | None => tr end.

Definition emitSpan (F : Callbacks -> Callback (list Z)) (k : SpanKind) (p : Parser) (bytes : list Z) (tr : Trace) : Trace :=
  match bytes with [] => tr | _ => emit F p (EvSpan k) bytes tr end.

Definition quietly {A} (F : Callbacks -> Callback A) (p : Parser) : Prop :=
  match p.(callbacks) with Some c => never (F c) | None => True end.

Lemma invoke_quiet {A} (F : Callbacks -> Callback A) mk a p tr :
  quietly F p -> invoke F mk a p tr = (p, emit F p mk a tr).
Proof.
  unfold quietly, invoke, emit, getCallback. destruct (callbacks p) as [c|]; [|done].
  destruct (F c); [|done]. by intros ->.
Qed.

Lemma invokeSpan_quiet F k bytes p tr :
  quietly F p -> invokeSpan F k bytes p tr = (p, emitSpan F k p bytes tr).
Proof. intros H. unfold invokeSpan, emitSpan. destruct bytes; [done|]. by apply invoke_quiet. Qed.

Lemma emit_same {A B} (F : Callbacks -> option A) p (mk : B -> Event) a t u :
  same_events t u -> same_events (emit F p mk a t) (emit F p mk a u).
Proof. unfold emit. destruct (getCallback F p); [apply same_events_cons|done]. Qed.

Lemma emitSpan_same F k p bytes t u :
  same_events t u -> same_events (emitSpan F k p bytes t) (emitSpan F k p bytes u).
Proof. unfold emitSpan. destruct bytes; [done|apply emit_same]. Qed.

Lemma emit_callbacks {A B} (F : Callbacks -> option A) p q (mk : B -> Event) a t :
  q.(callbacks) = p.(callbacks) -> emit F q mk a t = emit F p mk a t.
Proof. unfold emit, getCallback. by intros ->. Qed.

Lemma emitSpan_callbacks F k p q bytes t :
  q.(callbacks) = p.(callbacks) -> emitSpan F k q bytes t = emitSpan F k p bytes t.
Proof. intros. unfold emitSpan. destruct bytes; [done|]. by apply emit_callbacks. Qed.

(** Two consecutive spans are one. *)
Lemma emitSpan_merge F k p x y t u :
  same_events t u -> same_events (emitSpan F k p y (emitSpan F k p x t)) (emitSpan F k p (x ++ y) u).
Proof.
  intros H. destruct x as [|b x]; [by apply emitSpan_same|].
  destruct y as [|c y]; [rewrite app_nil_r; exact (emitSpan_same F k p (b :: x) _ _ H)|].
  unfold emitSpan, emit. cbn [app]. destruct (getCallback F p); [|done].
  by apply (same_events_merge k (b :: x) (c :: y)).
Qed.

(** ** One turn on a piece and on a longer input *)

(** The turn [I] on a piece and the turn [W] on the piece followed by [s] end
    alike. *)
Definition iter_rel (s : list Z) (I W : Iter) : Prop :=
  match I, W with
  | Next q tr r, Next q' tr' r' => q' = q /\ same_events tr tr' /\ r' = r ++ s
  | Return q tr r c, Return q' tr' r' c' => q' = q /\ same_events tr tr' /\ r' = r ++ s /\ c' = c
  | _, _ => False
  end.

Section Combinators.
Context (s : list Z).

Lemma next_rel q tr tr' r : same_events tr tr' -> iter_rel s (Next q tr r) (Next q tr' (r ++ s)).
Proof. intros. by split_and!. Qed.

Lemma ret_rel q tr tr' r : same_events tr tr' -> iter_rel s (ret q tr r) (ret q tr' (r ++ s)).
Proof. intros. by split_and!. Qed.

Lemma ret_rel_nil q tr tr' r : same_events tr tr' -> iter_rel [] (ret q tr r) (ret q tr' r).
Proof. intros. split_and!; try done. by rewrite app_nil_r. Qed.

Lemma retFail_rel q tr tr' r c :
  same_events tr tr' -> iter_rel s (retFail q tr r c) (retFail q tr' (r ++ s) c).
Proof. intros. by split_and!. Qed.

Lemma andThen_rel q o tr tr' r (k k' : Parser -> Iter) :
  op_ok q o -> same_events tr tr' ->
  (forall t, t.(callbacks) = q.(callbacks) -> iter_rel s (k t) (k' t)) ->
  iter_rel s (andThen o tr r k) (andThen o tr' (r ++ s) k').
Proof.
  intros (_ & Hc & _) HR Hk. unfold andThen. destruct o as [t []]; [apply Hk, Hc | by apply ret_rel].
Qed.

Lemma afterCallback_rel q tr tr' r (k k' : Parser -> Trace -> Iter) :
  same_events tr tr' -> (forall u u', same_events u u' -> iter_rel s (k q u) (k' q u')) ->
  iter_rel s (afterCallback (q, tr) r k) (afterCallback (q, tr') (r ++ s) k').
Proof. intros HR Hk. unfold afterCallback. destruct (is_none (code q)); [by apply Hk | by apply ret_rel]. Qed.
End Combinators.

Lemma next_rel_nil q tr tr' r : same_events tr tr' -> iter_rel [] (Next q tr r) (Next q tr' r).
Proof. intros. split_and!; try done. by rewrite app_nil_r. Qed.

Lemma afterCallback_rel_nil q tr tr' r (k k' : Parser -> Trace -> Iter) :
  same_events tr tr' -> (forall u u', same_events u u' -> iter_rel [] (k q u) (k' q u')) ->
  iter_rel [] (afterCallback (q, tr) r k) (afterCallback (q, tr') r k').
Proof.
  intros HR Hk. pose proof (afterCallback_rel [] q tr tr' r k k' HR Hk) as H. by rewrite app_nil_r in H.
Qed.

(** A turn on a piece is the turn on the longer input, or it stopped for want
    of input in the middle of a loop which the next turn resumes. *)
Definition resumes (I W : Iter) : Prop :=
  iter_rel [] I W \/
  exists q tr tr' r c k bs,
    I = Return q tr r c /\ W = Return q tr' r c /\ q.(code) <> CodeNone /\
    same_events tr (EvSpan k bs :: tr').

Definition frag (s : list Z) (I W : Iter) : Prop :=
  iter_rel s I W \/
  exists q tr c s', I = Next q tr [] /\ s = c :: s' /\ resumes (parseSwitch q tr c s') W.

(** A loop over a cut input. *)
Lemma forBytes_app g f p src s q rest ok :
  forBytes g f p src = ((q, rest), ok) ->
  forBytes g f p (src ++ s) =
    (if ok && (length rest =? 0)%nat then forBytes g f q s else ((q, rest ++ s), ok)).
Proof.
  revert p. induction src as [|b src IH]; intros p; cbn [forBytes app].
  { by intros [= <- <- <-]. }
  destruct (g p b); [|by intros [= <- <- <-]].
  destruct (f p b) as [p' []]; [apply IH | by intros [= <- <- <-]].
Qed.

Lemma span_app_r {A} (x y r : list A) : (length r <= length y)%nat -> span (x ++ y) r = x ++ span y r.
Proof.
  intros H. unfold span. rewrite length_app.
  replace (length x + length y - length r)%nat with (length x + (length y - length r))%nat by lia.
  apply firstn_app_2.
Qed.

Lemma span_nil_r {A} (x : list A) : span x [] = x.
Proof. pose proof (span_app x []) as H. by rewrite app_nil_r in H. Qed.

Lemma span_app_both {A} (pre r s : list A) : span ((pre ++ r) ++ s) (r ++ s) = span (pre ++ r) r.
Proof. rewrite <- app_assoc. by rewrite !span_app. Qed.

(** ** Loops that deliver what they consumed *)

Definition spanLoop (g : Parser -> Z -> bool) (f : Parser -> Z -> Parser * bool)
    (F : Callbacks -> Callback (list Z)) (K : SpanKind) (fin : Parser -> Trace -> Z -> list Z -> Iter)
    (p : Parser) (tr : Trace) (src : list Z) : Iter :=
  afterLoop (forBytes g f p src) tr (fun p rest =>
  afterCallback (invokeSpan F K (span src rest) p tr) rest (fun p tr =>
    match rest with [] => Next p tr [] | b :: rest' => fin p tr b rest' end)).

Section SpanLoop.
Context (g : Parser -> Z -> bool) (f : Parser -> Z -> Parser * bool).
Context (F : Callbacks -> Callback (list Z)) (K : SpanKind) (fin : Parser -> Trace -> Z -> list Z -> Iter).
Context (Hf : forall p b, g p b = true -> op_ok p (f p b)).

Lemma forBytes_facts p src q rest ok :
  p.(code) = CodeNone -> forBytes g f p src = ((q, rest), ok) ->
  q.(callbacks) = p.(callbacks) /\ (exists pre, src = pre ++ rest) /\
  (if ok then q.(code) = CodeNone /\ q.(state) = p.(state) else q.(code) <> CodeNone).
Proof.
  intros Hn H. destruct (forBytes_ok _ _ _ _ Hf _ _ _ H) as ((_ & Hc & Hr) & Hsuf & _). cbn in *.
  split_and!; [apply Hc | done |]. destruct ok.
  - destruct Hr as [-> ->]. done.
  - by destruct (Hr Hn).
Qed.

Context (p : Parser) (Hn : p.(code) = CodeNone) (Hq : quietly F p).
Context (Hfin : forall s q u u' c r, q.(callbacks) = p.(callbacks) -> same_events u u' ->
  iter_rel s (fin q u c r) (fin q u' c (r ++ s))).

Lemma quietly_callbacks {A} (G : Callbacks -> Callback A) q q' :
  q'.(callbacks) = q.(callbacks) -> quietly G q -> quietly G q'.
Proof. unfold quietly. by intros ->. Qed.

(** The loop resumed on [c :: s'] after it consumed [pre]. *)
Lemma spanLoop_resumes q pre c s' tr tr' :
  q.(code) = CodeNone -> q.(callbacks) = p.(callbacks) -> same_events tr tr' ->
  resumes (spanLoop g f F K fin q (emitSpan F K q pre tr) (c :: s'))
          (afterLoop (forBytes g f q (c :: s')) tr' (fun p rest =>
             afterCallback (invokeSpan F K (span (pre ++ c :: s') rest) p tr') rest (fun p tr =>
               match rest with [] => Next p tr [] | b :: rest' => fin p tr b rest' end))).
Proof.
  intros Hnq Hcq HR. unfold spanLoop.
  destruct (forBytes g f q (c :: s')) as [[q2 r2] ok] eqn:E.
  destruct (forBytes_facts _ _ _ _ _ Hnq E) as (Hc2 & Hsuf & Hr2). unfold afterLoop.
  assert (q2.(callbacks) = p.(callbacks)) as Hc2' by (by rewrite Hc2).
  destruct ok.
  - left. destruct Hr2 as [Hn2 _].
    rewrite !invokeSpan_quiet by (by eapply quietly_callbacks).
    rewrite span_app_r by (by apply suffix_length).
    rewrite (emitSpan_callbacks F K q2 q) by (by rewrite Hc2).
    pose proof (emitSpan_merge F K q2 pre (span (c :: s') r2) _ _ HR) as HM.
    apply afterCallback_rel_nil; [exact HM|].
    intros u u' HR'. destruct r2 as [|b2 r2]; [by apply (next_rel [])|].
    pose proof (Hfin [] q2 u u' b2 r2 Hc2' HR') as HF. by rewrite app_nil_r in HF.
  - unfold ret, emitSpan, emit. destruct pre as [|b pre]; [by left; apply ret_rel_nil|].
    destruct (getCallback F q); [right | left].
    + do 7 eexists. split_and!; [done | done | done |]. by apply same_events_cons.
    + by apply ret_rel_nil.
Qed.

Lemma spanLoop_frag b rest s tr tr' :
  same_events tr tr' ->
  (forall q u c s', forBytes g f p (b :: rest) = ((q, []), true) ->
     parseSwitch q u c s' = spanLoop g f F K fin q u (c :: s')) ->
  frag s (spanLoop g f F K fin p tr (b :: rest)) (spanLoop g f F K fin p tr' (b :: rest ++ s)).
Proof.
  intros HR Hres. unfold spanLoop at 1 2. change (b :: rest ++ s) with ((b :: rest) ++ s).
  destruct (forBytes g f p (b :: rest)) as [[q r] ok] eqn:E.
  destruct (forBytes_facts _ _ _ _ _ Hn E) as (Hc & [pre Hsuf] & Hr).
  rewrite (forBytes_app _ _ _ _ _ _ _ _ E). destruct ok; cbn [andb].
  2: { left. by apply ret_rel. }
  destruct Hr as [Hnq _]. destruct r as [|c r]; cbn [length Nat.eqb].
  - destruct s as [|c s'].
    + left. cbn [forBytes]. unfold afterLoop. rewrite app_nil_r, !invokeSpan_quiet by (by eapply quietly_callbacks).
      unfold afterCallback. rewrite Hnq. apply (next_rel []). by apply emitSpan_same.
    + right. exists q, (emitSpan F K q (b :: rest) tr), c, s'. unfold afterLoop at 1.
      rewrite invokeSpan_quiet by (by eapply quietly_callbacks). unfold afterCallback at 1. rewrite Hnq.
      split_and!; [|done|].
      * rewrite (span_nil_r (b :: rest)). done.
      * rewrite Hres by done. by apply spanLoop_resumes.
  - left. unfold afterLoop. rewrite Hsuf, span_app_both, !invokeSpan_quiet by (by eapply quietly_callbacks).
    apply afterCallback_rel; [by apply emitSpan_same|]. intros u u' HR'. by apply Hfin.
Qed.
End SpanLoop.

(** ** Loops that deliver nothing *)

Definition plainLoop (g : Parser -> Z -> bool) (f : Parser -> Z -> Parser * bool)
    (k : Trace -> Parser -> list Z -> Iter) (p : Parser) (tr : Trace) (src : list Z) : Iter :=
  afterLoop (forBytes g f p src) tr (k tr).

Section PlainLoop.
Context (g : Parser -> Z -> bool) (f : Parser -> Z -> Parser * bool).
Context (k : Trace -> Parser -> list Z -> Iter) (p : Parser) (tr tr' : Trace).
Context (HR : same_events tr tr').
Context (Hk : forall s q c r, iter_rel s (k tr q (c :: r)) (k tr' q (c :: r ++ s))).
Context (Hk0 : forall q, iter_rel [] (k tr q []) (k tr' q [])).

(** At the end of the piece the loop either waits for input in the same state
    or is finished. *)
Lemma plainLoop_frag b rest s :
  (forall q, forBytes g f p (b :: rest) = ((q, []), true) ->
     (k tr q [] = Next q tr [] /\
      forall c s', parseSwitch q tr c s' = plainLoop g f k q tr (c :: s')) \/
     (forBytes g f q s = ((q, s), true) /\ iter_rel s (k tr q []) (k tr' q s))) ->
  frag s (plainLoop g f k p tr (b :: rest)) (plainLoop g f k p tr' (b :: rest ++ s)).
Proof.
  intros Hend. unfold plainLoop at 1 2. change (b :: rest ++ s) with ((b :: rest) ++ s).
  destruct (forBytes g f p (b :: rest)) as [[q r] ok] eqn:E.
  rewrite (forBytes_app _ _ _ _ _ _ _ _ E). destruct ok; cbn [andb].
  2: { left. by apply ret_rel. }
  destruct r as [|c r]; cbn [length Nat.eqb]; [|left; by apply Hk].
  destruct (Hend q eq_refl) as [[Hnext Hres] | [-> Hrel]]; [|by left].
  destruct s as [|c s'].
  - left. cbn [forBytes afterLoop]. apply Hk0.
  - right. exists q, tr, c, s'. split_and!; [done|done|]. rewrite Hres. left. unfold plainLoop.
    destruct (forBytes g f q (c :: s')) as [[q2 r2] []]; unfold afterLoop; [|by apply ret_rel_nil].
    destruct r2 as [|c2 r2]; [apply Hk0|]. pose proof (Hk [] q2 c2 r2) as H. by rewrite app_nil_r in H.
Qed.
End PlainLoop.

(** ** Message-level operations with quiet callbacks *)

(** What the operation does to the parser does not depend on the trace. *)
Definition uniform {A} (op : Trace -> A * Trace) : Prop :=
  exists (r : A) (E : Trace -> Trace), (forall tr, op tr = (r, E tr)) /\
    (forall t u, same_events t u -> same_events (E t) (E u)).

Lemma uniform_id {A} (a : A) : uniform (fun tr => (a, tr)).
Proof. by exists a, (fun tr => tr). Qed.

Lemma uniform_event {A} (a : A) e : uniform (fun tr => (a, e :: tr)).
Proof. exists a, (cons e). split; [done|]. intros. by apply same_events_cons. Qed.

Lemma uniform_bind {A B} (op : Trace -> A * Trace) (k : A -> Trace -> B * Trace) :
  uniform op -> (forall a, (exists tr tr', op tr = (a, tr')) -> uniform (k a)) ->
  uniform (fun tr => let (a, tr) := op tr in k a tr).
Proof.
  intros (r & E & Hop & HE) Hk.
  destruct (Hk r) as (r' & E' & Hop' & HE'). { by exists [], (E []). }
  exists r', (fun tr => E' (E tr)). split; [intros tr; by rewrite Hop | auto].
Qed.

Section Quiet.
Context (p : Parser) (Hquiet : quiet p.(callbacks)).

Ltac solve_quietly :=
  unfold quietly; unfold quiet in Hquiet;
  let c := fresh in destruct (callbacks p) as [c|]; [|done]; destruct_and!; assumption.

Lemma quiet_Method : quietly cbMethod p. Proof. solve_quietly. Qed.
Lemma quiet_Target : quietly cbTarget p. Proof. solve_quietly. Qed.
Lemma quiet_Reason : quietly cbReason p. Proof. solve_quietly. Qed.
Lemma quiet_HeaderName : quietly cbHeaderName p. Proof. solve_quietly. Qed.
Lemma quiet_HeaderValue : quietly cbHeaderValue p. Proof. solve_quietly. Qed.
Lemma quiet_Body : quietly cbBody p. Proof. solve_quietly. Qed.
Lemma quiet_MessageBegin : quietly cbMessageBegin p. Proof. solve_quietly. Qed.
Lemma quiet_StartLine : quietly cbStartLine p. Proof. solve_quietly. Qed.
Lemma quiet_HeaderEnd : quietly cbHeaderEnd p. Proof. solve_quietly. Qed.
Lemma quiet_HeadersComplete : quietly cbHeadersComplete p. Proof. solve_quietly. Qed.
Lemma quiet_ChunkHeader : quietly cbChunkHeader p. Proof. solve_quietly. Qed.
Lemma quiet_ChunkComplete : quietly cbChunkComplete p. Proof. solve_quietly. Qed.
Lemma quiet_MessageComplete : quietly cbMessageComplete p. Proof. solve_quietly. Qed.

Lemma invoke_uniform {A} (F : Callbacks -> Callback A) mk a :
  quietly F p -> uniform (invoke F mk a p).
Proof.
  intros H. exists p, (emit F p mk a). split; [intros; by apply invoke_quiet|].
  intros. by apply emit_same.
Qed.

Lemma queryResponseContext_uniform : uniform (queryResponseContext p).
Proof.
  unfold queryResponseContext. destruct (is_Response (kind p)); [|apply uniform_id].
  unfold getCallback. unfold quiet in Hquiet. destruct (callbacks p) as [c|]; [|apply uniform_id].
  destruct (cbResponseContext c) as [f|]; [|apply uniform_id]. destruct Hquiet as [Hf _].
  pose proof (fun tr => proj1 (Hf tr [] (exchangeNum p))) as Hf0.
  pose proof (proj2 (Hf [] [] (exchangeNum p))) as Hf1.
  destruct (f [] (exchangeNum p)) as [[h c'] re] eqn:E. cbn in Hf1. subst re.
  destruct (uniform_event (p <| responseToHEAD := h |> <| responseToCONNECT := c' |>)
             (EvResponseContext (exchangeNum p))) as (r & E' & H1 & H2).
  exists r, E'. split; [|done]. intros tr. rewrite Hf0. apply H1.
Qed.
End Quiet.

Lemma uniform_if {A} (c : bool) (op op' : Trace -> A * Trace) :
  uniform op -> uniform op' -> uniform (fun tr => if c then op tr else op' tr).
Proof. by destruct c. Qed.

Lemma beginMessage_uniform p : quiet p.(callbacks) -> uniform (beginMessage p).
Proof.
  intros Hq. unfold beginMessage. apply uniform_bind; [by apply queryResponseContext_uniform|].
  intros q (tr & tr' & E). apply uniform_if; [apply uniform_id|].
  apply invoke_uniform, quiet_MessageBegin. change (quiet (callbacks q)).
  replace (callbacks q) with (callbacks p); [done|].
  unfold queryResponseContext in E. destruct (is_Response (kind p)); [|by simplify_eq].
  destruct (getCallback cbResponseContext p) as [f|]; [|by simplify_eq].
  destruct (f tr (exchangeNum p)) as [[h c] []]; simplify_eq; [|done].
  cbn. symmetry. apply (fail_static p CodeReentrantCall).
Qed.

Lemma startLineComplete_uniform p : quiet p.(callbacks) -> uniform (startLineComplete p).
Proof.
  intros Hq. unfold startLineComplete. apply uniform_bind; [by apply invoke_uniform, quiet_StartLine|].
  intros q _. apply uniform_if; apply uniform_id.
Qed.

Lemma completeMessage_uniform p : quiet p.(callbacks) -> uniform (completeMessage p).
Proof.
  intros Hq. unfold completeMessage. apply uniform_bind; [by apply invoke_uniform, quiet_MessageComplete|].
  intros q _. apply uniform_if; apply uniform_id.
Qed.

(** [headersComplete] with its answer beside the parser. *)
Definition answer (r : (Parser * Trace) * bool) : (Parser * bool) * Trace := ((r.1.1, r.2), r.1.2).

Lemma completeMessage_answer p (after : Parser -> Parser) : quiet p.(callbacks) ->
  uniform (fun tr => answer (let (p, tr) := completeMessage p tr in
    if negb (is_none p.(code)) then ((p, tr), false) else ((after p, tr), true))).
Proof.
  intros Hq. destruct (completeMessage_uniform p Hq) as (r & E & H1 & H2).
  exists (if negb (is_none (code r)) then (r, false) else (after r, true)), E. split; [|done].
  intros tr. rewrite H1. by destruct (negb _).
Qed.

Lemma uniform_answer q ok : uniform (fun tr => answer ((q, tr), ok)).
Proof. exact (uniform_id (q, ok)). Qed.

Lemma selectBody_uniform p : quiet p.(callbacks) -> uniform (fun tr => answer (selectBody p tr)).
Proof.
  intros Hq. unfold selectBody.
  destruct (is_Response (kind p) && responseHasNoBody p).
  { by apply (completeMessage_answer p (fun q => if switchesProtocol p then q <| state := stateUpgrade |> else q)). }
  destruct (hasTransferEncoding p); [destruct (transferChunked p); apply uniform_answer|].
  destruct (hasContentLength p).
  - destruct (_ <? _); [apply uniform_answer|].
    destruct (remaining p =? 0); [by apply (completeMessage_answer p (fun q => q)) | apply uniform_answer].
  - destruct (is_Request (kind p)); [by apply (completeMessage_answer p (fun q => q)) | apply uniform_answer].
Qed.

Lemma headersComplete_uniform p : quiet p.(callbacks) -> uniform (fun tr => answer (headersComplete p tr)).
Proof.
  intros Hq. unfold headersComplete. destruct (headersError p); [apply uniform_answer|].
  destruct (invoke_uniform p cbHeadersComplete EvHeadersComplete (message p) (quiet_HeadersComplete p Hq))
    as (r & E & H1 & H2).
  pose proof (invoke_quiet cbHeadersComplete EvHeadersComplete (message p) p [] (quiet_HeadersComplete p Hq)) as H0.
  rewrite H1 in H0. injection H0 as -> _.
  destruct (is_none (code p)) eqn:Hn.
  - destruct (selectBody_uniform p Hq) as (r' & E' & H1' & H2').
    exists r', (fun tr => E' (E tr)). split; [|auto]. intros tr. rewrite H1, Hn. apply H1'.
  - exists (p, false), E. split; [|done]. intros tr. rewrite H1, Hn. done.
Qed.

Lemma afterCallback_uniform s (op : Trace -> Parser * Trace) tr tr' r (k k' : Parser -> Trace -> Iter) :
  uniform op -> same_events tr tr' ->
  (forall q u u' v, op v = (q, (op v).2) -> same_events u u' -> iter_rel s (k q u) (k' q u')) ->
  iter_rel s (afterCallback (op tr) r k) (afterCallback (op tr') (r ++ s) k').
Proof.
  intros (q & E & Hop & HE) HR Hk. rewrite !Hop. apply afterCallback_rel; [by apply HE|].
  intros u u' HR'. eapply (Hk q u u' []); [by rewrite Hop | done].
Qed.

(** ** The cases of the switch *)

Section Cases.
Context (p : Parser) (tr tr' : Trace) (b : Z) (rest s : list Z).
Context (Hquiet : quiet p.(callbacks)) (HR : same_events tr tr').

Ltac fold_app :=
  repeat match goal with |- context [?x :: ?r ++ s] => change (x :: r ++ s) with ((x :: r) ++ s) end.

Ltac rel_step :=
  lazymatch goal with
  | |- iter_rel _ (if ?c then _ else _) (if ?c then _ else _) => destruct c
  | |- iter_rel _ (Next _ _ _) _ => by apply next_rel
  | |- iter_rel _ (retFail _ _ _ _) _ => by apply retFail_rel
  | |- iter_rel _ (ret _ _ _) _ => by apply ret_rel
  end.
Ltac rel := fold_app; repeat rel_step.
Ltac rel_take q lemma := fold_app; apply (andThen_rel _ q); [apply lemma | done |]; intros ? ?; rel.

Lemma caseStart_rel : iter_rel s (caseStart p tr b rest) (caseStart p tr' b (rest ++ s)).
Proof.
  unfold caseStart. rel; [rel_take p takePrefixByte_ok|].
  apply afterCallback_uniform; [by apply beginMessage_uniform | done |]. intros. rel.
Qed.

Lemma caseLeadingLF_rel : iter_rel s (caseLeadingLF p tr b rest) (caseLeadingLF p tr' b (rest ++ s)).
Proof. unfold caseLeadingLF. rel. rel_take p takePrefixByte_ok. Qed.

Lemma caseVersionMajor_rel : iter_rel s (caseVersionMajor p tr b rest) (caseVersionMajor p tr' b (rest ++ s)).
Proof. unfold caseVersionMajor. rel. rel_take p takeStartByte_ok. Qed.

Lemma caseVersionDot_rel : iter_rel s (caseVersionDot p tr b rest) (caseVersionDot p tr' b (rest ++ s)).
Proof. unfold caseVersionDot. rel. rel_take p takeStartByte_ok. Qed.

Lemma caseVersionMinor_rel : iter_rel s (caseVersionMinor p tr b rest) (caseVersionMinor p tr' b (rest ++ s)).
Proof. unfold caseVersionMinor. rel. rel_take p takeStartByte_ok. Qed.

Lemma caseReqLineCR_rel : iter_rel s (caseReqLineCR p tr b rest) (caseReqLineCR p tr' b (rest ++ s)).
Proof. unfold caseReqLineCR. rel. rel_take p takeStartByte_ok. Qed.

Lemma caseLineLF_rel : iter_rel s (caseLineLF p tr b rest) (caseLineLF p tr' b (rest ++ s)).
Proof.
  unfold caseLineLF. rel. rel_take p takeStartByte_ok.
  apply afterCallback_uniform; [apply startLineComplete_uniform; by rewrite H | done |]. intros. rel.
Qed.

Lemma caseResSpaceBeforeStatus_rel :
  iter_rel s (caseResSpaceBeforeStatus p tr b rest) (caseResSpaceBeforeStatus p tr' b (rest ++ s)).
Proof. unfold caseResSpaceBeforeStatus. rel. rel_take p takeStartByte_ok. Qed.

Lemma caseResReasonStart_rel : iter_rel s (caseResReasonStart p tr b rest) (caseResReasonStart p tr' b (rest ++ s)).
Proof. unfold caseResReasonStart. rel. rel_take p takeStartByte_ok. Qed.

Lemma caseHeaderStart_rel : iter_rel s (caseHeaderStart p tr b rest) (caseHeaderStart p tr' b (rest ++ s)).
Proof. unfold caseHeaderStart. rel. rel_take p takeHeaderByte_ok. Qed.

Lemma caseHeaderValueLF_rel : iter_rel s (caseHeaderValueLF p tr b rest) (caseHeaderValueLF p tr' b (rest ++ s)).
Proof.
  unfold caseHeaderValueLF. rel. rel_take p takeHeaderByte_ok.
  apply afterCallback_uniform; [apply invoke_uniform, quiet_HeaderEnd; by rewrite H | done |]. intros. rel.
Qed.

Lemma caseHeadersLF_rel : iter_rel s (caseHeadersLF p tr b rest) (caseHeadersLF p tr' b (rest ++ s)).
Proof.
  unfold caseHeadersLF. rel. rel_take p takeHeaderByte_ok.
  - rewrite !invoke_quiet by (apply quiet_ChunkComplete; by rewrite H).
    apply afterCallback_rel; [by apply emit_same|]. intros u u' HR'.
    apply afterCallback_uniform; [apply completeMessage_uniform; by rewrite H | done |]. intros. rel.
  - destruct (headersComplete_uniform t ltac:(by rewrite H)) as ([q ok] & E & H1 & H2).
    pose proof (H1 tr) as Ha. pose proof (H1 tr') as Hb. unfold answer in *.
    destruct (headersComplete t tr) as [[q1 u1] ok1]. destruct (headersComplete t tr') as [[q2 u2] ok2].
    cbn in Ha, Hb. simplify_eq. assert (same_events (E tr) (E tr')) by auto. rel. by split_and!.
Qed.

Lemma caseChunkSizeStart_rel :
  iter_rel s (caseChunkSizeStart p tr (b :: rest)) (caseChunkSizeStart p tr' (b :: rest ++ s)).
Proof. unfold caseChunkSizeStart. rel. Qed.

Lemma caseChunkSizeLF_rel : iter_rel s (caseChunkSizeLF p tr b rest) (caseChunkSizeLF p tr' b (rest ++ s)).
Proof.
  unfold caseChunkSizeLF. rel. rel_take p takeChunkLineByte_ok.
  apply afterCallback_uniform; [apply invoke_uniform, quiet_ChunkHeader | done | intros; rel].
  by destruct (negb _); cbn; rewrite H.
Qed.

Lemma caseChunkBodyCR_rel : iter_rel s (caseChunkBodyCR p tr b rest) (caseChunkBodyCR p tr' b (rest ++ s)).
Proof. unfold caseChunkBodyCR. rel. Qed.

Lemma caseChunkBodyLF_rel : iter_rel s (caseChunkBodyLF p tr b rest) (caseChunkBodyLF p tr' b (rest ++ s)).
Proof.
  unfold caseChunkBodyLF. rel.
  apply afterCallback_uniform; [by apply invoke_uniform, quiet_ChunkComplete | done | intros; rel].
Qed.
End Cases.

(** No value automaton changes which field is being read. *)
Lemma fail_field p c : field (fail p c) = field p.
Proof. unfold fail. by break_if. Qed.

Ltac field_branches :=
  repeat (lazymatch goal with
          | |- field (fst ?t) = _ => branch_of t
          | |- field ?t = _ => branch_of t
          end; cbn);
  unfold reject; cbn; rewrite ?fail_field; try done.

Lemma finishTransferToken_field p : field (finishTransferToken p) = field p.
Proof.
  unfold finishTransferToken. cbn. destruct (_ && _)%bool; [|done].
  destruct (transferSawChunked p); [by rewrite fail_field|done].
Qed.

Lemma consumeTransferValue_field p b : field (consumeTransferValue p b).1 = field p.
Proof.
  unfold consumeTransferValue, consumeTransferToken, afterTransferToken. field_branches;
    apply finishTransferToken_field.
Qed.

Lemma appendIPLiteral_field p b : field (appendIPLiteral p b).1 = field p.
Proof. unfold appendIPLiteral. field_branches. Qed.

Lemma consumeFieldValue_field p b : field (consumeFieldValue p b).1 = field p.
Proof.
  unfold consumeFieldValue. destruct (field p) eqn:E; try done; rewrite <- E.
  - unfold consumeContentLength. field_branches.
  - apply consumeTransferValue_field.
  - unfold consumeConnectionValue, consumeConnectionToken, finishConnectionToken. field_branches.
  - unfold consumeUpgradeValue. field_branches.
  - pose proof (appendIPLiteral_field p b) as Ha. unfold consumeHostValue.
    destruct (appendIPLiteral p b) as [q ok]; cbn in Ha. field_branches.
Qed.

Lemma headerValueByte_field v p b : field (headerValueByte v p b).1 = field p.
Proof.
  unfold headerValueByte. destruct (negb (validFieldValueByte b)); [apply fail_field|].
  assert (field (takeHeaderByte p).1 = field p) as Ht by (unfold takeHeaderByte; field_branches).
  destruct (takeHeaderByte p) as [q []]; cbn in *; [|done].
  destruct v; [by rewrite consumeFieldValue_field | done].
Qed.

Lemma headerValueLoop_field v g p src q rest ok :
  forBytes g (headerValueByte v) p src = ((q, rest), ok) -> field q = field p.
Proof.
  revert p. induction src as [|b src IH]; intros p; cbn; [by intros [= <- <- <-]|].
  destruct (g p b); [|by intros [= <- <- <-]].
  pose proof (headerValueByte_field v p b) as H. destruct (headerValueByte v p b) as [p' []]; cbn in H.
  - intros E. by rewrite (IH _ E).
  - by intros [= <- <- <-].
Qed.

(** The cases that deliver spans, as [spanLoop]s. *)
Definition methodEnd (p : Parser) (tr : Trace) (b : Z) (rest : list Z) : Iter :=
  if (p.(methodPos) =? 0) || negb (b =? ch " ") then retFail p tr (b :: rest) CodeInvalidMethod
  else andThen (takeStartByte (finishMethod p)) tr (b :: rest) (fun p =>
         Next (p <| state := stateReqTarget |>) tr rest).

Definition targetEnd (p : Parser) (tr : Trace) (b : Z) (rest : list Z) : Iter :=
  let (p, ok) := finishTarget p in
  if negb ok || negb (b =? ch " ") then retFail p tr (b :: rest) CodeInvalidTarget
  else andThen (takeStartByte p) tr (b :: rest) (fun p =>
         Next (p <| literalPos := 0 |> <| state := stateReqHTTP |>) tr rest).

Definition reasonEnd (p : Parser) (tr : Trace) (b : Z) (rest : list Z) : Iter :=
  andThen (takeStartByte p) tr (b :: rest) (fun p => Next (p <| state := stateResLineLF |>) tr rest).

Definition nameEnd (p : Parser) (tr : Trace) (b : Z) (rest : list Z) : Iter :=
  if (p.(headerNameBytes) =? 0) || negb (b =? ch ":") then retFail p tr (b :: rest) CodeInvalidHeaderName
  else andThen (takeHeaderByte p) tr (b :: rest) (fun p =>
         let p := finishFieldName p in
         if negb (is_none p.(code)) then ret p tr rest
         else Next (p <| state := stateHeaderValueStart |>) tr rest).

Definition valueEnd (p : Parser) (tr : Trace) (b : Z) (rest : list Z) : Iter :=
  andThen (finishFieldValue p) tr (b :: rest) (fun p =>
  andThen (takeHeaderByte p) tr (b :: rest) (fun p => Next (p <| state := stateHeaderValueLF |>) tr rest)).

Ltac by_loop :=
  unfold spanLoop, afterLoop;
  lazymatch goal with |- context [forBytes ?g ?f ?p ?s] => destruct (forBytes g f p s) as [[? [|? ?]] []] end;
  reflexivity.

Lemma caseReqMethod_loop p tr src :
  caseReqMethod p tr src = spanLoop (fun _ => isTChar) methodByte cbMethod SpanMethod methodEnd p tr src.
Proof. unfold caseReqMethod. by_loop. Qed.
Lemma caseReqTarget_loop p tr src :
  caseReqTarget p tr src = spanLoop (fun _ => validTargetByte) targetByte cbTarget SpanTarget targetEnd p tr src.
Proof. unfold caseReqTarget. by_loop. Qed.
Lemma caseResReason_loop p tr src :
  caseResReason p tr src = spanLoop (fun _ b => negb (b =? CR)) reasonByte cbReason SpanReason reasonEnd p tr src.
Proof. unfold caseResReason. by_loop. Qed.
Lemma caseHeaderName_loop p tr src :
  caseHeaderName p tr src = spanLoop (fun _ => isTChar) headerNameByte cbHeaderName SpanHeaderName nameEnd p tr src.
Proof. unfold caseHeaderName. by_loop. Qed.
Lemma caseHeaderValue_loop p tr src :
  caseHeaderValue p tr src =
    spanLoop (fun _ b => negb (b =? CR)) (headerValueByte (parsesValue p)) cbHeaderValue SpanHeaderValue valueEnd p tr src.
Proof. unfold caseHeaderValue. by_loop. Qed.

Section LoopCases.
Context (p : Parser) (tr tr' : Trace) (b : Z) (rest s : list Z).
Context (Hwf : wf p) (Hn : p.(code) = CodeNone) (Hquiet : quiet p.(callbacks)) (HR : same_events tr tr').

Ltac rel_step :=
  lazymatch goal with
  | |- iter_rel _ (if ?c then _ else _) (if ?c then _ else _) => destruct c
  | |- iter_rel _ (Next _ _ _) _ => by apply next_rel
  | |- iter_rel _ (retFail _ _ _ _) _ => by apply retFail_rel
  | |- iter_rel _ (ret _ _ _) _ => by apply ret_rel
  end.
Ltac fold_app :=
  repeat match goal with |- context [?x :: ?r ++ ?s] => change (x :: r ++ s) with ((x :: r) ++ s) end.
Ltac rel := fold_app; repeat rel_step.
Ltac rel_take q lemma t := fold_app; apply (andThen_rel _ q); [apply lemma | done |]; intros t ?; rel.

(** A span loop: the end is uniform in the input, and where the loop stopped
    the switch resumes it. *)
Ltac span_loop loop_eq body_ok quiet_cb Hst :=
  rewrite !loop_eq; eapply spanLoop_frag;
  [ intros ? ? _; apply body_ok | done | by apply quiet_cb
  | intros s0 q u u' c r Hc HR'
  | done
  | let E := fresh "E" in let Hs := fresh in
    intros q u c s' E;
    destruct (forBytes_facts _ _ (fun p b _ => body_ok p b) _ _ _ _ _ Hn E) as (_ & _ & _ & Hs);
    unfold parseSwitch; rewrite Hs, Hst; try apply loop_eq ].

Lemma caseReqMethod_frag : p.(state) = stateReqMethod ->
  frag s (caseReqMethod p tr (b :: rest)) (caseReqMethod p tr' (b :: rest ++ s)).
Proof.
  intros Hst. span_loop caseReqMethod_loop methodByte_ok quiet_Method Hst.
  unfold methodEnd. rel. rel_take (finishMethod q) takeStartByte_ok t.
Qed.

Lemma caseReqTarget_frag : p.(state) = stateReqTarget ->
  frag s (caseReqTarget p tr (b :: rest)) (caseReqTarget p tr' (b :: rest ++ s)).
Proof.
  intros Hst. span_loop caseReqTarget_loop targetByte_ok quiet_Target Hst.
  unfold targetEnd. destruct (finishTarget q) as [q' ok]. rel. rel_take q' takeStartByte_ok t.
Qed.

Lemma caseResReason_frag : p.(state) = stateResReason ->
  frag s (caseResReason p tr (b :: rest)) (caseResReason p tr' (b :: rest ++ s)).
Proof.
  intros Hst. span_loop caseResReason_loop reasonByte_ok quiet_Reason Hst.
  unfold reasonEnd. rel_take q takeStartByte_ok t.
Qed.

Lemma caseHeaderName_frag : p.(state) = stateHeaderName ->
  frag s (caseHeaderName p tr (b :: rest)) (caseHeaderName p tr' (b :: rest ++ s)).
Proof.
  intros Hst. span_loop caseHeaderName_loop headerNameByte_ok quiet_HeaderName Hst.
  unfold nameEnd. rel. rel_take q takeHeaderByte_ok t.
Qed.

Lemma caseHeaderValue_frag : p.(state) = stateHeaderValue ->
  frag s (caseHeaderValue p tr (b :: rest)) (caseHeaderValue p tr' (b :: rest ++ s)).
Proof.
  intros Hst. span_loop caseHeaderValue_loop (headerValueByte_ok (parsesValue p)) quiet_HeaderValue Hst.
  - unfold valueEnd. rel_take q finishFieldValue_ok t. rel_take t takeHeaderByte_ok t'.
  - rewrite caseHeaderValue_loop. unfold parsesValue. by rewrite (headerValueLoop_field _ _ _ _ _ _ _ E).
Qed.

(** Plain loops. *)
Ltac resumed body_ok Hst E :=
  let Hs := fresh in
  destruct (forBytes_facts _ _ body_ok _ _ _ _ _ Hn E) as (_ & _ & _ & Hs);
  unfold parseSwitch; rewrite Hs, Hst.

Lemma caseHTTP_frag : p.(state) = stateReqHTTP \/ p.(state) = stateResHTTP ->
  frag s (caseHTTP p tr (b :: rest)) (caseHTTP p tr' (b :: rest ++ s)).
Proof.
  intros Hst. apply (plainLoop_frag (fun p _ => p.(literalPos) <? 5) literalByte (fun tr p rest =>
    if p.(literalPos) =? 5 then
      Next (p <| major := 0 |> <| minor := 0 |> <| state := stateVersionMajor |>) tr rest
    else Next p tr rest)); [done | intros; rel | |].
  - intros q. destruct (_ =? 5); by apply (next_rel []).
  - intros q E. destruct (literalPos q =? 5) eqn:H5; [right|left].
    + bool_to_prop. split; [destruct s as [|c s0]; cbn; by rewrite ?H5 | by apply (next_rel s)].
    + split; [done|]. intros c s'.
      destruct (forBytes_facts _ _ literalByte_ok _ _ _ _ _ Hn E) as (_ & _ & _ & Hs).
      unfold parseSwitch. rewrite Hs. by destruct Hst as [-> | ->].
Qed.

Lemma caseResStatus_frag : p.(state) = stateResStatus ->
  frag s (caseResStatus p tr (b :: rest)) (caseResStatus p tr' (b :: rest ++ s)).
Proof.
  intros Hst. apply (plainLoop_frag (fun p _ => p.(statusDigits) <? 3) statusByte (fun tr p rest =>
    if p.(statusDigits) =? 3 then
      if p.(status) <? 100 then retFail p tr rest CodeInvalidStatus
      else Next (p <| state := stateResReasonStart |>) tr rest
    else Next p tr rest)); [done | intros; rel | |].
  - intros q. destruct (_ =? 3); [destruct (_ <? _)|];
      first [by apply (next_rel []) | by apply (retFail_rel [])].
  - intros q E. destruct (statusDigits q =? 3) eqn:H3; [right|left].
    + bool_to_prop. split; [destruct s as [|c s0]; cbn; by rewrite ?H3|].
      destruct (_ <? 100); [by apply (retFail_rel s) | by apply (next_rel s)].
    + split; [done|]. intros c s'. by resumed statusByte_ok Hst E.
Qed.

Lemma caseHeaderValueStart_frag : p.(state) = stateHeaderValueStart ->
  frag s (caseHeaderValueStart p tr (b :: rest)) (caseHeaderValueStart p tr' (b :: rest ++ s)).
Proof.
  intros Hst. apply (plainLoop_frag (fun _ => isOWS) (fun p _ => takeHeaderByte p) (fun tr p rest =>
    match rest with
    | [] => Next p tr []
    | _ => Next (p <| state := stateHeaderValue |>) tr rest
    end)); [done | intros; rel | |].
  - intros q. by apply (next_rel []).
  - intros q E. left. split; [done|]. intros c s'.
    by resumed (fun p (b : Z) (_ : isOWS b = true) => takeHeaderByte_ok p) Hst E.
Qed.

Lemma caseChunkSize_frag : p.(state) = stateChunkSize ->
  frag s (caseChunkSize p tr (b :: rest)) (caseChunkSize p tr' (b :: rest ++ s)).
Proof.
  intros Hst. eapply (plainLoop_frag (fun _ => isHexDigit) chunkSizeByte (fun tr p rest => _));
    [done | intros s0 q c r | |].
  - cbn beta iota. rel; first [rel_take q takeChunkLineByte_ok t].
  - intros q. by apply (next_rel []).
  - intros q E. left. split; [done|]. intros c s'.
    by resumed (fun p b (_ : isHexDigit b = true) => chunkSizeByte_ok p b) Hst E.
Qed.

Lemma caseChunkExt_frag : p.(state) = stateChunkExt ->
  frag s (caseChunkExt p tr (b :: rest)) (caseChunkExt p tr' (b :: rest ++ s)).
Proof.
  intros Hst. eapply (plainLoop_frag (fun _ b => negb (b =? CR)) chunkExtByte (fun tr p rest => _));
    [done | intros s0 q c r | |].
  - cbn beta iota. rel_take q finishChunkExtension_ok t. rel_take t takeChunkLineByte_ok t'.
  - intros q. by apply (next_rel []).
  - intros q E. left. split; [done|]. intros c s'.
    by resumed (fun p b (_ : negb (b =? CR) = true) => chunkExtByte_ok p b) Hst E.
Qed.
End LoopCases.

(** ** Bodies *)

Lemma bodyTaken_add p a b : bodyTaken (bodyTaken p a) b = bodyTaken p (a + b).
Proof. unfold bodyTaken at 1 3. by rewrite Z.add_assoc, Z.sub_add_distr. Qed.

Lemma take_to_nat_app {A} n (x y : list A) : 0 <= n <= len x ->
  take (Z.to_nat n) (x ++ y) = take (Z.to_nat n) x /\ drop (Z.to_nat n) (x ++ y) = drop (Z.to_nat n) x ++ y.
Proof. unfold len. intros H. rewrite take_app_le, drop_app_le by lia. done. Qed.

Lemma take_len_app {A} n (x y : list A) : 0 <= n ->
  take (Z.to_nat (len x + n)) (x ++ y) = x ++ take (Z.to_nat n) y /\
  drop (Z.to_nat (len x + n)) (x ++ y) = drop (Z.to_nat n) y.
Proof.
  unfold len. intros H. replace (Z.to_nat (Z.of_nat (length x) + n)) with (length x + Z.to_nat n)%nat by lia.
  split; [apply firstn_app_2|]. rewrite drop_app_ge by lia. f_equal. lia.
Qed.

Lemma take_len {A} (x : list A) : take (Z.to_nat (len x)) x = x /\ drop (Z.to_nat (len x)) x = [].
Proof. unfold len. rewrite Nat2Z.id. by rewrite firstn_all, drop_all. Qed.

Section Body.
Context (p : Parser) (tr tr' : Trace) (src s : list Z) (Hpos : 0 < len src).
Context (Hwf : wf p) (Hn : p.(code) = CodeNone) (Hquiet : quiet p.(callbacks)) (HR : same_events tr tr').

Lemma takeBody_frag done :
  0 < p.(remaining) -> p.(bodyBytes) + p.(remaining) <= p.(limits).(MaxBodyBytes) ->
  (forall s q u u' r, q.(callbacks) = p.(callbacks) -> same_events u u' -> q.(code) = CodeNone ->
     iter_rel s (done q u r) (done q u' (r ++ s))) ->
  (forall n u c s', parseSwitch (bodyTaken p n) u c s' = takeBody (bodyTaken p n) u (c :: s') done) ->
  frag s (takeBody p tr src done) (takeBody p tr' (src ++ s) done).
Proof.
  intros Hr Hb Hdone Hres. destruct Hwf as (Hw & _).
  rewrite !takeBody_eq by done. cbn zeta.
  assert (forall n, quietly cbBody (bodyTaken p n)) as Hqb by (intros; by apply quiet_Body).
  destruct (Z.le_gt_cases (remaining p) (len src)) as [Hle|Hgt].
  - left. pose proof (len_nonneg s).
    assert (bodyTake p src = remaining p /\ bodyTake p (src ++ s) = remaining p) as [-> ->].
    { unfold bodyTake. rewrite len_app. lia. }
    destruct (take_to_nat_app (remaining p) src s) as [-> ->]; [lia|].
    rewrite !invokeSpan_quiet by done. apply afterCallback_rel; [by apply emitSpan_same|].
    intros u u' HR'. cbn. rewrite Z.sub_diag. cbn. by apply Hdone.
  - assert (bodyTake p src = len src) as E1 by (unfold bodyTake; lia).
    rewrite E1. destruct (take_len src) as [-> ->].
    rewrite (invokeSpan_quiet _ _ src) by done. unfold afterCallback at 1. cbn [code bodyTaken].
    change (code (bodyTaken p (len src))) with (code p). rewrite Hn. cbn.
    destruct (Z.eqb_spec (remaining p - len src) 0); [lia|].
    destruct s as [|c s'].
    + left. rewrite app_nil_r, E1. destruct (take_len src) as [-> ->]. rewrite invokeSpan_quiet by done.
      unfold afterCallback. change (code (bodyTaken p (len src))) with (code p). rewrite Hn. cbn.
      destruct (Z.eqb_spec (remaining p - len src) 0); [lia|]. split_and!; [done | by apply emitSpan_same | done].
    + right. do 4 eexists. split_and!; [done|done|]. left. rewrite Hres.
      rewrite takeBody_eq by (first [by apply bodyTaken_wfc; auto; lia | cbn; lia]). cbn zeta.
      set (n2 := bodyTake (bodyTaken p (len src)) (c :: s')).
      assert (0 <= n2) by (unfold n2, bodyTake; cbn [remaining bodyTaken]; pose proof (len_nonneg (c :: s')); cbn; lia).
      replace (bodyTake p (src ++ c :: s')) with (len src + n2)
        by (unfold n2, bodyTake; rewrite len_app; cbn; lia).
      destruct (take_len_app n2 src (c :: s')) as [-> ->]; [done|].
      rewrite !bodyTaken_add, !invokeSpan_quiet by done.
      rewrite (emitSpan_callbacks _ _ (bodyTaken p (len src + n2)) (bodyTaken p (len src))) by done.
      apply afterCallback_rel_nil; [by apply emitSpan_merge|]. intros u u' HR'.
      destruct (remaining _ =? 0); [|by apply next_rel_nil].
      pose proof (Hdone [] (bodyTaken p (len src + n2)) u u' (drop (Z.to_nat n2) (c :: s')) eq_refl HR' Hn) as HD.
      by rewrite app_nil_r in HD.
Qed.

Lemma caseFixedBody_frag : p.(state) = stateFixedBody ->
  frag s (caseFixedBody p tr src) (caseFixedBody p tr' (src ++ s)).
Proof.
  intros Hst. pose proof Hwf as (_ & Hs & _). unfold wfs in Hs. rewrite Hst in Hs.
  apply takeBody_frag; try apply Hs.
  - intros s0 q u u' r Hc HR' Hnq.
    apply afterCallback_uniform; [apply completeMessage_uniform; by rewrite Hc | done |].
    intros. by apply next_rel.
  - intros. unfold parseSwitch. change (state (bodyTaken p n)) with (state p). by rewrite Hst.
Qed.

Lemma caseChunkBody_frag : p.(state) = stateChunkBody ->
  frag s (caseChunkBody p tr src) (caseChunkBody p tr' (src ++ s)).
Proof.
  intros Hst. pose proof Hwf as (_ & Hs & _). unfold wfs in Hs. rewrite Hst in Hs.
  apply takeBody_frag; try apply Hs.
  - intros. by apply next_rel.
  - intros. unfold parseSwitch. change (state (bodyTaken p n)) with (state p). by rewrite Hst.
Qed.

(** The bytes [caseCloseBody] takes. *)
Definition closeTake (p : Parser) (src : list Z) : Z :=
  Z.min (p.(limits).(MaxBodyBytes) - p.(bodyBytes)) (len src).

Lemma caseCloseBody_eq q u x : wfc q ->
  caseCloseBody q u x =
    (let n := closeTake q x in
     let q := q <| bodyBytes := q.(bodyBytes) + n |> in
     let rest := drop (Z.to_nat n) x in
     afterCallback (invokeSpan cbBody SpanBody (take (Z.to_nat n) x) q u) rest (fun q u =>
       if negb (n =? len x) then retFail q u rest CodeBodyTooLarge else Next q u rest)).
Proof.
  intros Hw. unfold caseCloseBody. cbn zeta.
  pose proof Hw as (Hl & _ & _ & Hbc & _). unfold limits_ok, body_counters_ok in *. destruct_and!.
  pose proof (len_nonneg x). rewrite (u64_small (MaxBodyBytes _ - _)) by lia.
  replace (if _ <? _ then _ else _) with (closeTake q x)
    by (unfold closeTake; destruct (Z.ltb_spec (MaxBodyBytes (limits q) - bodyBytes q) (len x)); lia).
  rewrite u64_small; [done|]. unfold closeTake. lia.
Qed.

Lemma caseCloseBody_frag : p.(state) = stateCloseBody ->
  frag s (caseCloseBody p tr src) (caseCloseBody p tr' (src ++ s)).
Proof.
  intros Hst. pose proof Hwf as (Hw & _). pose proof Hw as (_ & _ & _ & [Hbb _] & _).
  rewrite !caseCloseBody_eq by done. cbn zeta.
  assert (forall v, quietly cbBody (p <| bodyBytes := v |>)) as Hqb by (intros; by apply quiet_Body).
  pose proof (len_nonneg s).
  destruct (Z.lt_ge_cases (MaxBodyBytes (limits p) - bodyBytes p) (len src)) as [Hlt|Hge].
  - left.
    assert (closeTake p src = MaxBodyBytes (limits p) - bodyBytes p /\
            closeTake p (src ++ s) = MaxBodyBytes (limits p) - bodyBytes p) as [-> ->].
    { unfold closeTake. rewrite len_app. lia. }
    destruct (take_to_nat_app (MaxBodyBytes (limits p) - bodyBytes p) src s) as [-> ->]; [lia|].
    rewrite !invokeSpan_quiet by (by apply Hqb). apply afterCallback_rel; [by apply emitSpan_same|].
    intros u u' HR'. rewrite len_app.
    destruct (Z.eqb_spec (MaxBodyBytes (limits p) - bodyBytes p) (len src)); [lia|].
    destruct (Z.eqb_spec (MaxBodyBytes (limits p) - bodyBytes p) (len src + len s)); [lia|].
    by apply retFail_rel.
  - assert (closeTake p src = len src) as E1 by (unfold closeTake; lia).
    rewrite E1. destruct (take_len src) as [-> ->]. rewrite Z.eqb_refl.
    set (q := p <| bodyBytes := bodyBytes p + len src |>).
    rewrite (invokeSpan_quiet _ _ src) by (by apply Hqb). unfold afterCallback at 1.
    change (code q) with (code p). rewrite Hn.
    destruct s as [|c s'].
    + left. rewrite app_nil_r, E1. destruct (take_len src) as [-> ->]. rewrite Z.eqb_refl.
      fold q. rewrite invokeSpan_quiet by (by apply Hqb). unfold afterCallback. change (code q) with (code p). rewrite Hn.
      apply next_rel_nil. by apply emitSpan_same.
    + right. do 4 eexists. split_and!; [done|done|]. left.
      unfold parseSwitch. change (state q) with (state p). rewrite Hst.
      assert (wfc q) by (subst q; clear Hqb; wfc_unfold; cbn; intuition lia).
      rewrite caseCloseBody_eq by done. cbn zeta.
      set (n2 := closeTake q (c :: s')).
      assert (0 <= n2) by (unfold n2, closeTake, q; cbn; pose proof (len_nonneg (c :: s')); lia).
      assert (closeTake p (src ++ c :: s') = len src + n2) as E2
        by (unfold n2, closeTake, q; rewrite len_app; cbn; lia).
      rewrite E2. destruct (take_len_app n2 src (c :: s')) as [-> ->]; [done|].
      replace (q <| bodyBytes := bodyBytes q + n2 |>) with (p <| bodyBytes := bodyBytes p + (len src + n2) |>)
        by (by rewrite Z.add_assoc).
      rewrite !invokeSpan_quiet by (by apply Hqb).
      rewrite (emitSpan_callbacks _ _ (p <| bodyBytes := bodyBytes p + (len src + n2) |>) q) by done.
      apply afterCallback_rel_nil; [by apply emitSpan_merge|]. intros u u' HR'.
      rewrite len_app.
      replace (len src + n2 =? len src + len (c :: s')) with (n2 =? len (c :: s'))
        by (destruct (Z.eqb_spec n2 (len (c :: s'))), (Z.eqb_spec (len src + n2) (len src + len (c :: s'))); lia).
      destruct (negb _); [|by apply next_rel_nil].
      pose proof (retFail_rel [] (p <| bodyBytes := bodyBytes p + (len src + n2) |>) u u'
        (drop (Z.to_nat n2) (c :: s')) CodeBodyTooLarge HR') as HD. by rewrite app_nil_r in HD.
Qed.
End Body.

Lemma frag_of_rel s I W : iter_rel s I W -> frag s I W.
Proof. by left. Qed.

Lemma parseSwitch_frag p tr tr' b rest s :
  wf p -> p.(code) = CodeNone -> quiet p.(callbacks) -> same_events tr tr' ->
  frag s (parseSwitch p tr b rest) (parseSwitch p tr' b (rest ++ s)).
Proof.
  intros Hwf Hn Hq HR. pose proof (len_nonneg rest).
  assert (0 < len (b :: rest)) as Hpos by (rewrite len_cons; lia).
  unfold parseSwitch. change (b :: rest ++ s) with ((b :: rest) ++ s). destruct (state p) eqn:Hst;
    first
    [ by apply caseReqMethod_frag | by apply caseReqTarget_frag | by apply caseResReason_frag
    | by apply caseHeaderName_frag | by apply caseHeaderValue_frag | apply caseHTTP_frag; by auto
    | by apply caseResStatus_frag | by apply caseHeaderValueStart_frag | by apply caseChunkSize_frag
    | by apply caseChunkExt_frag | by apply caseFixedBody_frag | by apply caseChunkBody_frag
    | by apply caseCloseBody_frag
    | apply frag_of_rel; first
      [ by apply caseStart_rel | by apply caseLeadingLF_rel | by apply caseVersionMajor_rel
      | by apply caseVersionDot_rel | by apply caseVersionMinor_rel | by apply caseReqLineCR_rel
      | by apply caseLineLF_rel | by apply caseResSpaceBeforeStatus_rel | by apply caseResReasonStart_rel
      | by apply caseHeaderStart_rel | by apply caseHeaderValueLF_rel | by apply caseHeadersLF_rel
      | by apply caseChunkSizeStart_rel | by apply caseChunkSizeLF_rel | by apply caseChunkBodyCR_rel
      | by apply caseChunkBodyLF_rel | by apply retFail_rel ] ].
Qed.

(** ** Runs without fuel *)

Definition runs (p : Parser) (tr : Trace) (src : list Z) (o : Outcome) : Prop :=
  exists fuel, parseLoop fuel p tr src = Some o.

Definition continues (I : Iter) (o : Outcome) : Prop :=
  match I with
  | Next q tr r => runs q tr r o
  | Return q tr r c => o = mkOutcome q tr r c
  end.

Lemma runs_nil p tr o : runs p tr [] o <-> o = mkOutcome p tr [] CodeNone.
Proof.
  split; [intros [[|fuel] [= <-]]; done | intros ->; by exists 0%nat].
Qed.

Lemma runs_cons p tr b rest o : p.(paused) = false ->
  runs p tr (b :: rest) o <-> continues (parseSwitch p tr b rest) o.
Proof.
  intros Hp. unfold runs. split.
  - intros [[|fuel] H]; cbn in H; rewrite Hp in H; [done|].
    destruct (parseSwitch p tr b rest); cbn; [by exists fuel | by simplify_eq].
  - destruct (parseSwitch p tr b rest) as [q u r|q u r c] eqn:E; cbn.
    + intros [fuel H]. exists (S fuel). cbn. by rewrite Hp, E.
    + intros ->. exists 1%nat. cbn. by rewrite Hp, E.
Qed.

(** More fuel changes nothing. *)
Lemma parseLoop_mono fuel k p tr src o :
  parseLoop fuel p tr src = Some o -> parseLoop (fuel + k) p tr src = Some o.
Proof.
  revert p tr src. induction fuel as [|fuel IH]; intros p tr [|b rest]; cbn [parseLoop Nat.add].
  - destruct k; by cbn.
  - destruct k; cbn; by destruct (paused p).
  - done.
  - destruct (paused p); [done|]. destruct (parseSwitch p tr b rest); [apply IH | done].
Qed.

Lemma runs_det p tr src o o' : runs p tr src o -> runs p tr src o' -> o = o'.
Proof.
  intros [n H] [m H']. apply (parseLoop_mono _ m) in H. apply (parseLoop_mono _ n) in H'.
  rewrite Nat.add_comm in H'. congruence.
Qed.

(** The outcome [o] of a cut input against the outcome [o'] of the whole. *)
Definition out_rel (o o' : Outcome) : Prop :=
  o'.(outParser) = o.(outParser) /\ o'.(outRest) = o.(outRest) /\ o'.(outCode) = o.(outCode) /\
  (o.(outParser).(code) = CodeNone -> same_events o.(outTrace) o'.(outTrace)).

(** The parsers met during a run of [Parse]. *)
Definition running (p : Parser) : Prop :=
  wf p /\ p.(code) = CodeNone /\ p.(paused) = false /\ p.(pauseAfterMessage) = false /\ quiet p.(callbacks).

Lemma running_static p q : running p -> static p q -> wf q -> q.(code) = CodeNone -> running q.
Proof.
  intros (_ & _ & Hp & Hpa & Hq) (_ & _ & Hc & Hpa' & _ & Hpf) Hw Hn. split_and!; try done.
  - apply Hpf; [done | by rewrite Hpa', Hpa].
  - by rewrite Hpa', Hpa.
  - by rewrite Hc.
Qed.

Lemma running_step p tr b rest : running p ->
  match parseSwitch p tr b rest with
  | Next q u r => running q
  | Return q u r c => c <> CodeNone
  end.
Proof.
  intros Hrun. pose proof Hrun as (Hw & Hn & Hp & _).
  pose proof (parseSwitch_ok p tr b rest Hw Hn Hp) as Hi.
  destruct (parseSwitch p tr b rest) as [q u r | q u r c]; cbn in Hi.
  - destruct Hi as (Hwq & Hnq & _ & Hst & _). by eapply running_static.
  - destruct Hi as (_ & _ & _ & [[? ->] | (_ & _ & ->)]); done.
Qed.

(** A run does not depend on what was delivered before. *)
Lemma runs_congruence p tr tr' src o :
  running p -> same_events tr tr' -> runs p tr src o ->
  exists o', runs p tr' src o' /\ out_rel o o'.
Proof.
  intros Hrun HR [fuel H]. revert p tr tr' src Hrun HR H.
  induction fuel as [|fuel IH]; intros p tr tr' [|b rest] Hrun HR H; pose proof Hrun as (Hw & Hn & Hp & _ & Hq).
  1, 3: injection H as <-; eexists; split; [by apply runs_nil | by split_and!].
  { cbn in H. by rewrite Hp in H. }
  cbn in H. rewrite Hp in H.
  pose proof (parseSwitch_frag p tr tr' b rest [] Hw Hn Hq HR) as [Hrel | (? & ? & ? & ? & _ & ? & _)]; [|done].
  rewrite app_nil_r in Hrel. pose proof (running_step p tr b rest Hrun) as Hstep.
  destruct (parseSwitch p tr b rest) as [q u r|q u r c], (parseSwitch p tr' b rest) as [q' u' r'|q' u' r' c'] eqn:E';
    try done; cbn in Hrel; rewrite app_nil_r in Hrel; destruct_and!; subst.
  - destruct (IH q u u' r) as (o' & Ho' & Hrel'); [done..|]. exists o'. split; [|done].
    rewrite runs_cons, E' by done. done.
  - injection H as <-. exists (mkOutcome q u' r c). split; [rewrite runs_cons, E' by done; done | by split_and!].
Qed.

Lemma continues_rel I W o :
  resumes I W -> match I with Next q _ _ => running q | Return _ _ _ _ => True end ->
  continues I o -> exists o', continues W o' /\ out_rel o o'.
Proof.
  intros [Hrel | (q & u & u' & r & c & k & bs & -> & -> & Hnq & _)] Hrun Ho.
  - destruct I as [q u r|q u r c], W as [q' u' r'|q' u' r' c']; try done; cbn in Hrel;
      rewrite app_nil_r in Hrel; destruct_and!; subst; cbn in *.
    + by eapply runs_congruence.
    + subst o. eexists. split; [done | by split_and!].
  - cbn in Ho. subst o. eexists. split; [done|]. split_and!; [done..|]. cbn. done.
Qed.

(** Where the run over a piece stops decides the run over the whole. *)
Definition joins (p : Parser) (tr' : Trace) (s1 s2 : list Z) (o1 : Outcome) : Prop :=
  (o1.(outCode) = CodeNone -> forall o2, runs o1.(outParser) o1.(outTrace) s2 o2 ->
     exists o, runs p tr' (s1 ++ s2) o /\ out_rel o2 o) /\
  (o1.(outCode) <> CodeNone ->
     exists o, runs p tr' (s1 ++ s2) o /\
       out_rel (mkOutcome o1.(outParser) o1.(outTrace) (o1.(outRest) ++ s2) o1.(outCode)) o).

Lemma joins_step p q u tr' b rest r s2 o1 :
  running p -> parseSwitch p tr' b (rest ++ s2) = Next q u (r ++ s2) ->
  joins q u r s2 o1 -> joins p tr' (b :: rest) s2 o1.
Proof.
  intros (_ & _ & Hp & _) E [H1 H2]. split.
  - intros Hc o2 Ho2. destruct (H1 Hc o2 Ho2) as (o & Ho & Hrel). exists o. split; [|done].
    cbn [app]. by rewrite runs_cons, E.
  - intros Hc. destruct (H2 Hc) as (o & Ho & Hrel). exists o. split; [|done].
    cbn [app]. by rewrite runs_cons, E.
Qed.

Lemma parseLoop_joins fuel p tr tr' s1 s2 o1 :
  running p -> same_events tr tr' -> parseLoop fuel p tr s1 = Some o1 -> joins p tr' s1 s2 o1.
Proof.
  revert p tr tr' s1. induction fuel as [|fuel IH]; intros p tr tr' [|b rest] Hrun HR H;
    pose proof Hrun as (Hw & Hn & Hp & _ & Hq).
  1, 3: injection H as <-; split; [intros _ o2 Ho2; by eapply runs_congruence | done].
  { cbn in H. by rewrite Hp in H. }
  cbn in H. rewrite Hp in H. pose proof (running_step p tr b rest Hrun) as Hstep.
  destruct (parseSwitch_frag p tr tr' b rest s2 Hw Hn Hq HR) as [Hrel | (q & u & c & s' & E & -> & Hres)].
  - destruct (parseSwitch p tr b rest) as [q u r|q u r c], (parseSwitch p tr' b (rest ++ s2)) as [q' u' r'|q' u' r' c'] eqn:E';
      try done; cbn in Hrel; destruct_and!; subst.
    + eapply joins_step; [done..|]. by eapply IH.
    + injection H as <-. split; [done|]. intros _. exists (mkOutcome q u' (r ++ s2) c).
      split; [|by split_and!]. cbn [app]. rewrite runs_cons, E' by done. done.
  - rewrite E in *.
    assert (o1 = mkOutcome q u [] CodeNone) as -> by (destruct fuel; by injection H as <-).
    split; [|done]. intros _ o2 Ho2. cbn in Ho2.
    assert (paused q = false) as Hpq by apply Hstep. rewrite runs_cons in Ho2 by done.
    destruct (continues_rel _ _ o2 Hres) as (o & Ho & Hrel); [|done|].
    { pose proof (running_step q u c s' Hstep) as Hs. by destruct (parseSwitch q u c s'). }
    exists o. split; [|done]. cbn [app]. by rewrite runs_cons.
Qed.

(** ** [Parse] on a cut input *)

(** A parser no method of which is running. *)
Definition idle (p : Parser) : Prop := p.(parsing) = false /\ p.(pauseAfterMessage) = false.

Lemma Parse_runs p tr src o :
  wf p -> idle p -> p.(code) = CodeNone -> p.(state) <> stateUpgrade ->
  Parse p tr src = Some o <->
  exists o', runs (started p false) tr src o' /\
    o = mkOutcome (stopped o'.(outParser)) o'.(outTrace) o'.(outRest) o'.(outCode).
Proof.
  intros Hw [Hp Hpa] Hn Hs. unfold Parse, runParse. rewrite Hp. change (p <| parsing := true |> <| pauseAfterMessage := false |> <| paused := false |>) with (started p false).
  unfold parse. change (code (started p false)) with (code p). change (state (started p false)) with (state p).
  rewrite Hn. cbn [is_none negb]. replace (is_stateUpgrade (state p)) with false by (by destruct (state p)).
  destruct (parseLoop_ok (parseFuel src) (started p false) tr src) as (o0 & Ho0 & _);
    [by apply started_wf | done | done | unfold parseFuel; destruct (state _); cbn; lia |].
  rewrite Ho0. split.
  - intros [= <-]. exists o0. split; [by eexists | done].
  - intros (o' & Ho' & ->). rewrite (runs_det _ _ _ _ _ Ho' (ex_intro _ _ Ho0)). done.
Qed.

(** A parser that returns at once returns the same again. *)
Definition halted (p : Parser) : Prop := p.(code) <> CodeNone \/ p.(state) = stateUpgrade.

(** The code such a parser returns. *)
Definition haltCode (p : Parser) : Code := if is_none p.(code) then CodeUpgrade else p.(code).

Lemma Parse_halted p tr src :
  p.(parsing) = false -> halted p ->
  Parse p tr src = Some (mkOutcome (stopped (started p false)) tr src (haltCode p)).
Proof.
  intros Hp Hh. unfold Parse, runParse, parse, haltCode. rewrite Hp. fold (started p false). cbv zeta.
  change (code (started p false)) with (code p). change (state (started p false)) with (state p).
  destruct (is_none_spec (code p)) as [Hn|Hn]; [|done]. cbn [negb].
  destruct Hh as [|Hs]; [done|]. by rewrite Hs.
Qed.

Lemma started_stopped p :
  p.(parsing) = true -> p.(pauseAfterMessage) = false -> p.(paused) = false -> started (stopped p) false = p.
Proof.
  intros H1 H2 H3.
  transitivity (p <| parsing := p.(parsing) |> <| pauseAfterMessage := p.(pauseAfterMessage) |> <| paused := p.(paused) |>);
    [|done]. rewrite H1, H2, H3. reflexivity.
Qed.

Lemma running_started p : wf p -> p.(code) = CodeNone -> quiet p.(callbacks) -> running (started p false).
Proof. intros. split_and!; try done. by apply started_wf. Qed.

(** What a finished run of [Parse] leaves. *)
Lemma runs_outcome p tr src o :
  wf p -> p.(code) = CodeNone -> p.(state) <> stateUpgrade -> runs p tr src o -> outcome_ok p src o.
Proof.
  intros Hw Hn Hs Ho.
  destruct (parseLoop_ok (parseFuel src) p tr src) as (o' & Ho' & Hok);
    [done..| unfold parseFuel; destruct (state p); cbn; lia |].
  by rewrite (runs_det _ _ _ _ _ Ho (ex_intro _ _ Ho')).
Qed.

Definition stop (o : Outcome) : Outcome := mkOutcome (stopped o.(outParser)) o.(outTrace) o.(outRest) o.(outCode).

Lemma out_rel_stop o o' : out_rel o o' -> out_rel (stop o) (stop o').
Proof. intros (H1 & H2 & H3 & H4). unfold out_rel, stop. cbn. rewrite H1. by split_and!. Qed.

Lemma Parse_cut_running p tr s1 s2 r1 :
  wf p -> idle p -> quiet p.(callbacks) -> p.(code) = CodeNone -> p.(state) <> stateUpgrade ->
  runs (started p false) tr s1 r1 ->
  exists o2 o, Parse (stopped r1.(outParser)) r1.(outTrace) (r1.(outRest) ++ s2) = Some o2 /\
    Parse p tr (s1 ++ s2) = Some o /\ out_rel o2 o.
Proof.
  intros Hw Hid Hq Hn Hs [fuel Hr1].
  destruct (parseLoop_joins fuel _ tr tr s1 s2 r1 (running_started p Hw Hn Hq) ltac:(done) Hr1) as [Hj1 Hj2].
  destruct (runs_outcome (started p false) tr s1 r1 (started_wf p false Hw) Hn Hs (ex_intro _ _ Hr1))
    as (Hw1 & (_ & _ & _ & Hpa1 & Hp1 & Hpf) & _ & Hres).
  assert (paused (outParser r1) = false) as Hpd by (apply Hpf; done).
  pose proof (started_stopped _ Hp1 Hpa1 Hpd) as Hss.
  assert (forall o, runs (started p false) tr (s1 ++ s2) o -> Parse p tr (s1 ++ s2) = Some (stop o)) as Hwhole.
  { intros o Ho. apply Parse_runs; [done..|]. by exists o. }
  destruct Hres as [(Hc1 & Hn1 & Hs1 & Hrest) | Hhalt].
  - destruct Hrest as [Hrest|]; [|congruence]. rewrite Hrest. cbn [app].
    destruct (parseLoop_ok (parseFuel s2) (outParser r1) (outTrace r1) s2) as (r2 & Hr2 & _);
      [done.. | unfold parseFuel; destruct (state (outParser r1)); cbn; lia |].
    destruct (Hj1 Hc1 r2 (ex_intro _ _ Hr2)) as (o & Ho & Hrel).
    exists (stop r2), (stop o). split_and!; [|by apply Hwhole | by apply out_rel_stop].
    apply Parse_runs; [done..|]. exists r2. rewrite Hss. split; [by eexists | done].
  - assert (halted (stopped (outParser r1)) /\ outCode r1 <> CodeNone /\
            haltCode (stopped (outParser r1)) = outCode r1) as (Hh & Hc1 & Hcode).
    { unfold halted, haltCode. change (code (stopped _)) with (code (outParser r1)).
      change (state (stopped _)) with (state (outParser r1)).
      destruct Hhalt as [[Hnn ->] | (-> & Hu & ->)]; [|by auto].
      destruct (is_none_spec (code (outParser r1))); [done | auto]. }
    destruct (Hj2 Hc1) as (o & Ho & Hrel). rewrite Parse_halted, Hss, Hcode by done.
    do 2 eexists. split_and!; [done | by apply Hwhole |]. by apply (out_rel_stop (mkOutcome _ _ _ _)).
Qed.

Lemma out_rel_refl o : out_rel o o.
Proof. by split_and!. Qed.

Lemma out_rel_trans o1 o2 o3 : out_rel o1 o2 -> out_rel o2 o3 -> out_rel o1 o3.
Proof.
  intros (H1 & H2 & H3 & H4) (H1' & H2' & H3' & H4'). split_and!; try by etrans.
  intros Hn. etrans; [by apply H4 | apply H4']. by rewrite H1.
Qed.

Lemma Parse_cut p tr s1 s2 o1 :
  wf p -> idle p -> quiet p.(callbacks) -> Parse p tr s1 = Some o1 ->
  exists o2 o, Parse o1.(outParser) o1.(outTrace) (o1.(outRest) ++ s2) = Some o2 /\
    Parse p tr (s1 ++ s2) = Some o /\ out_rel o2 o.
Proof.
  intros Hw Hid Hq H1. pose proof Hid as [Hp _].
  destruct (is_none_spec (code p)) as [Hn|Hn]; [destruct (decide (state p = stateUpgrade)) as [Hs|Hs]|].
  2: { apply Parse_runs in H1 as (r1 & Hr1 & ->); [|done..]. by apply (Parse_cut_running p tr s1 s2 r1). }
  all: assert (halted p) by (unfold halted; auto);
    rewrite Parse_halted in H1 by done; injection H1 as <-; rewrite !Parse_halted by done;
    do 2 eexists; split_and!; [done | done | by apply out_rel_refl].
Qed.

Lemma Parse_keeps p tr src o :
  wf p -> idle p -> Parse p tr src = Some o ->
  wf o.(outParser) /\ idle o.(outParser) /\ o.(outParser).(callbacks) = p.(callbacks).
Proof.
  intros Hw [Hp Hpa] H.
  destruct (runParse_ok p tr src false Hw Hp) as (o' & H' & Hw1 & Hp1 & _ & _ & Hc1 & _).
  unfold Parse in H. rewrite H in H'. injection H' as <-. split; [done|]. split; [|done]. split; [done|].
  unfold runParse in H. rewrite Hp in H. destruct (parse _ tr src); [|done]. by injection H as <-.
Qed.

(** Feed the input piece by piece, giving back what a call left unread in
    front of the next piece. *)
Fixpoint feed (p : Parser) (tr : Trace) (src : list Z) (pieces : list (list Z)) : option Outcome :=
  match pieces with
  | [] => Parse p tr src
  | s :: pieces =>
      match Parse p tr src with
      | Some o => feed o.(outParser) o.(outTrace) (o.(outRest) ++ s) pieces
      | None => None
      end
  end.

Lemma feed_Parse p tr src pieces :
  wf p -> idle p -> quiet p.(callbacks) ->
  exists o o', feed p tr src pieces = Some o /\ Parse p tr (src ++ concat pieces) = Some o' /\ out_rel o o'.
Proof.
  revert p tr src. induction pieces as [|s pieces IH]; intros p tr src Hw Hid Hq; cbn [feed concat];
    destruct (runParse_ok p tr src false Hw (proj1 Hid)) as (o1 & H1 & _); fold (Parse p tr src) in H1.
  - rewrite app_nil_r. exists o1, o1. split_and!; [done..|apply out_rel_refl].
  - rewrite H1. destruct (Parse_keeps p tr src o1 Hw Hid H1) as (Hw1 & Hid1 & Hc1).
    destruct (IH (outParser o1) (outTrace o1) (outRest o1 ++ s)) as (o & om & Ho & Hom & Hrel); [done | done | by rewrite Hc1 |].
    destruct (Parse_cut p tr src (s ++ concat pieces) o1 Hw Hid Hq H1) as (o2 & o' & Ho2 & Ho' & Hrel').
    rewrite app_assoc in Ho2. rewrite Hom in Ho2. injection Ho2 as <-.
    exists o, o'. split_and!; [done | done | by eapply out_rel_trans].
Qed.
