(* ===== verification/Http1Names.v ===== *)
(** * HTTP/1 parser: method and field names

    [matchMethod] and [matchField] compare a name with every known one at the
    same time, one byte after another, keeping a mask of the candidates left.
    This file relates them to the comparison of whole strings. *)

From stdpp Require Import sets.
From S2P Require Import Prelude Http1Types Http1Fields.

(** ** Masks of candidates *)

(** [prefixb x y]: [x] is a prefix of [y]. *)
Fixpoint prefixb (x y : list Z) : bool :=
  match x, y with
  | [], _ => true
  | a :: x, b :: y => (a =? b) && prefixb x y
  | _ :: _, [] => false
  end.

Fixpoint eqb_bytes (x y : list Z) : bool :=
  match x, y with
  | [], [] => true
  | a :: x, b :: y => (a =? b) && eqb_bytes x y
  | _, _ => false
  end.

Lemma eqb_bytes_spec x y : eqb_bytes x y = true <-> x = y.
Proof.
  revert y. induction x as [|a x IH]; intros [|b y]; cbn; try done.
  rewrite andb_true_iff, Z.eqb_eq, IH. split; [by intros [-> ->] | by intros [= -> ->]].
Qed.

Lemma prefixb_snoc x b y : prefixb (x ++ [b]) y = true -> prefixb x y = true.
Proof.
  revert y. induction x as [|a x IH]; intros [|c y]; cbn; try done.
  rewrite !andb_true_iff. intros [? ?]. auto.
Qed.

(** Every non-empty prefix of a string. *)
Definition prefixes (y : list Z) : list (list Z) := (fun n => take n y) <$> seq 1 (length y).

Lemma prefixb_prefixes x y : prefixb x y = true -> x <> [] -> x ∈ prefixes y.
Proof.
  intros Hp Hx. unfold prefixes. apply list_elem_of_fmap.
  assert (exists z, y = x ++ z) as [z ->].
  { clear Hx. revert y Hp. induction x as [|a x IH]; intros y; [by exists y|].
    destruct y as [|b y]; cbn; [done|]. rewrite andb_true_iff, Z.eqb_eq. intros [-> Hp].
    destruct (IH y Hp) as [z ->]. by exists z. }
  exists (length x). rewrite take_app_length. split; [done|].
  apply elem_of_seq. rewrite length_app. destruct x; [done|]. cbn. lia.
Qed.

Lemma prefixb_same_length x y : length x = length y -> prefixb x y = eqb_bytes x y.
Proof.
  revert y. induction x as [|a x IH]; intros [|b y]; cbn; try done. intros [= H]. by rewrite IH.
Qed.

(** The mask of the candidates [bs] is a prefix of. *)
Definition candidates {A} (names : A -> list Z) (bit : A -> Z) (all : list A) (bs : list Z) : Z :=
  foldr (fun m mask => if prefixb bs (names m) then Z.lor (bit m) mask else mask) 0 all.

Lemma candidates_none {A} (names : A -> list Z) bit all bs :
  (forall m, m ∈ all -> prefixb bs (names m) = false) -> candidates names bit all bs = 0.
Proof.
  induction all as [|m all IH]; intros H; [done|]. cbn. rewrite H by set_solver. apply IH. set_solver.
Qed.

(** A name is recognised when it equals the whole string. *)
Definition recognise {A} (names : A -> list Z) (all : list A) (bs : list Z) : option A :=
  find (fun m => eqb_bytes bs (names m)) all.

(** The bit of a candidate is set in the mask exactly when it is one. *)
Lemma land_bit_testbit mask i : 0 <= i -> negb (Z.land mask (Z.shiftl 1 i) =? 0) = Z.testbit mask i.
Proof.
  intros Hi. destruct (Z.testbit mask i) eqn:E.
  - apply negb_true_iff, Z.eqb_neq. intros H0.
    assert (Z.testbit (Z.land mask (Z.shiftl 1 i)) i = true) as Ht.
    { rewrite Z.land_spec, E, Z.shiftl_spec, Z.sub_diag by lia. done. }
    by rewrite H0, Z.bits_0 in Ht.
  - apply negb_false_iff, Z.eqb_eq, Z.bits_inj'. intros j Hj. rewrite Z.land_spec, Z.bits_0.
    destruct (Z.eq_dec i j) as [<-|Hne]; [by rewrite E|].
    rewrite Z.shiftl_1_l, Z.pow2_bits_false by lia. apply andb_false_r.
Qed.

Lemma candidates_land {A} (names : A -> list Z) (index : A -> Z) (all : list A) bs m :
  0 <= index m - 1 -> (forall m, -1 <= index m - 1) ->
  negb (Z.land (candidates names (fun m => Z.shiftl 1 (index m - 1)) all bs) (Z.shiftl 1 (index m - 1)) =? 0) =
  existsb (fun m' => prefixb bs (names m') && (index m' =? index m)) all.
Proof.
  intros Hm Hall. rewrite land_bit_testbit by done. induction all as [|m' all IH]; [apply Z.bits_0|].
  cbn [candidates foldr existsb].
  change (foldr _ 0 all) with (candidates names (fun m => Z.shiftl 1 (index m - 1)) all bs).
  destruct (prefixb bs (names m')); [|exact IH]. rewrite Z.lor_spec, IH. f_equal. cbn [andb].
  specialize (Hall m'). destruct (Z.eqb_spec (index m') (index m)) as [->|Hne].
  - rewrite Z.shiftl_1_l. by apply Z.pow2_bits_true.
  - destruct (Z.eq_dec (index m') 0) as [E0|E0]; [rewrite E0; apply Z.bits_0|].
    rewrite Z.shiftl_1_l. apply Z.pow2_bits_false. lia.
Qed.

Lemma existsb_index {A} (f : A -> bool) (index : A -> Z) all m :
  (forall m m', index m = index m' -> m = m') -> m ∈ all ->
  existsb (fun m' => f m' && (index m' =? index m)) all = f m.
Proof.
  intros Hinj Hm. apply eq_true_iff_eq. rewrite existsb_exists. split.
  - intros (m' & _ & H). apply andb_prop in H as [Hf ->%Z.eqb_eq%Hinj]. done.
  - intros Hf. exists m. rewrite Hf, Z.eqb_refl. split; [by apply list_elem_of_In | done].
Qed.

Lemma prefixb_length x y n : Z.min n (len x) = len x \/ len y < n ->
  prefixb x y && (Z.min n (len x) =? len y) = eqb_bytes x y.
Proof.
  intros Hn. destruct (Z.eqb_spec (len x) (len y)) as [He|He].
  - rewrite prefixb_same_length by (unfold len in He; lia).
    destruct (Z.eqb_spec (Z.min n (len x)) (len y)); [apply andb_true_r | lia].
  - destruct (Z.eqb_spec (Z.min n (len x)) (len y)); [lia|]. rewrite andb_false_r. symmetry.
    apply not_true_iff_false. rewrite eqb_bytes_spec. by intros ->.
Qed.

Lemma find_ext_in {A} (f g : A -> bool) l : (forall x, In x l -> f x = g x) -> find f l = find g l.
Proof.
  induction l as [|x l IH]; intros H; [done|]. cbn. rewrite H by (by left).
  destruct (g x); [done|]. apply IH. intros y Hy. apply H. by right.
Qed.

(** A byte that occurs in no name mismatches at every position. *)
Lemma mismatch_notin name pos b : 0 <= pos -> b ∉ name -> mismatch name pos b = true.
Proof.
  intros Hpos Hb. unfold mismatch. destruct (Z.leb_spec (len name) pos); [done|]. cbn.
  destruct (Z.eqb_spec b (str_at name pos)) as [Heq|]; [|done]. destruct Hb. rewrite Heq.
  apply list_elem_of_In, nth_In. unfold len in *. lia.
Qed.

Lemma prefixb_notin bs b name : b ∉ name -> prefixb (bs ++ [b]) name = false.
Proof.
  revert name. induction bs as [|a bs IH]; intros [|c name] Hb; cbn; try done.
  - destruct (Z.eqb_spec b c); [set_solver|done].
  - rewrite IH by set_solver. apply andb_false_r.
Qed.

(** ** A matcher that keeps a mask of candidates

    [first] starts the mask, [next] updates it; a position past every name
    stands for a byte that occurs in none. *)

Definition far : Z := 100.

Section Matcher.
Context {A : Type} (names : A -> list Z) (bit : A -> Z) (all : list A).
Context (first : Z -> Z) (next : Z -> Z -> Z -> Z).

Let cand := candidates names bit all.

Definition alphabet : list Z := concat (names <$> all).
Definition livePrefixes : list (list Z) := concat ((fun m => prefixes (names m)) <$> all).

(** What there is to check, on finitely many inputs. *)
Definition matcher_check : bool :=
  forallb (fun b => first b =? cand [b]) alphabet &&
  forallb (fun bs => (next (cand bs) far 0 =? 0) &&
    forallb (fun b => next (cand bs) (len bs) b =? cand (bs ++ [b])) alphabet) livePrefixes.

Context (Hcheck : matcher_check = true).
Context (Hfirst : forall b, b ∉ alphabet -> first b = 0).
Context (Hzero : forall pos b, next 0 pos b = 0).
Context (Hnext : forall mask pos b, 0 <= pos -> b ∉ alphabet -> next mask pos b = next mask far 0).

Lemma cand_notin bs b : b ∉ alphabet -> cand (bs ++ [b]) = 0.
Proof.
  intros Hb. apply candidates_none. intros m Hm. apply prefixb_notin. intros Hin. destruct Hb.
  apply list_elem_of_In, in_concat. exists (names m). split; [|by apply list_elem_of_In].
  apply list_elem_of_In, list_elem_of_fmap. by exists m.
Qed.

Lemma first_candidates b : first b = cand [b].
Proof.
  destruct (decide (b ∈ alphabet)) as [Hb|Hb]; [|rewrite Hfirst by done; symmetry; by apply (cand_notin [])].
  apply andb_prop in Hcheck as [Hc _]. rewrite forallb_forall in Hc.
  apply Z.eqb_eq, Hc. by apply list_elem_of_In.
Qed.

Lemma next_candidates bs b : bs <> [] -> next (cand bs) (len bs) b = cand (bs ++ [b]).
Proof.
  intros Hbs. destruct (decide (bs ∈ livePrefixes)) as [Hl|Hl].
  - apply andb_prop in Hcheck as [_ Hc]. rewrite forallb_forall in Hc.
    apply list_elem_of_In, Hc, andb_prop in Hl as [Hf Hb]. rewrite forallb_forall in Hb.
    destruct (decide (b ∈ alphabet)) as [Hin|Hin]; [by apply Z.eqb_eq, Hb, list_elem_of_In|].
    rewrite Hnext, cand_notin by (done || apply len_nonneg). by apply Z.eqb_eq.
  - assert (forall m, m ∈ all -> prefixb bs (names m) = false) as Hnone.
    { intros m Hm. destruct (prefixb bs (names m)) eqn:E; [|done]. destruct Hl.
      apply list_elem_of_In, in_concat. exists (prefixes (names m)). split.
      - apply list_elem_of_In, list_elem_of_fmap. by exists m.
      - by apply list_elem_of_In, prefixb_prefixes. }
    unfold cand. rewrite !candidates_none; [apply Hzero| |done].
    intros m Hm. destruct (prefixb (bs ++ [b]) (names m)) eqn:E; [|done].
    apply prefixb_snoc in E. by rewrite Hnone in E.
Qed.
End Matcher.

(** Membership of a constant in a constant list. *)
Ltac in_alphabet := apply (bool_decide_unpack _); vm_compute; exact I.

(** ** Methods *)

Definition methodCandidates : list Z -> Z := candidates methodNames methodBit namedMethods.

Lemma methodNames_notin m b : b ∉ alphabet methodNames namedMethods -> b ∉ methodNames m.
Proof.
  intros Hb Hm. destruct Hb. apply list_elem_of_In, in_concat. exists (methodNames m).
  split; [|by apply list_elem_of_In]. destruct m; [by apply not_elem_of_nil in Hm|cbn; tauto..].
Qed.

Lemma methodMask_candidates b bs :
  firstMethodMask b = methodCandidates [b] /\
  (bs <> [] -> nextMethodMask (methodCandidates bs) (len bs) b = methodCandidates (bs ++ [b])).
Proof.
  assert (matcher_check methodNames methodBit namedMethods firstMethodMask nextMethodMask = true)
    as Hcheck by (vm_compute; reflexivity).
  split.
  - apply (first_candidates _ _ _ _ nextMethodMask); [done|]. intros c Hc. unfold firstMethodMask.
    repeat match goal with |- context [c =? ?x] =>
      destruct (Z.eqb_spec c x); [subst; destruct Hc; in_alphabet|] end. done.
  - apply (next_candidates _ _ _ firstMethodMask); [done|done|].
    intros mask pos c Hpos Hc. unfold nextMethodMask.
    assert (forall m, mismatch (methodNames m) pos c = mismatch (methodNames m) far 0) as Hm.
    { intros m. rewrite (mismatch_notin _ pos c Hpos (methodNames_notin m c Hc)). destruct m; vm_compute; reflexivity. }
    by rewrite !Hm.
Qed.

(** The bytes of a method, one after another. *)
Definition matchMethods (p : Parser) (bs : list Z) : Parser := foldl matchMethod p bs.

Lemma matchMethod_eq p b : in_u8 p.(methodPos) ->
  (matchMethod p b).(methodMask) =
    (if p.(methodPos) =? 0 then firstMethodMask b else nextMethodMask p.(methodMask) p.(methodPos) b) /\
  (matchMethod p b).(methodPos) = Z.min MaxUint8 (p.(methodPos) + 1).
Proof.
  unfold in_u8, matchMethod. intros Hp.
  assert (forall q, q.(methodPos) = p.(methodPos) ->
    let r := if negb (q.(methodPos) =? MaxUint8) then q <| methodPos := u8 (q.(methodPos) + 1) |> else q in
    r.(methodMask) = q.(methodMask) /\ r.(methodPos) = Z.min MaxUint8 (p.(methodPos) + 1)) as Hinc.
  { intros q Hq. cbv zeta. rewrite Hq. destruct (Z.eqb_spec (methodPos p) MaxUint8) as [He|He]; cbn; [lia|].
    rewrite u8_small by lia. lia. }
  destruct (methodPos p =? 0).
  - set (q := p <| methodMask := firstMethodMask b |>). exact (Hinc q eq_refl).
  - set (q := p <| methodMask := nextMethodMask p.(methodMask) p.(methodPos) b |>). exact (Hinc q eq_refl).
Qed.

(** No method is as long as the position counter can count. *)
Lemma methodCandidates_long bs : 8 <= len bs -> methodCandidates bs = 0.
Proof.
  intros Hl. apply candidates_none. intros m _. destruct (prefixb bs (methodNames m)) eqn:E; [|done].
  assert (bs <> []) as Hne by (by intros ->). apply prefixb_prefixes in E; [|done].
  assert (Forall (fun x => len x < 8) (prefixes (methodNames m))) as Hf.
  { apply (bool_decide_unpack _). destruct m; vm_compute; exact I. }
  rewrite Forall_forall in Hf. apply list_elem_of_In, Hf in E. lia.
Qed.

Lemma matchMethods_mask p b bs :
  p.(methodPos) = 0 ->
  (matchMethods p (b :: bs)).(methodMask) = methodCandidates (b :: bs) /\
  (matchMethods p (b :: bs)).(methodPos) = Z.min MaxUint8 (len (b :: bs)).
Proof.
  intros Hp. induction bs as [|c bs IH] using rev_ind.
  - destruct (matchMethod_eq p b) as [Hm Hpos]; [by rewrite Hp|]. rewrite Hp in Hm, Hpos.
    split; [|exact Hpos]. etrans; [exact Hm|]. apply (methodMask_candidates b []).
  - rewrite app_comm_cons. unfold matchMethods in *. rewrite foldl_app. cbn [foldl].
    destruct IH as [IHm IHp]. change (foldl matchMethod (matchMethod p b) bs) with (foldl matchMethod p (b :: bs)).
    set (q := foldl matchMethod p (b :: bs)) in *. pose proof (len_nonneg bs).
    rewrite len_app, len_cons in *. change (len [c]) with 1.
    assert (in_u8 (methodPos q)) as Hu by (unfold in_u8, MaxUint8 in *; lia).
    destruct (matchMethod_eq q c Hu) as [-> ->]. split; [|unfold MaxUint8 in *; lia].
    destruct (Z.eqb_spec (methodPos q) 0); [unfold MaxUint8 in *; lia|]. rewrite IHm.
    destruct (Z.le_gt_cases (len bs + 1) MaxUint8) as [Hle|Hgt].
    + rewrite IHp, Z.min_r, <- (len_cons b) by lia. by apply methodMask_candidates.
    + unfold MaxUint8 in Hgt. rewrite !methodCandidates_long;
        [done | rewrite len_app, len_cons; change (len [c]) with 1; lia | rewrite len_cons; lia].
Qed.

Lemma methodCandidates_bit bs m : m ∈ namedMethods ->
  negb (Z.land (methodCandidates bs) (methodBit m) =? 0) = prefixb bs (methodNames m).
Proof.
  intros Hm. unfold methodCandidates, methodBit. rewrite (candidates_land _ _ namedMethods).
  - apply (existsb_index (fun m' => prefixb bs (methodNames m')) methodIndex); [by intros [] []|done].
  - destruct m; [exfalso; by apply (bool_decide_unpack (~ _)) in Hm|done..].
  - by intros [].
Qed.

(** [matchMethod] and [finishMethod] name a method exactly when its bytes are
    the name, whatever the length. *)
Lemma finishMethod_recognises p b bs :
  p.(methodPos) = 0 ->
  (finishMethod (matchMethods p (b :: bs))).(method) =
    match recognise methodNames namedMethods (b :: bs) with Some m => m | None => MethodOther end.
Proof.
  intros Hp. destruct (matchMethods_mask p b bs Hp) as [Hm Hpos]. unfold finishMethod, recognise.
  cbn [method set_method set]. change (method (_ <| method := ?x |>)) with x. rewrite Hm, Hpos.
  erewrite find_ext_in; [reflexivity|]. intros m Hin. apply list_elem_of_In in Hin.
  rewrite methodCandidates_bit by done. apply prefixb_length.
  assert (len (methodNames m) < 8) as Hlen by (by destruct m). unfold MaxUint8. lia.
Qed.

(** ** Field names *)

Definition fieldCandidates : list Z -> Z := candidates fieldNames fieldBit namedFields.

Lemma fieldNames_notin f b : b ∉ alphabet fieldNames namedFields -> b ∉ fieldNames f.
Proof.
  intros Hb Hm. destruct Hb. apply list_elem_of_In, in_concat. exists (fieldNames f).
  split; [|by apply list_elem_of_In]. destruct f; [by apply not_elem_of_nil in Hm|cbn; tauto..].
Qed.

Lemma fieldMask_candidates b bs :
  firstFieldMask b = fieldCandidates [b] /\
  (bs <> [] -> nextFieldMask (fieldCandidates bs) (len bs) b = fieldCandidates (bs ++ [b])).
Proof.
  assert (matcher_check fieldNames fieldBit namedFields firstFieldMask nextFieldMask = true)
    as Hcheck by (vm_compute; reflexivity).
  split.
  - apply (first_candidates _ _ _ _ nextFieldMask); [done|]. intros c Hc. unfold firstFieldMask.
    repeat match goal with |- context [c =? ?x] =>
      destruct (Z.eqb_spec c x); [subst; destruct Hc; in_alphabet|] end. done.
  - apply (next_candidates _ _ _ firstFieldMask); [done|done|].
    intros mask pos c Hpos Hc. unfold nextFieldMask, clearUnless.
    assert (forall f, mismatch (fieldNames f) pos c = mismatch (fieldNames f) far 0) as Hm.
    { intros f. rewrite (mismatch_notin _ pos c Hpos (fieldNames_notin f c Hc)). destruct f; vm_compute; reflexivity. }
    by rewrite !Hm.
Qed.

(** The bytes of a field name, one after another. *)
Definition matchFields (p : Parser) (bs : list Z) : Parser := foldl matchField p bs.

Lemma matchField_eq p b : 0 <= p.(fieldPos) < MaxUint16 ->
  (matchField p b).(fieldMask) =
    (if p.(fieldPos) =? 0 then firstFieldMask (asciiLower b)
     else nextFieldMask p.(fieldMask) p.(fieldPos) (asciiLower b)) /\
  (matchField p b).(fieldPos) = p.(fieldPos) + 1.
Proof.
  intros Hp. unfold matchField. cbv zeta. destruct (fieldPos p =? 0); cbn; rewrite u16_small by lia; done.
Qed.

Lemma matchFields_mask p b bs :
  p.(fieldPos) = 0 -> len (b :: bs) <= MaxUint16 ->
  (matchFields p (b :: bs)).(fieldMask) = fieldCandidates (asciiLower <$> b :: bs) /\
  (matchFields p (b :: bs)).(fieldPos) = len (b :: bs).
Proof.
  intros Hp. induction bs as [|c bs IH] using rev_ind; intros Hlen.
  - destruct (matchField_eq p b) as [Hm Hpos]; [by rewrite Hp|]. rewrite Hp in Hm, Hpos.
    split; [|exact Hpos]. etrans; [exact Hm|]. apply (fieldMask_candidates (asciiLower b) []).
  - rewrite app_comm_cons in *. unfold matchFields in *. rewrite foldl_app. cbn [foldl].
    rewrite len_app in *. change (len [c]) with 1 in *. destruct IH as [IHm IHp]; [lia|].
    change (foldl matchField (matchField p b) bs) with (foldl matchField p (b :: bs)).
    set (q := foldl matchField p (b :: bs)) in *. pose proof (len_nonneg bs). rewrite len_cons in *.
    destruct (matchField_eq q c) as [-> ->]; [lia|]. split; [|lia].
    destruct (Z.eqb_spec (fieldPos q) 0); [lia|]. rewrite IHm, IHp.
    replace (len bs + 1) with (len (asciiLower <$> b :: bs)) by (unfold len; rewrite length_fmap; cbn; lia).
    rewrite fmap_app. by apply fieldMask_candidates.
Qed.

Lemma fieldCandidates_bit bs f : f ∈ namedFields ->
  negb (Z.land (fieldCandidates bs) (fieldBit f) =? 0) = prefixb bs (fieldNames f).
Proof.
  intros Hf. unfold fieldCandidates, fieldBit. rewrite (candidates_land _ _ namedFields).
  - apply (existsb_index (fun f' => prefixb bs (fieldNames f')) fieldIndex); [by intros [] []|done].
  - destruct f; [exfalso; by apply (bool_decide_unpack (~ _)) in Hf|done..].
  - by intros [].
Qed.

(** The name selects a field exactly when it is the field's name up to ASCII
    case. *)
Lemma lookupField_recognises p b bs :
  p.(fieldPos) = 0 -> len (b :: bs) <= MaxUint16 ->
  lookupField (matchFields p (b :: bs)) =
    match recognise fieldNames namedFields (asciiLower <$> b :: bs) with Some f => f | None => fieldOther end.
Proof.
  intros Hp Hlen. destruct (matchFields_mask p b bs Hp Hlen) as [Hm Hpos]. unfold lookupField, recognise.
  rewrite Hm, Hpos. erewrite find_ext_in; [reflexivity|]. intros f Hin. apply list_elem_of_In in Hin.
  rewrite fieldCandidates_bit by done. set (n := len (b :: bs)).
  assert (n = len (asciiLower <$> b :: bs)) as Hn by (unfold n, len; by rewrite length_fmap).
  clearbody n. subst n. rewrite <- (Z.min_id (len _)) at 1. apply prefixb_length. left. apply Z.min_id.
Qed.
