(* ===== verification/Http1Numbers.v ===== *)
(** * HTTP/1 parser: numbers

    [Content-Length] values and chunk sizes are accumulated digit by digit in
    a [uint64] behind an overflow test.  Both are related to the value of the
    digit string as an unbounded number. *)

From S2P Require Import Prelude Http1Types Http1Fields Http1Parser Http1Wf.

(** ** Content-Length *)

(** Consume bytes while the operation accepts them. *)
Definition consumeAll (f : Parser -> Z -> Parser * bool) (p : Parser) (bs : list Z) : Parser * bool :=
  let '((q, _), ok) := forBytes (fun _ _ => true) f p bs in (q, ok).

Lemma consumeAll_cons f p b bs :
  consumeAll f p (b :: bs) = (let (q, ok) := f p b in if ok then consumeAll f q bs else (q, false)).
Proof. unfold consumeAll. cbn. destruct (f p b) as [q []]; [|done]. by destruct (forBytes _ f q bs) as [[? ?] ?]. Qed.

Lemma consumeAll_app f p x y :
  consumeAll f p (x ++ y) = (let (q, ok) := consumeAll f p x in if ok then consumeAll f q y else (q, false)).
Proof.
  revert p. induction x as [|b x IH]; intros p; [done|]. cbn [app]. rewrite !consumeAll_cons.
  destruct (f p b) as [q []]; [apply IH|done].
Qed.

Lemma isDigit_range b : isDigit b = true -> 0 <= digitOf b <= 9 /\ isOWS b = false.
Proof.
  unfold isDigit, between, digitOf, isOWS. intros H. bool_to_prop. split; [lia|].
  destruct (Z.eqb_spec b 32), (Z.eqb_spec b 9); lia || done.
Qed.

(** The digits, from an accumulated value. *)
Lemma consumeContentLength_digits p ds :
  Forall (fun b => isDigit b = true) ds -> p.(contentLengthTrailing) = false -> p.(code) = CodeNone ->
  0 <= p.(remaining) <= MaxUint64 ->
  let v := digits_value 10 (digitOf <$> ds) p.(remaining) in
  let '(q, ok) := consumeAll consumeContentLength p ds in
  if ok then v <= MaxUint64 /\ q.(remaining) = v /\ q.(contentLengthTrailing) = false /\
             q.(code) = CodeNone /\ (q.(contentLengthDigits) = (p.(contentLengthDigits) || negb (length ds =? 0)%nat))
  else MaxUint64 < v /\ q.(code) = CodeInvalidContentLength.
Proof.
  intros Hds. revert p. induction Hds as [|b ds Hb Hds IH]; intros p Ht Hn Hr; cbn zeta.
  { cbn. rewrite orb_false_r. split_and!; done || lia. }
  rewrite consumeAll_cons. destruct (isDigit_range b Hb) as [Hrange Hows].
  unfold consumeContentLength at 1. rewrite Hows, Hb, Ht. cbn [negb orb].
  change (b - 48) with (digitOf b). cbn [remaining].
  change (remaining (p <| contentLengthDigits := true |>)) with (remaining p).
  assert (Forall (fun d => 0 <= d) (digitOf <$> ds)) as Hpos.
  { apply Forall_fmap. eapply Forall_impl; [|exact Hds]. intros d Hd. apply isDigit_range in Hd. cbn. lia. }
  destruct ((MaxUint64 - digitOf b) / 10 <? remaining p) eqn:Hov.
  - apply overflow_test in Hov; [|lia..]. unfold reject. cbn. unfold fail. cbn. rewrite Hn. split; [|done].
    unfold digits_value in *. cbn. eapply Z.lt_le_trans; [exact Hov|]. apply digits_value_mono; [lia..|done].
  - assert (remaining p * 10 + digitOf b <= MaxUint64) as Hfit.
    { apply not_true_iff_false in Hov. rewrite overflow_test in Hov by lia. lia. }
    rewrite u64_small by lia.
    assert (0 <= remaining p * 10 + digitOf b <= MaxUint64) as Hfit' by lia.
    set (p' := p <| contentLengthDigits := true |> <| remaining := remaining p * 10 + digitOf b |>).
    specialize (IH p' Ht Hn Hfit').
    cbn zeta in IH. destruct (consumeAll consumeContentLength _ ds) as [q []].
    + destruct IH as (? & ? & ? & ? & Hd). split_and!; try done. rewrite Hd. cbn. by rewrite orb_true_r.
    + exact IH.
Qed.

(** Optional whitespace around the digits. *)
Lemma consumeContentLength_ows p bs :
  Forall (fun b => isOWS b = true) bs ->
  consumeAll consumeContentLength p bs =
    (if p.(contentLengthDigits) && negb (length bs =? 0)%nat then p <| contentLengthTrailing := true |> else p, true).
Proof.
  intros Hbs. revert p. induction Hbs as [|b bs Hb Hbs IH]; intros p; [by rewrite andb_false_r|].
  rewrite consumeAll_cons. unfold consumeContentLength at 1. rewrite Hb. cbn [length Nat.eqb negb].
  rewrite andb_true_r. destruct (contentLengthDigits p) eqn:Hd.
  - rewrite IH. change (contentLengthDigits (p <| contentLengthTrailing := true |>)) with (contentLengthDigits p).
    rewrite Hd. by destruct (negb _).
  - by rewrite IH, Hd.
Qed.

(** [OWS digits OWS] and the value of the digits. *)
Definition content_length (bs : list Z) (v : Z) : Prop :=
  exists lead ds trail, bs = lead ++ ds ++ trail /\ ds <> [] /\ v = decimal ds /\
    Forall (fun b => isOWS b = true) lead /\ Forall (fun b => isDigit b = true) ds /\
    Forall (fun b => isOWS b = true) trail.

(** A parser about to read the value: the state [startFieldValue] leaves. *)
Definition at_content_length (p : Parser) : Prop :=
  p.(field) = fieldContentLength /\ p.(code) = CodeNone /\ p.(remaining) = 0 /\
  p.(contentLengthDigits) = false /\ p.(contentLengthTrailing) = false.

(** Where in the value the parser stands after the bytes [bs]. *)
Definition content_length_at (bs : list Z) (q : Parser) : Prop :=
  (q.(contentLengthDigits) = false /\ q.(contentLengthTrailing) = false /\ q.(remaining) = 0 /\
   Forall (fun b => isOWS b = true) bs) \/
  (q.(contentLengthDigits) = true /\ 0 <= q.(remaining) <= MaxUint64 /\
   exists lead ds trail, bs = lead ++ ds ++ trail /\ ds <> [] /\ q.(remaining) = decimal ds /\
     Forall (fun b => isOWS b = true) lead /\ Forall (fun b => isDigit b = true) ds /\
     Forall (fun b => isOWS b = true) trail /\ (q.(contentLengthTrailing) = false -> trail = [])).

Lemma consumeContentLength_at bs q b r :
  content_length_at bs q -> consumeContentLength q b = (r, true) -> content_length_at (bs ++ [b]) r.
Proof.
  intros Hat. unfold consumeContentLength. destruct (isOWS b) eqn:Hows.
  - intros [= <-]. destruct Hat as [(Hd & Ht & Hr & Hf) | (Hd & Hr & lead & ds & trail & -> & Hne & Hv & Hl & Hds & Htr & _)];
      rewrite Hd.
    + left. split_and!; try done. apply Forall_app. split; [done|]. by constructor.
    + right. split; [done|]. split; [done|]. exists lead, ds, (trail ++ [b]). rewrite !app_assoc. split_and!; try done.
      apply Forall_app. split; [done|]. by constructor.
  - destruct (isDigit b) eqn:Hb; cbn [negb orb]; [|done].
    destruct (contentLengthTrailing q) eqn:Htrail; [done|].
    change (remaining (q <| contentLengthDigits := true |>)) with (remaining q).
    change (b - 48) with (digitOf b). destruct (isDigit_range b Hb) as [Hrange _].
    destruct (_ / 10 <? _) eqn:Hov; [done|]. intros [= <-].
    assert (remaining q * 10 + digitOf b <= MaxUint64) as Hfit.
    { apply not_true_iff_false in Hov. rewrite overflow_test in Hov by lia. lia. }
    assert (0 <= remaining q) by (destruct Hat as [(_ & _ & -> & _) | (_ & ? & _)]; lia).
    right. cbn. rewrite u64_small by lia. split_and!; [done|lia|lia|].
    destruct Hat as [(Hd & Ht & Hr & Hf) | (Hd & Hr & lead & ds & trail & -> & Hne & Hv & Hl & Hds & Htr & Hnil)].
    + exists bs, [b], []. rewrite Hr. split_and!; try done. by constructor.
    + rewrite (Hnil Htrail). exists lead, (ds ++ [b]), []. rewrite Hv, decimal_snoc, !app_nil_r, app_assoc.
      split_and!; try done; [by destruct ds|]. apply Forall_app. split; [done|]. by constructor.
Qed.

Lemma consumeContentLength_reaches p bs q :
  at_content_length p -> consumeAll consumeContentLength p bs = (q, true) -> content_length_at bs q.
Proof.
  intros (_ & _ & Hr & Hd & Ht). revert q. induction bs as [|b bs IH] using rev_ind; intros q.
  { intros [= <-]. by left. }
  rewrite consumeAll_app. destruct (consumeAll consumeContentLength p bs) as [r []]; [|done].
  rewrite consumeAll_cons. destruct (consumeContentLength r b) as [r' []] eqn:E; [|done].
  intros [= <-]. eapply consumeContentLength_at; [by apply IH | done].
Qed.

Lemma consumeAll_field p bs q ok :
  consumeAll consumeContentLength p bs = (q, ok) -> q.(field) = p.(field).
Proof.
  revert p. induction bs as [|b bs IH]; intros p; [by intros [= <- <-]|]. rewrite consumeAll_cons.
  assert (field (consumeContentLength p b).1 = field p) as Hf.
  { unfold consumeContentLength, reject, fail. cbn. break_ifs; done. }
  destruct (consumeContentLength p b) as [r []]; cbn in Hf; [|by intros [= <- <-]].
  intros H. by rewrite (IH _ H).
Qed.

Lemma content_length_iff p bs v :
  at_content_length p ->
  (exists q, consumeAll consumeContentLength p bs = (q, true) /\ (finishFieldValue q).2 = true /\
     q.(remaining) = v) <-> content_length bs v /\ v <= MaxUint64.
Proof.
  intros Hp. pose proof Hp as (Hfield & Hn & Hr & Hd & Ht). split.
  - intros (q & Hq & Hfin & <-).
    unfold finishFieldValue in Hfin. rewrite (consumeAll_field _ _ _ _ Hq), Hfield in Hfin.
    apply consumeContentLength_reaches in Hq; [|done].
    destruct Hq as [(Hdq & _) | (Hdq & Hrq & lead & ds & trail & -> & Hne & Hv & Hl & Hds & Htr & _)].
    + rewrite Hdq in Hfin. cbn in Hfin. unfold fail in Hfin.
      destruct (is_none (code q)) eqn:E; cbn in Hfin; by rewrite ?E in Hfin.
    + split; [|lia]. by exists lead, ds, trail.
  - intros [(lead & ds & trail & -> & Hne & -> & Hl & Hds & Htr) Hle].
    rewrite consumeAll_app, consumeContentLength_ows, Hd by done. cbn [andb].
    rewrite consumeAll_app. pose proof (consumeContentLength_digits p ds Hds Ht Hn ltac:(unfold MaxUint64; lia)) as H.
    cbn zeta in H. rewrite Hr in H. destruct (consumeAll consumeContentLength p ds) as [q []] eqn:Eq; [|by unfold decimal in Hle; lia].
    destruct H as (_ & Hv & Hq1 & Hq2 & Hq3). rewrite Hd in Hq3. destruct ds as [|d ds]; [done|]. cbn in Hq3.
    rewrite consumeContentLength_ows, Hq3 by done. cbn [andb].
    assert (field q = fieldContentLength) as Hfq by (by rewrite (consumeAll_field _ _ _ _ Eq)).
    destruct (negb _); eexists; (split_and!; [done| |done]); unfold finishFieldValue; cbn; by rewrite Hfq, Hq3.
Qed.

(** ** Chunk sizes *)

Definition hexDigit (b : Z) : Z := match hexValue b with Some d => d | None => 0 end.

(** The value of a string of hexadecimal digits. *)
Definition hexadecimal (ds : list Z) : Z := digits_value 16 (hexDigit <$> ds) 0.

Lemma hexValue_range b d : hexValue b = Some d -> 0 <= d <= 15.
Proof. unfold hexValue, isDigit, between. intros H. break_ifs; simplify_eq; bool_to_prop; lia. Qed.

(** The line and metadata budgets of [takeChunkLineByte] leave room for [n] bytes. *)
Definition chunk_budget (p : Parser) (n : Z) : Prop :=
  p.(chunkLineBytes) + n <= p.(limits).(MaxChunkLineBytes) /\
  p.(chunkMetadataBytes) + n <= p.(limits).(MaxChunkMetadataBytes).

Lemma takeChunkLineByte_fits p :
  wfc p -> chunk_budget p 1 ->
  takeChunkLineByte p = (p <| chunkLineBytes := p.(chunkLineBytes) + 1 |>
                           <| chunkMetadataBytes := p.(chunkMetadataBytes) + 1 |>, true).
Proof.
  intros Hw [H1 H2]. unfold takeChunkLineByte. wfc_unfold. destruct_and!.
  destruct (Z.eqb_spec (chunkLineBytes p) (MaxChunkLineBytes (limits p))); [lia|].
  destruct (Z.leb_spec (MaxChunkMetadataBytes (limits p)) (chunkMetadataBytes p)); [lia|].
  rewrite u32_small, u64_small by (unfold MaxUint32, MaxUint64; lia). done.
Qed.

Lemma chunkSize_digits p ds :
  Forall (fun b => isHexDigit b = true) ds -> wfc p -> p.(code) = CodeNone -> chunk_budget p (len ds) ->
  let v := digits_value 16 (hexDigit <$> ds) p.(chunkSize) in
  let '(q, ok) := consumeAll chunkSizeByte p ds in
  if ok then v <= MaxUint64 /\ q.(chunkSize) = v /\ q.(code) = CodeNone /\
             q.(chunkDigits) = (p.(chunkDigits) || negb (length ds =? 0)%nat) /\
             q.(chunkLineBytes) = p.(chunkLineBytes) + len ds
  else MaxUint64 < v /\ q.(code) = CodeInvalidChunkSize.
Proof.
  intros Hds. revert p. induction Hds as [|b ds Hb Hds IH]; intros p Hw Hn Hbud; cbn zeta.
  { cbn. rewrite orb_false_r. unfold wfc, chunk_counters_ok, len in *. cbn. split_and!; done || lia. }
  rewrite consumeAll_cons. unfold chunkSizeByte at 1. unfold isHexDigit in Hb.
  destruct (hexValue b) as [d|] eqn:Hd; [|done]. pose proof (hexValue_range b d Hd) as Hrange.
  assert (hexDigit b = d) as Hdig by (unfold hexDigit; by rewrite Hd).
  assert (Forall (fun d => 0 <= d) (hexDigit <$> ds)) as Hpos.
  { apply Forall_fmap. eapply Forall_impl; [|exact Hds]. intros x Hx. unfold isHexDigit in Hx. cbn.
    unfold hexDigit. destruct (hexValue x) eqn:E; [apply hexValue_range in E; lia|done]. }
  rewrite len_cons in Hbud. pose proof (len_nonneg ds) as Hlen. unfold chunk_budget in Hbud.
  set (p0 := p <| chunkDigits := true |>).
  rewrite (takeChunkLineByte_fits p0 Hw) by (split; [change (chunkLineBytes p0) with (chunkLineBytes p); change (limits p0) with (limits p) | change (chunkMetadataBytes p0) with (chunkMetadataBytes p); change (limits p0) with (limits p)]; lia).
  set (p1 := p0 <| chunkLineBytes := _ |> <| chunkMetadataBytes := _ |>). cbn [negb].
  change (chunkSize p1) with (chunkSize p). cbn [fmap list_fmap]. unfold digits_value. cbn [foldl]. rewrite Hdig.
  fold (digits_value 16 (hexDigit <$> ds) (chunkSize p * 16 + d)).
  assert (0 <= chunkSize p <= MaxUint64) as Hc by (unfold wfc, chunk_counters_ok in Hw; destruct_and!; done).
  destruct ((MaxUint64 - d) / 16 <? chunkSize p) eqn:Hov.
  - apply overflow_test in Hov; [|lia..]. unfold reject, fail. change (code p1) with (code p). rewrite Hn. cbn.
    split; [|done]. eapply Z.lt_le_trans; [exact Hov|]. apply digits_value_mono; [lia..|done].
  - assert (chunkSize p * 16 + d <= MaxUint64) as Hfit.
    { apply not_true_iff_false in Hov. rewrite overflow_test in Hov by lia. lia. }
    rewrite u64_small by lia. set (p2 := p1 <| chunkSize := _ |>).
    assert (wfc p2) as Hw2.
    { subst p2 p1 p0. clear IH. wfc_unfold. cbn. intuition lia. }
    specialize (IH p2 Hw2 Hn). cbn zeta in IH.
    assert (chunk_budget p2 (len ds)) as Hb2.
    { split; [change (chunkLineBytes p2) with (chunkLineBytes p + 1) | change (chunkMetadataBytes p2) with (chunkMetadataBytes p + 1)];
        change (limits p2) with (limits p); lia. }
    specialize (IH Hb2). change (chunkSize p2) with (chunkSize p * 16 + d) in IH.
    destruct (consumeAll chunkSizeByte p2 ds) as [q []]; [|exact IH].
    destruct IH as (? & ? & ? & Hdg & Hcl). split_and!; try done.
    + rewrite Hdg. cbn. by rewrite orb_true_r.
    + rewrite Hcl, len_cons. change (chunkLineBytes p2) with (chunkLineBytes p + 1). lia.
Qed.
