(* ===== verification/Http1Props.v ===== *)
(** * HTTP/1 parser: the properties of its public methods

    What a caller of [src/http/parser.go] relies on, stated on the methods and
    proved from the component files: [Http1Wf] (invariant, termination),
    [Http1Stream] (fragmentation), [Http1Names] and [Http1Numbers] (tokens and
    numbers). *)

From S2P Require Import Prelude Http1Types Http1Fields Http1Parser Http1Wf Http1Stream Http1Names Http1Numbers.

(** ** Reachable parsers *)

(** The parsers a program can hold between two calls. *)
Inductive reachable : Parser -> Prop :=
  | reach_new k cb l : limits_typed l -> reachable (NewParser k cb l)
  | reach_init p k cb l : reachable p -> limits_typed l -> reachable (Init p k cb l)
  | reach_parse p tr src o : reachable p -> Parse p tr src = Some o -> reachable o.(outParser)
  | reach_parse_one p tr src o b : reachable p -> ParseOne p tr src = Some (o, b) -> reachable o.(outParser)
  | reach_finish p tr q tr' c : reachable p -> Finish p tr = (q, tr', c) -> reachable q
  | reach_reset p : reachable p -> reachable (Reset p)
  | reach_context p head connect : reachable p -> reachable (SetResponseContext p head connect).

Lemma limits_zero_typed : limits_typed (mkLimits 0 0 0 0 0 0 0 0).
Proof. unfold limits_typed, in_u64, in_u32, in_u16. cbn. unfold MaxUint64, MaxUint32, MaxUint16. lia. Qed.

Lemma zero_idle k cb l : idle (zeroParser k cb l).
Proof. done. Qed.

Lemma fail_idle p c : idle p -> idle (fail p c).
Proof. intros H. unfold fail. by destruct (is_none (code p)). Qed.

Lemma Init_idle p k cb l : idle p -> idle (Init p k cb l).
Proof. intros [Hp Ha]. unfold Init. rewrite Hp. destruct k; by try apply fail_idle. Qed.

Lemma runParse_idle p tr src pause o :
  p.(parsing) = false -> runParse p tr src pause = Some o -> idle o.(outParser).
Proof.
  intros Hp. unfold runParse. rewrite Hp. destruct (parse _ tr src); [|done]. by intros [= <-].
Qed.

Lemma Finish_idle p tr q tr' c : wf p -> idle p -> Finish p tr = (q, tr', c) -> idle q.
Proof.
  intros (Hw & _ & _) Hi. pose proof Hi as [Hp Ha]. unfold Finish. rewrite Hp.
  destruct (is_none_spec (code p)) as [Hc|Hc]; cbn [negb]; [|by intros [= <- <- <-]].
  set (q0 := p <| parsing := true |>). cbv zeta. destruct (is_stateUpgrade _); [by intros [= <- <- <-]|].
  destruct (is_stateCloseBody _).
  - destruct (completeMessage q0 tr) as [r tr1] eqn:E. intros [= <- <- <-]. split; [done|].
    change (pauseAfterMessage (r <| parsing := false |>)) with (pauseAfterMessage r).
    destruct (completeMessage_ok q0 tr r tr1 Hw Hc E) as [(_ & (_ & _ & _ & Hs & _) & _)| ->]; [by rewrite Hs | done].
  - destruct (_ && _); [by intros [= <- <- <-]|]. intros [= <- <- <-]. split; [done|].
    unfold fail. by destruct (is_none (code q0)).
Qed.

Lemma reachable_ok p : reachable p -> wf p /\ idle p.
Proof.
  induction 1 as [k cb l Hl | p k cb l _ [Hw Hi] Hl | p tr src o _ [Hw Hi] E | p tr src o b _ [Hw Hi] E
                 | p tr q tr' c _ [Hw Hi] E | p _ [Hw Hi] | p head connect _ [Hw Hi]].
  - split; [by apply Init_wf | apply Init_idle, zero_idle].
  - split; [by apply Init_wf | by apply Init_idle].
  - destruct (Parse_keeps p tr src o Hw Hi E) as (? & ? & _). done.
  - unfold ParseOne in E. destruct (runParse_ok p tr src true Hw (proj1 Hi)) as (o' & Eo & Hwo & _).
    pose proof (runParse_idle _ _ _ _ _ (proj1 Hi) Eo). rewrite Eo in E. injection E as <- _. done.
  - split; [by eapply Finish_wf | by eapply Finish_idle].
  - split; [by apply Reset_wf|]. unfold Reset. rewrite (proj1 Hi). by apply Init_idle.
  - split; [by apply SetResponseContext_wf|]. unfold SetResponseContext. by rewrite (proj1 Hi).
Qed.

(** ** Claims *)

(** A request without callbacks, the parser of the witnesses. *)
Definition demoParser : Parser := NewParser Request None (mkLimits 0 0 0 0 0 0 0 0).

Lemma demo_reachable : reachable demoParser.
Proof. apply reach_new, limits_zero_typed. Qed.

Lemma demo_wf : wf demoParser.
Proof. apply reachable_ok, demo_reachable. Qed.

Definition demoRequest : list Z := str "GET /a HTTP/1.1".

(** C5. Termination and safety of [Parse]/[ParseOne] ([pause] tells which): on
    any input, whatever the callbacks do, a well-formed idle parser returns.
    It keeps its limits, kind and callbacks, stays well formed, reports an
    unread suffix of the input, and returns either no error with all the
    input consumed (or paused at a message boundary), its sticky error code,
    or [CodeUpgrade]. *)
Theorem parse_returns p tr src pause :
  wf p -> p.(parsing) = false ->
  exists o, runParse p tr src pause = Some o /\
    wf o.(outParser) /\ o.(outParser).(parsing) = false /\
    o.(outParser).(limits) = p.(limits) /\ o.(outParser).(kind) = p.(kind) /\
    o.(outParser).(callbacks) = p.(callbacks) /\
    (exists pre, src = pre ++ o.(outRest)) /\ result_ok o /\
    (o.(outParser).(paused) = true -> pause = true /\ o.(outParser).(messageActive) = false).
Proof.
  intros Hw Hp. destruct (runParse_ok p tr src pause Hw Hp) as (o & Ho & Hwo & H1 & H2 & H3 & H4 & H5 & H6 & H7).
  exists o. repeat (apply conj; [done|]). intros Hpd. split; [by apply H7|].
  destruct Hwo as ((_ & _ & _ & _ & _ & _ & Hpause) & _ & _). unfold pause_ok in Hpause.
  rewrite Hpd in Hpause. exact Hpause.
Qed.

Lemma parse_returns_witness :
  wf demoParser /\ exists o, runParse demoParser [] demoRequest true = Some o /\ wf o.(outParser).
Proof.
  split; [exact demo_wf|].
  destruct (parse_returns demoParser [] demoRequest true demo_wf eq_refl) as (o & Ho & Hw & _). exists o. by split.
Defined.

(** C1. Fragmentation: feeding the input in pieces (each call receiving what the
    previous one left unread, then the next piece) ends with the same parser,
    the same unread bytes and the same code as one [Parse] of the whole
    input, and, unless the input is rejected, delivers the same events up to
    where body and token spans are cut. *)
Theorem fragmentation p tr src pieces :
  wf p -> idle p -> quiet p.(callbacks) ->
  exists o o', feed p tr src pieces = Some o /\ Parse p tr (src ++ concat pieces) = Some o' /\ out_rel o o'.
Proof. apply feed_Parse. Qed.

Lemma fragmentation_witness :
  exists o o', feed demoParser [] (str "GET ") [str "/a HT"; []; str "TP/1.1"] = Some o /\
    Parse demoParser [] demoRequest = Some o' /\ out_rel o o'.
Proof. apply (fragmentation demoParser [] (str "GET ") [str "/a HT"; []; str "TP/1.1"]); [exact demo_wf | done | done]. Defined.

(** C29. Invariant: every parser a program can obtain through the public methods
    is well formed between calls: its counters are within the configured
    limits and their machine widths, no message carries both Content-Length
    and Transfer-Encoding, a body in progress fits the body limit, and its
    state agrees with whether a message is active. *)
Theorem reachable_wf p : reachable p -> wf p /\ idle p.
Proof. apply reachable_ok. Qed.

Lemma reachable_wf_witness : wf demoParser /\ idle demoParser.
Proof. exact (reachable_wf demoParser demo_reachable). Defined.

(** The incremental bit-mask matcher of method names classifies every
    non-empty token exactly as a comparison with the nine method names. *)
Theorem method_names p b bs :
  p.(methodPos) = 0 ->
  (finishMethod (matchMethods p (b :: bs))).(method) =
    match recognise methodNames namedMethods (b :: bs) with Some m => m | None => MethodOther end.
Proof. apply finishMethod_recognises. Qed.

Lemma method_names_witness : (finishMethod (matchMethods demoParser (str "PATCH"))).(method) = MethodPATCH.
Proof. exact (method_names demoParser 80 (str "ATCH") eq_refl). Defined.

(** C22. Content-Length: a value is accepted, with the number it denotes as the
    remaining body length, if and only if it is digits within optional white
    space and the number fits 64 bits. *)
Theorem content_length_value p bs v :
  at_content_length p ->
  (exists q, consumeAll consumeContentLength p bs = (q, true) /\ (finishFieldValue q).2 = true /\
     q.(remaining) = v) <-> content_length bs v /\ v <= MaxUint64.
Proof. apply content_length_iff. Qed.

Lemma content_length_value_witness :
  exists q, consumeAll consumeContentLength (demoParser <| field := fieldContentLength |>) (str " 42 ") = (q, true) /\
    (finishFieldValue q).2 = true /\ q.(remaining) = 42.
Proof.
  set (p := demoParser <| field := fieldContentLength |>).
  apply (proj2 (content_length_value p (str " 42 ") 42 ltac:(by split_and!))). split; [|by vm_compute].
  exists [32], (str "42"), [32]. split_and!; try done; repeat constructor.
Defined.

(** Chunk sizes: reading hexadecimal digits within the line and metadata
    budgets gives the number they denote, or fails with
    [CodeInvalidChunkSize] exactly when it exceeds 64 bits; no wrap-around. *)
Theorem chunk_size_value p ds :
  Forall (fun b => isHexDigit b = true) ds -> wfc p -> p.(code) = CodeNone -> chunk_budget p (len ds) ->
  let v := digits_value 16 (hexDigit <$> ds) p.(chunkSize) in
  let '(q, ok) := consumeAll chunkSizeByte p ds in
  if ok then v <= MaxUint64 /\ q.(chunkSize) = v /\ q.(code) = CodeNone /\
             q.(chunkDigits) = (p.(chunkDigits) || negb (length ds =? 0)%nat) /\
             q.(chunkLineBytes) = p.(chunkLineBytes) + len ds
  else MaxUint64 < v /\ q.(code) = CodeInvalidChunkSize.
Proof. apply chunkSize_digits. Qed.

Lemma chunk_size_value_witness :
  let '(q, ok) := consumeAll chunkSizeByte demoParser (str "1f") in ok = true /\ q.(chunkSize) = 31.
Proof.
  assert (chunk_budget demoParser (len (str "1f"))) as Hb by (by vm_compute).
  pose proof (chunk_size_value demoParser (str "1f") ltac:(repeat constructor) (proj1 demo_wf) eq_refl Hb) as H.
  destruct (consumeAll chunkSizeByte demoParser (str "1f")) as [q ok] eqn:E. vm_compute in E. injection E as <- <-.
  destruct H as (_ & H & _). split; [reflexivity | exact H].
Defined.

(** Errors are final: once a parser has failed, [Parse], [ParseOne] and
    [Finish] return the same code again, consume nothing and deliver nothing. *)
Lemma failure_is_final p tr src :
  p.(parsing) = false -> p.(code) <> CodeNone ->
  Parse p tr src = Some (mkOutcome (stopped (started p false)) tr src p.(code)) /\
  ParseOne p tr src = Some (mkOutcome (stopped (started p true)) tr src p.(code), false) /\
  Finish p tr = (p, tr, p.(code)) /\ (stopped (started p false)).(code) = p.(code).
Proof.
  intros Hp Hc. unfold ParseOne, Parse, runParse, Finish, parse. rewrite Hp. cbv zeta.
  fold (started p false) (started p true).
  change (code (started p false)) with (code p). change (code (started p true)) with (code p).
  by destruct (is_none_spec (code p)).
Qed.

Lemma set_parsing_id p b : p.(parsing) = false -> p <| parsing := b |> <| parsing := false |> = p.
Proof. intros H. transitivity (p <| parsing := p.(parsing) |>); [by rewrite H | done]. Qed.

Lemma completeMessage_quiet p tr :
  quiet p.(callbacks) -> p.(code) = CodeNone ->
  completeMessage p tr = (completed p, emit cbMessageComplete p EvMessageComplete (message p) tr).
Proof.
  intros Hq Hc. unfold completeMessage. rewrite invoke_quiet by (by apply quiet_MessageComplete). rewrite Hc. cbn [is_none negb].
  unfold completed. cbv zeta. set (q := p <| messageNum := _ |>).
  change (kind q) with (kind p). change (status q) with (status p). by destruct (_ && _).
Qed.

(** End of input: between messages [Finish] succeeds and changes nothing;
    after a protocol switch it reports [CodeUpgrade]; a body delimited by the
    close of the connection is completed; everywhere else the message is
    incomplete and the parser fails with [CodeUnexpectedEOF]. *)
Lemma finish_result p tr :
  wf p -> p.(parsing) = false -> p.(code) = CodeNone -> quiet p.(callbacks) ->
  Finish p tr =
  match p.(state) with
  | stateStart => (p, tr, CodeNone)
  | stateUpgrade => (p, tr, CodeUpgrade)
  | stateCloseBody =>
      (completed p, emit cbMessageComplete p EvMessageComplete (message p) tr, CodeNone)
  | _ => (fail p CodeUnexpectedEOF, tr, CodeUnexpectedEOF)
  end.
Proof.
  intros (_ & _ & Hph) Hp Hc Hq. unfold Finish. rewrite Hp, Hc. cbn [negb is_none]. cbv zeta.
  set (q := p <| parsing := true |>). change (state q) with (state p). change (messageActive q) with (messageActive p).
  assert (forall c, fail q c <| parsing := false |> = fail p c /\ code (fail q c) = code (fail p c)) as Hfail.
  { intros c. unfold fail. change (code q) with (code p). rewrite Hc. cbn. split; [|done].
    transitivity ((p <| code := c |> <| state := stateDead |>) <| parsing := p.(parsing) |>); [by rewrite Hp | done]. }
  unfold phase_ok in Hph. destruct (state p) eqn:Hs; cbn [is_stateUpgrade is_stateCloseBody is_stateStart andb];
    try (destruct (Hfail CodeUnexpectedEOF) as [-> ->]; unfold fail; by rewrite Hc).
  - destruct Hph as [-> _]. cbn. unfold q. by rewrite set_parsing_id.
  - rewrite completeMessage_quiet by done. f_equal; [|by rewrite <- Hc].
    f_equal. unfold q, completed. cbn.
    transitivity ((completed p) <| parsing := p.(parsing) |>); [by rewrite Hp | done].
  - unfold q. by rewrite set_parsing_id.
Qed.

(** The parser after a fixed-length body. *)
Definition bodyDone (p : Parser) : Parser := completed (bodyTaken p p.(remaining)).

Lemma fixed_body_turn p tr pause body rest b x :
  wf p -> quiet p.(callbacks) -> p.(state) = stateFixedBody -> p.(code) = CodeNone ->
  len body = p.(remaining) -> body ++ rest = b :: x ->
  parseSwitch (started p pause) tr b x =
    Next (bodyDone (started p pause))
      (emit cbMessageComplete p EvMessageComplete (message (bodyTaken p p.(remaining)))
         (emitSpan cbBody SpanBody p body tr)) rest.
Proof.
  intros Hw Hq Hs Hc Hlen E. pose proof Hw as (Hwc & Hws & _). unfold wfs in Hws. rewrite Hs in Hws.
  destruct Hws as (_ & _ & Hr & Hmax). set (p0 := started p pause).
  assert (wfc p0) as Hwc0 by (destruct Hwc as (?&?&?&?&?&?&?); by repeat (apply conj; [done|])).
  unfold parseSwitch. change (state p0) with (state p). rewrite Hs. unfold caseFixedBody.
  rewrite takeBody_eq by done. cbv zeta.
  assert (bodyTake p0 (b :: x) = remaining p) as ->.
  { unfold bodyTake. change (remaining p0) with (remaining p). rewrite <- E, len_app.
    pose proof (len_nonneg rest). lia. }
  assert (Z.to_nat (remaining p) = length body) as Hn by (unfold len in Hlen; lia).
  rewrite <- E, Hn, take_app_length, drop_app_length.
  set (p1 := bodyTaken p0 (remaining p)).
  rewrite invokeSpan_quiet by (by apply (quiet_Body p1)). unfold afterCallback at 1.
  change (code p1) with (code p). rewrite Hc. cbn [is_none].
  assert ((remaining p1 =? 0) = true) as ->.
  { apply Z.eqb_eq. change (remaining p1) with (remaining p - remaining p). lia. }
  rewrite completeMessage_quiet by done. unfold afterCallback.
  change (code (completed p1)) with (code p). by rewrite Hc.
Qed.

(** C40. A Content-Length body: from the first byte of the body, [ParseOne]
    delivers exactly the announced number of bytes, completes the message,
    stops there and leaves the bytes of the next message unread. *)
Theorem fixed_body_delivered p tr body rest :
  wf p -> idle p -> quiet p.(callbacks) -> p.(state) = stateFixedBody -> p.(code) = CodeNone ->
  len body = p.(remaining) ->
  exists q, ParseOne p tr (body ++ rest) =
    Some (mkOutcome q (emit cbMessageComplete p EvMessageComplete (message (bodyTaken p p.(remaining)))
                         (emitSpan cbBody SpanBody p body tr)) rest CodeNone, true) /\
    q.(state) = stateStart /\ q.(messageActive) = false /\ q.(messageNum) = u64 (p.(messageNum) + 1) /\
    q.(bodyBytes) = p.(bodyBytes) + len body /\ q.(bodyBytes) <= p.(limits).(MaxBodyBytes).
Proof.
  intros Hw [Hp Hpa] Hq Hs Hc Hlen. exists (stopped (bodyDone (started p true))).
  pose proof Hw as (_ & Hws & _). unfold wfs in Hws. rewrite Hs in Hws. destruct Hws as (_ & _ & Hr & Hmax).
  destruct (body ++ rest) as [|b x] eqn:E; [destruct body; [rewrite len_nil in Hlen; lia | done]|].
  split; [|split; [done | split; [done | split; [done|]]]].
  - unfold ParseOne, runParse. rewrite Hp. cbv zeta. fold (started p true). unfold parse.
    change (code (started p true)) with (code p). change (state (started p true)) with (state p). rewrite Hc, Hs.
    cbn [is_none negb is_stateUpgrade]. unfold parseFuel. rewrite Nat.add_comm. cbn [Nat.add parseLoop].
    rewrite (fixed_body_turn p tr true body rest b x) by done. by destruct rest.
  - change (bodyBytes (stopped (bodyDone (started p true)))) with (bodyBytes p + remaining p). lia.
Qed.

Definition demoBody : Parser :=
  demoParser <| state := stateFixedBody |> <| hasContentLength := true |> <| remaining := 2 |> <| messageActive := true |>.

Lemma fixed_body_delivered_witness :
  exists q, ParseOne demoBody [] (str "hiGET") = Some (mkOutcome q [] (str "GET") CodeNone, true) /\ q.(bodyBytes) = 2.
Proof.
  assert (wf demoBody) as Hw.
  { destruct demo_wf as ((? & ? & ? & _ & ? & _ & _) & _ & _).
    assert (body_counters_ok demoBody) by (unfold body_counters_ok; by vm_compute).
    split; [by repeat (apply conj; [done|])|]. split; [by vm_compute | done]. }
  destruct (fixed_body_delivered demoBody [] (str "hi") (str "GET") Hw ltac:(done) I eq_refl eq_refl eq_refl)
    as (q & Hq & _ & _ & _ & Hb & _). exists q. split; [exact Hq | exact Hb].
Defined.

(** *** Message framing *)

Lemma completeMessage_state p tr q tr' :
  completeMessage p tr = (q, tr') -> q.(code) = CodeNone -> q.(state) = stateStart.
Proof.
  unfold completeMessage. destruct (invoke _ _ _ p tr) as [r u]. destruct (is_none_spec (code r)) as [Hc|Hc]; cbn [negb].
  - by intros [= <- <-].
  - by intros [= <- <-] Hn.
Qed.

Lemma headersComplete_selects p tr q tr' :
  p.(code) = CodeNone -> headersComplete p tr = ((q, tr'), true) ->
  headersError p = None /\ exists tr1, selectBody p tr1 = ((q, tr'), true).
Proof.
  intros Hc. unfold headersComplete. destruct (headersError p) as [c|]; [done|].
  unfold invoke. destruct (getCallback cbHeadersComplete p) as [f|].
  - destruct (f tr (message p)).
    + unfold fail. by rewrite Hc.
    + rewrite Hc. cbn. eauto.
  - rewrite Hc. cbn. eauto.
Qed.

(** How the rest of a message is delimited. *)
Inductive Framing := NoBody | Tunnel | ChunkedBody | LengthBody (n : Z) | CloseBody.

(** The parser is where a rest delimited like this begins; without a body the
    message is complete. *)
Definition awaits (f : Framing) (q : Parser) : Prop :=
  match f with
  | NoBody => q.(state) = stateStart /\ q.(messageActive) = false
  | Tunnel => q.(state) = stateUpgrade /\ q.(messageActive) = false
  | ChunkedBody => q.(state) = stateChunkSizeStart
  | LengthBody n => q.(state) = stateFixedBody /\ q.(remaining) = n
  | CloseBody => q.(state) = stateCloseBody
  end.

Lemma complete_state p tr (after : Parser -> Parser) q tr' :
  (let (p, tr) := completeMessage p tr in
   if negb (is_none p.(code)) then ((p, tr), false) else ((after p, tr), true)) = ((q, tr'), true) ->
  exists r, q = after r /\ awaits NoBody r.
Proof.
  destruct (completeMessage p tr) as [r u] eqn:E. destruct (is_none_spec (code r)) as [Hc|Hc]; cbn [negb]; [|done].
  intros [= <- <-]. exists r. split; [done|]. pose proof (completeMessage_state _ _ _ _ E Hc) as Hs. split; [done|].
  unfold completeMessage in E. destruct (invoke _ _ _ p tr) as [p1 t1]. destruct (is_none_spec (code p1)) as [H1|H1]; cbn [negb] in E.
  - injection E as <- _. done.
  - injection E as <- _. congruence.
Qed.

(** A body of the announced length, which may be none. *)
Lemma length_state p tr q tr' :
  (if p.(limits).(MaxBodyBytes) <? p.(remaining) then ((fail p CodeBodyTooLarge, tr), false)
   else if p.(remaining) =? 0 then
     let (p, tr) := completeMessage p tr in if negb (is_none p.(code)) then ((p, tr), false) else ((p, tr), true)
   else ((p <| state := stateFixedBody |>, tr), true)) = ((q, tr'), true) ->
  p.(remaining) <= p.(limits).(MaxBodyBytes) /\ awaits (if p.(remaining) =? 0 then NoBody else LengthBody p.(remaining)) q.
Proof.
  destruct (Z.ltb_spec (MaxBodyBytes (limits p)) (remaining p)); [done|]. intros H0. split; [lia|].
  destruct (_ =? 0); [by apply (complete_state p tr (fun p => p)) in H0 as (r & -> & Hr) | by injection H0 as <- <-].
Qed.

(** C23. Request framing: after an accepted request head, a transfer coding must
    be chunked (and the version 1.1) and selects a chunked body; otherwise a
    Content-Length within the body limit selects a body of exactly that many
    bytes; a request with neither, or with the length zero, is complete without
    a body, and none is delimited by the close of the connection.  HTTP/1.1
    requires a Host field. *)
Theorem request_framing p tr q tr' :
  p.(kind) = Request -> p.(code) = CodeNone -> headersComplete p tr = ((q, tr'), true) ->
  (p.(major) = 1 -> p.(minor) = 1 -> p.(hasHost) = true) /\
  if p.(hasTransferEncoding) then
    p.(transferChunked) = true /\ p.(major) = 1 /\ p.(minor) = 1 /\ awaits ChunkedBody q
  else if p.(hasContentLength) then
    p.(remaining) <= p.(limits).(MaxBodyBytes) /\ awaits (if p.(remaining) =? 0 then NoBody else LengthBody p.(remaining)) q
  else awaits NoBody q.
Proof.
  intros Hk Hc H. destruct (headersComplete_selects _ _ _ _ Hc H) as (Herr & tr1 & Hsel).
  unfold headersError in Herr. unfold selectBody in Hsel. rewrite Hk in *. cbn [is_Request is_Response andb] in *.
  split.
  - intros Hma Hmi. rewrite Hma, Hmi in Herr. cbn in Herr. by destruct (hasHost p).
  - destruct (_ && negb (hasHost p)); [done|]. destruct (hasTransferEncoding p); cbn [andb] in *.
    + destruct (Z.eqb_spec (major p) 1), (Z.eqb_spec (minor p) 1); cbn in Herr; try done.
      destruct (transferChunked p); [|done]. by injection Hsel as <- <-.
    + destruct (hasContentLength p); [by apply length_state in Hsel|].
      by apply (complete_state p tr1 (fun p => p)) in Hsel as (r & -> & Hr).
Qed.

Lemma request_framing_witness :
  let p := demoParser <| major := 1 |> <| minor := 1 |> <| hasHost := true |> <| hasContentLength := true |>
             <| remaining := 5 |> in
  exists q, headersComplete p [] = ((q, []), true) /\ q.(state) = stateFixedBody /\ q.(remaining) = 5.
Proof.
  set (p := demoParser <| major := 1 |> <| minor := 1 |> <| hasHost := true |> <| hasContentLength := true |>
              <| remaining := 5 |>). cbv zeta.
  eexists. split; [reflexivity|].
  exact (proj2 (proj2 (request_framing p [] _ [] eq_refl eq_refl eq_refl))).
Defined.

(** The responses that never have a body (RFC 9112, section 6.3), and those that
    end HTTP on the connection. *)
Definition bodiless (p : Parser) : Prop :=
  p.(responseToHEAD) = true \/ 100 <= p.(status) <= 199 \/ p.(status) = 204 \/ p.(status) = 304 \/
  (p.(responseToCONNECT) = true /\ 200 <= p.(status) <= 299).

Definition tunnels (p : Parser) : Prop :=
  (p.(status) = 101 /\ p.(connectionUpgrade) = true /\ p.(hasUpgrade) = true) \/
  (p.(responseToCONNECT) = true /\ 200 <= p.(status) <= 299).

Lemma responseHasNoBody_spec p : responseHasNoBody p = true <-> bodiless p.
Proof.
  unfold responseHasNoBody, bodiless, statusInformational, statusSuccess.
  rewrite !orb_true_iff, !andb_true_iff, !Z.eqb_eq, !Z.leb_le, !Z.ltb_lt. intuition lia.
Qed.

Lemma switchesProtocol_spec p : p.(kind) = Response -> switchesProtocol p = true <-> tunnels p.
Proof.
  intros Hk. unfold switchesProtocol, tunnels, statusSuccess. rewrite Hk. cbn [is_Response andb].
  rewrite !orb_true_iff, !andb_true_iff, !Z.eqb_eq, !Z.leb_le, !Z.ltb_lt. intuition lia.
Qed.

(** C30. Response framing: a response to HEAD, with status 1xx, 204 or 304, or a
    successful (2xx) response to CONNECT is complete without a body, whatever
    its fields say, and the parser leaves HTTP exactly for a 101 with an Upgrade
    field and the upgrade connection option, and for a successful CONNECT; any
    other response follows its transfer coding (chunked, or up to the close of
    the connection), else has the body of its Content-Length, within the body
    limit, else ends with the connection. *)
Theorem response_framing p tr q tr' :
  p.(kind) = Response -> p.(code) = CodeNone -> headersComplete p tr = ((q, tr'), true) ->
  (bodiless p -> (tunnels p -> awaits Tunnel q) /\ (~ tunnels p -> awaits NoBody q)) /\
  (~ bodiless p ->
    if p.(hasTransferEncoding) then awaits (if p.(transferChunked) then ChunkedBody else CloseBody) q
    else if p.(hasContentLength) then
      p.(remaining) <= p.(limits).(MaxBodyBytes) /\ awaits (if p.(remaining) =? 0 then NoBody else LengthBody p.(remaining)) q
    else awaits CloseBody q).
Proof.
  intros Hk Hc H. destruct (headersComplete_selects _ _ _ _ Hc H) as (_ & tr1 & Hsel).
  unfold selectBody in Hsel. rewrite Hk in Hsel. cbn [is_Response andb is_Request] in Hsel.
  rewrite <- responseHasNoBody_spec, <- (switchesProtocol_spec p Hk). destruct (responseHasNoBody p); (split; [intros Hb | intros Hb]); try done.
  - apply (complete_state p tr1) in Hsel as (r & -> & Hr). destruct (switchesProtocol p); split; try done. intros _. by split; [|apply Hr].
  - destruct (hasTransferEncoding p); [destruct (transferChunked p); by injection Hsel as <- <-|].
    destruct (hasContentLength p); [by apply length_state in Hsel | by injection Hsel as <- <-].
Qed.

Lemma response_framing_witness :
  let p := NewParser Response None (mkLimits 0 0 0 0 0 0 0 0) <| major := 1 |> <| minor := 1 |> <| status := 200 |> in
  exists q, headersComplete p [] = ((q, []), true) /\ q.(state) = stateCloseBody.
Proof.
  set (p := NewParser Response None (mkLimits 0 0 0 0 0 0 0 0) <| major := 1 |> <| minor := 1 |> <| status := 200 |>).
  cbv zeta. eexists. split; [reflexivity|].
  apply (proj2 (response_framing p [] _ [] eq_refl eq_refl eq_refl)). intros [H|[H|[H|[H|H]]]]; vm_compute in H; by intuition discriminate.
Defined.

(** Re-entrancy: a public method called from a callback (while [parsing] is
    set) does nothing but fail the parser with [CodeReentrantCall], keeping an
    earlier error: no input is consumed, nothing is delivered, and [Init],
    [Reset] and [SetResponseContext] do not reconfigure a parser in use. *)
Lemma reentrant_calls_fail p tr src k cb l head connect :
  p.(parsing) = true ->
  let q := fail p CodeReentrantCall in
  Parse p tr src = Some (mkOutcome q tr src q.(code)) /\
  ParseOne p tr src = Some (mkOutcome q tr src q.(code), q.(paused)) /\
  Finish p tr = (q, tr, q.(code)) /\ Init p k cb l = q /\ Reset p = q /\
  SetResponseContext p head connect = q /\ q.(code) <> CodeNone.
Proof.
  intros Hp. cbv zeta. unfold ParseOne, Parse, runParse, Finish, Init, Reset, SetResponseContext. rewrite Hp.
  split_and!; try done. unfold fail. by destruct (is_none_spec (code p)).
Qed.

(** A whole request on the wire: the head, a chunked body with an extension
    and a trailer, and the start of the next message are delivered with the
    framing removed. *)
Example chunked_request_trace :
  let on {A} : Callback A := Some (fun _ _ => false) in
  let cb := mkCallbacks None on on on on on on on on on on on on on in
  let p := NewParser Request (Some cb) (mkLimits 0 0 0 0 0 0 0 0) in
  exists o, Parse p [] (str "PUT /x HTTP/1.1" ++ [13; 10] ++ str "Host: h" ++ [13; 10] ++
      str "Transfer-Encoding: chunked" ++ [13; 10; 13; 10] ++ str "3;a=b" ++ [13; 10] ++ str "abc" ++ [13; 10] ++
      str "0" ++ [13; 10] ++ str "T: v" ++ [13; 10; 13; 10] ++ str "GE") = Some o /\
    o.(outCode) = CodeNone /\ o.(outRest) = [] /\ o.(outParser).(state) = stateReqMethod /\
    List.filter (fun e => match e with EvSpan _ _ | EvChunkHeader _ => true | _ => false end) (rev o.(outTrace)) =
      [EvSpan SpanMethod (str "PUT"); EvSpan SpanTarget (str "/x"); EvSpan SpanHeaderName (str "Host");
       EvSpan SpanHeaderValue (str "h"); EvSpan SpanHeaderName (str "Transfer-Encoding");
       EvSpan SpanHeaderValue (str "chunked"); EvChunkHeader 3; EvSpan SpanBody (str "abc"); EvChunkHeader 0;
       EvSpan SpanHeaderName (str "T"); EvSpan SpanHeaderValue (str "v"); EvSpan SpanMethod (str "GE")].
Proof. eexists. split; [vm_compute; reflexivity|]. split_and!; vm_compute; reflexivity. Qed.
