(* ===== verification/H2Frame.v ===== *)
(** * HTTP/2 frames: the incremental frame parser and [AppendFrame]

    A translation of [src/http2/frame.go].  The parser calls its callbacks on
    a host whose state [St] is a parameter: a callback is a function on [St]
    that also tells whether it called back into the parser, which every method
    answers with [fail(CodeReentrantCall)].  The HTTP/2 session instantiates
    [St] with its own state; the theorems on what is delivered use a trace.

    Functions on [src, n] are functions on the unread suffix [src[n:]]. *)

From S2P Require Import Prelude.

(** ** Frame headers *)

Definition ClientPreface : list Z :=
  str "PRI * HTTP/2.0" ++ [13; 10; 13; 10] ++ str "SM" ++ [13; 10; 13; 10].

(** [FrameType] and [Flags] are octets: values other than the constants are
    extension types and unused bits. *)
Definition FrameData : Z := 0.
Definition FrameHeaders : Z := 1.
Definition FramePriority : Z := 2.
Definition FrameRSTStream : Z := 3.
Definition FrameSettings : Z := 4.
Definition FramePushPromise : Z := 5.
Definition FramePing : Z := 6.
Definition FrameGoAway : Z := 7.
Definition FrameWindowUpdate : Z := 8.
Definition FrameContinuation : Z := 9.

Definition FlagEndStream : Z := 1.
Definition FlagACK : Z := 1.
Definition FlagEndHeaders : Z := 4.
Definition FlagPadded : Z := 8.
Definition FlagPriority : Z := 32.

Definition Has (flags flag : Z) : bool := negb (Z.land flags flag =? 0).

Record FrameHeader := mkFrameHeader {
  Length : Z; (* uint32 *)
  Type_ : Z; (* uint8 *)
  Flags : Z; (* uint8 *)
  StreamID : Z; (* uint32 *)
}.

Definition zeroFrameHeader : FrameHeader := mkFrameHeader 0 0 0 0.

Definition SettingHeaderTableSize : Z := 1.
Definition SettingEnablePush : Z := 2.
Definition SettingMaxConcurrentStreams : Z := 3.
Definition SettingInitialWindowSize : Z := 4.
Definition SettingMaxFrameSize : Z := 5.
Definition SettingMaxHeaderListSize : Z := 6.
Definition SettingEnableConnectProtocol : Z := 8.
Definition SettingNoRFC7540Priorities : Z := 9.

Record Setting := mkSetting { ID : Z; Value : Z }.

Record PriorityParam := mkPriorityParam {
  StreamDependency : Z;
  Exclusive : bool;
  Weight : Z;
}.

Inductive Code :=
  | CodeNone
  | CodeReentrantCall
  | CodeFrameTooLarge
  | CodeInvalidStreamID
  | CodeInvalidFrameSize
  | CodeInvalidPadding
  | CodeInvalidContinuation
  | CodeHeaderBlockTooLarge
  | CodeTooManyContinuations
  | CodeInvalidPriority
  | CodeInvalidSetting
  | CodeInvalidWindowUpdate
  | CodeUnexpectedEOF.

#[export] Instance FrameCode_eq_dec : EqDecision Code.
Proof. solve_decision. Defined.

Definition is_none (c : Code) : bool := match c with CodeNone => true | _ => false end.

Lemma frame_is_none_spec c : reflect (c = CodeNone) (is_none c).
Proof. destruct c; constructor; congruence. Qed.

(** ** Limits *)

Record Limits := mkLimits {
  MaxFrameSize : Z; (* uint32 *)
  MaxHeaderBlockBytes : Z; (* uint64 *)
  MaxContinuationFrames : Z; (* uint32 *)
}.

Definition defaultMaxFrameSize : Z := Z.shiftl 16 10.
Definition defaultMaxHeaderBlockBytes : Z := Z.shiftl 1 20.
Definition defaultMaxContinuationFrames : Z := 1024.
Definition maxFrameSize : Z := Z.shiftl 1 24 - 1.

Definition normalized (l : Limits) : Limits :=
  let or_default (v default : Z) : Z := if v =? 0 then default else v in
  let size := or_default l.(MaxFrameSize) defaultMaxFrameSize in
  {| MaxFrameSize := if maxFrameSize <? size then maxFrameSize else size;
     MaxHeaderBlockBytes := or_default l.(MaxHeaderBlockBytes) defaultMaxHeaderBlockBytes;
     MaxContinuationFrames := or_default l.(MaxContinuationFrames) defaultMaxContinuationFrames |}.

(** ** Callbacks *)

(** [true] means the callback calls back into the parser. *)
Definition Reaction (St : Type) : Type := St -> St * bool.

Record Callbacks (St : Type) := mkCallbacks {
  cbFrameBegin : option (FrameHeader -> Reaction St);
  cbData : option (Z -> list Z -> bool -> Reaction St);
  cbHeaderBlock : option (Z -> list Z -> Reaction St);
  cbHeaderBlockEnd : option (Z -> bool -> Reaction St);
  cbPriority : option (Z -> PriorityParam -> Reaction St);
  cbRSTStream : option (Z -> Z -> Reaction St);
  cbSetting : option (Setting -> Reaction St);
  cbSettingsEnd : option (bool -> Reaction St);
  cbPushPromise : option (Z -> Z -> Reaction St);
  cbPing : option (list Z -> bool -> Reaction St);
  cbGoAway : option (Z -> Z -> Reaction St);
  cbGoAwayDebug : option (list Z -> Reaction St);
  cbWindowUpdate : option (Z -> Z -> Reaction St);
  cbUnknown : option (FrameHeader -> list Z -> Reaction St);
  cbFrameComplete : option (FrameHeader -> Reaction St);
}.
Arguments mkCallbacks {St}.
Arguments cbFrameBegin {St}. Arguments cbData {St}. Arguments cbHeaderBlock {St}.
Arguments cbHeaderBlockEnd {St}. Arguments cbPriority {St}. Arguments cbRSTStream {St}.
Arguments cbSetting {St}. Arguments cbSettingsEnd {St}. Arguments cbPushPromise {St}.
Arguments cbPing {St}. Arguments cbGoAway {St}. Arguments cbGoAwayDebug {St}.
Arguments cbWindowUpdate {St}. Arguments cbUnknown {St}. Arguments cbFrameComplete {St}.

(** ** The parser *)

Inductive payloadState := payloadStart | payloadPrefix | payloadContent | payloadPadding.

#[export] Instance payloadState_eq_dec : EqDecision payloadState.
Proof. solve_decision. Defined.

Definition is_payloadStart (s : payloadState) : bool := match s with payloadStart => true | _ => false end.
Definition is_payloadPrefix (s : payloadState) : bool := match s with payloadPrefix => true | _ => false end.
Definition is_payloadContent (s : payloadState) : bool := match s with payloadContent => true | _ => false end.
Definition is_payloadPadding (s : payloadState) : bool := match s with payloadPadding => true | _ => false end.

(** The parser without its callbacks, which never change between [Init]s and
    are an argument of the operations below. *)
#[projections(primitive)]
Record Parser := mkParser {
  limits : Limits;
  code : Code;
  parsing : bool;
  pauseAfterFrame : bool;
  paused : bool;
  header : list Z; (* [9]byte *)
  headerN : Z; (* uint8 *)
  current : FrameHeader;
  payloadN : Z; (* uint32 *)
  state : payloadState;
  prefix : list Z; (* [8]byte *)
  prefixN : Z; (* uint8 *)
  prefixNeed : Z; (* uint8 *)
  padLength : Z; (* uint32 *)
  contentN : Z; (* uint32 *)
  continuationStream : Z; (* uint32 *)
  continuationCount : Z; (* uint32 *)
  headerBlockBytes : Z; (* uint64 *)
  headerBlockEndStream : bool;
}.

#[export] Instance eta_FrameParser : Eta Parser := fun p =>
  {| limits := p.(limits);
     code := p.(code);
     parsing := p.(parsing);
     pauseAfterFrame := p.(pauseAfterFrame);
     paused := p.(paused);
     header := p.(header);
     headerN := p.(headerN);
     current := p.(current);
     payloadN := p.(payloadN);
     state := p.(state);
     prefix := p.(prefix);
     prefixN := p.(prefixN);
     prefixNeed := p.(prefixNeed);
     padLength := p.(padLength);
     contentN := p.(contentN);
     continuationStream := p.(continuationStream);
     continuationCount := p.(continuationCount);
     headerBlockBytes := p.(headerBlockBytes);
     headerBlockEndStream := p.(headerBlockEndStream) |}.

#[export] Instance setf_limits : Setter limits := ltac:(mk_setter limits).
#[export] Instance setf_code : Setter code := ltac:(mk_setter code).
#[export] Instance setf_parsing : Setter parsing := ltac:(mk_setter parsing).
#[export] Instance setf_pauseAfterFrame : Setter pauseAfterFrame := ltac:(mk_setter pauseAfterFrame).
#[export] Instance setf_paused : Setter paused := ltac:(mk_setter paused).
#[export] Instance setf_header : Setter header := ltac:(mk_setter header).
#[export] Instance setf_headerN : Setter headerN := ltac:(mk_setter headerN).
#[export] Instance setf_current : Setter current := ltac:(mk_setter current).
#[export] Instance setf_payloadN : Setter payloadN := ltac:(mk_setter payloadN).
#[export] Instance setf_state : Setter state := ltac:(mk_setter state).
#[export] Instance setf_prefix : Setter prefix := ltac:(mk_setter prefix).
#[export] Instance setf_prefixN : Setter prefixN := ltac:(mk_setter prefixN).
#[export] Instance setf_prefixNeed : Setter prefixNeed := ltac:(mk_setter prefixNeed).
#[export] Instance setf_padLength : Setter padLength := ltac:(mk_setter padLength).
#[export] Instance setf_contentN : Setter contentN := ltac:(mk_setter contentN).
#[export] Instance setf_continuationStream : Setter continuationStream := ltac:(mk_setter continuationStream).
#[export] Instance setf_continuationCount : Setter continuationCount := ltac:(mk_setter continuationCount).
#[export] Instance setf_headerBlockBytes : Setter headerBlockBytes := ltac:(mk_setter headerBlockBytes).
#[export] Instance setf_headerBlockEndStream : Setter headerBlockEndStream := ltac:(mk_setter headerBlockEndStream).

(** [Parser{callbacks: callbacks, limits: limits}] *)
Definition zeroParser (l : Limits) : Parser :=
  {| limits := l;
     code := CodeNone;
     parsing := false;
     pauseAfterFrame := false;
     paused := false;
     header := replicate 9 0;
     headerN := 0;
     current := zeroFrameHeader;
     payloadN := 0;
     state := payloadStart;
     prefix := replicate 8 0;
     prefixN := 0;
     prefixNeed := 0;
     padLength := 0;
     contentN := 0;
     continuationStream := 0;
     continuationCount := 0;
     headerBlockBytes := 0;
     headerBlockEndStream := false |}.

Definition fail (p : Parser) (c : Code) : Parser :=
  if is_none p.(code) then p <| code := c |> else p.

(** ** Bytes *)

(** [binary.BigEndian.Uint16(s)] and [Uint32(s)] on the bytes from [i]. *)
Definition Uint16At (s : list Z) (i : Z) : Z :=
  Z.lor (Z.shiftl (str_at s i) 8) (str_at s (i + 1)).

Definition Uint32At (s : list Z) (i : Z) : Z :=
  Z.lor (Z.lor (Z.lor (Z.shiftl (str_at s i) 24) (Z.shiftl (str_at s (i + 1)) 16))
               (Z.shiftl (str_at s (i + 2)) 8)) (str_at s (i + 3)).

Definition streamMask : Z := 2147483647. (* 0x7fffffff *)

(** [copy(dst[k:], src)]: the array after the copy and how much was copied. *)
Definition copyAt (dst : list Z) (k : Z) (src : list Z) : list Z * Z :=
  let n := Nat.min (length dst - Z.to_nat k) (length src) in
  (take (Z.to_nat k) dst ++ take n src ++ drop (Z.to_nat k + n) dst, Z.of_nat n).

Definition decodePriority (src : list Z) : PriorityParam :=
  let dependency := Uint32At src 0 in
  {| StreamDependency := Z.land dependency streamMask;
     Exclusive := negb (Z.shiftr dependency 31 =? 0);
     Weight := str_at src 4 |}.

Definition minInt (left right : Z) : Z := if left <? right then left else right.

(** ** Header validation *)

Definition validateFrameHeader (h : FrameHeader) : Code :=
  let t := h.(Type_) in
  let streamRequired := (t =? FrameData) || (t =? FrameHeaders) || (t =? FramePriority)
    || (t =? FrameRSTStream) || (t =? FramePushPromise) || (t =? FrameContinuation) in
  let streamForbidden := (t =? FrameSettings) || (t =? FramePing) || (t =? FrameGoAway) in
  if streamRequired && (h.(StreamID) =? 0) || streamForbidden && negb (h.(StreamID) =? 0)
  then CodeInvalidStreamID
  else if t =? FrameData then
    if Has h.(Flags) FlagPadded && (h.(Length) <? 1) then CodeInvalidFrameSize else CodeNone
  else if t =? FrameHeaders then
    let minimum := 0 in
    let minimum := if Has h.(Flags) FlagPadded then minimum + 1 else minimum in
    let minimum := if Has h.(Flags) FlagPriority then minimum + 5 else minimum in
    if h.(Length) <? minimum then CodeInvalidFrameSize else CodeNone
  else if t =? FramePriority then
    if negb (h.(Length) =? 5) then CodeInvalidFrameSize else CodeNone
  else if t =? FrameRSTStream then
    if negb (h.(Length) =? 4) then CodeInvalidFrameSize else CodeNone
  else if t =? FrameSettings then
    if Has h.(Flags) FlagACK then
      if negb (h.(Length) =? 0) then CodeInvalidFrameSize else CodeNone
    else if negb (h.(Length) mod 6 =? 0) then CodeInvalidFrameSize else CodeNone
  else if t =? FramePushPromise then
    let minimum := 4 in
    let minimum := if Has h.(Flags) FlagPadded then minimum + 1 else minimum in
    if h.(Length) <? minimum then CodeInvalidFrameSize else CodeNone
  else if t =? FramePing then
    if negb (h.(Length) =? 8) then CodeInvalidFrameSize else CodeNone
  else if t =? FrameGoAway then
    if h.(Length) <? 8 then CodeInvalidFrameSize else CodeNone
  else if t =? FrameWindowUpdate then
    if negb (h.(Length) =? 4) then CodeInvalidFrameSize else CodeNone
  else CodeNone.

Definition validSetting (s : Setting) : bool :=
  if (s.(ID) =? SettingEnablePush) || (s.(ID) =? SettingEnableConnectProtocol)
     || (s.(ID) =? SettingNoRFC7540Priorities)
  then s.(Value) <=? 1
  else if s.(ID) =? SettingInitialWindowSize then s.(Value) <=? streamMask
  else if s.(ID) =? SettingMaxFrameSize then
    (defaultMaxFrameSize <=? s.(Value)) && (s.(Value) <=? maxFrameSize)
  else true.

Definition isHeaderBlockFrame (t : Z) : bool :=
  (t =? FrameHeaders) || (t =? FramePushPromise) || (t =? FrameContinuation).

(** ** Frame payloads *)

Section Host.
Context {St : Type} (callbacks : option (Callbacks St)).

(** [if callbacks != nil && callbacks.F != nil { callbacks.F(args) }] *)
Definition invoke {A} (F : Callbacks St -> option A) (call : A -> Reaction St) (p : Parser) (st : St) : Parser * St :=
  match callbacks with
  | Some c =>
      match F c with
      | Some f =>
          let (st, reenter) := call f st in
          (if reenter then fail p CodeReentrantCall else p, st)
      | None => (p, st)
      end
  | None => (p, st)
  end.

(** The results [(n, done, code)] of the payload parsers, [n] as the unread
    suffix, with the parser and the host they leave. *)
Record PRes := mkPRes {
  resParser : Parser;
  resHost : St;
  resRest : list Z;
  resDone : bool;
  resCode : Code;
}.

(** [return n, parser.payloadN == parser.current.Length, CodeNone] *)
Definition resPayload (p : Parser) (st : St) (rest : list Z) : PRes :=
  mkPRes p st rest (p.(payloadN) =? p.(current).(Length)) CodeNone.

(** [return n, false, CodeNone] *)
Definition resMore (p : Parser) (st : St) (rest : list Z) : PRes := mkPRes p st rest false CodeNone.

(** [return n, false, parser.fail(code)] *)
Definition resFail (p : Parser) (st : St) (rest : list Z) (c : Code) : PRes :=
  let p := fail p c in mkPRes p st rest false p.(code).

Definition copyPrefix (p : Parser) (src : list Z) : Parser * list Z :=
  let need := u8 (p.(prefixNeed) - p.(prefixN)) in
  let count := minInt need (len src) in
  (p <| prefix := fst (copyAt p.(prefix) p.(prefixN) (take (Z.to_nat count) src)) |>
     <| prefixN := u8 (p.(prefixN) + count) |>
     <| payloadN := u32 (p.(payloadN) + count) |>,
   drop (Z.to_nat count) src).

(** The padding loop shared by DATA and the header-bearing frames: what
    follows [parser.state == payloadPadding]. *)
Definition skipPadding (p : Parser) (st : St) (src : list Z) : PRes :=
  if is_payloadPadding p.(state) && negb (len src =? 0) then
    let count := minInt (u32 (p.(current).(Length) - p.(payloadN))) (len src) in
    let p := p <| payloadN := u32 (p.(payloadN) + count) |> in
    resPayload p st (drop (Z.to_nat count) src)
  else resPayload p st src.

(** The content part of [parseData]. *)
Definition dataContent (p : Parser) (st : St) (src : list Z) : PRes :=
  let '((p, st), src) :=
    if is_payloadContent p.(state) && negb (p.(contentN) =? 0) && negb (len src =? 0) then
      let count := minInt p.(contentN) (len src) in
      let fragment := take (Z.to_nat count) src in
      let (p, st) :=
        invoke cbData (fun f => f p.(current).(StreamID) fragment (Has p.(current).(Flags) FlagEndStream)) p st in
      ((p <| contentN := u32 (p.(contentN) - count) |> <| payloadN := u32 (p.(payloadN) + count) |>, st),
       drop (Z.to_nat count) src)
    else ((p, st), src) in
  let p :=
    if is_payloadContent p.(state) && (p.(contentN) =? 0) then p <| state := payloadPadding |> else p in
  skipPadding p st src.

(** [parser.padLength = uint32(src[n]); parser.payloadN++; n++] *)
Definition takePadLength (p : Parser) (b : Z) : Parser :=
  p <| padLength := b |> <| payloadN := u32 (p.(payloadN) + 1) |>.

Definition startContent (p : Parser) : Parser :=
  p <| contentN := u32 (u32 (p.(current).(Length) - p.(payloadN)) - p.(padLength)) |>
    <| state := payloadContent |>.

Definition parseData (p : Parser) (st : St) (src : list Z) : PRes :=
  if is_payloadStart p.(state) then
    match Has p.(current).(Flags) FlagPadded, src with
    | true, b :: src =>
        let p := takePadLength p b in
        if u32 (p.(current).(Length) - p.(payloadN)) <? p.(padLength)
        then resFail p st src CodeInvalidPadding
        else dataContent (startContent p) st src
    | _, _ => dataContent (startContent p) st src
    end
  else dataContent p st src.

(** [parseHeaderFragment]: deliver up to [remaining] bytes of a header block. *)
Definition parseHeaderFragment (p : Parser) (st : St) (src : list Z) (remaining : Z) : PRes :=
  let count := minInt remaining (len src) in
  if count =? 0 then mkPRes p st src (remaining =? 0) CodeNone
  else if p.(limits).(MaxHeaderBlockBytes) <? u64 (p.(headerBlockBytes) + count)
  then resFail p st src CodeHeaderBlockTooLarge
  else
    let fragment := take (Z.to_nat count) src in
    let (p, st) := invoke cbHeaderBlock (fun f => f p.(current).(StreamID) fragment) p st in
    let p := p <| headerBlockBytes := u64 (p.(headerBlockBytes) + count) |>
               <| payloadN := u32 (p.(payloadN) + count) |> in
    let p := if is_payloadContent p.(state) then p <| contentN := u32 (p.(contentN) - count) |> else p in
    mkPRes p st (drop (Z.to_nat count) src) (u32 count =? remaining) CodeNone.

Definition parseHeaderContentAndPadding (p : Parser) (st : St) (src : list Z) : PRes :=
  let finish (p : Parser) (st : St) (src : list Z) : PRes :=
    let p :=
      if is_payloadContent p.(state) && (p.(contentN) =? 0) then p <| state := payloadPadding |> else p in
    skipPadding p st src in
  if is_payloadContent p.(state) && negb (p.(contentN) =? 0) && negb (len src =? 0) then
    let r := parseHeaderFragment p st src p.(contentN) in
    if negb (is_none r.(resCode)) then mkPRes r.(resParser) r.(resHost) r.(resRest) false r.(resCode)
    else if negb r.(resDone) then resMore r.(resParser) r.(resHost) r.(resRest)
    else finish (r.(resParser) <| contentN := 0 |> <| state := payloadPadding |>) r.(resHost) r.(resRest)
  else finish p st src.

(** The priority section of a HEADERS frame. *)
Definition headersPrefix (p : Parser) (st : St) (src : list Z) : PRes :=
  let (p, src) := copyPrefix p src in
  if p.(prefixN) <? p.(prefixNeed) then resMore p st src
  else
    let priority := decodePriority (take 5 p.(prefix)) in
    if priority.(StreamDependency) =? p.(current).(StreamID) then resFail p st src CodeInvalidPriority
    else
      let (p, st) := invoke cbPriority (fun f => f p.(current).(StreamID) priority) p st in
      parseHeaderContentAndPadding (startContent p) st src.

Definition afterHeadersStart (p : Parser) (st : St) (src : list Z) : PRes :=
  if is_payloadPrefix p.(state) then headersPrefix p st src
  else parseHeaderContentAndPadding p st src.

Definition parseHeaders (p : Parser) (st : St) (src : list Z) : PRes :=
  if is_payloadStart p.(state) then
    let enter (p : Parser) : Parser :=
      if Has p.(current).(Flags) FlagPriority
      then p <| prefixNeed := 5 |> <| state := payloadPrefix |>
      else startContent p in
    match Has p.(current).(Flags) FlagPadded, src with
    | true, b :: src =>
        let p := takePadLength p b in
        let minimum := if Has p.(current).(Flags) FlagPriority then 5 else 0 in
        if u32 (u32 (p.(current).(Length) - p.(payloadN)) - minimum) <? p.(padLength)
        then resFail p st src CodeInvalidPadding
        else afterHeadersStart (enter p) st src
    | _, _ => afterHeadersStart (enter p) st src
    end
  else afterHeadersStart p st src.

(** The promised stream of a PUSH_PROMISE frame. *)
Definition promisePrefix (p : Parser) (st : St) (src : list Z) : PRes :=
  let (p, src) := copyPrefix p src in
  if p.(prefixN) <? p.(prefixNeed) then resMore p st src
  else
    let promised := Z.land (Uint32At (take 4 p.(prefix)) 0) streamMask in
    if promised =? 0 then resFail p st src CodeInvalidStreamID
    else
      let (p, st) := invoke cbPushPromise (fun f => f p.(current).(StreamID) promised) p st in
      parseHeaderContentAndPadding (startContent p) st src.

Definition afterPromiseStart (p : Parser) (st : St) (src : list Z) : PRes :=
  if is_payloadPrefix p.(state) then promisePrefix p st src
  else parseHeaderContentAndPadding p st src.

Definition parsePushPromise (p : Parser) (st : St) (src : list Z) : PRes :=
  if is_payloadStart p.(state) then
    let enter (p : Parser) : Parser := p <| prefixNeed := 4 |> <| state := payloadPrefix |> in
    match Has p.(current).(Flags) FlagPadded, src with
    | true, b :: src =>
        let p := takePadLength p b in
        if u32 (u32 (p.(current).(Length) - p.(payloadN)) - 4) <? p.(padLength)
        then resFail p st src CodeInvalidPadding
        else afterPromiseStart (enter p) st src
    | _, _ => afterPromiseStart (enter p) st src
    end
  else afterPromiseStart p st src.

Definition parseFixed (p : Parser) (st : St) (src : list Z) (need : Z) : PRes :=
  let (p, src) := copyPrefix (p <| prefixNeed := need |>) src in
  resPayload p st src.

(** The loop of [parseSettings]; every turn but the last consumes a whole
    parameter, so the length of the input is enough fuel. *)
Fixpoint settingsLoop (fuel : nat) (p : Parser) (st : St) (src : list Z) : PRes :=
  if negb (len src =? 0) && (p.(payloadN) <? p.(current).(Length)) then
    match fuel with
    | O => resMore p st src
    | S fuel =>
        let (p, src) := copyPrefix p src in
        if p.(prefixN) <? 6 then resPayload p st src
        else
          let setting := mkSetting (Uint16At (take 2 p.(prefix)) 0) (Uint32At (take 4 (drop 2 p.(prefix))) 0) in
          if negb (validSetting setting) then resFail p st src CodeInvalidSetting
          else
            let (p, st) := invoke cbSetting (fun f => f setting) p st in
            settingsLoop fuel (p <| prefixN := 0 |>) st src
    end
  else resPayload p st src.

Definition parseSettings (p : Parser) (st : St) (src : list Z) : PRes :=
  settingsLoop (length src) (p <| prefixNeed := 6 |>) st src.

Definition goAwayDebug (p : Parser) (st : St) (src : list Z) : PRes :=
  if (p.(payloadN) <? p.(current).(Length)) && negb (len src =? 0) then
    let count := minInt (u32 (p.(current).(Length) - p.(payloadN))) (len src) in
    let fragment := take (Z.to_nat count) src in
    let (p, st) := invoke cbGoAwayDebug (fun f => f fragment) p st in
    resPayload (p <| payloadN := u32 (p.(payloadN) + count) |>) st (drop (Z.to_nat count) src)
  else resPayload p st src.

Definition parseGoAway (p : Parser) (st : St) (src : list Z) : PRes :=
  if p.(payloadN) <? 8 then
    let (p, src) := copyPrefix (p <| prefixNeed := 8 |>) src in
    if p.(prefixN) <? 8 then resMore p st src else goAwayDebug p st src
  else goAwayDebug p st src.

(** The [default] case of [parsePayload]. *)
Definition parseUnknown (p : Parser) (st : St) (src : list Z) : PRes :=
  let remaining := u32 (p.(current).(Length) - p.(payloadN)) in
  let remaining := if len src <? remaining then len src else remaining in
  let fragment := take (Z.to_nat remaining) src in
  let (p, st) := invoke cbUnknown (fun f => f p.(current) fragment) p st in
  resPayload (p <| payloadN := u32 (p.(payloadN) + remaining) |>) st (drop (Z.to_nat remaining) src).

(** The switch of [parsePayload]. *)
Definition parsePayloadSwitch (p : Parser) (st : St) (src : list Z) : PRes :=
  let t := p.(current).(Type_) in
  if t =? FrameData then parseData p st src
  else if t =? FrameHeaders then parseHeaders p st src
  else if t =? FramePriority then parseFixed p st src 5
  else if t =? FrameRSTStream then parseFixed p st src 4
  else if t =? FrameSettings then parseSettings p st src
  else if t =? FramePushPromise then parsePushPromise p st src
  else if t =? FramePing then parseFixed p st src 8
  else if t =? FrameGoAway then parseGoAway p st src
  else if t =? FrameWindowUpdate then parseFixed p st src 4
  else if t =? FrameContinuation then
    parseHeaderFragment p st src (u32 (p.(current).(Length) - p.(payloadN)))
  else parseUnknown p st src.

(** The loop of [parsePayload]; [None] is running out of fuel. *)
Fixpoint payloadLoop (fuel : nat) (p : Parser) (st : St) (src : list Z) : option PRes :=
  if negb (len src =? 0) && (p.(payloadN) <? p.(current).(Length)) then
    match fuel with
    | O => None
    | S fuel =>
        let r := parsePayloadSwitch p st src in
        if negb (is_none r.(resCode)) || r.(resDone) then Some r
        else payloadLoop fuel r.(resParser) r.(resHost) r.(resRest)
    end
  else Some (resPayload p st src).

Definition parsePayload (p : Parser) (st : St) (src : list Z) : option PRes :=
  payloadLoop (length src) p st src.

(** ** Frames *)

(** The fields of the nine header bytes. *)
Definition decodeFrameHeader (h : list Z) : FrameHeader :=
  {| Length := Z.lor (Z.lor (Z.shiftl (str_at h 0) 16) (Z.shiftl (str_at h 1) 8)) (str_at h 2);
     Type_ := str_at h 3;
     Flags := str_at h 4;
     StreamID := Z.land (Uint32At h 5) streamMask |}.

(** The CONTINUATION rules of [beginFrame]: the parser after them, and the
    code it fails with. *)
Definition checkContinuation (p : Parser) : Parser * option Code :=
  let h := p.(current) in
  if negb (p.(continuationStream) =? 0) then
    if negb (h.(Type_) =? FrameContinuation) || negb (h.(StreamID) =? p.(continuationStream))
    then (p, Some CodeInvalidContinuation)
    else
      let p := p <| continuationCount := u32 (p.(continuationCount) + 1) |> in
      if p.(limits).(MaxContinuationFrames) <? p.(continuationCount)
      then (p, Some CodeTooManyContinuations) else (p, None)
  else if h.(Type_) =? FrameContinuation then (p, Some CodeInvalidContinuation)
  else (p, None).

(** All the checks of [beginFrame] before its callback. *)
Definition checkSequence (p : Parser) : Parser * option Code :=
  let h := p.(current) in
  if p.(limits).(MaxFrameSize) <? h.(Length) then (p, Some CodeFrameTooLarge)
  else
    match checkContinuation p with
    | (p, Some c) => (p, Some c)
    | (p, None) =>
        let p :=
          if (h.(Type_) =? FrameHeaders) && (p.(continuationStream) =? 0)
          then p <| headerBlockEndStream := Has h.(Flags) FlagEndStream |> else p in
        (p, match validateFrameHeader h with CodeNone => None | c => Some c end)
    end.

Definition beginFrame (p : Parser) (st : St) : (Parser * St) * Code :=
  let p := p <| current := decodeFrameHeader p.(header) |> <| payloadN := 0 |> <| state := payloadStart |>
             <| prefixN := 0 |> <| prefixNeed := 0 |> <| padLength := 0 |> <| contentN := 0 |> in
  let (p, err) := checkSequence p in
  match err with
  | Some c => let p := fail p c in ((p, st), p.(code))
  | None =>
      let (p, st) := invoke cbFrameBegin (fun f => f p.(current)) p st in
      ((p, st), p.(code))
  end.

(** The switch at the head of [finishFrame]; [inr] is [return parser.fail(c)]. *)
Definition finishPayload (p : Parser) (st : St) : (Parser * St) + Code :=
  let h := p.(current) in
  let t := h.(Type_) in
  if t =? FramePriority then
    let priority := decodePriority (take 5 p.(prefix)) in
    if priority.(StreamDependency) =? h.(StreamID) then inr CodeInvalidPriority
    else inl (invoke cbPriority (fun f => f h.(StreamID) priority) p st)
  else if t =? FrameRSTStream then
    inl (invoke cbRSTStream (fun f => f h.(StreamID) (Uint32At (take 4 p.(prefix)) 0)) p st)
  else if t =? FrameSettings then
    inl (invoke cbSettingsEnd (fun f => f (Has h.(Flags) FlagACK)) p st)
  else if t =? FramePing then
    inl (invoke cbPing (fun f => f p.(prefix) (Has h.(Flags) FlagACK)) p st)
  else if t =? FrameGoAway then
    inl (invoke cbGoAway (fun f => f (Z.land (Uint32At (take 4 p.(prefix)) 0) streamMask)
                                     (Uint32At (take 4 (drop 4 p.(prefix))) 0)) p st)
  else if t =? FrameWindowUpdate then
    let increment := Z.land (Uint32At (take 4 p.(prefix)) 0) streamMask in
    if increment =? 0 then inr CodeInvalidWindowUpdate
    else inl (invoke cbWindowUpdate (fun f => f h.(StreamID) increment) p st)
  else inl (p, st).

(** The end of a header block, or the start of a continuation sequence. *)
Definition finishHeaderBlock (p : Parser) (st : St) : Parser * St :=
  let h := p.(current) in
  if isHeaderBlockFrame h.(Type_) then
    if Has h.(Flags) FlagEndHeaders then
      let (p, st) := invoke cbHeaderBlockEnd (fun f => f h.(StreamID) p.(headerBlockEndStream)) p st in
      (p <| continuationStream := 0 |> <| continuationCount := 0 |> <| headerBlockBytes := 0 |>
         <| headerBlockEndStream := false |>, st)
    else if p.(continuationStream) =? 0 then
      (p <| continuationStream := h.(StreamID) |> <| continuationCount := 0 |>, st)
    else (p, st)
  else (p, st).

Definition finishFrame (p : Parser) (st : St) : (Parser * St) * Code :=
  let h := p.(current) in
  match finishPayload p st with
  | inr c => let p := fail p c in ((p, st), p.(code))
  | inl (p, st) =>
      let (p, st) := finishHeaderBlock p st in
      let (p, st) := invoke cbFrameComplete (fun f => f h) p st in
      if negb (is_none p.(code)) then ((p, st), p.(code))
      else
        ((p <| headerN := 0 |> <| current := zeroFrameHeader |> <| payloadN := 0 |> <| prefixN := 0 |>
            <| prefixNeed := 0 |> <| state := payloadStart |> <| paused := p.(pauseAfterFrame) |>, st), CodeNone)
  end.

(** ** The parse loop *)

Record FOutcome := mkFOutcome {
  outParser : Parser;
  outHost : St;
  outRest : list Z;
  outCode : Code;
}.

(** One turn of the loop of [runParse] on a non-empty [src]: go on with
    [inl], or return. *)
Definition payloadTurn (p : Parser) (st : St) (src : list Z) : option ((Parser * St * list Z) + FOutcome) :=
  match parsePayload p st src with
  | None => None
  | Some r =>
      let p := r.(resParser) in
      Some (
        if negb (is_none r.(resCode)) then inr (mkFOutcome p r.(resHost) r.(resRest) r.(resCode))
        else if negb (is_none p.(code)) then inr (mkFOutcome p r.(resHost) r.(resRest) p.(code))
        else if negb r.(resDone) then inr (mkFOutcome p r.(resHost) r.(resRest) CodeNone)
        else
          let '((p, st), c) := finishFrame p r.(resHost) in
          if negb (is_none c) then inr (mkFOutcome p st r.(resRest) c) else inl (p, st, r.(resRest)))
  end.

Definition frameTurn (p : Parser) (st : St) (src : list Z) : option ((Parser * St * list Z) + FOutcome) :=
  if p.(headerN) <? 9 then
    let (h, copied) := copyAt p.(header) p.(headerN) src in
    let p := p <| header := h |> <| headerN := u8 (p.(headerN) + copied) |> in
    let src := drop (Z.to_nat copied) src in
    if p.(headerN) <? 9 then Some (inr (mkFOutcome p st src CodeNone))
    else
      let '((p, st), c) := beginFrame p st in
      if negb (is_none c) then Some (inr (mkFOutcome p st src c))
      else if p.(current).(Length) =? 0 then
        let '((p, st), c) := finishFrame p st in
        Some (if negb (is_none c) then inr (mkFOutcome p st src c) else inl (p, st, src))
      else payloadTurn p st src
  else payloadTurn p st src.

Fixpoint frameLoop (fuel : nat) (p : Parser) (st : St) (src : list Z) : option FOutcome :=
  match src with
  | [] => Some (mkFOutcome p st [] CodeNone)
  | _ =>
      if p.(paused) then Some (mkFOutcome p st src CodeNone)
      else
        match fuel with
        | O => None
        | S fuel =>
            match frameTurn p st src with
            | None => None
            | Some (inr o) => Some o
            | Some (inl (p, st, src)) => frameLoop fuel p st src
            end
        end
  end.

Definition runParse (p : Parser) (st : St) (src : list Z) (pauseAfterFrame_ : bool) : option FOutcome :=
  if p.(parsing) then
    let p := fail p CodeReentrantCall in Some (mkFOutcome p st src p.(code))
  else if negb (is_none p.(code)) then Some (mkFOutcome p st src p.(code))
  else
    let p := p <| parsing := true |> <| pauseAfterFrame := pauseAfterFrame_ |> <| paused := false |> in
    match frameLoop (length src) p st src with
    | None => None
    | Some o =>
        Some (mkFOutcome (o.(outParser) <| parsing := false |> <| pauseAfterFrame := false |>)
                         o.(outHost) o.(outRest) o.(outCode))
    end.

Definition Parse (p : Parser) (st : St) (src : list Z) : option FOutcome := runParse p st src false.

Definition ParseOne (p : Parser) (st : St) (src : list Z) : option (FOutcome * bool) :=
  match runParse p st src true with
  | None => None
  | Some o => Some (o, o.(outParser).(paused))
  end.

End Host.

(** ** The other methods *)

Definition Init (p : Parser) (l : Limits) : Parser :=
  if p.(parsing) then fail p CodeReentrantCall else zeroParser (normalized l).

Definition NewParser (l : Limits) : Parser := Init (zeroParser (mkLimits 0 0 0)) l.

Definition Reset (p : Parser) : Parser :=
  if p.(parsing) then fail p CodeReentrantCall else Init p p.(limits).

Definition Finish (p : Parser) : Parser * Code :=
  if p.(parsing) then let p := fail p CodeReentrantCall in (p, p.(code))
  else if negb (is_none p.(code)) then (p, p.(code))
  else if negb (p.(headerN) =? 0) || negb (p.(continuationStream) =? 0)
  then let p := fail p CodeUnexpectedEOF in (p, p.(code))
  else (p, CodeNone).

(** [byte(x)] *)
Definition toByte (x : Z) : Z := u8 x.

(** [binary.BigEndian.PutUint16] and [PutUint32] *)
Definition putUint16 (v : Z) : list Z := [toByte (Z.shiftr v 8); toByte v].

Definition putUint32 (v : Z) : list Z :=
  [toByte (Z.shiftr v 24); toByte (Z.shiftr v 16); toByte (Z.shiftr v 8); toByte v].

(** A setting of a SETTINGS payload. *)
Definition encodeSetting (x : Setting) : list Z := putUint16 x.(ID) ++ putUint32 x.(Value).

(** The nine bytes [AppendFrame] writes. *)
Definition encodeFrameHeader (h : FrameHeader) : list Z :=
  [toByte (Z.shiftr h.(Length) 16); toByte (Z.shiftr h.(Length) 8); toByte h.(Length);
   toByte h.(Type_); toByte h.(Flags)] ++ putUint32 h.(StreamID).

Definition AppendFrame (dst : list Z) (h : FrameHeader) (payload : list Z) : list Z * Code :=
  if (maxFrameSize <? len payload)
     || negb (h.(Length) =? 0) && negb (h.(Length) =? u32 (len payload))
     || (streamMask <? h.(StreamID))
  then (dst, CodeInvalidFrameSize)
  else
    let h := mkFrameHeader (u32 (len payload)) h.(Type_) h.(Flags) h.(StreamID) in
    match validateFrameHeader h with
    | CodeNone => (dst ++ encodeFrameHeader h ++ payload, CodeNone)
    | c => (dst, c)
    end.
