(* ===== verification/H2FrameWf.v ===== *)
(** * HTTP/2 frames: the invariant of the frame parser and termination

    [frame_ok] says where in its payload a frame stands: which counters agree
    with which, for every frame type.  Every payload parser consumes input
    within the frame and keeps it, so the loops of [frame.go] terminate
    whatever the callbacks do, and no counter wraps. *)

From S2P Require Import Prelude H2Frame.

(** Input bytes. *)
Definition bytes (s : list Z) : Prop := Forall in_u8 s.

Definition frame_limits_ok (l : Limits) : Prop :=
  0 < l.(MaxFrameSize) <= maxFrameSize /\ 0 < l.(MaxHeaderBlockBytes) <= MaxUint64 /\
  0 < l.(MaxContinuationFrames) <= MaxUint32.

(** Where the payload of the current frame stands. *)
Definition content_at (p : Parser) : Prop :=
  0 <= p.(contentN) /\ 0 <= p.(padLength) /\ p.(payloadN) + p.(contentN) + p.(padLength) = p.(current).(Length).

Definition prefix_at (p : Parser) (need : Z) : Prop :=
  p.(prefixNeed) = need /\ 0 <= p.(prefixN) < need /\ 0 <= p.(padLength) /\
  p.(payloadN) + (need - p.(prefixN)) + p.(padLength) <= p.(current).(Length).

Definition block_shape (p : Parser) (need : Z) : Prop :=
  match p.(state) with
  | payloadStart => p.(payloadN) = 0 /\ p.(prefixN) = 0 /\ p.(padLength) = 0
  | payloadPrefix => prefix_at p need
  | payloadContent => content_at p
  | payloadPadding => True
  end.

Definition payload_shape (p : Parser) : Prop :=
  let t := p.(current).(Type_) in
  if t =? FrameData then p.(state) <> payloadPrefix /\ block_shape p 0
  else if t =? FrameHeaders then block_shape p 5
  else if t =? FramePushPromise then block_shape p 4
  else if t =? FrameSettings then 0 <= p.(prefixN) < 6 /\ p.(payloadN) mod 6 = p.(prefixN)
  else if t =? FrameGoAway then p.(prefixN) = Z.min 8 p.(payloadN)
  else if (t =? FramePriority) || (t =? FrameRSTStream) || (t =? FramePing) || (t =? FrameWindowUpdate)
  then p.(prefixN) = p.(payloadN)
  else p.(state) = payloadStart.

Definition sizes_ok (p : Parser) : Prop :=
  0 <= p.(payloadN) <= p.(current).(Length) /\ p.(current).(Length) <= maxFrameSize /\
  length p.(prefix) = 8%nat /\ 0 <= p.(headerBlockBytes) <= p.(limits).(MaxHeaderBlockBytes).

Definition frame_ok (p : Parser) : Prop :=
  frame_limits_ok p.(limits) /\ sizes_ok p /\ validateFrameHeader p.(current) = CodeNone /\ payload_shape p.

(** What the payload parsers leave alone. *)
Definition same_frame (p q : Parser) : Prop :=
  q.(limits) = p.(limits) /\ q.(current) = p.(current) /\ q.(header) = p.(header) /\
  q.(headerN) = p.(headerN) /\ q.(parsing) = p.(parsing) /\ q.(paused) = p.(paused) /\
  q.(pauseAfterFrame) = p.(pauseAfterFrame) /\ q.(continuationStream) = p.(continuationStream) /\
  q.(continuationCount) = p.(continuationCount) /\ q.(headerBlockEndStream) = p.(headerBlockEndStream).

#[export] Instance same_frame_refl : Reflexive same_frame.
Proof. by repeat split. Qed.
#[export] Instance same_frame_trans : Transitive same_frame.
Proof. unfold same_frame. intros p q r H1 H2. destruct_and!. split_and!; by etrans. Qed.

(** Errors are sticky: the code only leaves [CodeNone]. *)
Definition code_grows (p q : Parser) : Prop := p.(code) = CodeNone \/ q.(code) = p.(code).

Lemma frame_fail_spec p c : exists d, fail p c = p <| code := d |> /\ (p.(code) = CodeNone \/ d = p.(code)).
Proof.
  unfold fail. destruct (frame_is_none_spec (code p)) as [H|H]; [exists c; auto | exists (code p); auto].
Qed.

Lemma maxFrameSize_eq : maxFrameSize = 16777215.
Proof. reflexivity. Qed.

Ltac widths := unfold MaxUint8, MaxUint16, MaxUint32, MaxUint64 in *; rewrite ?maxFrameSize_eq in *.

Section Host.
Context {St : Type} (cb : option (Callbacks St)).

Lemma frame_invoke_spec {A} (F : Callbacks St -> option A) call p st :
  exists d, (invoke cb F call p st).1 = p <| code := d |> /\ (p.(code) = CodeNone \/ d = p.(code)).
Proof.
  unfold invoke.
  assert (exists d, p = p <| code := d |> /\ (p.(code) = CodeNone \/ d = p.(code))) by (exists (code p); auto).
  destruct cb as [c|]; [|done]. destruct (F c) as [f|]; [|done]. destruct (call f st) as [st' []]; [|done].
  apply frame_fail_spec.
Qed.

(** What holds of the buffers even after a failure. *)
Definition keep_ok (p : Parser) : Prop :=
  length p.(prefix) = 8%nat /\ 0 <= p.(headerBlockBytes) <= p.(limits).(MaxHeaderBlockBytes).

Lemma frame_ok_keep p : frame_ok p -> keep_ok p.
Proof. by intros (_ & (_ & _ & ? & ?) & _). Qed.

(** The result of a payload parser on [src]: a frame that is not finished has
    used up the input. *)
Definition res_ok (p : Parser) (src : list Z) (r : PRes (St := St)) : Prop :=
  (exists pre, src = pre ++ r.(resRest)) /\ same_frame p r.(resParser) /\ code_grows p r.(resParser) /\
  keep_ok r.(resParser) /\
  if is_none r.(resCode) then
    frame_ok r.(resParser) /\
    r.(resParser).(payloadN) = p.(payloadN) + (len src - len r.(resRest)) /\
    r.(resDone) = (r.(resParser).(payloadN) =? r.(resParser).(current).(Length)) /\
    (r.(resParser).(payloadN) < r.(resParser).(current).(Length) -> r.(resRest) = [])
  else r.(resCode) = r.(resParser).(code).

Lemma res_ok_intro p src q st rest done :
  (exists pre, src = pre ++ rest) -> same_frame p q -> code_grows p q -> frame_ok q ->
  q.(payloadN) = p.(payloadN) + (len src - len rest) -> done = (q.(payloadN) =? q.(current).(Length)) ->
  (q.(payloadN) < q.(current).(Length) -> rest = []) ->
  res_ok p src (mkPRes q st rest done CodeNone).
Proof. intros. pose proof (frame_ok_keep q H2). by split_and!. Qed.

Lemma frame_ok_update p q :
  frame_ok p -> q.(limits) = p.(limits) -> q.(current) = p.(current) -> length q.(prefix) = 8%nat ->
  0 <= q.(payloadN) <= p.(current).(Length) -> 0 <= q.(headerBlockBytes) <= p.(limits).(MaxHeaderBlockBytes) ->
  payload_shape q -> frame_ok q.
Proof.
  intros (Hl & (_ & HL & _ & _) & Hv & _) El Ec Hp HN Hh Hs. unfold frame_ok, sizes_ok. by rewrite El, Ec.
Qed.

Lemma res_ok_fail p src q st rest c :
  (exists pre, src = pre ++ rest) -> same_frame p q -> code_grows p q -> c <> CodeNone -> keep_ok q ->
  res_ok p src (resFail q st rest c).
Proof.
  intros Hsuf Hsame Hgrow Hc Hkeep. unfold resFail, res_ok. cbn.
  assert (same_frame q (fail q c)) by (unfold fail; by destruct (is_none (code q))).
  assert (code (fail q c) <> CodeNone /\ code_grows q (fail q c)) as [Hnn Hg].
  { unfold fail, code_grows. destruct (frame_is_none_spec (code q)); cbn; auto. }
  assert (keep_ok (fail q c)) by (unfold fail; by destruct (is_none (code q))).
  split; [done | split; [by etrans | split; [|split; [done|]]]].
  - unfold code_grows in *. destruct Hgrow as [|Hgrow]; [by left|]. rewrite <- Hgrow.
    destruct Hg; [by left; congruence | by right].
  - by destruct (frame_is_none_spec (code (fail q c))).
Qed.

Lemma res_ok_trans p q src src' r :
  (exists pre, src = pre ++ src') -> same_frame p q -> code_grows p q ->
  q.(payloadN) = p.(payloadN) + (len src - len src') -> res_ok q src' r -> res_ok p src r.
Proof.
  intros [x ->] Hsame Hgrow HN ([y ->] & Hsame' & Hgrow' & Hkeep & Hr).
  split; [|split; [|split; [|split; [done|]]]].
  - exists (x ++ y). by rewrite <- app_assoc.
  - by etrans.
  - unfold code_grows in *. destruct Hgrow as [|Hgrow]; [by left|]. destruct Hgrow' as [Hg|Hg].
    + left. by rewrite <- Hgrow.
    + right. by rewrite Hg.
  - destruct (is_none (resCode r)); [|done]. destruct Hr as (? & Hr & ? & ?). rewrite Hr in *. split_and!; try done.
    rewrite HN, !len_app. lia.
Qed.

(** ** Arithmetic *)

Lemma minInt_eq x y : minInt x y = Z.min x y.
Proof. unfold minInt. destruct (Z.ltb_spec x y); lia. Qed.

Lemma length_copyAt dst k src : 0 <= k <= len dst -> length (fst (copyAt dst k src)) = length dst.
Proof.
  unfold copyAt, len. cbn. intros H. rewrite !length_app, !length_take, length_drop. lia.
Qed.

Lemma len_drop {A} n (s : list A) : 0 <= n <= len s -> len (drop (Z.to_nat n) s) = len s - n.
Proof. unfold len. intros H. rewrite length_drop. lia. Qed.

Lemma drop_pre {A} n (s : list A) : exists pre, s = pre ++ drop n s.
Proof. exists (take n s). by rewrite take_drop. Qed.

Lemma suffix_trans (a b c : list Z) :
  (exists pre, a = pre ++ b) -> (exists pre, b = pre ++ c) -> exists pre, a = pre ++ c.
Proof. intros [x ->] [y ->]. exists (x ++ y). by rewrite <- app_assoc. Qed.

(** How much a prefix copy takes. *)
Definition prefixTake (p : Parser) (need : Z) (src : list Z) : Z := Z.min (need - p.(prefixN)) (len src).

Lemma copyPrefix_eq p src :
  sizes_ok p -> 0 <= p.(prefixN) < p.(prefixNeed) -> p.(prefixNeed) <= 8 ->
  let n := prefixTake p p.(prefixNeed) src in
  exists x, length x = 8%nat /\
    copyPrefix p src =
      (p <| prefix := x |> <| prefixN := p.(prefixN) + n |> <| payloadN := p.(payloadN) + n |>,
       drop (Z.to_nat n) src).
Proof.
  intros (HN & HL & Hp & _) Hn H8. cbn zeta. unfold copyPrefix, prefixTake.
  pose proof (len_nonneg src). rewrite minInt_eq. rewrite (u8_small (_ - _)) by (widths; lia).
  set (n := Z.min _ _). assert (0 <= n <= prefixNeed p - prefixN p) by lia.
  rewrite u8_small, u32_small by (widths; lia).
  eexists. split; [|reflexivity]. rewrite length_copyAt by (unfold len; rewrite Hp; lia). done.
Qed.

(** ** The payload parsers *)

Ltac sizes := unfold frame_ok, frame_limits_ok, sizes_ok, maxFrameSize, MaxUint64, MaxUint32 in *; cbn in *.

(** Parsers that differ in the code only. *)
Lemma frame_ok_code p d : frame_ok (p <| code := d |>) <-> frame_ok p.
Proof. done. Qed.

(** An update that keeps the sizes; the shape is left to prove. *)
Ltac frame_upd p Hok :=
  apply (frame_ok_update p);
  [ exact Hok | done | done | first [done | apply Hok] | first [apply Hok | cbn; lia]
  | first [assumption | apply Hok | cbn; lia] | ].

(** DATA, HEADERS and PUSH_PROMISE frames: padding, a prefix, content. *)
Definition block_type (t : Z) : Prop := t = FrameData \/ t = FrameHeaders \/ t = FramePushPromise.

Definition prefix_need (t : Z) : Z :=
  if t =? FrameHeaders then 5 else if t =? FramePushPromise then 4 else 0.

Lemma block_payload_shape p :
  block_type p.(current).(Type_) ->
  payload_shape p <->
  (p.(current).(Type_) = FrameData -> p.(state) <> payloadPrefix) /\ block_shape p (prefix_need p.(current).(Type_)).
Proof.
  intros Ht. unfold payload_shape, prefix_need.
  destruct Ht as [Ht | [Ht | Ht]]; rewrite Ht; cbn; intuition discriminate.
Qed.

Lemma drop_all_Z {A} n (s : list A) : len s <= n -> drop (Z.to_nat n) s = [].
Proof. unfold len. intros H. apply drop_ge. lia. Qed.

Lemma len_zero {A} (s : list A) : len s = 0 -> s = [].
Proof. destruct s; [done|]. rewrite len_cons. pose proof (len_nonneg s). lia. Qed.

Lemma skipPadding_ok p st src :
  frame_ok p -> block_type p.(current).(Type_) -> p.(state) = payloadPadding \/ src = [] ->
  res_ok p src (skipPadding p st src).
Proof.
  intros Hok Ht Hst. unfold skipPadding. pose proof Hok as (_ & (HN & HL & _) & _). pose proof (len_nonneg src).
  destruct (is_payloadPadding (state p) && negb (len src =? 0)) eqn:E.
  - rewrite minInt_eq, (u32_small (_ - _)) by (widths; lia).
    set (n := Z.min _ _). assert (0 <= n <= len src /\ n <= Length (current p) - payloadN p) as [Hn1 Hn2] by lia.
    rewrite u32_small by (widths; lia).
    apply res_ok_intro; [apply drop_pre | by repeat split | by right | | | done |].
    + frame_upd p Hok.
      apply block_payload_shape; [done|]. unfold block_shape. cbn. by destruct (state p).
    + cbn. rewrite len_drop by done. lia.
    + cbn. intros. apply drop_all_Z. lia.
  - apply res_ok_intro; [by exists [] | done | by right | done | lia | done |].
    intros _. destruct Hst as [Hst|Hst]; [|done]. rewrite Hst in E. cbn in E. bool_to_prop. by apply len_zero.
Qed.

(** What ends the content: [if state == content && contentN == 0]. *)
Definition endContent (p : Parser) : Parser :=
  if is_payloadContent p.(state) && (p.(contentN) =? 0) then p <| state := payloadPadding |> else p.

Lemma endContent_idem p : endContent (endContent p) = endContent p.
Proof. unfold endContent at 2 3. destruct (_ && _)%bool eqn:E; [done|]. unfold endContent. by rewrite E. Qed.

Lemma endContent_ok p st src :
  frame_ok p -> block_type p.(current).(Type_) ->
  p.(state) = payloadPadding \/ (p.(state) = payloadContent /\ p.(contentN) = 0) \/ src = [] ->
  res_ok p src (skipPadding (endContent p) st src).
Proof.
  intros Hok Ht Hcase. unfold endContent. destruct (_ && _)%bool eqn:E.
  2: { apply skipPadding_ok; [done..|]. destruct Hcase as [?|[[Hs Hc]|?]]; [by left| |by right].
       rewrite Hs, Hc in E. done. }
  apply (res_ok_trans p (p <| state := payloadPadding |>) src src);
    [by exists [] | by repeat split | by right | cbn; lia|].
  apply skipPadding_ok; [|done|by left].
  frame_upd p Hok.
  by apply block_payload_shape.
Qed.

(** [n] bytes of content. *)
Definition contentTaken (p : Parser) (n : Z) : Parser :=
  p <| contentN := p.(contentN) - n |> <| payloadN := p.(payloadN) + n |>.

Lemma contentTaken_ok p n :
  frame_ok p -> block_type p.(current).(Type_) -> p.(state) = payloadContent ->
  0 <= n <= p.(contentN) -> frame_ok (contentTaken p n).
Proof.
  intros Hok Ht Hst Hn. pose proof Hok as (_ & (HN & _) & _ & Hs). apply block_payload_shape in Hs; [|done].
  unfold block_shape in Hs. rewrite Hst in Hs. destruct Hs as [Hd (Hc & Hp & Hsum)].
  frame_upd p Hok.
  apply block_payload_shape; [done|]. unfold block_shape, content_at. cbn. rewrite Hst.
  split; [done|]. lia.
Qed.

Lemma content_cases p (src : list Z) :
  is_payloadContent p.(state) && negb (p.(contentN) =? 0) && negb (len src =? 0) = false ->
  p.(state) = payloadContent \/ p.(state) = payloadPadding ->
  p.(state) = payloadPadding \/ (p.(state) = payloadContent /\ p.(contentN) = 0) \/ src = [].
Proof.
  intros E [Hs|Hs]; [|by left]. right. rewrite Hs in E. cbn in E.
  destruct (Z.eqb_spec (contentN p) 0); [by left|]. right. cbn in E. bool_to_prop. by apply len_zero.
Qed.

Lemma code_grows_set p d : p.(code) = CodeNone \/ d = p.(code) -> code_grows p (p <| code := d |>).
Proof. done. Qed.

Lemma dataContent_ok p st src :
  frame_ok p -> p.(current).(Type_) = FrameData -> p.(state) = payloadContent \/ p.(state) = payloadPadding ->
  res_ok p src (dataContent cb p st src).
Proof.
  intros Hok Ht Hst. assert (block_type (Type_ (current p))) as Hb by (by left). unfold dataContent.
  destruct (is_payloadContent (state p) && negb (contentN p =? 0) && negb (len src =? 0)) eqn:E.
  2: { apply endContent_ok; [done..|]. by apply content_cases. }
  assert (state p = payloadContent) as Hc by (by destruct (state p)).
  pose proof Hok as (_ & (HN & HL & _) & _ & Hs). apply block_payload_shape in Hs; [|done].
  unfold block_shape, content_at in Hs. rewrite Hc in Hs. destruct Hs as [_ Hs].
  rewrite minInt_eq. set (n := Z.min (contentN p) (len src)). pose proof (len_nonneg src).
  destruct (frame_invoke_spec cbData (fun f => f (StreamID (current p)) (take (Z.to_nat n) src)
    (Has (Flags (current p)) FlagEndStream)) p st) as (d & Hd & Hg).
  destruct (invoke cb cbData _ p st) as [q st'] eqn:Eq. cbn in Hd. subst q.
  set (q := p <| code := d |>).
  rewrite !u32_small by (widths; cbn; lia).
  change (res_ok p src (skipPadding (endContent (contentTaken q n)) st' (drop (Z.to_nat n) src))).
  apply (res_ok_trans p (contentTaken q n) src (drop (Z.to_nat n) src)).
  - apply drop_pre.
  - by repeat split.
  - by apply code_grows_set.
  - cbn. rewrite len_drop by lia. lia.
  - apply endContent_ok; [apply contentTaken_ok; [done..|cbn; lia] | done |]. right. cbn.
    destruct (Z.le_gt_cases (contentN p) (len src)); [left; split; [done|lia] | right; apply drop_all_Z; lia].
Qed.

(** The start of the content, once the prefix is complete. *)
Lemma startContent_ok p :
  frame_ok p -> block_type p.(current).(Type_) -> 0 <= p.(padLength) ->
  p.(payloadN) + p.(padLength) <= p.(current).(Length) ->
  frame_ok (startContent p) /\ (startContent p).(state) = payloadContent.
Proof.
  intros Hok Ht Hp Hsum. pose proof Hok as (_ & (HN & HL & _) & _). split; [|done].
  frame_upd p Hok.
  apply block_payload_shape; [done|]. unfold block_shape, content_at. cbn.
  rewrite (u32_small (Length (current p) - _)), u32_small by (widths; lia). split; [done|]. lia.
Qed.

(** The pad length octet of a padded frame. *)
Lemma takePadLength_eq p b :
  p.(payloadN) = 0 -> takePadLength p b = p <| padLength := b |> <| payloadN := 1 |>.
Proof. intros H. unfold takePadLength. rewrite H. by rewrite u32_small by (widths; lia). Qed.

Lemma validate_data h :
  validateFrameHeader h = CodeNone -> h.(Type_) = FrameData -> Has h.(Flags) FlagPadded = true -> 1 <= h.(Length).
Proof.
  unfold validateFrameHeader. intros Hv Ht Hp. rewrite Ht, Hp in Hv. cbn in Hv.
  destruct (_ || _)%bool; [done|]. destruct (Z.ltb_spec (Length h) 1); [done|lia].
Qed.

Lemma parseData_ok p st src :
  frame_ok p -> p.(current).(Type_) = FrameData -> bytes src -> src <> [] -> res_ok p src (parseData cb p st src).
Proof.
  intros Hok Ht Hb Hsrc. pose proof Hok as (_ & (HN & HL & Hpl & Hhb) & Hv & Hs).
  assert (block_type (Type_ (current p))) as Hbt by (by left).
  apply block_payload_shape in Hs; [|done]. unfold parseData.
  destruct (is_payloadStart (state p)) eqn:Est; [|apply dataContent_ok; [done|done|destruct Hs as [Hd _]; specialize (Hd Ht); destruct (state p); by auto]].
  assert (state p = payloadStart) as Hst by (by destruct (state p)).
  unfold block_shape in Hs. rewrite Hst in Hs. destruct Hs as [_ (HN0 & Hpn & Hpad)].
  assert (res_ok p src (dataContent cb (startContent p) st src)) as Hplain.
  { destruct (startContent_ok p Hok Hbt) as [Hok' Hst']; [lia|lia|].
    apply (res_ok_trans p (startContent p) src src); [by exists [] | by repeat split | by right | cbn; lia |].
    apply dataContent_ok; [done|done|by left]. }
  destruct (Has (Flags (current p)) FlagPadded) eqn:Hpd; [|done]. destruct src as [|b src]; [done|].
  apply Forall_cons_1 in Hb as [Hb0 Hb]. unfold in_u8 in Hb0.
  pose proof (validate_data _ Hv Ht Hpd) as HL1. rewrite takePadLength_eq by done. cbn zeta.
  set (q := p <| padLength := b |> <| payloadN := 1 |>).
  assert (res_ok p (b :: src) (resFail q st src CodeInvalidPadding)) as Hf.
  { apply res_ok_fail; [by exists [b] | by repeat split | by right | done | exact (frame_ok_keep p Hok)]. }
  change (Length (current q)) with (Length (current p)). change (payloadN q) with 1. change (padLength q) with b.
  rewrite u32_small by (widths; lia). destruct (Z.ltb_spec (Length (current p) - 1) b); [done|].
  assert (0 <= b /\ 1 + b <= Length (current p)) as [Hb1 Hb2] by (widths; lia).
  (* [q] is not in the start state's shape; its content is *)
  assert (frame_ok (startContent q)) as Hok'.
  { frame_upd p Hok.
    apply block_payload_shape; [done|]. unfold block_shape, content_at. cbn.
    rewrite (u32_small (Length (current p) - _)), u32_small by (widths; lia). split; [done|]. lia. }
  apply (res_ok_trans p (startContent q) (b :: src) src); [by exists [b] | by repeat split | by right | |].
  - cbn. rewrite HN0, len_cons. lia.
  - apply dataContent_ok; [done|done|by left].
Qed.

(** A piece of a header block, from the content or from a CONTINUATION frame. *)
Lemma parseHeaderFragment_cases p st src remaining :
  frame_limits_ok p.(limits) -> 0 <= p.(headerBlockBytes) <= p.(limits).(MaxHeaderBlockBytes) ->
  0 <= p.(payloadN) -> p.(payloadN) + remaining <= maxFrameSize -> 0 <= remaining ->
  (p.(state) = payloadContent -> p.(contentN) = remaining) ->
  let n := Z.min remaining (len src) in
  let r := parseHeaderFragment cb p st src remaining in
  (n = 0 /\ r = mkPRes p st src (remaining =? 0) CodeNone) \/
  (0 < n /\ r = resFail p st src CodeHeaderBlockTooLarge) \/
  (0 < n /\ exists d st' hb, (p.(code) = CodeNone \/ d = p.(code)) /\
     0 <= hb <= p.(limits).(MaxHeaderBlockBytes) /\
     r = mkPRes (p <| code := d |> <| headerBlockBytes := hb |> <| payloadN := p.(payloadN) + n |>
                   <| contentN := if is_payloadContent p.(state) then p.(contentN) - n else p.(contentN) |>)
           st' (drop (Z.to_nat n) src) (n =? remaining) CodeNone).
Proof.
  intros Hl Hhb HN HL Hr Hc. cbn zeta. unfold parseHeaderFragment. rewrite minInt_eq. pose proof (len_nonneg src).
  set (n := Z.min remaining (len src)). destruct (Z.eqb_spec n 0) as [Hn|Hn]; [left; auto|].
  right. destruct (Z.ltb_spec (MaxHeaderBlockBytes (limits p)) (u64 (headerBlockBytes p + n))); [left|right].
  { split; [lia|done]. }
  split; [lia|].
  destruct (frame_invoke_spec cbHeaderBlock (fun f => f (StreamID (current p)) (take (Z.to_nat n) src)) p st)
    as (d & Hd & Hg).
  destruct (invoke cb cbHeaderBlock _ p st) as [q st'] eqn:Eq. cbn in Hd. subst q.
  exists d, st', (u64 (headerBlockBytes p + n)). split_and!; [done | apply u64_range | done |].
  cbn. rewrite !(u32_small n), (u32_small (_ + n)) by (widths; lia). f_equal.
  destruct (is_payloadContent (state p)) eqn:Est; [|done].
  assert (state p = payloadContent) as Hst by (by destruct (state p)). rewrite (Hc Hst).
  by rewrite u32_small by (widths; lia).
Qed.

Lemma parseHeaderContentAndPadding_ok p st src :
  frame_ok p -> block_type p.(current).(Type_) -> p.(state) <> payloadStart -> p.(state) <> payloadPrefix ->
  res_ok p src (parseHeaderContentAndPadding cb p st src).
Proof.
  intros Hok Hb Hst1 Hst2. unfold parseHeaderContentAndPadding.
  destruct (is_payloadContent (state p) && negb (contentN p =? 0) && negb (len src =? 0)) eqn:E;
    [|apply endContent_ok; [done..|]; apply content_cases; [done|destruct (state p); by auto]].
  assert (state p = payloadContent) as Hc by (by destruct (state p)).
  pose proof Hok as (Hl & (HN & HL & Hpl & Hhb) & _ & Hs). apply block_payload_shape in Hs; [|done].
  unfold block_shape, content_at in Hs. rewrite Hc in Hs. destruct Hs as [_ Hs]. pose proof (len_nonneg src).
  destruct (parseHeaderFragment_cases p st src (contentN p)) as [[Hn Hr] | [[Hn Hr] | (Hn & d & st' & hb & Hg & Hhb' & Hr)]];
    [done | done | lia | lia | lia | done | | | ]; rewrite Hr; clear Hr.
  - bool_to_prop. lia.
  - pose proof (res_ok_fail p src p st src CodeHeaderBlockTooLarge ltac:(by exists []) ltac:(done) ltac:(by right) ltac:(done) (frame_ok_keep p Hok)) as Hf.
    destruct Hf as (Hf1 & Hf2 & Hf3 & Hf4 & Hf5). unfold resFail in *. cbn in *.
    assert (is_none (code (fail p CodeHeaderBlockTooLarge)) = false) as Hnn.
    { unfold fail. destruct (is_none (code p)) eqn:Ep; done. }
    rewrite Hnn. cbn. unfold res_ok. cbn. rewrite Hnn. done.
  - cbn [resCode is_none negb resDone resParser resHost resRest]. rewrite Hc. cbn [is_payloadContent].
    set (n := Z.min (contentN p) (len src)) in *.
    set (q := p <| code := d |> <| headerBlockBytes := hb |> <| payloadN := _ |> <| contentN := _ |>).
    assert (frame_ok q) as Hokq.
    { frame_upd p Hok.
      apply block_payload_shape; [done|]. unfold block_shape, content_at. cbn. rewrite Hc. split; [done|]. lia. }
    assert (res_ok p src (skipPadding (endContent q) st' (drop (Z.to_nat n) src))) as Hfin.
    { apply (res_ok_trans p q src (drop (Z.to_nat n) src)); [apply drop_pre | by repeat split | exact Hg | |].
      - cbn. rewrite len_drop by lia. lia.
      - apply endContent_ok; [done..|]. right. cbn.
        destruct (Z.le_gt_cases (contentN p) (len src)); [left; split; [done|lia] | right; apply drop_all_Z; lia]. }
    destruct (Z.eqb_spec n (contentN p)) as [Hfull|Hpart]; cbn [negb].
    + assert (q <| contentN := 0 |> <| state := payloadPadding |> = endContent q) as ->.
      { unfold endContent. cbn. rewrite Hc, Hfull, Z.sub_diag. cbn. subst q. by rewrite Hfull, Z.sub_diag. }
      change (res_ok p src (skipPadding (endContent (endContent q)) st' (drop (Z.to_nat n) src))).
      by rewrite endContent_idem.
    + apply res_ok_intro; [apply drop_pre | by repeat split | exact Hg | exact Hokq | | |].
      * cbn. rewrite len_drop by lia. lia.
      * cbn. symmetry. apply Z.eqb_neq. lia.
      * intros _. apply drop_all_Z. lia.
Qed.

(** The parser after [n] bytes of prefix. *)
Definition prefixTaken (p : Parser) (x : list Z) (n : Z) : Parser :=
  p <| prefix := x |> <| prefixN := p.(prefixN) + n |> <| payloadN := p.(payloadN) + n |>.

Section Prefix.
Context (p : Parser) (src : list Z) (need : Z).
Context (Hok : frame_ok p) (Hb : block_type p.(current).(Type_)) (Hneed : need = prefix_need p.(current).(Type_)).
Context (Hst : p.(state) = payloadPrefix) (Hpre : prefix_at p need) (Hdata : p.(current).(Type_) <> FrameData).

Let n := prefixTake p need src.

Lemma prefixTake_range : 0 <= n <= len src /\ n <= need - p.(prefixN).
Proof. unfold n, prefixTake. destruct Hpre as (_ & ? & _). pose proof (len_nonneg src). lia. Qed.

(** More prefix is needed. *)
Lemma prefix_more_ok x st :
  length x = 8%nat -> p.(prefixN) + n < need ->
  res_ok p src (resMore (St := St) (prefixTaken p x n) st (drop (Z.to_nat n) src)).
Proof.
  intros Hx Hlt. pose proof prefixTake_range. pose proof Hok as (_ & (HN & _ & _ & Hhb) & _).
  destruct Hpre as (Hpn & Hp1 & Hp2 & Hp3).
  apply res_ok_intro; [apply drop_pre | by repeat split | by right | | | |].
  - frame_upd p Hok. apply block_payload_shape; [done|]. split; [done|]. unfold block_shape. cbn.
    rewrite Hst, <- Hneed. unfold prefix_at. cbn. lia.
  - cbn. rewrite len_drop by lia. lia.
  - cbn. symmetry. apply Z.eqb_neq. lia.
  - intros _. apply drop_all_Z. unfold n, prefixTake in *. lia.
Qed.

(** The prefix is complete: the content starts. *)
Lemma prefix_done_ok x d st :
  length x = 8%nat -> need <= p.(prefixN) + n -> (p.(code) = CodeNone \/ d = p.(code)) ->
  res_ok p src (parseHeaderContentAndPadding cb (startContent (prefixTaken p x n <| code := d |>)) st
                  (drop (Z.to_nat n) src)).
Proof.
  intros Hx Hge Hg. pose proof prefixTake_range. pose proof Hok as (_ & (HN & HL & _ & Hhb) & _).
  destruct Hpre as (Hpn & Hp1 & Hp2 & Hp3).
  assert (frame_ok (startContent (prefixTaken p x n <| code := d |>))) as Hok'.
  { frame_upd p Hok. apply block_payload_shape; [done|]. split; [done|]. unfold block_shape, content_at. cbn.
    rewrite (u32_small (Length (current p) - _)), u32_small by (widths; lia). lia. }
  apply (res_ok_trans p (startContent (prefixTaken p x n <| code := d |>)) src (drop (Z.to_nat n) src));
    [apply drop_pre | by repeat split | exact Hg | |].
  - cbn. rewrite len_drop by lia. lia.
  - by apply parseHeaderContentAndPadding_ok.
Qed.

Lemma prefix_fail_ok x st c :
  length x = 8%nat -> c <> CodeNone ->
  res_ok p src (resFail (St := St) (prefixTaken p x n) st (drop (Z.to_nat n) src) c).
Proof.
  intros Hx Hc. apply res_ok_fail; [apply drop_pre | by repeat split | by right | done |].
  split; [done | exact (proj2 (frame_ok_keep p Hok))].
Qed.

Lemma prefix_copy :
  need <= 8 -> exists x, length x = 8%nat /\ copyPrefix p src = (prefixTaken p x n, drop (Z.to_nat n) src).
Proof.
  intros H8. destruct Hpre as (Hpn & Hp1 & Hp2 & Hp3).
  destruct (copyPrefix_eq p src) as (x & Hx & E); [apply Hok | lia | lia |].
  rewrite Hpn in E. exists x. split; [done|exact E].
Qed.
End Prefix.

Lemma headersPrefix_ok p st src :
  frame_ok p -> p.(current).(Type_) = FrameHeaders -> p.(state) = payloadPrefix ->
  res_ok p src (headersPrefix cb p st src).
Proof.
  intros Hok Ht Hst. assert (block_type (Type_ (current p))) as Hb by (right; by left).
  pose proof Hok as (_ & _ & _ & Hs). apply block_payload_shape in Hs as [_ Hs]; [|done].
  unfold block_shape in Hs. rewrite Hst, Ht in Hs. change (prefix_need FrameHeaders) with 5 in Hs.
  assert (5 = prefix_need (Type_ (current p))) as Hneed by (by rewrite Ht).
  assert (Type_ (current p) <> FrameData) as Hd by (by rewrite Ht).
  destruct (prefix_copy p src 5 Hok Hs) as (x & Hx & E); [lia|].
  unfold headersPrefix. rewrite E. change (prefixN (prefixTaken p x ?n)) with (prefixN p + n).
  change (prefixNeed (prefixTaken p x _)) with (prefixNeed p). replace (prefixNeed p) with 5 by (symmetry; apply Hs).
  destruct (Z.ltb_spec (prefixN p + prefixTake p 5 src) 5); [by apply prefix_more_ok|].
  destruct (_ =? _); [by apply prefix_fail_ok|].
  destruct (frame_invoke_spec cbPriority (fun f => f (StreamID (current (prefixTaken p x (prefixTake p 5 src))))
    (decodePriority (take 5 (prefix (prefixTaken p x (prefixTake p 5 src)))))) (prefixTaken p x (prefixTake p 5 src)) st)
    as (d & Hd' & Hg).
  destruct (invoke cb cbPriority _ _ st) as [q st'] eqn:Eq. cbn in Hd'. subst q. by apply prefix_done_ok.
Qed.

Lemma promisePrefix_ok p st src :
  frame_ok p -> p.(current).(Type_) = FramePushPromise -> p.(state) = payloadPrefix ->
  res_ok p src (promisePrefix cb p st src).
Proof.
  intros Hok Ht Hst. assert (block_type (Type_ (current p))) as Hb by (right; by right).
  pose proof Hok as (_ & _ & _ & Hs). apply block_payload_shape in Hs as [_ Hs]; [|done].
  unfold block_shape in Hs. rewrite Hst, Ht in Hs. change (prefix_need FramePushPromise) with 4 in Hs.
  assert (4 = prefix_need (Type_ (current p))) as Hneed by (by rewrite Ht).
  assert (Type_ (current p) <> FrameData) as Hd by (by rewrite Ht).
  destruct (prefix_copy p src 4 Hok Hs) as (x & Hx & E); [lia|].
  unfold promisePrefix. rewrite E. change (prefixN (prefixTaken p x ?n)) with (prefixN p + n).
  change (prefixNeed (prefixTaken p x _)) with (prefixNeed p). replace (prefixNeed p) with 4 by (symmetry; apply Hs).
  destruct (Z.ltb_spec (prefixN p + prefixTake p 4 src) 4); [by apply prefix_more_ok|].
  destruct (_ =? 0); [by apply prefix_fail_ok|].
  match goal with |- context [invoke cb cbPushPromise ?f ?q st] =>
    destruct (frame_invoke_spec cbPushPromise f q st) as (d & Hd' & Hg); destruct (invoke cb cbPushPromise f q st) as [q' st'] end.
  cbn in Hd'. subst q'. by apply prefix_done_ok.
Qed.

Lemma validate_headers h :
  validateFrameHeader h = CodeNone -> h.(Type_) = FrameHeaders ->
  (if Has h.(Flags) FlagPadded then 1 else 0) + (if Has h.(Flags) FlagPriority then 5 else 0) <= h.(Length).
Proof.
  unfold validateFrameHeader. intros Hv Ht. rewrite Ht in Hv. cbn in Hv.
  destruct (_ || _)%bool; [done|]. destruct (Has (Flags h) FlagPadded), (Has (Flags h) FlagPriority);
    match goal with H : (if ?x <? ?y then _ else _) = _ |- _ => destruct (Z.ltb_spec x y) end; done || lia.
Qed.

Lemma validate_promise h :
  validateFrameHeader h = CodeNone -> h.(Type_) = FramePushPromise ->
  (if Has h.(Flags) FlagPadded then 1 else 0) + 4 <= h.(Length).
Proof.
  unfold validateFrameHeader. intros Hv Ht. rewrite Ht in Hv. cbn in Hv.
  destruct (_ || _)%bool; [done|]. destruct (Has (Flags h) FlagPadded);
    match goal with H : (if ?x <? ?y then _ else _) = _ |- _ => destruct (Z.ltb_spec x y) end; done || lia.
Qed.

(** The start of a HEADERS or PUSH_PROMISE payload, after [k] octets (the pad
    length) with [pad] octets of padding to come. *)
Definition started (p : Parser) (pad k : Z) : Parser := p <| padLength := pad |> <| payloadN := k |>.

Lemma started_prefix_ok p pad k need :
  frame_ok p -> block_type p.(current).(Type_) -> p.(current).(Type_) <> FrameData ->
  need = prefix_need p.(current).(Type_) -> p.(prefixN) = 0 -> 0 <= pad -> 0 <= k -> 0 < need ->
  k + need + pad <= p.(current).(Length) ->
  frame_ok (started p pad k <| prefixNeed := need |> <| state := payloadPrefix |>).
Proof.
  intros Hok Hb Hd Hneed Hpn Hpad Hk Hn Hsum. pose proof Hok as (_ & (HN & HL & Hpl & Hhb) & _).
  frame_upd p Hok. apply block_payload_shape; [done|]. split; [done|]. unfold block_shape. cbn.
  rewrite <- Hneed. unfold prefix_at. cbn. lia.
Qed.

Lemma started_content_ok p pad k :
  frame_ok p -> block_type p.(current).(Type_) -> 0 <= pad -> 0 <= k -> k + pad <= p.(current).(Length) ->
  frame_ok (startContent (started p pad k)).
Proof.
  intros Hok Hb Hpad Hk Hsum. pose proof Hok as (_ & (HN & HL & Hpl & Hhb) & _).
  frame_upd p Hok. apply block_payload_shape; [done|]. unfold block_shape, content_at. cbn.
  rewrite (u32_small (Length (current p) - _)), u32_small by (widths; lia). split; [done|]. lia.
Qed.

Lemma started_zero p : p.(padLength) = 0 -> p.(payloadN) = 0 -> started p 0 0 = p.
Proof.
  intros H1 H2. transitivity (p <| padLength := p.(padLength) |> <| payloadN := p.(payloadN) |>); [|done].
  by rewrite H1, H2.
Qed.

Section BlockStart.
Context (p : Parser) (st : St) (src : list Z).
Context (Hok : frame_ok p) (Hbytes : bytes src) (Hsrc : src <> []).

Lemma parseHeaders_ok :
  p.(current).(Type_) = FrameHeaders -> res_ok p src (parseHeaders cb p st src).
Proof.
  intros Ht. assert (block_type (Type_ (current p))) as Hb by (right; by left).
  pose proof Hok as (_ & (HN & HL & Hpl & Hhb) & Hv & Hs). apply block_payload_shape in Hs as [_ Hs]; [|done].
  assert (forall q x, frame_ok q -> current q = current p -> state q <> payloadStart ->
            res_ok q x (afterHeadersStart cb q st x)) as Hafter.
  { intros q x Hq Hc Hsq. unfold afterHeadersStart.
    destruct (is_payloadPrefix (state q)) eqn:E;
      [apply headersPrefix_ok; [done | by rewrite Hc | by destruct (state q)]
      | apply parseHeaderContentAndPadding_ok; [done | by rewrite Hc | done | by destruct (state q)]]. }
  unfold parseHeaders. destruct (is_payloadStart (state p)) eqn:Est; [|apply Hafter; [done..|by destruct (state p)]].
  assert (state p = payloadStart) as Hst by (by destruct (state p)). unfold block_shape in Hs. rewrite Hst in Hs.
  destruct Hs as (HN0 & Hpn & Hpad). pose proof (validate_headers _ Hv Ht) as Hmin.
  set (enter := fun q : Parser => if Has q.(current).(Flags) FlagPriority
    then q <| prefixNeed := 5 |> <| state := payloadPrefix |> else startContent q).
  assert (forall pad k x, 0 <= pad -> 0 <= k ->
    k + (if Has (Flags (current p)) FlagPriority then 5 else 0) + pad <= Length (current p) ->
    (exists pre, src = pre ++ x) -> k = len src - len x ->
    res_ok p src (afterHeadersStart cb (enter (started p pad k)) st x)) as Henter.
  { intros pad k x H1 H2 H3 Hsuf Hk. unfold enter. change (current (started p pad k)) with (current p).
    destruct (Has (Flags (current p)) FlagPriority).
    - apply (res_ok_trans p (started p pad k <| prefixNeed := 5 |> <| state := payloadPrefix |>) src x);
        [done | by repeat split | by right | cbn; lia |].
      apply Hafter; [|done|done]. apply started_prefix_ok; first [done | lia | by rewrite Ht].
    - apply (res_ok_trans p (startContent (started p pad k)) src x);
        [done | by repeat split | by right | cbn; lia |].
      apply Hafter; [|done|done]. apply started_content_ok; try done. lia. }
  destruct (Has (Flags (current p)) FlagPadded) eqn:Hpd; rewrite ?Hpd in Hmin.
  - destruct src as [|b x] eqn:Esrc; [done|]. apply Forall_cons_1 in Hbytes as [Hb0 _].
    rewrite takePadLength_eq by done. fold (started p b 1). cbn zeta.
    change (current (started p b 1)) with (current p). change (payloadN (started p b 1)) with 1.
    change (padLength (started p b 1)) with b.
    set (m := if Has (Flags (current p)) FlagPriority then 5 else 0) in *.
    assert (0 <= m) by (unfold m; by destruct (Has (Flags (current p)) FlagPriority)).
    rewrite (u32_small (Length (current p) - 1)), u32_small by (widths; lia).
    destruct (Z.ltb_spec (Length (current p) - 1 - m) b).
    + apply res_ok_fail; [by exists [b] | by repeat split | by right | done | exact (frame_ok_keep p Hok)].
    + unfold in_u8 in Hb0. apply (Henter b 1 x); [lia | lia | lia | by exists [b] | rewrite len_cons; lia].
  - pose proof (Henter 0 0 src) as H0. rewrite (started_zero p) in H0 by done.
    apply H0; [lia | lia | lia | by exists [] | lia].
Qed.

Lemma parsePushPromise_ok :
  p.(current).(Type_) = FramePushPromise -> res_ok p src (parsePushPromise cb p st src).
Proof.
  intros Ht. assert (block_type (Type_ (current p))) as Hb by (right; by right).
  pose proof Hok as (_ & (HN & HL & Hpl & Hhb) & Hv & Hs). apply block_payload_shape in Hs as [_ Hs]; [|done].
  assert (forall q x, frame_ok q -> current q = current p -> state q <> payloadStart ->
            res_ok q x (afterPromiseStart cb q st x)) as Hafter.
  { intros q x Hq Hc Hsq. unfold afterPromiseStart.
    destruct (is_payloadPrefix (state q)) eqn:E;
      [apply promisePrefix_ok; [done | by rewrite Hc | by destruct (state q)]
      | apply parseHeaderContentAndPadding_ok; [done | by rewrite Hc | done | by destruct (state q)]]. }
  unfold parsePushPromise. destruct (is_payloadStart (state p)) eqn:Est; [|apply Hafter; [done..|by destruct (state p)]].
  assert (state p = payloadStart) as Hst by (by destruct (state p)). unfold block_shape in Hs. rewrite Hst in Hs.
  destruct Hs as (HN0 & Hpn & Hpad). pose proof (validate_promise _ Hv Ht) as Hmin.
  assert (forall pad k x, 0 <= pad -> 0 <= k -> k + 4 + pad <= Length (current p) ->
    (exists pre, src = pre ++ x) -> k = len src - len x ->
    res_ok p src (afterPromiseStart cb (started p pad k <| prefixNeed := 4 |> <| state := payloadPrefix |>) st x)) as Henter.
  { intros pad k x H1 H2 H3 Hsuf Hk.
    apply (res_ok_trans p (started p pad k <| prefixNeed := 4 |> <| state := payloadPrefix |>) src x);
      [done | by repeat split | by right | cbn; lia |].
    apply Hafter; [|done|done]. apply started_prefix_ok; first [done | lia | by rewrite Ht]. }
  destruct (Has (Flags (current p)) FlagPadded) eqn:Hpd; rewrite ?Hpd in Hmin.
  - destruct src as [|b x] eqn:Esrc; [done|]. apply Forall_cons_1 in Hbytes as [Hb0 _].
    rewrite takePadLength_eq by done. fold (started p b 1). cbn zeta.
    change (current (started p b 1)) with (current p). change (payloadN (started p b 1)) with 1.
    change (padLength (started p b 1)) with b.
    rewrite (u32_small (Length (current p) - 1)), u32_small by (widths; lia).
    destruct (Z.ltb_spec (Length (current p) - 1 - 4) b).
    + apply res_ok_fail; [by exists [b] | by repeat split | by right | done | exact (frame_ok_keep p Hok)].
    + unfold in_u8 in Hb0. apply (Henter b 1 x); [lia | lia | lia | by exists [b] | rewrite len_cons; lia].
  - pose proof (Henter 0 0 src) as H0. rewrite (started_zero p) in H0 by done.
    apply H0; [lia | lia | lia | by exists [] | lia].
Qed.
End BlockStart.

(** Frames that are only a prefix. *)
Lemma parseFixed_ok p st src need :
  frame_ok p -> p.(prefixN) = p.(payloadN) -> p.(current).(Length) = need -> 0 < need <= 8 ->
  p.(payloadN) < need -> (forall q, q.(current) = p.(current) -> q.(prefixN) = q.(payloadN) -> payload_shape q) ->
  res_ok p src (parseFixed (St := St) p st src need).
Proof.
  intros Hok Hpn HL Hneed HN Hshape. pose proof Hok as (_ & (HN' & HL' & Hpl & Hhb) & _).
  unfold parseFixed. set (q := p <| prefixNeed := need |>).
  destruct (copyPrefix_eq q src) as (x & Hx & E); [apply Hok | cbn; lia | cbn; lia |]. rewrite E.
  change (prefixNeed q) with need in *. set (n := prefixTake q need src).
  assert (0 <= n <= len src /\ n <= need - prefixN p /\ (n < need - prefixN p -> n = len src)) as (H1 & H2 & H3).
  { unfold n, prefixTake. change (prefixN q) with (prefixN p). pose proof (len_nonneg src). lia. }
  apply res_ok_intro; [apply drop_pre | by repeat split | by right | | | done |].
  - frame_upd p Hok. apply Hshape; [done|]. cbn. lia.
  - cbn. rewrite len_drop by lia. lia.
  - cbn. intros. apply drop_all_Z. lia.
Qed.

Lemma validate_settings h :
  validateFrameHeader h = CodeNone -> h.(Type_) = FrameSettings -> h.(Length) mod 6 = 0.
Proof.
  unfold validateFrameHeader. intros Hv Ht. rewrite Ht in Hv. cbn in Hv.
  destruct (negb (StreamID h =? 0)); [done|]. destruct (Has (Flags h) FlagACK).
  - destruct (Z.eqb_spec (Length h) 0) as [->|]; done.
  - destruct (Z.eqb_spec (Length h mod 6) 0); done.
Qed.

(** The loop over the parameters of a SETTINGS frame. *)
Lemma settingsLoop_ok fuel p st src :
  frame_ok p -> p.(current).(Type_) = FrameSettings -> p.(prefixNeed) = 6 -> (length src <= fuel)%nat ->
  res_ok p src (settingsLoop cb fuel p st src).
Proof.
  revert p st src. induction fuel as [|fuel IH]; intros p st src Hok Ht Hneed Hfuel;
    pose proof Hok as (_ & (HN & HL & Hpl & Hhb) & Hv & Hs).
  { destruct src; [|cbn in Hfuel; lia]. apply res_ok_intro; try done; [by exists [] | by right | lia]. }
  cbn [settingsLoop].
  destruct (negb (len src =? 0) && (payloadN p <? Length (current p))) eqn:Hgo.
  2: { apply res_ok_intro; try done; [by exists [] | by right | lia |]. intros Hlt.
       apply andb_false_iff in Hgo as [Hgo|Hgo]; bool_to_prop; [by apply len_zero | lia]. }
  pose proof (validate_settings _ Hv Ht) as HLmod.
  unfold payload_shape in Hs. rewrite Ht in Hs. cbn in Hs. destruct Hs as [Hp6 Hmod].
  bool_to_prop. pose proof (len_nonneg src).
  destruct (copyPrefix_eq p src) as (x & Hx & E); [apply Hok | lia | lia |]. rewrite E, Hneed. clear E.
  set (n := prefixTake p 6 src).
  assert (0 < n <= len src /\ n <= 6 - prefixN p /\ (n < 6 - prefixN p -> n = len src)) as (Hr1 & Hr2 & Hr3).
  { unfold n, prefixTake. lia. }
  assert (payloadN p + n <= Length (current p)) as Hfit.
  { pose proof (Z.div_mod (payloadN p) 6 ltac:(lia)). pose proof (Z.div_mod (Length (current p)) 6 ltac:(lia)). nia. }
  set (q := p <| prefix := x |> <| prefixN := prefixN p + n |> <| payloadN := payloadN p + n |>).
  change (prefixN q) with (prefixN p + n).
  destruct (Z.ltb_spec (prefixN p + n) 6) as [Hlt|Hge].
  - apply res_ok_intro; [apply drop_pre | by repeat split | by right | | | done |].
    + frame_upd p Hok. unfold payload_shape. cbn. rewrite Ht. cbn. split; [lia|].
      rewrite <- Z.add_mod_idemp_l, Hmod by lia. apply Z.mod_small. lia.
    + cbn. rewrite len_drop by lia. lia.
    + intros _. apply drop_all_Z. lia.
  - assert (n = 6 - prefixN p) as Hn by lia. cbn zeta.
    destruct (negb (validSetting _)).
    { apply res_ok_fail; [apply drop_pre | by repeat split | by right | done |].
      split; [done | exact (proj2 (frame_ok_keep p Hok))]. }
    match goal with |- context [invoke cb cbSetting ?f ?q st] =>
      destruct (frame_invoke_spec cbSetting f q st) as (d & Hd & Hg); destruct (invoke cb cbSetting f q st) as [q' st'] end.
    cbn [fst] in Hd. subst q'.
    apply (res_ok_trans p (q <| code := d |> <| prefixN := 0 |>) src (drop (Z.to_nat n) src));
      [apply drop_pre | by repeat split | exact Hg | cbn; rewrite len_drop by lia; lia |].
    apply IH; [| done | done | rewrite length_drop; unfold len in *; lia].
    frame_upd p Hok. unfold payload_shape. cbn. rewrite Ht. cbn. split; [lia|].
    rewrite Hn. replace (payloadN p + (6 - prefixN p)) with (payloadN p - prefixN p + 1 * 6) by lia.
    rewrite Z.mod_add by lia. rewrite <- Hmod, Zminus_mod_idemp_r, Z.sub_diag. done.
Qed.

Lemma goAwayDebug_ok p st src :
  frame_ok p -> p.(current).(Type_) = FrameGoAway -> p.(prefixN) = 8 -> 8 <= p.(payloadN) ->
  res_ok p src (goAwayDebug cb p st src).
Proof.
  intros Hok Ht Hpn HN8. pose proof Hok as (_ & (HN & HL & Hpl & Hhb) & _). unfold goAwayDebug.
  pose proof (len_nonneg src).
  destruct ((payloadN p <? Length (current p)) && negb (len src =? 0)) eqn:Hgo.
  2: { apply res_ok_intro; try done; [by exists [] | by right | lia |]. intros Hlt.
       apply andb_false_iff in Hgo as [Hgo|Hgo]; bool_to_prop; [lia | by apply len_zero]. }
  rewrite minInt_eq, (u32_small (_ - _)) by (widths; lia).
  set (n := Z.min _ _). bool_to_prop. assert (0 < n <= len src /\ n <= Length (current p) - payloadN p) as [Hr1 Hr2] by lia.
  match goal with |- context [invoke cb cbGoAwayDebug ?f ?q st] =>
    destruct (frame_invoke_spec cbGoAwayDebug f q st) as (d & Hd & Hg); destruct (invoke cb cbGoAwayDebug f q st) as [q' st'] end.
  cbn [fst] in Hd. subst q'. change (payloadN (p <| code := d |>)) with (payloadN p).
  rewrite u32_small by (widths; lia).
  apply res_ok_intro; [apply drop_pre | by repeat split | exact Hg | | | done |].
  - frame_upd p Hok. unfold payload_shape. cbn. rewrite Ht. cbn. lia.
  - cbn. rewrite len_drop by lia. lia.
  - cbn. intros. apply drop_all_Z. lia.
Qed.

Lemma validate_goaway h :
  validateFrameHeader h = CodeNone -> h.(Type_) = FrameGoAway -> 8 <= h.(Length).
Proof.
  unfold validateFrameHeader. intros Hv Ht. rewrite Ht in Hv. cbn in Hv.
  destruct (negb (StreamID h =? 0)); [done|]. destruct (Z.ltb_spec (Length h) 8); [done|lia].
Qed.

Lemma parseGoAway_ok p st src :
  frame_ok p -> p.(current).(Type_) = FrameGoAway -> res_ok p src (parseGoAway cb p st src).
Proof.
  intros Hok Ht. pose proof Hok as (_ & (HN & HL & Hpl & Hhb) & Hv & Hs).
  unfold payload_shape in Hs. rewrite Ht in Hs. cbn in Hs. pose proof (validate_goaway _ Hv Ht).
  unfold parseGoAway. destruct (Z.ltb_spec (payloadN p) 8); [|by apply goAwayDebug_ok; [done|done|lia|lia]].
  set (q := p <| prefixNeed := 8 |>).
  destruct (copyPrefix_eq q src) as (x & Hx & E); [apply Hok | cbn; lia | cbn; lia |]. rewrite E. clear E.
  change (prefixNeed q) with 8. change (prefixN q) with (prefixN p). change (payloadN q) with (payloadN p).
  set (n := prefixTake q 8 src).
  assert (0 <= n <= len src /\ n <= 8 - prefixN p /\ (n < 8 - prefixN p -> n = len src)) as (Hr1 & Hr2 & Hr3).
  { unfold n, prefixTake. change (prefixN q) with (prefixN p). pose proof (len_nonneg src). lia. }
  set (r := q <| prefix := x |> <| prefixN := prefixN p + n |> <| payloadN := payloadN p + n |>).
  assert (frame_ok r) as Hokr.
  { frame_upd p Hok. unfold payload_shape. cbn. rewrite Ht. cbn. lia. }
  change (prefixN r) with (prefixN p + n). destruct (Z.ltb_spec (prefixN p + n) 8).
  - apply res_ok_intro; [apply drop_pre | by repeat split | by right | done | | |].
    + cbn. rewrite len_drop by lia. lia.
    + cbn. symmetry. apply Z.eqb_neq. lia.
    + intros _. apply drop_all_Z. lia.
  - apply (res_ok_trans p r src (drop (Z.to_nat n) src));
      [apply drop_pre | by repeat split | by right | cbn; rewrite len_drop by lia; lia |].
    apply goAwayDebug_ok; [done | done | cbn; lia | cbn; lia].
Qed.

Lemma parseUnknown_ok p st src :
  frame_ok p -> (forall q, q.(current) = p.(current) -> q.(state) = p.(state) -> payload_shape q) ->
  res_ok p src (parseUnknown cb p st src).
Proof.
  intros Hok Hshape. pose proof Hok as (_ & (HN & HL & Hpl & Hhb) & _). unfold parseUnknown.
  pose proof (len_nonneg src). rewrite (u32_small (_ - _)) by (widths; lia).
  set (n := if len src <? _ then _ else _).
  assert (n = Z.min (Length (current p) - payloadN p) (len src)) as Hn
    by (unfold n; destruct (Z.ltb_spec (len src) (Length (current p) - payloadN p)); lia).
  match goal with |- context [invoke cb cbUnknown ?f ?q st] =>
    destruct (frame_invoke_spec cbUnknown f q st) as (d & Hd & Hg); destruct (invoke cb cbUnknown f q st) as [q' st'] end.
  cbn [fst] in Hd. subst q'. change (payloadN (p <| code := d |>)) with (payloadN p).
  rewrite u32_small by (widths; lia).
  apply res_ok_intro; [apply drop_pre | by repeat split | exact Hg | | | done |].
  - frame_upd p Hok. by apply Hshape.
  - cbn. rewrite len_drop by lia. lia.
  - cbn. intros. apply drop_all_Z. lia.
Qed.

Lemma validate_fixed h :
  validateFrameHeader h = CodeNone ->
  (h.(Type_) = FramePriority -> h.(Length) = 5) /\ (h.(Type_) = FrameRSTStream -> h.(Length) = 4) /\
  (h.(Type_) = FramePing -> h.(Length) = 8) /\ (h.(Type_) = FrameWindowUpdate -> h.(Length) = 4).
Proof.
  unfold validateFrameHeader. intros Hv. split_and!; intros Ht; rewrite Ht in Hv; cbn in Hv;
    try (match type of Hv with (if ?c then CodeInvalidStreamID else _) = _ => destruct c end; [done|]);
    match type of Hv with (if negb (?x =? ?y) then _ else _) = _ => destruct (Z.eqb_spec x y) end; done.
Qed.

Lemma continuation_ok p st src :
  frame_ok p -> p.(current).(Type_) = FrameContinuation ->
  res_ok p src (parseHeaderFragment cb p st src (u32 (p.(current).(Length) - p.(payloadN)))).
Proof.
  intros Hok Ht. pose proof Hok as (Hl & (HN & HL & Hpl & Hhb) & Hv & Hs).
  unfold payload_shape in Hs. rewrite Ht in Hs. cbn in Hs. pose proof (len_nonneg src).
  rewrite u32_small by (widths; lia).
  destruct (parseHeaderFragment_cases p st src (Length (current p) - payloadN p))
    as [[Hn Hr] | [[Hn Hr] | (Hn & d & st' & hb & Hg & Hhb' & Hr)]];
    [done | done | lia | lia | lia | by rewrite Hs | ..]; rewrite Hr; clear Hr.
  - apply res_ok_intro; [by exists [] | done | by right | done | lia | |].
    + destruct (Z.eqb_spec (Length (current p) - payloadN p) 0), (Z.eqb_spec (payloadN p) (Length (current p))); lia || done.
    + intros. apply len_zero. lia.
  - apply res_ok_fail; [by exists [] | done | by right | done | exact (frame_ok_keep p Hok)].
  - rewrite Hs. cbn [is_payloadContent]. set (n := Z.min _ _) in *.
    apply res_ok_intro; [apply drop_pre | by repeat split | exact Hg | | | |].
    + frame_upd p Hok. unfold payload_shape. cbn. by rewrite Ht.
    + cbn. rewrite len_drop by lia. lia.
    + cbn. destruct (Z.eqb_spec n (Length (current p) - payloadN p)), (Z.eqb_spec (payloadN p + n) (Length (current p))); lia || done.
    + cbn. intros. apply drop_all_Z. lia.
Qed.

Lemma fixed_shape p t :
  t = FramePriority \/ t = FrameRSTStream \/ t = FramePing \/ t = FrameWindowUpdate ->
  p.(current).(Type_) = t -> payload_shape p <-> p.(prefixN) = p.(payloadN).
Proof. intros Ht E. unfold payload_shape. rewrite E. by destruct Ht as [-> | [-> | [-> | ->]]]. Qed.

(** Any payload parser, on any input of an unfinished frame. *)
Lemma parsePayloadSwitch_ok p st src :
  frame_ok p -> bytes src -> src <> [] -> p.(payloadN) < p.(current).(Length) ->
  res_ok p src (parsePayloadSwitch cb p st src).
Proof.
  intros Hok Hb Hsrc HN. pose proof Hok as (_ & _ & Hv & Hs). unfold parsePayloadSwitch.
  destruct (validate_fixed _ Hv) as (H5 & H4 & H8 & H4').
  destruct (Z.eqb_spec (Type_ (current p)) FrameData) as [Ht|N0]; [by apply parseData_ok|].
  destruct (Z.eqb_spec (Type_ (current p)) FrameHeaders) as [Ht|N1]; [by apply parseHeaders_ok|].
  destruct (Z.eqb_spec (Type_ (current p)) FramePriority) as [Ht|N2].
  { apply parseFixed_ok; [done | by apply (fixed_shape p FramePriority); auto | by apply H5 | lia | rewrite (H5 Ht) in HN; lia |].
    intros q Hc Hq. apply (fixed_shape q FramePriority); [auto | by rewrite Hc | done]. }
  destruct (Z.eqb_spec (Type_ (current p)) FrameRSTStream) as [Ht|N3].
  { apply parseFixed_ok; [done | by apply (fixed_shape p FrameRSTStream); auto | by apply H4 | lia | rewrite (H4 Ht) in HN; lia |].
    intros q Hc Hq. apply (fixed_shape q FrameRSTStream); [auto | by rewrite Hc | done]. }
  destruct (Z.eqb_spec (Type_ (current p)) FrameSettings) as [Ht|N4].
  { apply (res_ok_trans p (p <| prefixNeed := 6 |>) src src); [by exists [] | by repeat split | by right | cbn; lia |].
    apply settingsLoop_ok; [|done | done | lia]. frame_upd p Hok. unfold payload_shape. cbn.
    unfold payload_shape in Hs. rewrite Ht in *. exact Hs. }
  destruct (Z.eqb_spec (Type_ (current p)) FramePushPromise) as [Ht|N5]; [by apply parsePushPromise_ok|].
  destruct (Z.eqb_spec (Type_ (current p)) FramePing) as [Ht|N6].
  { apply parseFixed_ok; [done | by apply (fixed_shape p FramePing); auto | by apply H8 | lia | rewrite (H8 Ht) in HN; lia |].
    intros q Hc Hq. apply (fixed_shape q FramePing); [auto | by rewrite Hc | done]. }
  destruct (Z.eqb_spec (Type_ (current p)) FrameGoAway) as [Ht|N7]; [by apply parseGoAway_ok|].
  destruct (Z.eqb_spec (Type_ (current p)) FrameWindowUpdate) as [Ht|N8].
  { apply parseFixed_ok; [done | by apply (fixed_shape p FrameWindowUpdate); auto | by apply H4' | lia | rewrite (H4' Ht) in HN; lia |].
    intros q Hc Hq. apply (fixed_shape q FrameWindowUpdate); [auto | by rewrite Hc | done]. }
  destruct (Z.eqb_spec (Type_ (current p)) FrameContinuation) as [Ht|N9]; [by apply continuation_ok|].
  apply parseUnknown_ok; [done|]. intros q Hc Hq. unfold payload_shape in *. rewrite Hc, Hq.
  repeat match goal with |- context [?x =? ?y] => destruct (Z.eqb_spec x y); [done|] end. cbn. exact Hs.
Qed.

(** The payload loop stops after one turn of the switch: the frame is done,
    has failed or has used up the input. *)
Lemma parsePayload_ok p st src :
  frame_ok p -> bytes src -> p.(payloadN) < p.(current).(Length) ->
  exists r, parsePayload cb p st src = Some r /\ res_ok p src r.
Proof.
  intros Hok Hb HN. unfold parsePayload. destruct src as [|b src].
  { eexists. split; [done|]. apply res_ok_intro; try done; [by exists [] | by right | lia]. }
  pose proof (parsePayloadSwitch_ok p st (b :: src) Hok Hb ltac:(done) HN) as Hr.
  cbn [length payloadLoop]. rewrite (proj2 (Z.ltb_lt _ _) HN).
  replace (len (b :: src) =? 0) with false
    by (symmetry; apply Z.eqb_neq; rewrite len_cons; pose proof (len_nonneg src); lia). cbn [negb andb].
  set (r := parsePayloadSwitch cb p st (b :: src)) in *. pose proof Hr as (_ & _ & _ & _ & Hr').
  destruct (is_none (resCode r)) eqn:Hc; cbn [negb orb]; [|by exists r].
  destruct Hr' as (Hokr & HNr & Hdone & Hrest). destruct (resDone r) eqn:Hd; [by exists r|].
  assert (payloadN (resParser r) < Length (current (resParser r))) as Hlt.
  { symmetry in Hdone. apply Z.eqb_neq in Hdone. destruct Hokr as (_ & (? & _) & _). lia. }
  exists (resPayload (resParser r) (resHost r) []). rewrite (Hrest Hlt). split; [by destruct (length src)|].
  pose proof (Hrest Hlt) as Hnil. destruct Hr as (Hsuf & Hsame & Hgrow & _ & _). rewrite Hnil in *.
  by apply res_ok_intro.
Qed.

(** ** Frames *)

(** Between two turns of the loop: in a frame header, or in a payload that is
    not finished. *)
Definition frame_base (p : Parser) : Prop :=
  frame_limits_ok p.(limits) /\ length p.(header) = 9%nat /\ bytes p.(header) /\ length p.(prefix) = 8%nat /\
  0 <= p.(headerN) <= 9 /\ 0 <= p.(headerBlockBytes) <= p.(limits).(MaxHeaderBlockBytes) /\
  0 <= p.(continuationStream) <= streamMask.

Definition count_ok (p : Parser) : Prop :=
  p.(code) = CodeNone -> 0 <= p.(continuationCount) <= p.(limits).(MaxContinuationFrames).

Definition frame_wf (p : Parser) : Prop :=
  frame_base p /\ count_ok p /\
  (p.(code) = CodeNone -> p.(headerN) = 9 ->
   frame_ok p /\ p.(payloadN) < p.(current).(Length) /\ 0 <= p.(current).(StreamID) <= streamMask).

(** The configuration a run never changes; a frame boundary may pause it. *)
Definition frame_config (p q : Parser) : Prop :=
  q.(limits) = p.(limits) /\ q.(parsing) = p.(parsing) /\ q.(pauseAfterFrame) = p.(pauseAfterFrame) /\
  (q.(paused) = p.(paused) \/ q.(paused) = p.(pauseAfterFrame)).

#[export] Instance frame_config_refl : Reflexive frame_config.
Proof. intros p. split_and!; auto. Qed.
#[export] Instance frame_config_trans : Transitive frame_config.
Proof.
  intros p q r (?&?&Hp&Hq) (?&?&Hp'&Hr). split_and!; try by etrans.
  rewrite Hp in Hr. destruct Hr as [->|]; [exact Hq|by right].
Qed.

Lemma same_frame_config p q : same_frame p q -> frame_config p q.
Proof. intros (?&?&?&?&?&?&?&_). split_and!; auto. Qed.

Lemma streamMask_range x : 0 <= Z.land x streamMask <= streamMask.
Proof.
  change streamMask with (Z.ones 31). rewrite Z.land_ones by lia.
  pose proof (Z.mod_pos_bound x (2 ^ 31) ltac:(lia)). change (Z.ones 31) with (2 ^ 31 - 1). lia.
Qed.

Lemma str_at_byte s i : bytes s -> 0 <= i < len s -> 0 <= str_at s i <= 255.
Proof.
  intros Hs Hi. unfold str_at, bytes, in_u8, MaxUint8 in *. rewrite Forall_forall in Hs. apply Hs.
  apply nth_In. unfold len in *. lia.
Qed.

Lemma decodeFrameHeader_length h :
  bytes h -> length h = 9%nat -> 0 <= (decodeFrameHeader h).(Length) <= maxFrameSize.
Proof.
  intros Hb Hl. cbn. assert (len h = 9) as Hlen by (unfold len; lia).
  pose proof (str_at_byte h 0 Hb ltac:(lia)). pose proof (str_at_byte h 1 Hb ltac:(lia)).
  pose proof (str_at_byte h 2 Hb ltac:(lia)).
  replace (Z.lor (Z.shiftl (str_at h 0) 16) (Z.shiftl (str_at h 1) 8))
    with (Z.shiftl (str_at h 0 * 256 + str_at h 1) 8).
  - rewrite lor_shiftl_add by lia. rewrite maxFrameSize_eq. lia.
  - change 16 with (8 + 8) at 1. rewrite <- Z.shiftl_shiftl, <- Z.shiftl_lor by lia. f_equal.
    rewrite lor_shiftl_add by lia. lia.
Qed.

(** The parser at the first byte of a payload. *)
Definition opened (p : Parser) : Parser :=
  p <| current := decodeFrameHeader p.(header) |> <| payloadN := 0 |> <| state := payloadStart |>
    <| prefixN := 0 |> <| prefixNeed := 0 |> <| padLength := 0 |> <| contentN := 0 |>.

Lemma payload_shape_start p :
  p.(state) = payloadStart -> p.(payloadN) = 0 -> p.(prefixN) = 0 -> p.(padLength) = 0 -> payload_shape p.
Proof.
  intros Hs HN Hp Hpad. unfold payload_shape, block_shape. rewrite Hs, HN, Hp, Hpad.
  repeat match goal with |- context [if ?c then _ else _] => destruct c end; split_and?; done || lia.
Qed.

(** The frames that may follow. *)
Definition in_sequence (p : Parser) : Prop :=
  (p.(continuationStream) <> 0 -> p.(current).(Type_) = FrameContinuation /\
     p.(current).(StreamID) = p.(continuationStream)) /\
  (p.(continuationStream) = 0 -> p.(current).(Type_) <> FrameContinuation).

Lemma checkContinuation_ok p q err :
  checkContinuation p = (q, err) ->
  err <> Some CodeNone /\ (err = None -> in_sequence p) /\
  exists n, q = p <| continuationCount := n |> /\
    (err = None -> 0 <= p.(continuationCount) <= p.(limits).(MaxContinuationFrames) ->
     0 <= n <= p.(limits).(MaxContinuationFrames)).
Proof.
  unfold checkContinuation, in_sequence.
  destruct (Z.eqb_spec (continuationStream p) 0) as [H0|H0]; cbn [negb].
  - destruct (Z.eqb_spec (Type_ (current p)) FrameContinuation) as [Ht|Ht]; intros [= <- <-];
      (split_and!; [done|done|by exists (continuationCount p)]).
  - destruct (Z.eqb_spec (Type_ (current p)) FrameContinuation) as [Ht|Ht],
      (Z.eqb_spec (StreamID (current p)) (continuationStream p)) as [Hi|Hi]; cbn [negb orb];
      try (intros [= <- <-]; split_and!; [done|done|by exists (continuationCount p)]).
    cbv zeta. set (n := u32 (continuationCount p + 1)).
    change (continuationCount (p <| continuationCount := n |>)) with n.
    change (limits (p <| continuationCount := n |>)) with (limits p).
    destruct (Z.ltb_spec (MaxContinuationFrames (limits p)) n); intros [= <- <-];
      (split_and!; [done|done|]); exists n; split; try done.
    intros _ _. split; [apply u32_range | done].
Qed.

Lemma checkSequence_ok p q err :
  checkSequence p = (q, err) ->
  err <> Some CodeNone /\
  (err = None -> p.(current).(Length) <= p.(limits).(MaxFrameSize) /\
     validateFrameHeader p.(current) = CodeNone /\ in_sequence p) /\
  exists n e, q = p <| continuationCount := n |> <| headerBlockEndStream := e |> /\
    (err = None -> 0 <= p.(continuationCount) <= p.(limits).(MaxContinuationFrames) ->
     0 <= n <= p.(limits).(MaxContinuationFrames)).
Proof.
  unfold checkSequence.
  destruct (Z.ltb_spec (MaxFrameSize (limits p)) (Length (current p))).
  { intros [= <- <-]. split_and!; [done|done|]. by exists (continuationCount p), (headerBlockEndStream p). }
  destruct (checkContinuation p) as [r e] eqn:E.
  destruct (checkContinuation_ok p r e E) as (Hne & Hseq & n & -> & Hn).
  destruct e as [c|].
  { intros [= <- <-]. split_and!; [done|done|]. exists n, (headerBlockEndStream p). split; [done|]. by intros. }
  intros [= <- <-]. split_and!; [by destruct (validateFrameHeader (current p)) | |].
  - intros Hv. split_and!; [done | by destruct (validateFrameHeader (current p)) | by apply Hseq].
  - destruct (_ && _)%bool; [exists n, (Has (Flags (current p)) FlagEndStream) | exists n, (headerBlockEndStream p)];
      (split; [done|]); intros _; by apply Hn.
Qed.

Lemma frame_config_code p q d : frame_config p q -> frame_config p (q <| code := d |>).
Proof. done. Qed.

Lemma beginFrame_ok p st q st' c :
  frame_base p -> count_ok p -> p.(headerN) = 9 -> p.(code) = CodeNone -> beginFrame cb p st = ((q, st'), c) ->
  frame_config p q /\ c = q.(code) /\ q.(headerN) = 9 /\ frame_base q /\ count_ok q /\
  (q.(code) = CodeNone -> frame_ok q /\ q.(payloadN) = 0 /\ 0 <= q.(current).(StreamID) <= streamMask).
Proof.
  intros Hbase Hcc HhN Hn. unfold beginFrame. fold (opened p).
  destruct (checkSequence (opened p)) as [r err] eqn:E.
  destruct (checkSequence_ok _ _ _ E) as (Hne & Hok & n & e & -> & Hcount).
  set (r := opened p <| continuationCount := n |> <| headerBlockEndStream := e |>).
  assert (frame_config p r) as Hconf by (split_and!; by auto).
  destruct err as [c'|].
  - assert (fail r c' = r <| code := c' |>) as Hf by (unfold fail; change (code r) with (code p); by rewrite Hn).
    fold r. cbv zeta. rewrite Hf. intros [= <- <- <-].
    assert (code (r <| code := c' |>) <> CodeNone) as Hnn by (cbn; congruence).
    repeat (apply conj; [first [exact Hconf | exact Hbase | done]|]). done.
  - fold r. destruct (frame_invoke_spec cbFrameBegin (fun f => f (current r)) r st) as (d & Hd & Hg).
    destruct (invoke cb cbFrameBegin _ r st) as [s st1]. cbn in Hd. subst s. intros [= <- <- <-].
    destruct (Hok eq_refl) as (HL & Hv & _). pose proof Hbase as (Hl & Hh & Hhb & Hp & HhN' & Hbb & Hcs).
    pose proof (decodeFrameHeader_length _ Hhb Hh) as HLr.
    split; [exact Hconf|]. split; [done|]. split; [exact HhN|]. split; [exact Hbase|].
    split; [intros _; by apply Hcount, Hcc|]. intros _. split; [|split; [done|exact (streamMask_range _)]]. split; [done|]. split; [|split].
    + split_and!; first [exact (proj1 HLr) | exact (proj2 HLr) | exact Hp | exact (proj1 Hbb) | exact (proj2 Hbb) | done].
    + exact Hv.
    + by apply payload_shape_start.
Qed.

(** The callback of a frame's end may only change the code. *)
Lemma finishPayload_ok p st :
  match finishPayload cb p st with
  | inl (q, st') => exists d, q = p <| code := d |> /\ (p.(code) = CodeNone \/ d = p.(code))
  | inr c => c <> CodeNone
  end.
Proof.
  assert (exists d, p = p <| code := d |> /\ (p.(code) = CodeNone \/ d = p.(code))) by (exists (code p); auto).
  unfold finishPayload. cbv zeta.
  repeat match goal with |- context [if ?c then _ else _] => destruct c end; try done;
    match goal with |- context [invoke cb ?F ?f p st] =>
      pose proof (frame_invoke_spec F f p st); by destruct (invoke cb F f p st) end.
Qed.

Lemma finishHeaderBlock_ok p st q st' :
  frame_base p -> count_ok p -> 0 <= p.(current).(StreamID) <= streamMask -> finishHeaderBlock cb p st = (q, st') ->
  frame_base q /\ count_ok q /\ frame_config p q /\ q.(headerN) = p.(headerN).
Proof.
  intros Hb Hc Hid. assert (0 < MaxContinuationFrames (limits p)) as Hmax by apply Hb.
  assert (frame_config p p) as Hrefl by reflexivity.
  unfold finishHeaderBlock. destruct (isHeaderBlockFrame _); [|by intros [= <- <-]].
  destruct (Has _ _).
  - match goal with |- context [invoke cb ?F ?f p st] =>
      pose proof (frame_invoke_spec F f p st) as (d & Hd & Hg); destruct (invoke cb F f p st) as [r st1] end.
    cbn in Hd. subst r. intros [= <- <-]. destruct Hb as (Hl & Hh & Hhb & Hp & Hn & _ & _).
    split; [|split; [intros _; cbn; lia | split; [by split_and!; auto | done]]].
    pose proof Hl as (_ & ? & _). split_and!; try done; cbn; lia.
  - destruct (_ =? 0); intros [= <- <-]; [|done].
    destruct Hb as (Hl & Hh & Hhb & Hp & Hn & Hbb & _).
    split; [|split; [intros _; cbn; lia | split; [by split_and!; auto | done]]].
    by repeat (apply conj; [done|]).
Qed.

Lemma finishFrame_ok p st q st' c :
  frame_base p -> count_ok p -> p.(code) = CodeNone -> 0 <= p.(current).(StreamID) <= streamMask ->
  finishFrame cb p st = ((q, st'), c) ->
  frame_base q /\ count_ok q /\ frame_config p q /\ c = q.(code) /\
  (q.(code) = CodeNone -> q.(headerN) = 0 /\ q.(paused) = p.(pauseAfterFrame)).
Proof.
  intros Hb Hc Hn Hid. unfold finishFrame. cbv zeta. pose proof (finishPayload_ok p st) as Hfp.
  destruct (finishPayload cb p st) as [[r st1]|err].
  - destruct Hfp as (d & -> & _).
    assert (count_ok (p <| code := d |>)) as Hc' by (intros _; by apply Hc).
    set (r := p <| code := d |>) in *.
    destruct (finishHeaderBlock cb r st1) as [s st2] eqn:E.
    destruct (finishHeaderBlock_ok r st1 s st2 Hb Hc' Hid E) as (Hbs & Hcs & Hconf & _).
    pose proof (frame_invoke_spec cbFrameComplete (fun f => f (current p)) s st2) as (d' & Hd & Hg).
    destruct (invoke cb cbFrameComplete _ s st2) as [t st3]. cbn in Hd. subst t.
    assert (frame_config p s) as Hconf' by exact Hconf. pose proof Hconf' as (_ & _ & Hpa & _).
    change (code (s <| code := d' |>)) with d'. destruct (frame_is_none_spec d') as [->|Hd']; cbn [negb].
    + intros [= <- <- <-]. split_and!; try done.
      * destruct Hbs as (?&?&?&?&_&?&?). split_and!; try done; cbn; lia.
      * intros _. destruct Hg as [Hs|Hs]; [by apply Hcs | by apply Hcs].
      * destruct Hconf' as (?&?&?&_). split_and!; try done. right. exact Hpa.
    + intros [= <- <- <-]. split_and!; try done.
  - intros [= <- <- <-]. destruct (frame_fail_spec p err) as (d & Hd & _).
    assert (d <> CodeNone) as Hdn.
    { assert (code (fail p err) = d) as <- by (by rewrite Hd). unfold fail. rewrite Hn. done. }
    rewrite Hd. split; [exact Hb|]. split; [by intros ?|]. split; [by split_and!; auto|]. by split.
Qed.

(** ** Turns of the loop *)

Definition frame_result_ok (o : FOutcome (St := St)) : Prop :=
  (o.(outCode) = CodeNone /\ o.(outParser).(code) = CodeNone /\
   (o.(outRest) = [] \/ o.(outParser).(paused) = true)) \/
  (o.(outCode) <> CodeNone /\ o.(outCode) = o.(outParser).(code)).

Definition frame_outcome_ok (p : Parser) (src : list Z) (o : FOutcome (St := St)) : Prop :=
  frame_wf o.(outParser) /\ frame_config p o.(outParser) /\ (exists pre, src = pre ++ o.(outRest)) /\
  frame_result_ok o.

Definition turn_ok (p : Parser) (src : list Z) (t : (Parser * St * list Z) + FOutcome (St := St)) : Prop :=
  match t with
  | inl (q, _, rest) =>
      frame_wf q /\ q.(code) = CodeNone /\ q.(headerN) = 0 /\ q.(paused) = p.(pauseAfterFrame) /\
      frame_config p q /\ (exists pre, src = pre ++ rest) /\ len rest < len src
  | inr o => frame_outcome_ok p src o
  end.

Lemma failed_outcome_ok p src q st rest :
  frame_base q -> frame_config p q -> (exists pre, src = pre ++ rest) -> q.(code) <> CodeNone ->
  turn_ok p src (inr (mkFOutcome q st rest q.(code))).
Proof.
  intros Hb Hc Hs Hn. split; [|split; [done | split; [done|]]].
  - split; [done|]. split; [by intros ?|by intros ?].
  - right. done.
Qed.

(** The end of a frame at a boundary of the input. *)
Lemma finish_turn_ok p q st src rest :
  frame_base q -> count_ok q -> q.(code) = CodeNone -> 0 <= q.(current).(StreamID) <= streamMask ->
  frame_config p q -> (exists pre, src = pre ++ rest) -> len rest < len src ->
  turn_ok p src (let '((p, st), c) := finishFrame cb q st in
                 if negb (is_none c) then inr (mkFOutcome p st rest c) else inl (p, st, rest)).
Proof.
  intros Hb Hc Hn Hid Hconf Hsuf Hlen. destruct (finishFrame cb q st) as [[r st'] c] eqn:E.
  destruct (finishFrame_ok _ _ _ _ _ Hb Hc Hn Hid E) as (Hbr & Hcr & Hconfr & -> & Hdone).
  assert (frame_config p r) by (by etrans).
  destruct (frame_is_none_spec (code r)) as [Hnr|Hnr]; cbn [negb]; [|by apply failed_outcome_ok].
  destruct (Hdone Hnr) as [HhN Hpr]. pose proof Hconf as (_ & _ & Hpa & _).
  split; [|split; [done | split; [done | split; [by rewrite Hpr, Hpa | done]]]].
  split; [done | split; [done|]]. intros _ H9. lia.
Qed.

Lemma same_frame_base p q : same_frame p q -> frame_base p -> keep_ok q -> frame_base q.
Proof.
  intros (Hl & _ & Hh & HhN & _ & _ & _ & Hcs & _) (?&?&?&?&?&?&?) (Hpl & Hhb).
  unfold frame_base. rewrite Hl, Hh, HhN, Hcs in *. done.
Qed.

Lemma payloadTurn_ok p st src :
  frame_base p -> count_ok p -> p.(code) = CodeNone -> frame_ok p -> p.(payloadN) < p.(current).(Length) ->
  0 <= p.(current).(StreamID) <= streamMask -> p.(headerN) = 9 -> bytes src ->
  exists t, payloadTurn cb p st src = Some t /\ turn_ok p src t.
Proof.
  intros Hb Hc Hn Hok HN Hid H9 Hbytes. unfold payloadTurn.
  destruct (parsePayload_ok p st src Hok Hbytes HN) as (r & -> & Hsuf & Hsame & Hgrow & Hkeep & Hr).
  eexists. split; [done|]. cbv zeta. pose proof (same_frame_config _ _ Hsame) as Hconf.
  pose proof (same_frame_base _ _ Hsame Hb Hkeep) as Hbr.
  destruct (frame_is_none_spec (resCode r)) as [Hrc|Hrc]; cbn [negb].
  2: { rewrite Hr in *. by apply failed_outcome_ok. }
  destruct (frame_is_none_spec (code (resParser r))) as [Hnr|Hnr]; cbn [negb]; [|by apply failed_outcome_ok].
  destruct Hr as (Hokr & HNr & Hdone & Hrest). pose proof Hsame as (Hl & Hcur & _ & HhN & _ & _ & _ & _ & Hcc & _).
  assert (count_ok (resParser r)) as Hcr by (intros _; rewrite Hcc, Hl; by apply Hc).
  destruct (resDone r) eqn:Hd; cbn [negb].
  - apply finish_turn_ok; try done; [by rewrite Hcur|]. symmetry in Hdone. apply Z.eqb_eq in Hdone.
    rewrite Hcur in Hdone. lia.
  - symmetry in Hdone. apply Z.eqb_neq in Hdone.
    assert (payloadN (resParser r) < Length (current (resParser r))) as Hlt by (destruct Hokr as (_ & (? & _) & _); lia).
    split; [|split; [done | split; [done|]]].
    + split; [done | split; [done|]]. intros _ _. cbn. split; [done | split; [done | by rewrite Hcur]].
    + left. rewrite (Hrest Hlt). auto.
Qed.

Lemma turn_ok_trans p q src rest t :
  frame_config p q -> (exists pre, src = pre ++ rest) -> turn_ok q rest t -> turn_ok p src t.
Proof.
  intros Hconf [pre ->]. pose proof Hconf as (_ & _ & Hpa & _). destruct t as [[[r st] x]|o]; cbn.
  - intros (? & ? & ? & Hp & ? & [y ->] & ?). split; [done | split; [done | split; [done | split; [by rewrite Hp, Hpa | split; [by etrans|split]]]]].
    + exists (pre ++ y). by rewrite <- app_assoc.
    + rewrite !len_app in *. pose proof (len_nonneg pre). lia.
  - intros (? & ? & [y Hy] & ?). split; [done | split; [by etrans | split; [|done]]].
    exists (pre ++ y). by rewrite Hy, <- app_assoc.
Qed.

Lemma copyAt_bytes dst k src : bytes dst -> bytes src -> bytes (fst (copyAt dst k src)).
Proof.
  intros Hd Hs. unfold copyAt, bytes. cbn. rewrite !Forall_app. split_and!;
    first [by apply Forall_take | by apply Forall_drop].
Qed.

Lemma bytes_drop n s : bytes s -> bytes (drop n s).
Proof. apply Forall_drop. Qed.

Lemma frameTurn_ok p st src :
  frame_wf p -> p.(code) = CodeNone -> bytes src -> src <> [] ->
  exists t, frameTurn cb p st src = Some t /\ turn_ok p src t.
Proof.
  intros (Hb & Hc & Hin) Hn Hbytes Hsrc. pose proof Hb as (Hl & Hh & Hhb & Hp & HhN & Hbb & Hcs). unfold frameTurn.
  destruct (Z.ltb_spec (headerN p) 9) as [Hlt|Hge].
  2: { assert (headerN p = 9) as H9 by lia. destruct (Hin Hn H9) as (Hok & HN & Hid). by apply payloadTurn_ok. }
  unfold copyAt. cbv zeta.
  set (n := Z.of_nat (Nat.min (length (header p) - Z.to_nat (headerN p)) (length src))).
  assert (0 < n <= 9 - headerN p /\ n <= len src) as [Hn1 Hn2].
  { unfold n, len. rewrite Hh. destruct src; [done|]. cbn [length]. lia. }
  set (h := take _ (header p) ++ _). rewrite u8_small by (widths; lia).
  assert (length h = 9%nat /\ bytes h) as [Hlh Hbh].
  { pose proof (length_copyAt (header p) (headerN p) src) as H1. pose proof (copyAt_bytes (header p) (headerN p) src Hhb Hbytes) as H2.
    split; [etrans; [apply H1; unfold len; lia | done] | exact H2]. }
  set (q := p <| header := h |> <| headerN := headerN p + n |>). set (rest := drop (Z.to_nat n) src).
  assert (frame_base q) as Hbq by (repeat (apply conj; [done|]); split_and!; [cbn; lia.. | apply Hbb | apply Hbb | apply Hcs | apply Hcs]).
  assert (exists pre, src = pre ++ rest) as Hsuf by apply drop_pre.
  assert (len rest < len src) as Hlen by (unfold rest; rewrite len_drop; lia).
  change (headerN q) with (headerN p + n). destruct (Z.ltb_spec (headerN p + n) 9) as [Hlt'|Hge'].
  { eexists. split; [done|]. split; [|split; [by split_and!; auto | split; [done|]]].
    - split; [done | split; [done|]]. intros _ H9. cbn in H9. lia.
    - left. split_and!; [done..|]. left. cbn. unfold rest. apply drop_all_Z. unfold n in *. unfold len. lia. }
  destruct (beginFrame cb q st) as [[r st'] c] eqn:E.
  destruct (beginFrame_ok q st r st' c Hbq Hc ltac:(cbn; lia) Hn E) as (Hconf & -> & H9 & Hbr & Hcr & Hopen).
  assert (frame_config p r) as Hconf' by exact Hconf.
  destruct (frame_is_none_spec (code r)) as [Hnr|Hnr]; cbn [negb].
  2: { eexists. split; [done|]. by apply failed_outcome_ok. }
  destruct (Hopen Hnr) as (Hok & HN0 & Hid).
  destruct (Z.eqb_spec (Length (current r)) 0) as [HL0|HL0].
  { pose proof (finish_turn_ok p r st' src rest Hbr Hcr Hnr Hid Hconf' Hsuf Hlen) as Ht.
    destruct (finishFrame cb r st') as [[u st2] c2]. eexists. split; [done|exact Ht]. }
  assert (0 <= Length (current r)) by (destruct Hok as (_ & (? & _) & _); lia).
  destruct (payloadTurn_ok r st' rest Hbr Hcr Hnr Hok ltac:(lia) Hid H9 (bytes_drop _ _ Hbytes)) as (t & -> & Ht).
  exists t. split; [done|]. by eapply turn_ok_trans.
Qed.

(** With one turn per byte the loop returns. *)
Lemma frameLoop_ok fuel p st src :
  frame_wf p -> p.(code) = CodeNone -> bytes src -> (length src <= fuel)%nat ->
  exists o, frameLoop cb fuel p st src = Some o /\ frame_outcome_ok p src o.
Proof.
  revert p st src. induction fuel as [|fuel IH]; intros p st src Hw Hn Hb Hfuel.
  { destruct src; [|cbn in Hfuel; lia]. eexists. split; [done|]. split_and!; [apply Hw.. | done | by exists [] |].
    left. auto. }
  cbn [frameLoop]. destruct src as [|b src].
  { eexists. split; [done|]. split_and!; [apply Hw.. | done | by exists [] |]. left. auto. }
  destruct (paused p) eqn:Hp.
  { eexists. split; [done|]. split_and!; [apply Hw.. | done | by exists [] |]. left. auto. }
  destruct (frameTurn_ok p st (b :: src) Hw Hn Hb ltac:(done)) as (t & -> & Ht).
  destruct t as [[[q st'] rest]|o]; [|by exists o].
  destruct Ht as (Hwq & Hnq & _ & _ & Hconf & [pre Hsuf] & Hlen).
  destruct (IH q st' rest) as (o & Ho & Hwo & Hco & [pre' Hso] & Hres); [done | done | | |].
  - rewrite Hsuf in Hb. by apply Forall_app in Hb as [_ Hb].
  - unfold len in Hlen. cbn [length] in *. lia.
  - exists o. split; [done|]. split; [done | split; [by etrans | split; [|done]]].
    exists (pre ++ pre'). rewrite Hsuf, Hso. by rewrite <- app_assoc.
Qed.

Definition frame_started (p : Parser) (pause : bool) : Parser :=
  p <| parsing := true |> <| pauseAfterFrame := pause |> <| paused := false |>.

(** A run of an idle parser returns; the parser stays well formed. *)
Lemma frame_runParse_ok p st src pause :
  frame_wf p -> p.(parsing) = false -> bytes src ->
  exists o, runParse cb p st src pause = Some o /\
    frame_wf o.(outParser) /\ o.(outParser).(parsing) = false /\ o.(outParser).(limits) = p.(limits) /\
    (exists pre, src = pre ++ o.(outRest)) /\ frame_result_ok o /\
    (p.(code) = CodeNone -> o.(outParser).(paused) = true -> pause = true).
Proof.
  intros Hw Hp Hb. unfold runParse. rewrite Hp.
  destruct (frame_is_none_spec (code p)) as [Hn|Hn]; cbn [negb].
  2: { eexists. split; [done|]. split; [done|]. split_and!; try done; [by exists []|by right]. }
  cbv zeta. fold (frame_started p pause).
  destruct (frameLoop_ok (length src) (frame_started p pause) st src Hw Hn Hb ltac:(lia))
    as (o & -> & Hwo & (Hl & _ & Hpa & Hps) & Hsuf & Hres).
  eexists. split; [done|]. split; [exact Hwo|]. split_and!; try done.
  intros _ Hpd. change (paused (outParser o) = true) in Hpd. destruct Hps as [Hps|Hps]; by rewrite Hps in Hpd.
Qed.
End Host.
