(* ===== verification/H2FrameSpec.v ===== *)
(** * HTTP/2 frames: what a frame means, and that the parser delivers it

    The reference decoder below works on a whole frame at a time and knows
    nothing of fragments, cursors or prefixes: [decodeBody] reads a payload
    into the fields of its frame type, [bodyEvents] lists what the host is
    told, and [specFrame] puts the sequencing of header blocks around them.
    The theorems refine the incremental parser to it, and the encoder
    [AppendFrame] to its inverse. *)

From S2P Require Import Prelude H2Frame H2FrameWf.

(** ** The trace host *)

Inductive FrameEvent :=
  | EvFrameBegin (h : FrameHeader)
  | EvData (stream : Z) (content : list Z) (endStream : bool)
  | EvHeaderBlock (stream : Z) (fragment : list Z)
  | EvHeaderBlockEnd (stream : Z) (endStream : bool)
  | EvPriority (stream : Z) (priority : PriorityParam)
  | EvRSTStream (stream code : Z)
  | EvSetting (setting : Setting)
  | EvSettingsEnd (ack : bool)
  | EvPushPromise (stream promised : Z)
  | EvPing (data : list Z) (ack : bool)
  | EvGoAway (lastStream code : Z)
  | EvGoAwayDebug (fragment : list Z)
  | EvWindowUpdate (stream increment : Z)
  | EvUnknown (h : FrameHeader) (fragment : list Z)
  | EvFrameComplete (h : FrameHeader).

(** A host that sets every callback, logs the calls and never calls back. *)
Definition tracer : Callbacks (list FrameEvent) :=
  let log (e : FrameEvent) : Reaction (list FrameEvent) := fun st => (st ++ [e], false) in
  {| cbFrameBegin := Some (fun h => log (EvFrameBegin h));
     cbData := Some (fun id s fin => log (EvData id s fin));
     cbHeaderBlock := Some (fun id s => log (EvHeaderBlock id s));
     cbHeaderBlockEnd := Some (fun id fin => log (EvHeaderBlockEnd id fin));
     cbPriority := Some (fun id pr => log (EvPriority id pr));
     cbRSTStream := Some (fun id c => log (EvRSTStream id c));
     cbSetting := Some (fun s => log (EvSetting s));
     cbSettingsEnd := Some (fun ack => log (EvSettingsEnd ack));
     cbPushPromise := Some (fun id promised => log (EvPushPromise id promised));
     cbPing := Some (fun data ack => log (EvPing data ack));
     cbGoAway := Some (fun last c => log (EvGoAway last c));
     cbGoAwayDebug := Some (fun s => log (EvGoAwayDebug s));
     cbWindowUpdate := Some (fun id inc => log (EvWindowUpdate id inc));
     cbUnknown := Some (fun h s => log (EvUnknown h s));
     cbFrameComplete := Some (fun h => log (EvFrameComplete h)) |}.

(** ** The reference decoder *)

(** The fields of a frame's payload. *)
Inductive FrameBody :=
  | BData (content : list Z)
  | BHeaders (priority : option PriorityParam) (fragment : list Z)
  | BPriority (priority : PriorityParam)
  | BRSTStream (code : Z)
  | BSettings (settings : list Setting)
  | BPushPromise (promised : Z) (fragment : list Z)
  | BPing (data : list Z)
  | BGoAway (lastStream code : Z) (debug : list Z)
  | BWindowUpdate (increment : Z)
  | BContinuation (fragment : list Z)
  | BUnknown (payload : list Z).

(** The payload between the pad length octet and the padding; [minimum] of its
    bytes are no padding. *)
Definition unpad (h : FrameHeader) (minimum : Z) (payload : list Z) : option (list Z) :=
  if Has h.(Flags) FlagPadded then
    match payload with
    | [] => None
    | pad :: body =>
        if len body - minimum <? pad then None else Some (take (Z.to_nat (len body - pad)) body)
    end
  else Some payload.

Fixpoint decodeSettings (payload : list Z) : list Setting :=
  match payload with
  | a :: b :: c :: d :: e :: f :: rest =>
      mkSetting (Uint16At [a; b] 0) (Uint32At [c; d; e; f] 0) :: decodeSettings rest
  | _ => []
  end.

(** [None] is a pad length that does not leave room for the rest. *)
Definition decodeBody (h : FrameHeader) (payload : list Z) : option FrameBody :=
  let t := h.(Type_) in
  if t =? FrameData then BData <$> unpad h 0 payload
  else if t =? FrameHeaders then
    if Has h.(Flags) FlagPriority then
      body ← unpad h 5 payload; Some (BHeaders (Some (decodePriority (take 5 body))) (drop 5 body))
    else BHeaders None <$> unpad h 0 payload
  else if t =? FramePriority then Some (BPriority (decodePriority payload))
  else if t =? FrameRSTStream then Some (BRSTStream (Uint32At payload 0))
  else if t =? FrameSettings then Some (BSettings (decodeSettings payload))
  else if t =? FramePushPromise then
    body ← unpad h 4 payload; Some (BPushPromise (Z.land (Uint32At body 0) streamMask) (drop 4 body))
  else if t =? FramePing then Some (BPing payload)
  else if t =? FrameGoAway then
    Some (BGoAway (Z.land (Uint32At payload 0) streamMask) (Uint32At payload 4) (drop 8 payload))
  else if t =? FrameWindowUpdate then Some (BWindowUpdate (Z.land (Uint32At payload 0) streamMask))
  else if t =? FrameContinuation then Some (BContinuation payload)
  else Some (BUnknown payload).

(** What the host is told of a span: nothing of an empty one. *)
Definition told {A} (f : list Z -> A) (s : list Z) : list A := match s with [] => [] | _ => [f s] end.

(** A header block fragment within the room its block has left. *)
Definition fragmentEvents (room : Z) (id : Z) (fragment : list Z) : list FrameEvent * Code :=
  if room <? len fragment then ([], CodeHeaderBlockTooLarge)
  else (told (EvHeaderBlock id) fragment, CodeNone).

Fixpoint settingsEvents (settings : list Setting) : list FrameEvent * Code :=
  match settings with
  | [] => ([], CodeNone)
  | s :: rest =>
      if validSetting s then let (evs, c) := settingsEvents rest in (EvSetting s :: evs, c)
      else ([], CodeInvalidSetting)
  end.

Definition before (evs : list FrameEvent) (r : list FrameEvent * Code) : list FrameEvent * Code :=
  (evs ++ r.1, r.2).

Definition after (r : list FrameEvent * Code) (evs : list FrameEvent) : list FrameEvent * Code :=
  match r.2 with CodeNone => (r.1 ++ evs, CodeNone) | _ => r end.

(** The events of a payload, and the error that ends them. *)
Definition bodyEvents (room : Z) (h : FrameHeader) (body : FrameBody) : list FrameEvent * Code :=
  let id := h.(StreamID) in
  match body with
  | BData content => (told (fun s => EvData id s (Has h.(Flags) FlagEndStream)) content, CodeNone)
  | BHeaders None fragment => fragmentEvents room id fragment
  | BHeaders (Some pr) fragment =>
      if pr.(StreamDependency) =? id then ([], CodeInvalidPriority)
      else before [EvPriority id pr] (fragmentEvents room id fragment)
  | BPriority pr =>
      if pr.(StreamDependency) =? id then ([], CodeInvalidPriority) else ([EvPriority id pr], CodeNone)
  | BRSTStream c => ([EvRSTStream id c], CodeNone)
  | BSettings l => after (settingsEvents l) [EvSettingsEnd (Has h.(Flags) FlagACK)]
  | BPushPromise promised fragment =>
      if promised =? 0 then ([], CodeInvalidStreamID)
      else before [EvPushPromise id promised] (fragmentEvents room id fragment)
  | BPing data => ([EvPing data (Has h.(Flags) FlagACK)], CodeNone)
  | BGoAway last c debug => (told EvGoAwayDebug debug ++ [EvGoAway last c], CodeNone)
  | BWindowUpdate inc =>
      if inc =? 0 then ([], CodeInvalidWindowUpdate) else ([EvWindowUpdate id inc], CodeNone)
  | BContinuation fragment => fragmentEvents room id fragment
  | BUnknown payload => (told (EvUnknown h) payload, CodeNone)
  end.

Definition fragmentOf (body : FrameBody) : list Z :=
  match body with
  | BHeaders _ fragment | BPushPromise _ fragment | BContinuation fragment => fragment
  | _ => []
  end.

(** ** Header block sequences *)

(** The open header block, if any: its stream, the CONTINUATION frames and the
    bytes it has had, and whether its HEADERS ended the stream. *)
Record Sequence := mkSequence {
  seqStream : Z;
  seqCount : Z;
  seqBytes : Z;
  seqEndStream : bool;
}.

Definition noSequence : Sequence := mkSequence 0 0 0 false.

Definition specBegin (l : Limits) (s : Sequence) (h : FrameHeader) : Sequence + Code :=
  if l.(MaxFrameSize) <? h.(Length) then inr CodeFrameTooLarge
  else
    let continuation := h.(Type_) =? FrameContinuation in
    if negb (s.(seqStream) =? 0) then
      if negb (continuation && (h.(StreamID) =? s.(seqStream))) then inr CodeInvalidContinuation
      else if l.(MaxContinuationFrames) <? u32 (s.(seqCount) + 1) then inr CodeTooManyContinuations
      else
        match validateFrameHeader h with
        | CodeNone => inl (mkSequence s.(seqStream) (u32 (s.(seqCount) + 1)) s.(seqBytes) s.(seqEndStream))
        | c => inr c
        end
    else if continuation then inr CodeInvalidContinuation
    else
      match validateFrameHeader h with
      | CodeNone =>
          inl (mkSequence 0 s.(seqCount) s.(seqBytes)
                 (if h.(Type_) =? FrameHeaders then Has h.(Flags) FlagEndStream else s.(seqEndStream)))
      | c => inr c
      end.

(** The end of a frame whose payload held a header block fragment. *)
Definition specEnd (s : Sequence) (h : FrameHeader) (fragment : list Z) : Sequence * list FrameEvent :=
  let bytes := s.(seqBytes) + len fragment in
  if isHeaderBlockFrame h.(Type_) then
    if Has h.(Flags) FlagEndHeaders then (noSequence, [EvHeaderBlockEnd h.(StreamID) s.(seqEndStream)])
    else if s.(seqStream) =? 0 then (mkSequence h.(StreamID) 0 bytes s.(seqEndStream), [])
    else (mkSequence s.(seqStream) s.(seqCount) bytes s.(seqEndStream), [])
  else (s, []).

(** A whole frame: the sequence it leaves, what the host is told, and the
    error if it is one. *)
Definition specFrame (l : Limits) (s : Sequence) (h : FrameHeader) (payload : list Z)
  : option Sequence * list FrameEvent * Code :=
  match specBegin l s h with
  | inr c => (None, [], c)
  | inl s =>
      match decodeBody h payload with
      | None => (None, [EvFrameBegin h], CodeInvalidPadding)
      | Some body =>
          let (evs, c) := bodyEvents (l.(MaxHeaderBlockBytes) - s.(seqBytes)) h body in
          match c with
          | CodeNone =>
              let (s, fin) := specEnd s h (fragmentOf body) in
              (Some s, EvFrameBegin h :: evs ++ fin ++ [EvFrameComplete h], CodeNone)
          | _ => (None, EvFrameBegin h :: evs, c)
          end
      end
  end.

(** ** The payload parsers on a whole payload *)

(** A result with these events; on success the parser has no error and its
    header block has [hb] bytes. *)
Definition gives (st : list FrameEvent) (r : PRes (St := list FrameEvent)) (evs : list FrameEvent * Code) (hb : Z) : Prop :=
  r.(resHost) = st ++ evs.1 /\ r.(resCode) = evs.2 /\
  (evs.2 = CodeNone -> r.(resParser).(code) = CodeNone /\ r.(resParser).(headerBlockBytes) = hb).

Ltac run_callback :=
  unfold invoke, tracer;
  cbn [cbFrameBegin cbData cbHeaderBlock cbHeaderBlockEnd cbPriority cbRSTStream cbSetting cbSettingsEnd
       cbPushPromise cbPing cbGoAway cbGoAwayDebug cbWindowUpdate cbUnknown cbFrameComplete].

Lemma take_exact {A} n (x y : list A) : n = len x -> take (Z.to_nat n) (x ++ y) = x.
Proof. intros ->. unfold len. rewrite Nat2Z.id. apply take_app_length. Qed.

Lemma drop_exact {A} n (x y : list A) : n = len x -> drop (Z.to_nat n) (x ++ y) = y.
Proof. intros ->. unfold len. rewrite Nat2Z.id. apply drop_app_length. Qed.

Lemma app_len_0 {A} (x : list A) : len x = 0 <-> x = [].
Proof. split; [apply len_zero | by intros ->]. Qed.

Lemma told_cons {A} (f : list Z -> A) s : len s <> 0 -> told f s = [f s].
Proof. destruct s; [done|done]. Qed.

Lemma skipPadding_gives st0 p st src evs :
  p.(code) = CodeNone -> st = st0 ++ evs ->
  gives st0 (skipPadding p st src) (evs, CodeNone) p.(headerBlockBytes).
Proof. intros Hc ->. unfold skipPadding. destruct (_ && _); by split_and!. Qed.

(** Content of a DATA frame, present to its end. *)
Lemma dataContent_gives p st content rest :
  p.(state) = payloadContent -> p.(contentN) = len content -> len content <= maxFrameSize ->
  p.(code) = CodeNone ->
  gives st (dataContent (Some tracer) p st (content ++ rest))
    (told (fun s => EvData p.(current).(StreamID) s (Has p.(current).(Flags) FlagEndStream)) content, CodeNone)
    p.(headerBlockBytes).
Proof.
  intros Hs Hn Hmax Hc. rewrite maxFrameSize_eq in Hmax. unfold dataContent. rewrite Hs, Hn. cbn [is_payloadContent andb].
  destruct (Z.eqb_spec (len content) 0) as [H0|H0]; cbn [negb andb].
  { apply app_len_0 in H0 as Hcon. subst content. rewrite Hs, Hn, len_nil. cbn [is_payloadContent andb Z.eqb app].
    set (q := p <| state := payloadPadding |>).
    exact (skipPadding_gives st q st rest [] Hc (eq_sym (app_nil_r st))). }
  assert (negb (len (content ++ rest) =? 0) = true) as ->.
  { rewrite len_app. pose proof (len_nonneg content). pose proof (len_nonneg rest).
    apply negb_true_iff, Z.eqb_neq. lia. }
  rewrite minInt_eq, len_app, Z.min_l by (pose proof (len_nonneg rest); lia).
  run_callback. rewrite take_exact, drop_exact by done. cbn.
  rewrite told_cons by done. unfold is_payloadContent. rewrite Hs, Hn, Z.sub_diag, u32_small by (widths; lia). cbn.
  set (q := p <| contentN := 0 |> <| payloadN := u32 (payloadN p + len content) |> <| state := payloadPadding |>).
  exact (skipPadding_gives st q _ rest _ Hc eq_refl).
Qed.

(** The room a block has left. *)
Definition room (p : Parser) : Z := p.(limits).(MaxHeaderBlockBytes) - p.(headerBlockBytes).

(** A header block limit the byte counter cannot wrap around. *)
Definition block_limit_ok (p : Parser) : Prop :=
  0 <= p.(headerBlockBytes) <= p.(limits).(MaxHeaderBlockBytes) /\
  p.(limits).(MaxHeaderBlockBytes) <= MaxUint64 - maxFrameSize.

Lemma fragmentEvents_nil p id : block_limit_ok p -> fragmentEvents (room p) id [] = ([], CodeNone).
Proof.
  intros (? & _). unfold fragmentEvents, room. rewrite len_nil. by rewrite (proj2 (Z.ltb_ge _ _)) by lia.
Qed.

Lemma parseHeaderFragment_gives p st fragment rest n :
  n = len fragment -> 0 < len fragment <= maxFrameSize -> p.(code) = CodeNone -> block_limit_ok p ->
  let r := parseHeaderFragment (Some tracer) p st (fragment ++ rest) n in
  gives st r (fragmentEvents (room p) p.(current).(StreamID) fragment) (p.(headerBlockBytes) + len fragment) /\
  (r.(resCode) = CodeNone -> r.(resDone) = true).
Proof.
  intros -> Hlen Hc (Hb & Hmax). cbn zeta. unfold parseHeaderFragment, fragmentEvents, room.
  rewrite minInt_eq, len_app, Z.min_l by (pose proof (len_nonneg rest); lia).
  rewrite (proj2 (Z.eqb_neq _ _)) by lia. rewrite (u64_small (_ + _)) by (widths; lia).
  destruct (Z.ltb_spec (MaxHeaderBlockBytes (limits p)) (headerBlockBytes p + len fragment)) as [H|H].
  - rewrite (proj2 (Z.ltb_lt _ _)) by lia. unfold gives, resFail. cbn [resHost resCode resParser fst snd].
    rewrite app_nil_r. unfold fail. rewrite Hc. by split_and!.
  - rewrite (proj2 (Z.ltb_ge _ _)) by lia. run_callback. rewrite take_exact by done.
    rewrite told_cons by lia. rewrite (u32_small (len fragment)) by (widths; lia). cbn.
    split; [|by rewrite Z.eqb_refl]. rewrite u64_small by (widths; lia).
    by destruct (is_payloadContent (state p)).
Qed.

(** The block fragment of a HEADERS or PUSH_PROMISE frame, present to its end. *)
Lemma headerContent_gives p st fragment rest :
  p.(state) = payloadContent -> p.(contentN) = len fragment -> len fragment <= maxFrameSize ->
  p.(code) = CodeNone -> block_limit_ok p ->
  gives st (parseHeaderContentAndPadding (Some tracer) p st (fragment ++ rest))
    (fragmentEvents (room p) p.(current).(StreamID) fragment) (p.(headerBlockBytes) + len fragment).
Proof.
  intros Hs Hn Hmax Hc Hb. unfold parseHeaderContentAndPadding. rewrite Hs, Hn. cbn [is_payloadContent andb].
  destruct (Z.eqb_spec (len fragment) 0) as [H0|H0]; cbn [negb andb].
  { apply app_len_0 in H0 as Hcon. subst fragment. rewrite fragmentEvents_nil by done. cbn [app].
    rewrite ?Hs, ?Hn, len_nil, Z.add_0_r. cbn [is_payloadContent andb Z.eqb].
    set (q := p <| state := payloadPadding |>).
    exact (skipPadding_gives st q st rest [] Hc (eq_sym (app_nil_r st))). }
  pose proof (len_nonneg fragment). pose proof (len_nonneg rest).
  rewrite (proj2 (Z.eqb_neq (len (fragment ++ rest)) 0)) by (rewrite len_app; lia). cbn [negb].
  destruct (parseHeaderFragment_gives p st fragment rest (len fragment) eq_refl ltac:(lia) Hc Hb) as [(Hh & Hcode & Hok) Hdone].
  set (r := parseHeaderFragment _ _ _ _ _) in *. destruct (frame_is_none_spec (resCode r)) as [Hr|Hr]; cbn [negb].
  2: { split; [done|]. split; [done|]. intros He. by rewrite Hcode in Hr. }
  rewrite (Hdone Hr). cbn [negb]. rewrite Hcode in Hr. destruct (Hok Hr) as [Hcr Hhb].
  set (q := resParser r <| contentN := 0 |> <| state := payloadPadding |>).
  pose proof (skipPadding_gives st q (resHost r) (resRest r) (fragmentEvents (room p) (StreamID (current p)) fragment).1 Hcr Hh) as Hg.
  change (headerBlockBytes q) with (headerBlockBytes (resParser r)) in Hg. rewrite Hhb in Hg.
  destruct (fragmentEvents _ _ _) as [evs c]. cbn in Hr. subst c. exact Hg.
Qed.

(** A prefix present to its end. *)
Lemma copyPrefix_whole p need x y :
  p.(prefixNeed) = need -> p.(prefixN) = 0 -> length p.(prefix) = 8%nat -> len x = need -> 0 < need <= 8 ->
  0 <= p.(payloadN) <= maxFrameSize ->
  copyPrefix p (x ++ y) =
    (p <| prefix := x ++ drop (length x) p.(prefix) |> <| prefixN := need |> <| payloadN := p.(payloadN) + need |>, y).
Proof.
  intros Hneed Hn Hp Hx Hr HN. unfold copyPrefix. rewrite Hneed, Hn, Z.sub_0_r, u8_small by (widths; lia).
  rewrite minInt_eq, len_app, Z.min_l by (pose proof (len_nonneg y); lia).
  rewrite take_exact, drop_exact by done. rewrite u8_small, u32_small by (widths; lia).
  unfold copyAt. cbn [fst]. change (Z.to_nat 0) with 0%nat. rewrite Hp. cbn [take app Nat.sub Nat.add].
  rewrite Nat.min_r by (unfold len in Hx; lia). by rewrite (take_ge x) by lia.
Qed.

Lemma take_prefix (x y : list Z) n : n = length x -> take n (x ++ y) = x.
Proof. intros ->. apply take_app_length. Qed.

(** *** Frames with padding *)

Section Start.
Context (p : Parser) (st : list FrameEvent) (payload rest : list Z).
Context (Hok : frame_ok p) (Hcode : p.(code) = CodeNone).
Context (Hstate : p.(state) = payloadStart) (HN : p.(payloadN) = 0) (HpN : p.(prefixN) = 0).
Context (Hpad : p.(padLength) = 0).
Context (Hlen : len payload = p.(current).(Length)) (Hbytes : bytes payload).
Context (Hblock : block_limit_ok p).

#[local] Abbreviation h := (p.(current)).
#[local] Abbreviation src := (payload ++ rest).

Lemma start_sizes : len payload <= maxFrameSize /\ length p.(prefix) = 8%nat.
Proof. rewrite Hlen. by destruct Hok as (_ & (_ & ? & ? & _) & _). Qed.

(** The parser after the pad length: [body] starts [src'] and [pad] octets
    follow it. *)
Definition at_body (q : Parser) (body src' : list Z) : Prop :=
  exists pad k padding, q = started p pad k /\ src' = body ++ padding /\
    0 <= pad /\ 0 <= k /\ k + len body + pad = h.(Length).

(** The two starts of a padded frame type: [minimum] octets are reserved, and
    [fails] or [enters] is what the code does next. *)
Lemma unpad_cases minimum (test : Z -> bool) (fails enters : Parser -> list Z -> PRes (St := list FrameEvent))
    (P : PRes -> Prop) :
  0 <= minimum -> (Has h.(Flags) FlagPadded = true -> 1 + minimum <= h.(Length)) ->
  (forall b, 0 <= b <= 255 -> 1 + minimum <= h.(Length) <= maxFrameSize ->
     test b = (h.(Length) - 1 - minimum <? b)) ->
  (forall b x, unpad h minimum payload = None -> P (fails (started p b 1) x)) ->
  (forall q body x, unpad h minimum payload = Some body ->
     (Has h.(Flags) FlagPadded = true -> minimum <= len body) -> at_body q body x -> P (enters q x)) ->
  P (match Has h.(Flags) FlagPadded, src with
     | true, b :: x => if test b then fails (takePadLength p b) x else enters (takePadLength p b) x
     | _, _ => enters p src
     end).
Proof.
  intros Hm Hmin Htest Hf He. pose proof start_sizes as [Hmax _]. unfold unpad in *.
  destruct (Has (Flags (current p)) FlagPadded) eqn:Hpd.
  - specialize (Hmin eq_refl). destruct payload as [|b x]; [rewrite len_nil in Hlen; lia|]. cbn [app].
    rewrite len_cons in Hlen, Hmax. apply Forall_cons_1 in Hbytes as [Hb _]. unfold in_u8, MaxUint8 in Hb.
    rewrite takePadLength_eq by done. fold (started p b 1). rewrite Htest by lia.
    replace (Length h - 1 - minimum) with (len x - minimum) by lia.
    destruct (Z.ltb_spec (len x - minimum) b) as [Hlt|Hge]; [by apply Hf|].
    assert (len (take (Z.to_nat (len x - b)) x) = len x - b) as Hlb.
    { unfold len in *. rewrite length_take. lia. }
    apply (He _ (take (Z.to_nat (len x - b)) x)); [done | by rewrite Hlb; lia |].
    exists b, 1, (drop (Z.to_nat (len x - b)) x ++ rest). split; [done|].
    split; [by rewrite app_assoc, take_drop|]. lia.
  - apply (He _ payload); [done|done|]. exists 0, 0, rest. rewrite started_zero by done.
    split; [done|]. split; [done|]. lia.
Qed.

Lemma startContent_at q body src' :
  at_body q body src' -> exists pad k,
  startContent q = started p pad k <| contentN := len body |> <| state := payloadContent |> /\
  len body <= maxFrameSize.
Proof.
  intros (pad & k & padding & -> & _ & H1 & H2 & H3). exists pad, k. pose proof start_sizes as [Hmax _].
  pose proof (len_nonneg body). split; [|widths; lia]. unfold startContent.
  change (current (started p pad k)) with h. change (payloadN (started p pad k)) with k.
  change (padLength (started p pad k)) with pad. rewrite (u32_small (_ - k)), u32_small by (widths; lia).
  by replace (Length h - k - pad) with (len body) by lia.
Qed.

Definition padded_events (r : option (list FrameEvent * Code)) : list FrameEvent * Code :=
  default ([], CodeInvalidPadding) r.

Lemma resFail_gives q st0 x c hb :
  q.(code) = CodeNone -> c <> CodeNone -> gives st0 (resFail q st0 x c) ([], c) hb.
Proof.
  intros Hq Hc. unfold gives, resFail, fail. rewrite Hq. cbn. rewrite app_nil_r. by split_and!.
Qed.

Lemma parseData_gives :
  h.(Type_) = FrameData ->
  gives st (parseData (Some tracer) p st src)
    (padded_events (bodyEvents (room p) h <$> (BData <$> unpad h 0 payload))) p.(headerBlockBytes).
Proof.
  intros Ht. pose proof Hok as (_ & _ & Hv & _). pose proof (validate_data _ Hv Ht) as Hmin.
  unfold parseData. rewrite Hstate. cbn [is_payloadStart].
  refine (unpad_cases 0 (fun b => u32 (h.(Length) - u32 (payloadN p + 1)) <? b)
    (fun q x => resFail q st x CodeInvalidPadding)
    (fun q x => dataContent (Some tracer) (startContent q) st x) (fun r => gives st r _ _) _ _ _ _ _); [lia | intros Hp; specialize (Hmin Hp); lia | | |].
  - intros b Hb HL. rewrite HN, (u32_small (0 + 1)), u32_small by (widths; lia). by rewrite Z.sub_0_r.
  - intros b x ->. by apply resFail_gives.
  - intros q body x -> _ Hat. pose proof (startContent_at _ _ _ Hat) as (pad & k & -> & Hl).
    destruct Hat as (_ & _ & padding & _ & -> & _).
    set (r := started p pad k <| contentN := len body |> <| state := payloadContent |>).
    exact (dataContent_gives r st body padding eq_refl eq_refl Hl Hcode).
Qed.

(** A priority section or promised stream in front of a fragment. *)
Lemma copyPrefix_at q need body x :
  at_body q body x -> 0 < need <= 8 -> need <= len body ->
  exists y pad k, x = take (Z.to_nat need) body ++ y /\
    copyPrefix (q <| prefixNeed := need |> <| state := payloadPrefix |>) x =
      (started p pad k <| prefixNeed := need |> <| state := payloadPrefix |>
         <| prefix := take (Z.to_nat need) body ++ drop (Z.to_nat need) p.(prefix) |> <| prefixN := need |>
         <| payloadN := k + need |>, y) /\
    len (take (Z.to_nat need) body) = need /\
    exists padding, y = drop (Z.to_nat need) body ++ padding /\ 0 <= pad /\ 0 <= k /\
      k + need + len (drop (Z.to_nat need) body) + pad = h.(Length) /\ h.(Length) <= maxFrameSize.
Proof.
  intros (pad & k & padding & -> & -> & H1 & H2 & H3) Hneed Hbody. pose proof start_sizes as [Hmax H8].
  assert (len (take (Z.to_nat need) body) = need) as Hl by (unfold len in *; rewrite length_take; lia).
  exists (drop (Z.to_nat need) body ++ padding), pad, k.
  assert (body ++ padding = take (Z.to_nat need) body ++ drop (Z.to_nat need) body ++ padding) as Hx
    by (by rewrite app_assoc, take_drop).
  split; [exact Hx|]. split; [|split; [done|]].
  - rewrite Hx. set (r := started p pad k <| prefixNeed := need |> <| state := payloadPrefix |>).
    rewrite (copyPrefix_whole r need) by (first [done | cbn; lia | cbn; widths; lia]).
    by replace (length (take (Z.to_nat need) body)) with (Z.to_nat need) by (unfold len in *; lia).
  - exists padding. rewrite len_drop by lia. split; [done|]. lia.
Qed.

(** The fragment behind a prefix. *)
Lemma prefixed_gives pad k need pre fragment padding st0 :
  0 <= pad -> 0 <= k -> 0 < need <= 8 -> k + need + len fragment + pad = h.(Length) -> h.(Length) <= maxFrameSize ->
  let q := started p pad k <| prefixNeed := need |> <| state := payloadPrefix |> <| prefix := pre |>
             <| prefixN := need |> <| payloadN := k + need |> in
  gives st0 (parseHeaderContentAndPadding (Some tracer) (startContent q) st0 (fragment ++ padding))
    (fragmentEvents (room p) h.(StreamID) fragment) (p.(headerBlockBytes) + len fragment).
Proof.
  intros Hpad0 Hk Hneed Hsum HL. cbn zeta. set (q := started p pad k <| prefixNeed := need |>
    <| state := payloadPrefix |> <| prefix := pre |> <| prefixN := need |> <| payloadN := k + need |>).
  pose proof (len_nonneg fragment).
  assert (startContent q = q <| contentN := len fragment |> <| state := payloadContent |>) as ->.
  { unfold startContent. change (current q) with h. change (payloadN q) with (k + need).
    change (padLength q) with pad. rewrite (u32_small (_ - (k + need))), u32_small by (widths; lia).
    by replace (Length h - (k + need) - pad) with (len fragment) by lia. }
  set (r := q <| contentN := len fragment |> <| state := payloadContent |>).
  assert (len fragment <= maxFrameSize) as Hl by (widths; lia).
  exact (headerContent_gives r st0 fragment padding eq_refl eq_refl Hl Hcode Hblock).
Qed.

Lemma gives_before st0 ev r evs hb : gives (st0 ++ [ev]) r evs hb -> gives st0 r (before [ev] evs) hb.
Proof. intros (Hh & Hc & Hok'). split; [by rewrite Hh, <- app_assoc | done]. Qed.

Lemma headersPrefix_gives q body x :
  at_body q body x -> 5 <= len body ->
  gives st (headersPrefix (Some tracer) (q <| prefixNeed := 5 |> <| state := payloadPrefix |>) st x)
    (bodyEvents (room p) h (BHeaders (Some (decodePriority (take 5 body))) (drop 5 body)))
    (p.(headerBlockBytes) + len (drop 5 body)).
Proof.
  intros Hat Hb. destruct (copyPrefix_at q 5 body x Hat ltac:(lia) Hb)
    as (y & pad & k & _ & E & Hl & padding & -> & H1 & H2 & H3 & H4). unfold headersPrefix. rewrite E.
  set (r := started p pad k <| prefixNeed := 5 |> <| state := payloadPrefix |> <| prefix := _ |>
              <| prefixN := 5 |> <| payloadN := k + 5 |>).
  change (prefixN r <? prefixNeed r) with false. cbv iota zeta.
  change (take 5 (prefix r)) with (take 5 (take (Z.to_nat 5) body ++ drop (Z.to_nat 5) (prefix p))).
  change (Z.to_nat 5) with 5%nat in *. rewrite take_prefix by (unfold len in Hl; lia).
  change (current r) with h. unfold bodyEvents. cbv zeta.
  destruct (StreamDependency _ =? StreamID h) eqn:Hdep; [by apply resFail_gives|].
  run_callback. apply gives_before.
  exact (prefixed_gives pad k 5 _ _ padding _ H1 H2 ltac:(lia) H3 H4).
Qed.

Lemma promisePrefix_gives q body x :
  at_body q body x -> 4 <= len body ->
  gives st (promisePrefix (Some tracer) (q <| prefixNeed := 4 |> <| state := payloadPrefix |>) st x)
    (bodyEvents (room p) h (BPushPromise (Z.land (Uint32At (take 4 body) 0) streamMask) (drop 4 body)))
    (p.(headerBlockBytes) + len (drop 4 body)).
Proof.
  intros Hat Hb. destruct (copyPrefix_at q 4 body x Hat ltac:(lia) Hb)
    as (y & pad & k & _ & E & Hl & padding & -> & H1 & H2 & H3 & H4). unfold promisePrefix. rewrite E.
  set (r := started p pad k <| prefixNeed := 4 |> <| state := payloadPrefix |> <| prefix := _ |>
              <| prefixN := 4 |> <| payloadN := k + 4 |>).
  change (prefixN r <? prefixNeed r) with false. cbv iota zeta.
  change (take 4 (prefix r)) with (take 4 (take (Z.to_nat 4) body ++ drop (Z.to_nat 4) (prefix p))).
  change (Z.to_nat 4) with 4%nat in *. rewrite take_prefix by (unfold len in Hl; lia).
  change (current r) with h. unfold bodyEvents. cbv zeta.
  destruct (_ =? 0) eqn:Hdep; [by apply resFail_gives|].
  run_callback. apply gives_before.
  exact (prefixed_gives pad k 4 _ _ padding _ H1 H2 ltac:(lia) H3 H4).
Qed.

Lemma parseHeaders_gives :
  h.(Type_) = FrameHeaders ->
  gives st (parseHeaders (Some tracer) p st src)
    (padded_events (bodyEvents (room p) h <$> decodeBody h payload))
    (p.(headerBlockBytes) + len (default [] (fragmentOf <$> decodeBody h payload))).
Proof.
  intros Ht. pose proof Hok as (_ & _ & Hv & _). pose proof (validate_headers _ Hv Ht) as Hmin.
  pose proof (len_nonneg payload).
  assert (decodeBody h payload =
    if Has h.(Flags) FlagPriority
    then body ← unpad h 5 payload; Some (BHeaders (Some (decodePriority (take 5 body))) (drop 5 body))
    else BHeaders None <$> unpad h 0 payload) as -> by (unfold decodeBody; by rewrite Ht).
  unfold parseHeaders. rewrite Hstate. cbn [is_payloadStart].
  set (enter := fun q : Parser => if Has q.(current).(Flags) FlagPriority
    then q <| prefixNeed := 5 |> <| state := payloadPrefix |> else startContent q).
  set (m := if Has h.(Flags) FlagPriority then 5 else 0) in *.
  assert (0 <= m <= 5) by (unfold m; destruct (Has h.(Flags) FlagPriority); lia).
  refine (unpad_cases m (fun b => u32 (u32 (h.(Length) - u32 (payloadN p + 1)) - m) <? b)
    (fun q x => resFail q st x CodeInvalidPadding)
    (fun q x => afterHeadersStart (Some tracer) (enter q) st x) (fun r => gives st r _ _) _ _ _ _ _).
  - lia.
  - intros Hp. rewrite Hp in Hmin. lia.
  - intros b Hb HL. rewrite HN, (u32_small (0 + 1)), (u32_small (Length h - _)), u32_small by (widths; lia). done.
  - intros b x Hu. replace (if Has (Flags h) FlagPriority then _ else _) with (@None FrameBody);
      [by apply resFail_gives|]. unfold m in Hu. destruct (Has (Flags h) FlagPriority); by rewrite Hu.
  - intros q body x Hu Hbody Hat. unfold enter.
    assert (current q = h) as -> by (by destruct Hat as (? & ? & ? & -> & _)).
    unfold m in *. destruct (Has (Flags h) FlagPriority) eqn:Hprio; rewrite ?Hprio in *.
    + rewrite Hu. apply headersPrefix_gives; [done|]. unfold unpad in Hu.
      destruct (Has (Flags h) FlagPadded); [by apply Hbody|]. injection Hu as <-. lia.
    + rewrite Hu. cbn. pose proof (startContent_at _ _ _ Hat) as (pad & k & -> & Hl).
      destruct Hat as (_ & _ & padding & _ & -> & _).
      set (r := started p pad k <| contentN := len body |> <| state := payloadContent |>).
      exact (headerContent_gives r st body padding eq_refl eq_refl Hl Hcode Hblock).
Qed.

Lemma Uint32At_take (s : list Z) : Uint32At (take 4 s) 0 = Uint32At s 0.
Proof. by destruct s as [|a [|b [|c [|d s]]]]. Qed.

Lemma parsePushPromise_gives :
  h.(Type_) = FramePushPromise ->
  gives st (parsePushPromise (Some tracer) p st src)
    (padded_events (bodyEvents (room p) h <$> decodeBody h payload))
    (p.(headerBlockBytes) + len (default [] (fragmentOf <$> decodeBody h payload))).
Proof.
  intros Ht. pose proof Hok as (_ & _ & Hv & _). pose proof (validate_promise _ Hv Ht) as Hmin.
  assert (decodeBody h payload = body ← unpad h 4 payload;
    Some (BPushPromise (Z.land (Uint32At body 0) streamMask) (drop 4 body))) as ->
    by (unfold decodeBody; by rewrite Ht).
  unfold parsePushPromise. rewrite Hstate. cbn [is_payloadStart].
  set (enter := fun q : Parser => q <| prefixNeed := 4 |> <| state := payloadPrefix |>).
  refine (unpad_cases 4 (fun b => u32 (u32 (h.(Length) - u32 (payloadN p + 1)) - 4) <? b)
    (fun q x => resFail q st x CodeInvalidPadding)
    (fun q x => afterPromiseStart (Some tracer) (enter q) st x) (fun r => gives st r _ _) _ _ _ _ _).
  - lia.
  - intros Hp. rewrite Hp in Hmin. lia.
  - intros b Hb HL. rewrite HN, (u32_small (0 + 1)), (u32_small (Length h - _)), u32_small by (widths; lia). done.
  - intros b x ->. by apply resFail_gives.
  - intros q body x Hu Hbody Hat. unfold enter. rewrite Hu. cbn [mbind option_bind fmap option_fmap option_map].
    rewrite <- (Uint32At_take body). apply promisePrefix_gives; [done|]. unfold unpad in Hu.
    destruct (Has (Flags h) FlagPadded); [by apply Hbody|]. injection Hu as <-. lia.
Qed.

(** *** The other frame types *)

Lemma continuation_gives :
  0 < h.(Length) ->
  gives st (parseHeaderFragment (Some tracer) p st src (u32 (h.(Length) - p.(payloadN))))
    (fragmentEvents (room p) h.(StreamID) payload) (p.(headerBlockBytes) + len payload).
Proof.
  intros HL. pose proof start_sizes as [Hmax _].
  apply parseHeaderFragment_gives; [|lia|done|done]. rewrite HN, Z.sub_0_r, u32_small by (widths; lia). done.
Qed.

Lemma unknown_gives :
  0 < h.(Length) ->
  gives st (parseUnknown (Some tracer) p st src) (told (EvUnknown h) payload, CodeNone) p.(headerBlockBytes).
Proof.
  intros HL. pose proof start_sizes as [Hmax _]. unfold parseUnknown. cbv zeta.
  rewrite HN, Z.sub_0_r, u32_small, len_app by (widths; lia).
  rewrite (proj2 (Z.ltb_ge _ _)) by (pose proof (len_nonneg rest); lia).
  rewrite take_exact by done. run_callback. rewrite told_cons by lia. by split_and!.
Qed.

(** Frames that are only a prefix keep their payload for [finishFrame]. *)
Lemma fixed_gives need :
  h.(Length) = need -> 0 < need <= 8 ->
  let r := parseFixed (St := list FrameEvent) p st src need in
  gives st r ([], CodeNone) p.(headerBlockBytes) /\ r.(resParser).(prefix) = payload ++ drop (length payload) p.(prefix).
Proof.
  intros HL Hneed. cbn zeta. unfold parseFixed. set (q := p <| prefixNeed := need |>). pose proof start_sizes as [_ H8].
  rewrite (copyPrefix_whole q need) by (first [done | lia | cbn; widths; lia]).
  split; [|done]. split; [symmetry; apply app_nil_r | done].
Qed.

Lemma goaway_gives :
  8 <= h.(Length) ->
  let r := parseGoAway (Some tracer) p st src in
  gives st r (told EvGoAwayDebug (drop 8 payload), CodeNone) p.(headerBlockBytes) /\
  r.(resParser).(prefix) = take 8 payload.
Proof.
  intros HL. cbn zeta. pose proof start_sizes as [Hmax H8]. unfold parseGoAway. rewrite HN. cbn [Z.ltb Z.compare].
  set (q := p <| prefixNeed := 8 |>).
  assert (len (take 8 payload) = 8) as Hl by (unfold len in *; rewrite length_take; lia).
  assert (src = take 8 payload ++ drop 8 payload ++ rest) as -> by (by rewrite app_assoc, take_drop).
  rewrite (copyPrefix_whole q 8) by (first [done | lia | cbn; widths; lia]).
  assert (drop (length (take 8 payload)) (prefix q) = []) as ->
    by (apply nil_length_inv; rewrite length_drop; unfold len in Hl; cbn; lia).
  rewrite app_nil_r. set (r := q <| prefix := take 8 payload |> <| prefixN := 8 |> <| payloadN := payloadN q + 8 |>).
  change (prefixN r <? 8) with false. cbv iota. unfold goAwayDebug.
  change (payloadN r) with (payloadN p + 8). change (current r) with h. rewrite HN.
  assert (len (drop 8 payload) = Length h - 8) as Hd by (rewrite (len_drop 8); lia).
  destruct (Z.ltb_spec (0 + 8) (Length h)); cbn [andb].
  - rewrite len_app, Hd. pose proof (len_nonneg rest).
    rewrite (proj2 (Z.eqb_neq _ 0)) by lia. cbn [negb]. rewrite u32_small by (widths; lia).
    rewrite minInt_eq, Z.min_l by lia. rewrite take_exact by lia. run_callback.
    rewrite told_cons by lia. by split_and!.
  - assert (drop 8 payload = []) as -> by (apply len_zero; lia).
    split; [|done]. split; [symmetry; apply app_nil_r | done].
Qed.
End Start.

Lemma six_bytes (s : list Z) :
  len s mod 6 = 0 -> s = [] \/ exists a b c d e f s', s = [a; b; c; d; e; f] ++ s' /\ len s' mod 6 = 0.
Proof.
  intros H. destruct s as [|a [|b [|c [|d [|e [|f s]]]]]]; [by left | done | done | done | done | done |].
  right. exists a, b, c, d, e, f, s. split; [done|]. rewrite !len_cons in H.
  replace (len s + 1 + 1 + 1 + 1 + 1 + 1) with (len s + 1 * 6) in H by lia. by rewrite Z.mod_add in H by lia.
Qed.

Lemma settingsLoop_gives fuel p st payload rest :
  p.(code) = CodeNone -> p.(prefixN) = 0 -> p.(prefixNeed) = 6 -> length p.(prefix) = 8%nat ->
  0 <= p.(payloadN) -> p.(payloadN) + len payload = p.(current).(Length) -> p.(current).(Length) <= maxFrameSize ->
  len payload mod 6 = 0 -> (length payload <= fuel)%nat ->
  gives st (settingsLoop (Some tracer) fuel p st (payload ++ rest)) (settingsEvents (decodeSettings payload))
    p.(headerBlockBytes).
Proof.
  revert p st payload. induction fuel as [|fuel IH]; intros p st payload Hc Hn Hneed H8 H0 HN HL H6 Hf.
  all: destruct (six_bytes payload H6) as [-> | (a & b & c & d & e & f & y & -> & H6')]; [|rewrite length_app in Hf].
  1, 3: rewrite len_nil in HN; unfold settingsLoop; rewrite (proj2 (Z.ltb_ge _ _)) by lia;
    rewrite andb_false_r; (split; [symmetry; apply app_nil_r | done]).
  { cbn in Hf. lia. }
  cbn [settingsLoop]. rewrite len_app in HN. change (len [a; b; c; d; e; f]) with 6 in HN.
  pose proof (len_nonneg y). pose proof (len_nonneg rest).
  rewrite (proj2 (Z.ltb_lt _ _)) by lia.
  rewrite (proj2 (Z.eqb_neq (len (_ ++ rest)) 0)) by (rewrite !len_app; change (len [a; b; c; d; e; f]) with 6; lia).
  cbn [negb andb]. rewrite <- app_assoc. rewrite (copyPrefix_whole p 6) by (first [done | lia]).
  set (q := p <| prefix := _ |> <| prefixN := 6 |> <| payloadN := _ |>).
  change (prefixN q <? 6) with false. cbv iota zeta.
  change (mkSetting (Uint16At (take 2 (prefix q)) 0) (Uint32At (take 4 (drop 2 (prefix q))) 0))
    with (mkSetting (Uint16At [a; b] 0) (Uint32At [c; d; e; f] 0)).
  cbn [app decodeSettings settingsEvents].
  destruct (validSetting _); cbn [negb]; [|by apply resFail_gives].
  run_callback. set (r := q <| prefixN := 0 |>).
  pose proof (IH r (st ++ [EvSetting (mkSetting (Uint16At [a; b] 0) (Uint32At [c; d; e; f] 0))]) y) as Hr.
  destruct (settingsEvents (decodeSettings y)) as [evs cd]. refine (gives_before st _ _ (evs, cd) (headerBlockBytes p) _). apply Hr; try done.
  - cbn. rewrite length_drop. lia.
  - cbn. lia.
  - cbn. lia.
  - cbn in Hf. lia.
Qed.

(** ** Whole frames *)

(** The payload and the switch of [finishFrame] behind it. *)
Definition completes (st : list FrameEvent) (r : PRes (St := list FrameEvent)) (evs : list FrameEvent * Code) (hb : Z) : Prop :=
  if is_none evs.2 then
    r.(resCode) = CodeNone /\ r.(resParser).(code) = CodeNone /\ r.(resParser).(headerBlockBytes) = hb /\
    finishPayload (Some tracer) r.(resParser) r.(resHost) = inl (r.(resParser), st ++ evs.1)
  else
    r.(resHost) = st ++ evs.1 /\
    (r.(resCode) = evs.2 \/
     r.(resCode) = CodeNone /\ r.(resParser).(code) = CodeNone /\
     finishPayload (Some tracer) r.(resParser) r.(resHost) = inr evs.2).

(** Frame types that [finishPayload] has nothing to say about. *)
Definition plainType (t : Z) : bool :=
  negb (one_of t [FramePriority; FrameRSTStream; FrameSettings; FramePing; FrameGoAway; FrameWindowUpdate]).

Lemma finishPayload_plain p st : plainType p.(current).(Type_) = true -> finishPayload (Some tracer) p st = inl (p, st).
Proof.
  intros H. unfold plainType, one_of in H. cbn [existsb] in H. bool_to_prop. unfold finishPayload. cbv zeta.
  rewrite !(proj2 (Z.eqb_neq _ _)) by done. done.
Qed.

Lemma gives_completes st r evs hb :
  plainType r.(resParser).(current).(Type_) = true -> gives st r evs hb -> completes st r evs hb.
Proof.
  intros Ht (Hh & Hc & Hok). unfold completes. destruct (frame_is_none_spec evs.2) as [He|He]; [|by auto].
  destruct (Hok He) as [? ?]. rewrite Hc, He. rewrite finishPayload_plain by done. by rewrite Hh.
Qed.

Lemma payload_whole_done p st payload rest :
  frame_ok p -> p.(payloadN) = 0 -> len payload = p.(current).(Length) -> 0 < p.(current).(Length) ->
  bytes (payload ++ rest) ->
  let r := parsePayloadSwitch (Some tracer) p st (payload ++ rest) in
  parsePayload (Some tracer) p st (payload ++ rest) = Some r /\ res_ok p (payload ++ rest) r /\
  (r.(resCode) = CodeNone -> r.(resDone) = true /\ r.(resRest) = rest).
Proof.
  intros Hok HN Hlen HL Hb. cbn zeta.
  assert (payload ++ rest <> []) as Hne by (destruct payload; [rewrite len_nil in Hlen; lia | done]).
  pose proof (parsePayloadSwitch_ok (Some tracer) p st (payload ++ rest) Hok Hb Hne ltac:(lia)) as Hr.
  set (r := parsePayloadSwitch (Some tracer) p st (payload ++ rest)) in *.
  pose proof Hr as ([pre Hpre] & (_ & Hcur & _) & _ & _ & Hr').
  assert (resCode r = CodeNone -> resDone r = true /\ resRest r = rest) as Hdone.
  { intros Hc. rewrite Hc in Hr'. cbn in Hr'. destruct Hr' as (Hokr & HNr & Hd & Hrest).
    destruct Hokr as (_ & (HNr' & _) & _). rewrite Hcur in *. pose proof (len_nonneg rest).
    pose proof (f_equal len Hpre) as Hl. rewrite !len_app in *. rewrite Hd.
    destruct (Z.eqb_spec (payloadN (resParser r)) (Length (current p))) as [He|He].
    - split; [done|]. assert (length payload = length pre) as Hlp by (unfold len in *; lia).
      by apply app_inj_1 in Hpre as [_ Hpre].
    - exfalso. specialize (Hrest ltac:(lia)). rewrite Hrest, len_nil in HNr. lia. }
  split; [|done]. unfold parsePayload.
  destruct (length (payload ++ rest)) as [|n] eqn:E; [by apply nil_length_inv in E|]. cbn [payloadLoop].
  rewrite (proj2 (Z.ltb_lt _ _)) by lia.
  rewrite (proj2 (Z.eqb_neq (len _) 0)) by (unfold len; lia). cbn [negb andb].
  fold r. destruct (frame_is_none_spec (resCode r)) as [Hc|Hc]; [|done]. cbn. by destruct (Hdone Hc) as [-> _].
Qed.

Definition frameEvents (k : Z) (h : FrameHeader) (payload : list Z) : list FrameEvent * Code :=
  padded_events (bodyEvents k h <$> decodeBody h payload).

Definition frameFragment (h : FrameHeader) (payload : list Z) : list Z :=
  default [] (fragmentOf <$> decodeBody h payload).

(** The frames that end with their prefix: [finishPayload] delivers them. *)
Lemma fixed_completes p st payload rest need evs :
  frame_ok p -> p.(code) = CodeNone -> p.(payloadN) = 0 -> p.(prefixN) = 0 ->
  len payload = p.(current).(Length) -> p.(current).(Length) = need -> 0 < need <= 8 ->
  (forall q, q.(current) = p.(current) -> q.(prefix) = payload ++ drop (length payload) p.(prefix) ->
     finishPayload (Some tracer) q st = if is_none evs.2 then inl (q, st ++ evs.1) else inr evs.2) ->
  (evs.2 <> CodeNone -> evs.1 = []) ->
  completes st (parseFixed p st (payload ++ rest) need) evs p.(headerBlockBytes).
Proof.
  intros Hok Hc HN HpN Hlen HL Hneed Hfin Hnil.
  destruct (fixed_gives p st payload rest Hok Hc HN HpN Hlen need HL Hneed) as [(Hh & Hcode & Hg) Hpre].
  set (r := parseFixed p st (payload ++ rest) need) in *. destruct (Hg eq_refl) as [Hcr Hhb].
  cbn [fst] in Hh. rewrite app_nil_r in Hh. cbn [snd] in Hcode.
  assert (current (resParser r) = current p) as Hcur by (unfold r, parseFixed; by destruct (copyPrefix _ _) eqn:E; injection E as <- <-).
  specialize (Hfin (resParser r) Hcur Hpre). unfold completes. rewrite Hh.
  destruct (frame_is_none_spec evs.2) as [He|He]; [done|].
  rewrite (Hnil He), app_nil_r. auto.
Qed.

Section Whole.
Context (p : Parser) (st : list FrameEvent) (payload rest : list Z).
Context (Hok : frame_ok p) (Hcode : p.(code) = CodeNone).
Context (Hstate : p.(state) = payloadStart) (HN : p.(payloadN) = 0) (HpN : p.(prefixN) = 0).
Context (Hpad : p.(padLength) = 0).
Context (Hlen : len payload = p.(current).(Length)) (Hbytes : bytes payload).
Context (Hblock : block_limit_ok p) (HL : 0 < p.(current).(Length)).

#[local] Abbreviation h := (p.(current)).
#[local] Abbreviation src := (payload ++ rest).
#[local] Abbreviation hb := (p.(headerBlockBytes) + len (frameFragment h payload)).

Lemma fixed_payload need : h.(Length) = need -> length payload = Z.to_nat need.
Proof. unfold len in Hlen. lia. Qed.

Ltac body_is b :=
  unfold frameEvents, frameFragment;
  replace (decodeBody (p.(current)) payload) with (Some b)
    by (unfold decodeBody; match goal with H : Type_ _ = _ |- _ => by rewrite H end);
  cbn [padded_events fmap option_fmap option_map default fragmentOf bodyEvents from_option id];
  rewrite ?len_nil, ?Z.add_0_r.

Lemma priority_completes :
  h.(Type_) = FramePriority -> completes st (parseFixed p st src 5) (frameEvents (room p) h payload) hb.
Proof.
  intros Ht. pose proof Hok as (_ & _ & Hv & _). destruct (validate_fixed _ Hv) as (H5 & _). specialize (H5 Ht).
  pose proof (fixed_payload _ H5) as Hl. body_is (BPriority (decodePriority payload)).
  apply fixed_completes; try done.
  - intros q Hc Hp. unfold finishPayload. rewrite Hc, Ht, Hp. cbn [Z.eqb FramePriority Pos.eqb].
    rewrite take_prefix by done. cbv zeta. by destruct (_ =? StreamID h).
  - by destruct (_ =? StreamID h).
Qed.

Lemma rst_completes :
  h.(Type_) = FrameRSTStream -> completes st (parseFixed p st src 4) (frameEvents (room p) h payload) hb.
Proof.
  intros Ht. pose proof Hok as (_ & _ & Hv & _). destruct (validate_fixed _ Hv) as (_ & H4 & _). specialize (H4 Ht).
  pose proof (fixed_payload _ H4) as Hl. body_is (BRSTStream (Uint32At payload 0)).
  apply fixed_completes; try done.
  intros q Hc Hp. unfold finishPayload. rewrite Hc, Ht, Hp. by rewrite (take_prefix _ _ 4) by done.
Qed.

Lemma ping_completes :
  h.(Type_) = FramePing -> completes st (parseFixed p st src 8) (frameEvents (room p) h payload) hb.
Proof.
  intros Ht. pose proof Hok as (_ & (_ & _ & H8' & _) & Hv & _). destruct (validate_fixed _ Hv) as (_ & _ & H8 & _).
  specialize (H8 Ht). pose proof (fixed_payload _ H8) as Hl. body_is (BPing payload).
  apply fixed_completes; try done.
  intros q Hc Hp. unfold finishPayload. rewrite Hc, Ht, Hp. rewrite drop_ge by lia. by rewrite app_nil_r.
Qed.

Lemma window_completes :
  h.(Type_) = FrameWindowUpdate -> completes st (parseFixed p st src 4) (frameEvents (room p) h payload) hb.
Proof.
  intros Ht. pose proof Hok as (_ & _ & Hv & _). destruct (validate_fixed _ Hv) as (_ & _ & _ & H4). specialize (H4 Ht).
  pose proof (fixed_payload _ H4) as Hl. body_is (BWindowUpdate (Z.land (Uint32At payload 0) streamMask)).
  apply fixed_completes; try done.
  - intros q Hc Hp. unfold finishPayload. rewrite Hc, Ht, Hp. rewrite (take_prefix _ _ 4) by done. cbv zeta.
    cbn [Z.eqb FrameWindowUpdate Pos.eqb]. by destruct (_ =? 0).
  - by destruct (_ =? 0).
Qed.

Lemma settings_completes :
  h.(Type_) = FrameSettings -> (parseSettings (Some tracer) p st src).(resParser).(current) = h ->
  completes st (parseSettings (Some tracer) p st src) (frameEvents (room p) h payload) hb.
Proof.
  intros Ht Hcur. pose proof Hok as (_ & (_ & HLm & H8 & _) & Hv & _). pose proof (validate_settings _ Hv Ht) as H6.
  body_is (BSettings (decodeSettings payload)). unfold parseSettings. set (q := p <| prefixNeed := 6 |>).
  pose proof (settingsLoop_gives (length src) q st payload rest Hcode HpN eq_refl H8) as Hg.
  specialize (Hg ltac:(cbn; lia) ltac:(cbn; lia) HLm ltac:(by rewrite Hlen) ltac:(rewrite length_app; lia)).
  unfold parseSettings in Hcur. fold q in Hcur. set (r := settingsLoop _ _ _ _ _) in *. destruct Hg as (Hh & Hc & Hg). unfold after, completes.
  destruct (settingsEvents (decodeSettings payload)) as [evs c]. cbn [fst snd] in *.
  destruct c; cbn [fst snd is_none]; try by auto.
  destruct (Hg eq_refl) as [? ?]. split_and!; try done.
  unfold finishPayload. rewrite Hcur, Ht, Hh. cbn. by rewrite <- app_assoc.
Qed.

Lemma goaway_completes :
  h.(Type_) = FrameGoAway -> (parseGoAway (Some tracer) p st src).(resParser).(current) = h ->
  completes st (parseGoAway (Some tracer) p st src) (frameEvents (room p) h payload) hb.
Proof.
  intros Ht Hcur. pose proof Hok as (_ & _ & Hv & _). pose proof (validate_goaway _ Hv Ht) as H8.
  body_is (BGoAway (Z.land (Uint32At payload 0) streamMask) (Uint32At payload 4) (drop 8 payload)).
  destruct (goaway_gives p st payload rest Hok Hcode HN HpN Hlen H8) as [(Hh & Hc & Hg) Hpre].
  set (r := parseGoAway _ _ _ _) in *. destruct (Hg eq_refl) as [? ?]. unfold completes. cbn [fst snd is_none].
  split_and!; try done. unfold finishPayload. rewrite Hcur, Ht, Hh, Hpre. run_callback.
  assert (exists a b c d e f g i s, payload = a :: b :: c :: d :: e :: f :: g :: i :: s) as
    (a & b & c & d & e & f & g & i & s & Hs).
  { unfold len in *. destruct payload as [|a [|b [|c [|d [|e [|f [|g [|i s]]]]]]]]; cbn in Hlen; try lia. eauto 20. }
  rewrite Hs. rewrite (app_assoc st (told _ _)). reflexivity.
Qed.

(** The payload parsers and [finishPayload] deliver the reference events. *)
Lemma payload_completes :
  bytes src -> completes st (parsePayloadSwitch (Some tracer) p st src) (frameEvents (room p) h payload) hb.
Proof.
  intros Hb. destruct (payload_whole_done p st payload rest Hok HN Hlen HL Hb) as (_ & (_ & Hsame & _) & _).
  cbv zeta in Hsame. pose proof Hsame as (_ & Hcur & _). clear Hsame. revert Hcur. unfold parsePayloadSwitch. cbv zeta.
  destruct (Z.eqb_spec (Type_ h) FrameData) as [Ht|N0].
  { intros Hcur. apply gives_completes; [by rewrite Hcur, Ht|].
    pose proof (parseData_gives p st payload rest Hok Hcode Hstate HN Hpad Hlen Hbytes Ht) as Hg.
    unfold frameEvents, frameFragment, decodeBody. rewrite Ht. cbn [Z.eqb FrameData].
    destruct (unpad h 0 payload); cbn in *; by rewrite Z.add_0_r. }
  destruct (Z.eqb_spec (Type_ h) FrameHeaders) as [Ht|N1].
  { intros Hcur. apply gives_completes; [by rewrite Hcur, Ht|]. by apply parseHeaders_gives. }
  destruct (Z.eqb_spec (Type_ h) FramePriority) as [Ht|N2]; [intros _; by apply priority_completes|].
  destruct (Z.eqb_spec (Type_ h) FrameRSTStream) as [Ht|N3]; [intros _; by apply rst_completes|].
  destruct (Z.eqb_spec (Type_ h) FrameSettings) as [Ht|N4]; [by apply settings_completes|].
  destruct (Z.eqb_spec (Type_ h) FramePushPromise) as [Ht|N5].
  { intros Hcur. apply gives_completes; [by rewrite Hcur, Ht|]. by apply parsePushPromise_gives. }
  destruct (Z.eqb_spec (Type_ h) FramePing) as [Ht|N6]; [intros _; by apply ping_completes|].
  destruct (Z.eqb_spec (Type_ h) FrameGoAway) as [Ht|N7]; [by apply goaway_completes|].
  destruct (Z.eqb_spec (Type_ h) FrameWindowUpdate) as [Ht|N8]; [intros _; by apply window_completes|].
  destruct (Z.eqb_spec (Type_ h) FrameContinuation) as [Ht|N9].
  { intros Hcur. apply gives_completes; [by rewrite Hcur, Ht|]. body_is (BContinuation payload). by apply continuation_gives. }
  intros Hcur. assert (decodeBody h payload = Some (BUnknown payload)) as Hd
    by (unfold decodeBody; by rewrite !(proj2 (Z.eqb_neq _ _)) by done).
  apply gives_completes.
  - rewrite Hcur. unfold plainType, one_of. cbn [existsb]. by rewrite !(proj2 (Z.eqb_neq _ _)) by done.
  - unfold frameEvents, frameFragment. rewrite Hd. cbn. rewrite Z.add_0_r. by apply unknown_gives.
Qed.
End Whole.

(** ** Frame headers on the wire *)

Definition header_in_range (h : FrameHeader) : Prop :=
  0 <= h.(Length) <= maxFrameSize /\ in_u8 h.(Type_) /\ in_u8 h.(Flags) /\ 0 <= h.(StreamID) <= streamMask.

Ltac divmod := Z.to_euclidean_division_equations; lia.

Lemma toByte_eq x : toByte x = x mod 256.
Proof. reflexivity. Qed.

Lemma shiftr_byte x k : 0 <= k -> toByte (Z.shiftr x k) = x / 2 ^ k mod 256.
Proof. intros. by rewrite toByte_eq, Z.shiftr_div_pow2. Qed.

Lemma lor_octets x b k : 0 <= k -> 0 <= b <= 255 ->
  Z.lor (Z.shiftl x (k + 8)) (Z.shiftl b k) = Z.shiftl (x * 256 + b) k.
Proof.
  intros Hk Hb. rewrite Z.add_comm, <- Z.shiftl_shiftl, <- Z.shiftl_lor by lia. f_equal.
  rewrite lor_shiftl_add by lia. lia.
Qed.

Lemma octets4 a b c d : 0 <= b <= 255 -> 0 <= c <= 255 -> 0 <= d <= 255 ->
  Z.lor (Z.lor (Z.lor (Z.shiftl a 24) (Z.shiftl b 16)) (Z.shiftl c 8)) d = ((a * 256 + b) * 256 + c) * 256 + d.
Proof.
  intros. change 24 with (16 + 8). rewrite (lor_octets a b 16) by lia. change 16 with (8 + 8).
  rewrite (lor_octets _ c 8), lor_shiftl_add by lia. lia.
Qed.

Lemma octets3 a b c : 0 <= b <= 255 -> 0 <= c <= 255 ->
  Z.lor (Z.lor (Z.shiftl a 16) (Z.shiftl b 8)) c = (a * 256 + b) * 256 + c.
Proof. intros. change 16 with (8 + 8). rewrite (lor_octets a b 8), lor_shiftl_add by lia. lia. Qed.

Lemma mod_octet x : 0 <= x mod 256 <= 255.
Proof. pose proof (Z.mod_pos_bound x 256). lia. Qed.

(** [AppendFrame] writes the header that [beginFrame] reads. *)
Lemma decode_encode_header h tail :
  header_in_range h -> decodeFrameHeader (encodeFrameHeader h ++ tail) = h.
Proof.
  destruct h as [L t f id]. intros (HL & Ht & Hf & Hid). cbn [Length Type_ Flags StreamID] in *.
  unfold decodeFrameHeader, encodeFrameHeader, putUint32. cbn [Length Type_ Flags StreamID app].
  unfold in_u8, MaxUint8, streamMask in *. rewrite maxFrameSize_eq in HL.
  f_equal.
  - change (Z.lor (Z.lor (Z.shiftl (toByte (Z.shiftr L 16)) 16) (Z.shiftl (toByte (Z.shiftr L 8)) 8)) (toByte L) = L).
    rewrite !shiftr_byte, toByte_eq, octets3 by (lia || apply mod_octet).
    change (2 ^ 16) with 65536. change (2 ^ 8) with 256. divmod.
  - change (toByte t = t). rewrite toByte_eq. divmod.
  - change (toByte f = f). rewrite toByte_eq. divmod.
  - change (Z.land (Z.lor (Z.lor (Z.lor (Z.shiftl (toByte (Z.shiftr id 24)) 24) (Z.shiftl (toByte (Z.shiftr id 16)) 16))
      (Z.shiftl (toByte (Z.shiftr id 8)) 8)) (toByte id)) streamMask = id).
    rewrite !shiftr_byte, toByte_eq, octets4 by (lia || apply mod_octet).
    change streamMask with (Z.ones 31). rewrite Z.land_ones by lia.
    change (2 ^ 24) with 16777216. change (2 ^ 16) with 65536. change (2 ^ 8) with 256.
    change (2 ^ 31) with 2147483648. divmod.
Qed.

Lemma encode_length h : length (encodeFrameHeader h) = 9%nat.
Proof. done. Qed.

Lemma encode_bytes h : bytes (encodeFrameHeader h).
Proof. unfold encodeFrameHeader, putUint32, bytes. repeat constructor; apply u8_range. Qed.

(** ** The sequence of header blocks *)

Definition seqOf (p : Parser) : Sequence :=
  mkSequence p.(continuationStream) p.(continuationCount) p.(headerBlockBytes) p.(headerBlockEndStream).

Lemma checkSequence_spec p :
  match specBegin p.(limits) (seqOf p) p.(current) with
  | inl s => checkSequence p = (p <| continuationCount := s.(seqCount) |> <| headerBlockEndStream := s.(seqEndStream) |>, None)
             /\ s.(seqStream) = p.(continuationStream) /\ s.(seqBytes) = p.(headerBlockBytes)
  | inr c => exists q, checkSequence p = (q, Some c)
  end.
Proof.
  unfold specBegin, checkSequence, checkContinuation. cbn [seqOf seqStream seqCount seqBytes seqEndStream].
  destruct (_ <? Length _); [by eexists|].
  destruct (Z.eqb_spec (continuationStream p) 0) as [H0|H0]; cbn [negb].
  - destruct (Type_ (current p) =? FrameContinuation) eqn:Hct; [by eexists|].
    destruct (Type_ (current p) =? FrameHeaders); rewrite ?H0; cbn [andb Z.eqb];
      destruct (validateFrameHeader (current p)); first [done | by eexists].
  - rewrite negb_andb. destruct (_ || _) eqn:Hor; [by eexists|]. cbv zeta.
    set (n := u32 (continuationCount p + 1)).
    change (continuationCount (p <| continuationCount := n |>)) with n.
    change (limits (p <| continuationCount := n |>)) with (limits p).
    destruct (_ <? n); [by eexists|].
    destruct ((Type_ (current p) =? FrameHeaders) && _) eqn:E.
    { apply andb_prop in E as [_ E]. apply Z.eqb_eq in E. by apply H0 in E. }
    destruct (validateFrameHeader (current p)); first [done | by eexists].
Qed.

Lemma finishFrame_spec p st st1 s fragment :
  finishPayload (Some tracer) p st = inl (p, st1) -> p.(code) = CodeNone ->
  seqOf p = mkSequence s.(seqStream) s.(seqCount) (s.(seqBytes) + len fragment) s.(seqEndStream) ->
  (isHeaderBlockFrame p.(current).(Type_) = false -> fragment = []) ->
  exists q, finishFrame (Some tracer) p st =
      ((q, st1 ++ (specEnd s p.(current) fragment).2 ++ [EvFrameComplete p.(current)]), CodeNone) /\
    seqOf q = (specEnd s p.(current) fragment).1.
Proof.
  intros Hfin Hc Hseq Hfrag. destruct s as [cs cc hb es]. unfold finishFrame. rewrite Hfin.
  pose proof Hseq as Hseq'. injection Hseq as H1 H2 H3 H4. cbn [seqStream seqCount seqBytes seqEndStream] in *.
  unfold finishHeaderBlock, specEnd. cbn [seqStream seqCount seqBytes seqEndStream].
  destruct (isHeaderBlockFrame _) eqn:Hb; [destruct (Has _ FlagEndHeaders); [|rewrite H1; destruct (cs =? 0) eqn:H0]|];
    run_callback.
  - eexists. split; [cbn; rewrite Hc, H4; cbn; by rewrite <- app_assoc | done].
  - eexists. split; [cbn; rewrite Hc; done|]. unfold seqOf. cbn. by rewrite H3, H4.
  - eexists. split; [cbn; rewrite Hc; done|]. exact Hseq'.
  - eexists. split; [cbn; rewrite Hc; done|]. rewrite (Hfrag eq_refl), len_nil, Z.add_0_r in Hseq'. exact Hseq'.
Qed.

Lemma specEnd_fragment h payload :
  isHeaderBlockFrame h.(Type_) = false -> frameFragment h payload = [].
Proof.
  unfold isHeaderBlockFrame, frameFragment, decodeBody. intros H. bool_to_prop.
  rewrite (proj2 (Z.eqb_neq _ FrameHeaders)), (proj2 (Z.eqb_neq _ FramePushPromise)), (proj2 (Z.eqb_neq _ FrameContinuation)) by done.
  destruct (_ =? FrameData); [by destruct (unpad h 0 payload)|].
  repeat match goal with |- context [if ?c then _ else _] => destruct c; [done|] end. done.
Qed.

Lemma specFrame_eq l s h payload :
  specFrame l s h payload =
  match specBegin l s h with
  | inr c => (None, [], c)
  | inl s =>
      let (evs, c) := frameEvents (l.(MaxHeaderBlockBytes) - s.(seqBytes)) h payload in
      if is_none c then
        let (s, fin) := specEnd s h (frameFragment h payload) in
        (Some s, EvFrameBegin h :: evs ++ fin ++ [EvFrameComplete h], CodeNone)
      else (None, EvFrameBegin h :: evs, c)
  end.
Proof.
  unfold specFrame, frameEvents, frameFragment, padded_events. destruct (specBegin l s h) as [s'|c]; [|done].
  destruct (decodeBody h payload) as [b|]; [|done]. cbn.
  destruct (bodyEvents _ h b) as [evs []]; done.
Qed.

(** The payload of a frame and its end, from a parser in its first byte. *)
Lemma payloadTurn_spec p st payload rest s :
  frame_ok p -> p.(code) = CodeNone -> p.(state) = payloadStart -> p.(payloadN) = 0 -> p.(prefixN) = 0 ->
  p.(padLength) = 0 -> len payload = p.(current).(Length) -> bytes (payload ++ rest) -> block_limit_ok p ->
  0 < p.(current).(Length) -> seqOf p = s ->
  let h := p.(current) in
  let (evs, c) := frameEvents (room p) h payload in
  if is_none c then
    exists q, payloadTurn (Some tracer) p st (payload ++ rest) =
        Some (inl (q, st ++ evs ++ (specEnd s h (frameFragment h payload)).2 ++ [EvFrameComplete h], rest)) /\
      seqOf q = (specEnd s h (frameFragment h payload)).1
  else exists o, payloadTurn (Some tracer) p st (payload ++ rest) = Some (inr o) /\
         o.(outHost) = st ++ evs /\ o.(outCode) = c.
Proof.
  intros Hok Hc Hs HN HpN Hpad Hlen Hb Hblock HL Hseq. cbv zeta.
  pose proof Hb as Hb'. apply Forall_app in Hb' as [Hbp _].
  pose proof (payload_completes p st payload rest Hok Hc Hs HN HpN Hpad Hlen Hbp Hblock HL Hb) as Hcomp.
  destruct (payload_whole_done p st payload rest Hok HN Hlen HL Hb) as (Hpp & (_ & Hsame & _ & _ & Hcode) & Hdone).
  unfold payloadTurn. rewrite Hpp. set (r := parsePayloadSwitch _ _ _ _) in *.
  destruct Hsame as (_ & Hcur & _ & _ & _ & _ & _ & Hcs & Hcc & Hes).
  unfold completes in Hcomp. destruct (frameEvents (room p) (current p) payload) as [evs c]. cbn [fst snd] in *.
  destruct (frame_is_none_spec c) as [Hcn|Hcn].
  - destruct Hcomp as (Hrc & Hpc & Hhb & Hfin). rewrite Hrc, Hpc. destruct (Hdone Hrc) as [-> ->]. cbn [negb is_none].
    destruct (finishFrame_spec (resParser r) (resHost r) (st ++ evs) s (frameFragment (current p) payload) Hfin Hpc)
      as (q & -> & Hq).
    + rewrite <- Hseq. unfold seqOf. cbn. by rewrite Hcs, Hcc, Hes, Hhb.
    + rewrite Hcur. apply specEnd_fragment.
    + exists q. rewrite Hcur in *. cbn. by rewrite <- !app_assoc.
  - destruct Hcomp as [Hh [Hrc|(Hrc & Hpc & Hfin)]].
    + rewrite Hrc. destruct (frame_is_none_spec c); [done|]. eexists. split; [done|]. by rewrite Hh.
    + rewrite Hrc, Hpc. destruct (Hdone Hrc) as [-> _]. cbn [negb is_none]. unfold finishFrame. rewrite Hfin.
      assert (fail (resParser r) c = resParser r <| code := c |>) as -> by (unfold fail; by rewrite Hpc).
      cbv zeta. change (code (resParser r <| code := c |>)) with c. destruct (frame_is_none_spec c); [done|].
      eexists. split; [done|]. by rewrite Hh.
Qed.

(** A parser between two frames. *)
Definition at_boundary (p : Parser) : Prop :=
  frame_wf p /\ p.(code) = CodeNone /\ p.(headerN) = 0 /\
  p.(limits).(MaxHeaderBlockBytes) <= MaxUint64 - maxFrameSize.

Definition frame_in_range (f : FrameHeader * list Z) : Prop :=
  header_in_range f.1 /\ len f.2 = f.1.(Length) /\ bytes f.2.

Definition wire (f : FrameHeader * list Z) : list Z := encodeFrameHeader f.1 ++ f.2.

(** The zero-length payload of a valid frame: [finishFrame] alone delivers it. *)
Lemma empty_completes p st :
  frame_ok p -> p.(current).(Length) = 0 -> block_limit_ok p ->
  exists evs, frameEvents (room p) p.(current) [] = (evs, CodeNone) /\ frameFragment p.(current) [] = [] /\
    finishPayload (Some tracer) p st = inl (p, st ++ evs).
Proof.
  intros (_ & _ & Hv & _) HL Hb. destruct (validate_fixed _ Hv) as (H5 & H4 & H8 & H4').
  pose proof (validate_goaway _ Hv) as Hga. pose proof (validate_promise _ Hv) as Hpp.
  pose proof (validate_headers _ Hv) as Hh. pose proof (validate_data _ Hv) as Hd. rewrite HL in *.
  pose proof (app_nil_r st) as Hst. pose proof (fragmentEvents_nil p (StreamID (current p)) Hb) as Hfe.
  unfold frameEvents, frameFragment, decodeBody, finishPayload, unpad.
  destruct (Z.eqb_spec (Type_ (current p)) FrameData) as [Ht|N0].
  { destruct (Has (Flags (current p)) FlagPadded); [specialize (Hd Ht eq_refl); lia|].
    rewrite Ht. exists []. by rewrite Hst. }
  destruct (Z.eqb_spec (Type_ (current p)) FrameHeaders) as [Ht|N1].
  { specialize (Hh Ht). destruct (Has (Flags (current p)) FlagPadded), (Has (Flags (current p)) FlagPriority); try lia.
    rewrite Ht. exists []. rewrite Hst. cbn. by rewrite Hfe. }
  destruct (Z.eqb_spec (Type_ (current p)) FramePriority) as [Ht|N2]; [specialize (H5 Ht); lia|].
  destruct (Z.eqb_spec (Type_ (current p)) FrameRSTStream) as [Ht|N3]; [specialize (H4 Ht); lia|].
  destruct (Z.eqb_spec (Type_ (current p)) FrameSettings) as [Ht|N4]; [by eexists|].
  destruct (Z.eqb_spec (Type_ (current p)) FramePushPromise) as [Ht|N5].
  { specialize (Hpp Ht). destruct (Has (Flags (current p)) FlagPadded); lia. }
  destruct (Z.eqb_spec (Type_ (current p)) FramePing) as [Ht|N6]; [specialize (H8 Ht); lia|].
  destruct (Z.eqb_spec (Type_ (current p)) FrameGoAway) as [Ht|N7]; [specialize (Hga Ht); lia|].
  destruct (Z.eqb_spec (Type_ (current p)) FrameWindowUpdate) as [Ht|N8]; [specialize (H4' Ht); lia|].
  exists []. rewrite Hst. destruct (_ =? FrameContinuation); [|done]. cbn. by rewrite Hfe.
Qed.

(** [beginFrame] on nine header bytes is [specBegin]. *)
Definition opens (p : Parser) (h : FrameHeader) (s : Sequence) (r : Parser) : Prop :=
  frame_ok r /\ r.(code) = CodeNone /\ r.(state) = payloadStart /\ r.(payloadN) = 0 /\ r.(prefixN) = 0 /\
  r.(padLength) = 0 /\ r.(current) = h /\ r.(limits) = p.(limits) /\ seqOf r = s /\
  s.(seqBytes) = p.(headerBlockBytes).

Lemma beginFrame_spec p st h :
  frame_base p -> count_ok p -> p.(headerN) = 9 -> p.(code) = CodeNone -> decodeFrameHeader p.(header) = h ->
  match specBegin p.(limits) (seqOf p) h with
  | inl s => exists r, beginFrame (Some tracer) p st = ((r, st ++ [EvFrameBegin h]), CodeNone) /\ opens p h s r
  | inr c => c <> CodeNone /\ exists q, beginFrame (Some tracer) p st = ((q, st), c)
  end.
Proof.
  intros Hb Hcount HhN Hc Hh. destruct (beginFrame (Some tracer) p st) as [[q st1] c] eqn:E.
  destruct (beginFrame_ok (Some tracer) p st q st1 c Hb Hcount HhN Hc E) as (_ & Hcq & _ & _ & _ & Hopen).
  unfold beginFrame in E. fold (opened p) in E. assert (current (opened p) = h) as Hcur by exact Hh.
  pose proof (checkSequence_spec (opened p)) as Hcheck. rewrite Hcur in Hcheck.
  change (limits (opened p)) with (limits p) in Hcheck. change (seqOf (opened p)) with (seqOf p) in Hcheck.
  destruct (specBegin (limits p) (seqOf p) h) as [s|c'].
  - destruct Hcheck as (Hcs & Hss & Hsb). rewrite Hcs in E.
    set (r := opened p <| continuationCount := seqCount s |> <| headerBlockEndStream := seqEndStream s |>) in *.
    assert (current r = h) as Hcr by exact Hcur. rewrite Hcr in E. unfold invoke, tracer in E. cbn in E.
    injection E as <- <- <-. change (code r) with (code p) in *. rewrite Hc. exists r. split; [done|].
    destruct (Hopen Hc) as (Hok & _ & _). repeat (apply conj; [done|]). split; [|done].
    destruct s. cbn in Hss, Hsb. by subst.
  - destruct Hcheck as (q0 & Hq0). pose proof (checkSequence_ok _ _ _ Hq0) as (Hne & _ & n & e & Hq0e & _).
    rewrite Hq0 in E. split; [congruence|].
    assert (fail q0 c' = q0 <| code := c' |>) as Hf.
    { unfold fail. rewrite Hq0e. set (u := opened p <| continuationCount := n |> <| headerBlockEndStream := e |>).
      change (code u) with (code p). by rewrite Hc. }
    cbv zeta in E. rewrite Hf in E. injection E as <- <- <-. by exists (q0 <| code := c' |>).
Qed.

Lemma copyAt_header p h rest :
  length p.(header) = 9%nat -> copyAt (header p) 0 (encodeFrameHeader h ++ rest) = (encodeFrameHeader h, 9).
Proof.
  intros H9. unfold copyAt. rewrite H9, length_app, encode_length. change (Z.to_nat 0) with 0%nat.
  replace (Nat.min (9 - 0) _) with 9%nat by lia. cbn [take app]. rewrite drop_ge by lia.
  by rewrite app_nil_r, take_prefix.
Qed.

(** One frame of the wire: the turn of the loop is [specFrame]. *)
Lemma frameTurn_spec p st f rest :
  at_boundary p -> frame_in_range f -> bytes rest ->
  match specFrame p.(limits) (seqOf p) f.1 f.2 with
  | (Some s, evs, _) =>
      exists q, frameTurn (Some tracer) p st (wire f ++ rest) = Some (inl (q, st ++ evs, rest)) /\ seqOf q = s
  | (None, evs, c) =>
      exists o, frameTurn (Some tracer) p st (wire f ++ rest) = Some (inr o) /\ o.(outHost) = st ++ evs /\ o.(outCode) = c
  end.
Proof.
  destruct f as [h payload]. intros ((Hbase & Hcount & _) & Hc & HhN & Hmax) (Hh & Hlen & Hbp) Hbr. cbn [fst snd] in *.
  assert (bytes (payload ++ rest)) as Hb by (by apply Forall_app).
  pose proof Hbase as (Hl & H9 & _ & H8 & _ & Hhb & Hcs). rewrite specFrame_eq.
  unfold frameTurn, wire. cbn [fst snd]. rewrite <- app_assoc, HhN, copyAt_header by done. cbn [Z.ltb Z.compare].
  cbv iota zeta. change (u8 (0 + 9)) with 9. change (Z.to_nat 9) with (length (encodeFrameHeader h)).
  rewrite drop_app_length. set (p1 := p <| header := encodeFrameHeader h |> <| headerN := 9 |>).
  change (headerN p1 <? 9) with false. cbv iota.
  assert (frame_base p1) as Hb1.
  { split; [done|]. split; [done|]. split; [apply encode_bytes|]. split; [done|]. split; [cbn; lia|]. done. }
  pose proof (decode_encode_header h [] Hh) as Hd. rewrite app_nil_r in Hd.
  pose proof (beginFrame_spec p1 st h Hb1 Hcount eq_refl Hc Hd) as Hbegin.
  change (limits p1) with (limits p) in Hbegin. change (seqOf p1) with (seqOf p) in Hbegin.
  destruct (specBegin (limits p) (seqOf p) h) as [s|c'].
  2: { destruct Hbegin as (Hne & q & ->). destruct (frame_is_none_spec c'); [done|]. eexists. split; [done|].
       by rewrite app_nil_r. }
  destruct Hbegin as (r & -> & Hok & Hcr & Hst & HN & HpN & Hpad & Hcur & Hlim & Hseq & Hsb). cbn [negb is_none].
  rewrite Hcur. change (headerBlockBytes p1) with (headerBlockBytes p) in Hsb. change (limits p1) with (limits p) in Hlim.
  assert (seqBytes s = headerBlockBytes r) as Hsr by (by rewrite <- Hseq).
  assert (block_limit_ok r) as Hbl by (split; rewrite Hlim, <- ?Hsr, ?Hsb; done).
  replace (MaxHeaderBlockBytes (limits p) - seqBytes s) with (room r) by (by rewrite Hsr, <- Hlim).
  destruct (Z.eqb_spec (Length h) 0) as [HL0|HL0].
  - assert (payload = []) as -> by (apply len_zero; lia).
    destruct (empty_completes r (st ++ [EvFrameBegin h]) Hok ltac:(by rewrite Hcur) Hbl) as (evs & Hev & Hfr & Hfin).
    rewrite Hcur in Hev, Hfr. rewrite Hev, Hfr. cbn [is_none].
    destruct (finishFrame_spec r _ _ s [] Hfin Hcr) as (q' & Hq' & Hs'); [|done|].
    { rewrite len_nil, Z.add_0_r, <- Hseq. done. }
    rewrite Hq', Hcur in *. destruct (specEnd s h []) as [s' fin]. cbn [fst snd is_none negb] in *.
    exists q'. split; [|done]. rewrite <- !app_assoc. done.
  - assert (0 < Length h) by (destruct Hh as (? & _); lia).
    pose proof (payloadTurn_spec r (st ++ [EvFrameBegin h]) payload rest s Hok Hcr Hst HN HpN Hpad) as Ht.
    rewrite Hcur in Ht. specialize (Ht Hlen Hb Hbl ltac:(done) Hseq). cbv zeta in Ht.
    destruct (frameEvents (room r) h payload) as [evs c]. destruct (is_none c).
    + destruct Ht as (q' & -> & Hs'). destruct (specEnd s h (frameFragment h payload)) as [s' fin].
      exists q'. split; [|done]. rewrite <- !app_assoc. done.
    + destruct Ht as (o & -> & Ho & Hoc). exists o. split; [done|]. rewrite Ho, <- app_assoc. done.
Qed.

(** ** Streams of frames *)

(** The frames of a stream one after the other, up to the first error. *)
Fixpoint specFrames (l : Limits) (s : Sequence) (frames : list (FrameHeader * list Z))
  : option Sequence * list FrameEvent * Code :=
  match frames with
  | [] => (Some s, [], CodeNone)
  | f :: frames =>
      match specFrame l s f.1 f.2 with
      | (Some s, evs, _) => let '(s, evs', c) := specFrames l s frames in (s, evs ++ evs', c)
      | (None, evs, c) => (None, evs, c)
      end
  end.

Definition wires (frames : list (FrameHeader * list Z)) : list Z := concat (map wire frames).

Lemma wires_app f g : wires (f ++ g) = wires f ++ wires g.
Proof. unfold wires. by rewrite map_app, concat_app. Qed.

Lemma wire_bytes f : frame_in_range f -> bytes (wire f).
Proof. intros (_ & _ & Hb). apply Forall_app. split; [apply encode_bytes | done]. Qed.

Lemma wires_bytes frames : Forall frame_in_range frames -> bytes (wires frames).
Proof. induction 1; [by constructor|]. apply Forall_app. split; [by apply wire_bytes | done]. Qed.

Lemma wire_cons f : exists b s, wire f = b :: s.
Proof. unfold wire, encodeFrameHeader. cbn [app]. eauto. Qed.

Definition agrees (st : list FrameEvent) (r : option Sequence * list FrameEvent * Code)
    (o : FOutcome (St := list FrameEvent)) : Prop :=
  let '(s, evs, c) := r in
  o.(outHost) = st ++ evs /\ o.(outCode) = c /\
  (forall s', s = Some s' -> seqOf o.(outParser) = s' /\ o.(outParser).(headerN) = 0 /\ o.(outRest) = []).

Lemma frameLoop_spec fuel p st frames :
  at_boundary p -> p.(paused) = false -> p.(pauseAfterFrame) = false -> Forall frame_in_range frames ->
  (length (wires frames) <= fuel)%nat ->
  exists o, frameLoop (Some tracer) fuel p st (wires frames) = Some o /\
    agrees st (specFrames p.(limits) (seqOf p) frames) o.
Proof.
  revert p st frames. induction fuel as [|fuel IH]; intros p st [|f frames] Hp Hpd Hpa Hf Hfuel.
  1, 3: eexists; split; [done|]; (split; [by rewrite app_nil_r | split; [done|]]); intros ? [= <-]; by destruct Hp as (_ & _ & ? & _).
  { destruct (wire_cons f) as (b & s & E). change (wires (f :: frames)) with (wire f ++ wires frames) in Hfuel.
    rewrite E in Hfuel. cbn [app length] in Hfuel. lia. }
  apply Forall_cons_1 in Hf as [Hf Hfs]. pose proof (wires_bytes _ Hfs) as Hbr. pose proof (wire_bytes _ Hf) as Hbw.
  cbn [specFrames]. change (wires (f :: frames)) with (wire f ++ wires frames) in *.
  pose proof (frameTurn_spec p st f (wires frames) Hp Hf Hbr) as Ht.
  destruct Hp as (Hw & Hc & HhN & Hmax). destruct (wire_cons f) as (b & s & E).
  destruct (frameTurn_ok (Some tracer) p st (wire f ++ wires frames) Hw Hc ltac:(by apply Forall_app) ltac:(by rewrite E))
    as (t & Et & Hok).
  replace (frameLoop (Some tracer) (S fuel) p st (wire f ++ wires frames)) with
    (match frameTurn (Some tracer) p st (wire f ++ wires frames) with
     | None => None | Some (inr o) => Some o
     | Some (inl (p, st, src)) => frameLoop (Some tracer) fuel p st src end)
    by (cbn [frameLoop]; rewrite E; cbn [app]; by rewrite Hpd).
  rewrite Et in *. destruct (specFrame (limits p) (seqOf p) f.1 f.2) as [[[s1|] evs] c].
  - destruct Ht as (q & [= ->] & Hseq). destruct Hok as (Hwq & Hcq & HhNq & Hpq & (Hlq & _ & Hpaq & _) & _ & _).
    destruct (IH q (st ++ evs) frames) as (o & Ho & Hag).
    + split; [done | split; [done | split; [done | by rewrite Hlq]]].
    + by rewrite Hpq.
    + by rewrite Hpaq.
    + done.
    + rewrite length_app, E in Hfuel. cbn [length] in Hfuel. lia.
    + exists o. split; [done|]. rewrite Hlq, Hseq in Hag.
      destruct (specFrames (limits p) s1 frames) as [[s2 evs2] c2]. destruct Hag as (Hh & Hoc & Hs2).
      split; [by rewrite Hh, app_assoc | done].
  - destruct Ht as (o & [= ->] & Hh & Hoc). exists o. by split_and!.
Qed.

(** A call of [Parse] on whole frames, from a parser between frames. *)
Lemma Parse_frames p st frames :
  at_boundary p -> p.(parsing) = false -> Forall frame_in_range frames ->
  exists o, Parse (Some tracer) p st (wires frames) = Some o /\ frame_wf o.(outParser) /\
    agrees st (specFrames p.(limits) (seqOf p) frames) o.
Proof.
  intros Hp Hpar Hf. pose proof Hp as (Hw & Hc & _).
  destruct (frame_runParse_ok (Some tracer) p st (wires frames) false Hw Hpar (wires_bytes _ Hf)) as (o & Ho & Hwo & _).
  exists o. split; [done|]. split; [done|]. unfold runParse in Ho. rewrite Hpar, Hc in Ho. cbn [negb is_none] in Ho.
  cbv zeta in Ho. fold (frame_started p false) in Ho.
  destruct (frameLoop_spec (length (wires frames)) (frame_started p false) st frames Hp eq_refl eq_refl Hf ltac:(lia))
    as (o' & Eo & Hag). rewrite Eo in Ho. injection Ho as <-. exact Hag.
Qed.

(** [ParseOne] stops at the end of a frame and leaves what follows it. *)
Lemma ParseOne_frame p st f rest s evs :
  at_boundary p -> p.(parsing) = false -> frame_in_range f -> bytes rest ->
  specFrame p.(limits) (seqOf p) f.1 f.2 = (Some s, evs, CodeNone) ->
  exists q, ParseOne (Some tracer) p st (wire f ++ rest) = Some (mkFOutcome q (st ++ evs) rest CodeNone, true) /\
    at_boundary q /\ q.(parsing) = false /\ q.(limits) = p.(limits) /\ seqOf q = s.
Proof.
  intros Hp Hpar Hf Hb Hspec. pose proof Hp as (Hw & Hc & HhN & Hmax).
  pose proof (frameTurn_spec (frame_started p true) st f rest Hp Hf Hb) as Ht.
  change (specFrame (limits (frame_started p true)) (seqOf (frame_started p true)) f.1 f.2)
    with (specFrame (limits p) (seqOf p) f.1 f.2) in Ht. rewrite Hspec in Ht. destruct Ht as (q & Et & Hseq).
  destruct (wire_cons f) as (b & x & E).
  assert (bytes (wire f ++ rest)) as Hb' by (apply Forall_app; split; [by apply wire_bytes | done]).
  destruct (frameTurn_ok (Some tracer) (frame_started p true) st (wire f ++ rest) Hw Hc Hb' ltac:(by rewrite E))
    as (t & Et' & Hok). rewrite Et in Et'. injection Et' as <-.
  destruct Hok as (Hwq & Hcq & HhNq & Hpq & (Hlq & _ & _ & _) & _ & _).
  exists (q <| parsing := false |> <| pauseAfterFrame := false |>).
  split; [|split; [split; [exact Hwq | split; [exact Hcq | split; [exact HhNq|]]] | split; [done | split; [exact Hlq | exact Hseq]]]].
  - unfold ParseOne, runParse. rewrite Hpar, Hc. cbn [negb is_none]. cbv zeta. fold (frame_started p true).
    rewrite E in *. cbn [app length frameLoop] in *. rewrite Et.
    change (paused (frame_started p true)) with false. cbv iota.
    assert (forall n, frameLoop (Some tracer) n q (st ++ evs) rest = Some (mkFOutcome q (st ++ evs) rest CodeNone)) as ->.
    { intros n. destruct n, rest; try done; cbn; by rewrite Hpq. }
    cbn. by rewrite Hpq.
  - change (limits (q <| parsing := false |> <| pauseAfterFrame := false |>)) with (limits q). by rewrite Hlq.
Qed.

(** ** The encoder *)

(** The fields of a [FrameHeader] value in Go. *)
Definition header_typed (h : FrameHeader) : Prop :=
  in_u32 h.(Length) /\ in_u8 h.(Type_) /\ in_u8 h.(Flags) /\ in_u32 h.(StreamID).

Definition sized (h : FrameHeader) (payload : list Z) : FrameHeader :=
  mkFrameHeader (len payload) h.(Type_) h.(Flags) h.(StreamID).

(** What [AppendFrame] accepts. *)
Definition appendable (h : FrameHeader) (payload : list Z) : bool :=
  (len payload <=? maxFrameSize) && ((h.(Length) =? 0) || (h.(Length) =? len payload)) &&
  (h.(StreamID) <=? streamMask).

Lemma AppendFrame_eq dst h payload :
  header_typed h ->
  AppendFrame dst h payload =
    if appendable h payload then
      if is_none (validateFrameHeader (sized h payload)) then (dst ++ wire (sized h payload, payload), CodeNone)
      else (dst, validateFrameHeader (sized h payload))
    else (dst, CodeInvalidFrameSize).
Proof.
  intros (HL & _ & _ & Hid). unfold AppendFrame, appendable. rewrite !Z.leb_antisym. pose proof (len_nonneg payload).
  destruct (Z.ltb_spec maxFrameSize (len payload)); cbn [negb orb andb]; [done|].
  rewrite u32_small by (widths; lia). fold (sized h payload).
  destruct (Length h =? 0), (Length h =? len payload), (streamMask <? StreamID h); cbn [negb orb andb]; try done;
    by destruct (validateFrameHeader (sized h payload)).
Qed.

Lemma appendable_in_range h payload :
  header_typed h -> bytes payload -> appendable h payload = true -> frame_in_range (sized h payload, payload).
Proof.
  intros (HL & Ht & Hf & Hid) Hb Ha. unfold appendable in Ha. apply andb_prop in Ha as [Ha Hs].
  apply andb_prop in Ha as [Ha _]. apply Z.leb_le in Ha, Hs. pose proof (len_nonneg payload).
  unfold in_u32 in Hid. split; [|done]. split_and!; cbn; done || lia.
Qed.

(** ** The other methods *)

Lemma frame_normalized_ok l :
  in_u32 l.(MaxFrameSize) -> in_u64 l.(MaxHeaderBlockBytes) -> in_u32 l.(MaxContinuationFrames) ->
  frame_limits_ok (normalized l).
Proof.
  intros H1 H2 H3. unfold frame_limits_ok, normalized, in_u32, in_u64, defaultMaxFrameSize, defaultMaxHeaderBlockBytes,
    defaultMaxContinuationFrames in *. cbn [MaxFrameSize MaxHeaderBlockBytes MaxContinuationFrames].
  change (Z.shiftl 16 10) with 16384. change (Z.shiftl 1 20) with 1048576. widths.
  destruct (Z.eqb_spec (MaxFrameSize l) 0), (Z.eqb_spec (MaxHeaderBlockBytes l) 0), (Z.eqb_spec (MaxContinuationFrames l) 0);
    match goal with |- context [if ?x <? ?y then _ else _] => destruct (Z.ltb_spec x y) end; lia.
Qed.

Lemma frame_zeroParser_wf l : frame_limits_ok l -> frame_wf (zeroParser l).
Proof.
  intros Hl. pose proof Hl as (? & ? & ?).
  assert (bytes (replicate 9 0)) by (repeat constructor; unfold in_u8, MaxUint8; lia).
  split; [|split; [intros _; cbn; lia | intros _ H9; cbn in H9; lia]].
  repeat (apply conj; [done || (cbn; lia)|]). cbn. unfold streamMask. lia.
Qed.

Lemma frame_fail_wf p c : frame_wf p -> c <> CodeNone -> frame_wf (fail p c).
Proof.
  intros Hw Hc. unfold fail. destruct (is_none (code p)); [|done]. destruct Hw as (Hb & _ & _).
  split; [exact Hb|]. split; by intros ?.
Qed.

Lemma frame_Init_wf p l :
  frame_wf p -> in_u32 l.(MaxFrameSize) -> in_u64 l.(MaxHeaderBlockBytes) -> in_u32 l.(MaxContinuationFrames) ->
  frame_wf (Init p l).
Proof.
  intros Hw ? ? ?. unfold Init. destruct (parsing p); [by apply frame_fail_wf|].
  by apply frame_zeroParser_wf, frame_normalized_ok.
Qed.

Lemma frame_limits_typed l : frame_limits_ok l ->
  in_u32 l.(MaxFrameSize) /\ in_u64 l.(MaxHeaderBlockBytes) /\ in_u32 l.(MaxContinuationFrames).
Proof. intros (? & ? & ?). unfold in_u32, in_u64. widths. lia. Qed.

Lemma frame_Reset_wf p : frame_wf p -> frame_wf (Reset p).
Proof.
  intros Hw. unfold Reset. destruct (parsing p) eqn:Hp; [by apply frame_fail_wf|].
  pose proof Hw as ((Hl & _) & _ & _). destruct (frame_limits_typed _ Hl) as (? & ? & ?). by apply frame_Init_wf.
Qed.

Lemma frame_Finish_wf p : frame_wf p -> frame_wf (Finish p).1.
Proof.
  intros Hw. unfold Finish. destruct (parsing p); [by apply frame_fail_wf|].
  destruct (is_none (code p)); cbn [negb]; [|done]. destruct (_ || _); [by apply frame_fail_wf | done].
Qed.
