(* ===== verification/H2BlockSpec.v ===== *)
(** * HTTP/2 frames: header blocks and settings

    How a header block is cut into one HEADERS (or PUSH_PROMISE) frame and
    CONTINUATION frames, and that the reference decoder of [H2FrameSpec] puts it
    together again; SETTINGS frames likewise.  The session and the client both
    send them this way. *)

From S2P Require Import Prelude H2Frame H2FrameWf H2FrameSpec.

(** The CONTINUATION frames of the rest of a block: the last one ends it. *)
Fixpoint contFrames (id : Z) (chunks : list (list Z)) : list (FrameHeader * list Z) :=
  match chunks with
  | [] => []
  | c :: rest =>
      (mkFrameHeader (len c) FrameContinuation (match rest with [] => FlagEndHeaders | _ => 0 end) id, c) :: contFrames id rest
  end.

(** The frames of a block: a HEADERS or PUSH_PROMISE frame, then CONTINUATION. *)
Definition blockFrames (t id : Z) (prefix : list Z) (fin : bool) (chunks : list (list Z)) : list (FrameHeader * list Z) :=
  match chunks with
  | [] => []
  | c :: rest =>
      let flags := match rest with [] => FlagEndHeaders | _ => 0 end in
      let flags := if fin && (t =? FrameHeaders) then Z.lor flags FlagEndStream else flags in
      (mkFrameHeader (len (prefix ++ c)) t flags id, prefix ++ c) :: contFrames id rest
  end.

(** ** Header blocks at the receiver *)

(** The header block bytes a host is told, and the ends of blocks. *)
Definition headerBytes (evs : list FrameEvent) : list Z :=
  concat (map (fun e => match e with EvHeaderBlock _ f => f | _ => [] end) evs).

Definition blockEnds (evs : list FrameEvent) : list (Z * bool) :=
  concat (map (fun e => match e with EvHeaderBlockEnd id fin => [(id, fin)] | _ => [] end) evs).

Lemma headerBytes_app x y : headerBytes (x ++ y) = headerBytes x ++ headerBytes y.
Proof. unfold headerBytes. by rewrite map_app, concat_app. Qed.
Lemma blockEnds_app x y : blockEnds (x ++ y) = blockEnds x ++ blockEnds y.
Proof. unfold blockEnds. by rewrite map_app, concat_app. Qed.

Lemma told_bytes id c : headerBytes (told (EvHeaderBlock id) c) = c /\ blockEnds (told (EvHeaderBlock id) c) = [].
Proof. unfold headerBytes, blockEnds. destruct c; [done|]. cbn. by rewrite app_nil_r. Qed.

(** A header block frame without padding or priority. *)
Lemma specFrame_block l (seq s1 : Sequence) h c payload :
  specBegin l seq h = inl s1 -> decodeBody h payload = Some (BContinuation c) \/ decodeBody h payload = Some (BHeaders None c) ->
  s1.(seqBytes) + len c <= l.(MaxHeaderBlockBytes) -> isHeaderBlockFrame h.(Type_) = true ->
  exists evs, specFrame l seq h payload =
    (Some (if Has h.(Flags) FlagEndHeaders then noSequence
           else if s1.(seqStream) =? 0 then mkSequence h.(StreamID) 0 (s1.(seqBytes) + len c) s1.(seqEndStream)
           else mkSequence s1.(seqStream) s1.(seqCount) (s1.(seqBytes) + len c) s1.(seqEndStream)), evs, CodeNone) /\
    headerBytes evs = c /\ blockEnds evs = (if Has h.(Flags) FlagEndHeaders then [(h.(StreamID), s1.(seqEndStream))] else []).
Proof.
  intros Hb Hd Hroom Ht. unfold specFrame. rewrite Hb.
  assert (exists body, decodeBody h payload = Some body /\ fragmentOf body = c /\
    bodyEvents (MaxHeaderBlockBytes l - seqBytes s1) h body = (told (EvHeaderBlock (StreamID h)) c, CodeNone)) as (body & -> & Ef & ->).
  { assert ((MaxHeaderBlockBytes l - seqBytes s1 <? len c) = false) as Hr by (apply Z.ltb_ge; lia).
    destruct Hd as [Hd|Hd]; rewrite Hd; eexists; (split; [done|]); (split; [done|]); cbn; unfold fragmentEvents; by rewrite Hr. }
  unfold specEnd. rewrite Ht, Ef. destruct (told_bytes (StreamID h) c) as [T1 T2].
  destruct (Has _ _); [|destruct (_ =? 0)]; eexists; (split; [done|]);
    change (EvFrameBegin h :: ?x) with ([EvFrameBegin h] ++ x); rewrite !headerBytes_app, !blockEnds_app, T1, T2; cbn; by rewrite ?app_nil_r.
Qed.

Lemma cont_header_valid n fl id : 0 < id -> validateFrameHeader (mkFrameHeader n FrameContinuation fl id) = CodeNone.
Proof. intros Hid. unfold validateFrameHeader. cbn. destruct (Z.eqb_spec id 0); [lia|]. done. Qed.

Lemma headers_header_valid n fl id :
  0 < id -> 0 <= n -> Has fl FlagPadded = false -> Has fl FlagPriority = false ->
  validateFrameHeader (mkFrameHeader n FrameHeaders fl id) = CodeNone.
Proof.
  intros Hid Hn Hp Hq. unfold validateFrameHeader. cbn. destruct (Z.eqb_spec id 0); [lia|]. rewrite Hp, Hq. cbn.
  destruct (Z.ltb_spec n 0); [lia | done].
Qed.

(** The rest of a block reassembles. *)
Lemma contFrames_spec l id k n fin chunks :
  0 < id -> chunks <> [] -> 0 <= k -> 0 <= n -> Forall (fun c => len c <= l.(MaxFrameSize)) chunks ->
  k + len chunks <= l.(MaxContinuationFrames) -> l.(MaxContinuationFrames) <= MaxUint32 ->
  n + len (concat chunks) <= l.(MaxHeaderBlockBytes) ->
  exists evs, specFrames l (mkSequence id k n fin) (contFrames id chunks) = (Some noSequence, evs, CodeNone) /\
    headerBytes evs = concat chunks /\ blockEnds evs = [(id, fin)].
Proof.
  intros Hid Hne Hk Hn Hl. revert Hne k n Hk Hn. induction Hl as [|c chunks Hc Hl IH]; intros Hne k n Hk Hn Hcount Hmax Hroom; [done|].
  cbn [contFrames specFrames fst snd]. cbn [concat] in *. rewrite len_app in Hroom. rewrite len_cons in Hcount.
  pose proof (len_nonneg chunks). pose proof (len_nonneg c). pose proof (len_nonneg (concat chunks)).
  set (fl := match chunks with [] => _ | _ => _ end). set (h := mkFrameHeader (len c) FrameContinuation fl id).
  assert (specBegin l (mkSequence id k n fin) h = inl (mkSequence id (k + 1) n fin)) as Hb.
  { unfold specBegin. cbn. destruct (Z.ltb_spec (MaxFrameSize l) (len c)); [lia|]. destruct (Z.eqb_spec id 0); [lia|].
    rewrite Z.eqb_refl, u32_small by lia. cbn. destruct (Z.ltb_spec (MaxContinuationFrames l) (k + 1)); [lia|].
    unfold h. by rewrite cont_header_valid. }
  destruct (specFrame_block l _ _ h c c Hb (or_introl eq_refl) ltac:(cbn; lia) eq_refl) as (evs & -> & E1 & E2).
  cbn [StreamID seqStream seqCount seqBytes seqEndStream Flags h] in E2 |- *. unfold fl in *. destruct chunks as [|c' chunks].
  { cbn. exists (evs ++ []). split; [done|]. rewrite !app_nil_r. by rewrite E1, E2. }
  change (Has 0 FlagEndHeaders) with false in *. cbv iota in *. rewrite (proj2 (Z.eqb_neq id 0)) by lia.
  destruct (IH ltac:(done) (k + 1) (n + len c) ltac:(lia) ltac:(lia) ltac:(lia) Hmax ltac:(lia)) as (evs' & E & F1 & F2).
  rewrite E. exists (evs ++ evs'). split; [done|]. by rewrite headerBytes_app, blockEnds_app, E1, E2, F1, F2.
Qed.

(** A block sent by HEADERS and CONTINUATION frames reassembles. *)
Lemma blockFrames_spec l id fin c chunks :
  0 < id -> len c <= l.(MaxFrameSize) -> Forall (fun c => len c <= l.(MaxFrameSize)) chunks ->
  len chunks <= l.(MaxContinuationFrames) -> l.(MaxContinuationFrames) <= MaxUint32 ->
  len (c ++ concat chunks) <= l.(MaxHeaderBlockBytes) ->
  exists evs, specFrames l noSequence (blockFrames FrameHeaders id [] fin (c :: chunks)) = (Some noSequence, evs, CodeNone) /\
    headerBytes evs = c ++ concat chunks /\ blockEnds evs = [(id, fin)].
Proof.
  intros Hid Hc Hl Hcount Hmax Hroom. cbn [blockFrames specFrames fst snd app]. rewrite len_app in Hroom.
  pose proof (len_nonneg c). pose proof (len_nonneg (concat chunks)). set (fl := if fin && _ then _ else _).
  set (h := mkFrameHeader (len c) FrameHeaders fl id).
  assert (Has fl FlagPadded = false /\ Has fl FlagPriority = false /\ Has fl FlagEndStream = fin /\
    Has fl FlagEndHeaders = match chunks with [] => true | _ => false end) as (P1 & P2 & P3 & P4) by (unfold fl; by destruct chunks, fin).
  assert (specBegin l noSequence h = inl (mkSequence 0 0 0 fin)) as Hb.
  { unfold specBegin. cbn. destruct (Z.ltb_spec (MaxFrameSize l) (len c)); [lia|]. unfold h. rewrite headers_header_valid by (done || lia).
    cbn. by rewrite P3. }
  assert (decodeBody h c = Some (BHeaders None c)) as Hd.
  { unfold decodeBody. cbn. rewrite P2. unfold unpad. cbn. by rewrite P1. }
  destruct (specFrame_block l _ _ h c c Hb (or_intror Hd) ltac:(cbn; lia) eq_refl) as (evs & -> & E1 & E2).
  cbn [StreamID seqStream seqCount seqBytes seqEndStream Flags h] in E2 |- *. rewrite P4 in *. destruct chunks as [|c' chunks].
  { cbn. exists (evs ++ []). split; [done|]. rewrite !app_nil_r. by rewrite E1, E2. }
  change (0 =? 0) with true. cbv iota. rewrite Z.add_0_l.
  destruct (contFrames_spec l id 0 (len c) fin (c' :: chunks) Hid ltac:(done) ltac:(lia) ltac:(lia) Hl ltac:(lia) Hmax ltac:(lia))
    as (evs' & E & F1 & F2).
  rewrite E. exists (evs ++ evs'). split; [done|]. by rewrite headerBytes_app, blockEnds_app, E1, E2, F1, F2.
Qed.

(** ** Settings on the wire *)

Definition setting_typed (x : Setting) : Prop := in_u16 x.(ID) /\ in_u32 x.(Value).

Lemma decode_encodeSettings l : Forall setting_typed l -> decodeSettings (concat (map encodeSetting l)) = l.
Proof.
  induction 1 as [|[i v] l [Hi Hv] Hl IH]; [done|]. cbn [map concat].
  change (encodeSetting (mkSetting i v)) with (putUint16 i ++ putUint32 v). unfold putUint16, putUint32. cbn [app decodeSettings].
  rewrite IH. do 2 f_equal.
  - change (Z.lor (Z.shiftl (toByte (Z.shiftr i 8)) 8) (toByte i) = i). cbn in Hi.
    rewrite shiftr_byte, toByte_eq, lor_shiftl_add by (lia || (pose proof (mod_octet i); lia)).
    unfold in_u16, MaxUint16 in Hi. change (2 ^ 8) with 256. divmod.
  - change (Z.lor (Z.lor (Z.lor (Z.shiftl (toByte (Z.shiftr v 24)) 24) (Z.shiftl (toByte (Z.shiftr v 16)) 16))
      (Z.shiftl (toByte (Z.shiftr v 8)) 8)) (toByte v) = v). cbn in Hv.
    rewrite !shiftr_byte, toByte_eq, octets4 by (lia || apply mod_octet). unfold in_u32, MaxUint32 in Hv.
    change (2 ^ 24) with 16777216. change (2 ^ 16) with 65536. change (2 ^ 8) with 256. divmod.
Qed.

Lemma settingsEvents_valid l : Forall (fun x => validSetting x = true) l -> settingsEvents l = (map EvSetting l, CodeNone).
Proof. induction 1 as [|x l Hx Hl IH]; [done|]. cbn [settingsEvents map]. by rewrite Hx, IH. Qed.

Lemma settings_payload_len l : len (concat (map encodeSetting l)) = len l * 6.
Proof. induction l as [|x l IH]; [done|]. cbn [map concat]. rewrite len_app, IH, len_cons. change (len (encodeSetting x)) with 6. lia. Qed.

(** A SETTINGS frame tells the peer exactly the settings it was made of. *)
Lemma settings_frame_spec lim l :
  let payload := concat (map encodeSetting l) in
  let h := mkFrameHeader (len payload) FrameSettings 0 0 in
  Forall setting_typed l -> Forall (fun x => validSetting x = true) l -> len l * 6 <= lim.(MaxFrameSize) ->
  specFrame lim noSequence h payload =
    (Some noSequence, EvFrameBegin h :: map EvSetting l ++ [EvSettingsEnd false; EvFrameComplete h], CodeNone).
Proof.
  intros payload h Ht Hv Hl. assert (len payload = len l * 6) as El by apply settings_payload_len.
  assert (validateFrameHeader h = CodeNone) as Hval.
  { unfold validateFrameHeader, h. cbn -[Z.modulo len payload]. by rewrite El, Z.mod_mul by lia. }
  assert (specBegin lim noSequence h = inl noSequence) as Hb.
  { unfold specBegin. rewrite Hval. cbn -[len payload]. rewrite El. destruct (Z.ltb_spec (MaxFrameSize lim) (len l * 6)); [lia | done]. }
  assert (decodeBody h payload = Some (BSettings l)) as Hd.
  { unfold decodeBody. cbn -[payload]. unfold payload. by rewrite decode_encodeSettings. }
  unfold specFrame. rewrite Hb, Hd. cbn. rewrite settingsEvents_valid by done. cbn. by rewrite <- app_assoc.
Qed.
