(* ===== verification/H2FrameCodec.v ===== *)
(** * HTTP/2 frames: the fields of a frame, written and read back

    [encodeBody] lays the fields of a frame out as RFC 9113, section 6 has
    them, [frame_valid] says which frames a parser accepts where it stands, and
    [frameTells] what its host is told of them.  A valid frame is written by
    [AppendFrame] and read back by the reference decoder of [H2FrameSpec]. *)

From S2P Require Import Prelude H2Frame H2FrameWf H2FrameSpec H2BlockSpec.
Open Scope Z_scope.

(** ** The layout *)

Definition encodePriority (pr : PriorityParam) : list Z :=
  putUint32 (pr.(StreamDependency) + (if pr.(Exclusive) then 2 ^ 31 else 0)) ++ [pr.(Weight)].

(** A pad length octet in front and that many zeros behind. *)
Definition padded (pad : option Z) (body : list Z) : list Z :=
  match pad with Some n => n :: body ++ replicate (Z.to_nat n) 0 | None => body end.

Definition encodeBody (pad : option Z) (body : FrameBody) : list Z :=
  match body with
  | BData content => padded pad content
  | BHeaders None fragment => padded pad fragment
  | BHeaders (Some pr) fragment => padded pad (encodePriority pr ++ fragment)
  | BPriority pr => encodePriority pr
  | BRSTStream code => putUint32 code
  | BSettings settings => concat (map encodeSetting settings)
  | BPushPromise promised fragment => padded pad (putUint32 promised ++ fragment)
  | BPing data => data
  | BGoAway lastStream code debug => putUint32 lastStream ++ putUint32 code ++ debug
  | BWindowUpdate increment => putUint32 increment
  | BContinuation fragment => fragment
  | BUnknown payload => payload
  end.

(** ** Valid frames *)

Definition priority_valid (id : Z) (pr : PriorityParam) : Prop :=
  0 <= pr.(StreamDependency) < 2 ^ 31 /\ pr.(StreamDependency) <> id /\ in_u8 pr.(Weight).

(** RFC 9113, 6.5.2, RFC 8441 and RFC 9218: the values of the settings. *)
Definition setting_valid (x : Setting) : Prop :=
  in_u16 x.(ID) /\ in_u32 x.(Value) /\
  (x.(ID) = 2 \/ x.(ID) = 8 \/ x.(ID) = 9 -> x.(Value) <= 1) /\
  (x.(ID) = 4 -> x.(Value) < 2 ^ 31) /\
  (x.(ID) = 5 -> 2 ^ 14 <= x.(Value) < 2 ^ 24).

(** The flag says whether there is padding. *)
Definition pad_valid (flags : Z) (pad : option Z) : Prop :=
  match pad with Some n => Has flags FlagPadded = true /\ in_u8 n | None => Has flags FlagPadded = false end.

(** The fields agree with the header: type, flags, stream and ranges. *)
Definition body_valid (h : FrameHeader) (pad : option Z) (body : FrameBody) : Prop :=
  let id := h.(StreamID) in
  match body with
  | BData content => h.(Type_) = 0 /\ 0 < id /\ pad_valid h.(Flags) pad /\ bytes content
  | BHeaders pr fragment =>
      h.(Type_) = 1 /\ 0 < id /\ pad_valid h.(Flags) pad /\ bytes fragment /\
      match pr with
      | Some pr => Has h.(Flags) FlagPriority = true /\ priority_valid id pr
      | None => Has h.(Flags) FlagPriority = false
      end
  | BPriority pr => h.(Type_) = 2 /\ 0 < id /\ priority_valid id pr
  | BRSTStream code => h.(Type_) = 3 /\ 0 < id /\ in_u32 code
  | BSettings settings =>
      h.(Type_) = 4 /\ id = 0 /\ Forall setting_valid settings /\ (Has h.(Flags) FlagACK = true -> settings = [])
  | BPushPromise promised fragment =>
      h.(Type_) = 5 /\ 0 < id /\ pad_valid h.(Flags) pad /\ 0 < promised < 2 ^ 31 /\ bytes fragment
  | BPing data => h.(Type_) = 6 /\ id = 0 /\ len data = 8 /\ bytes data
  | BGoAway lastStream code debug => h.(Type_) = 7 /\ id = 0 /\ 0 <= lastStream < 2 ^ 31 /\ in_u32 code /\ bytes debug
  | BWindowUpdate increment => h.(Type_) = 8 /\ 0 < increment < 2 ^ 31
  | BContinuation fragment => h.(Type_) = 9 /\ 0 < id /\ bytes fragment
  | BUnknown payload => 9 < h.(Type_) /\ bytes payload
  end.

(** The frame comes at its turn: a CONTINUATION on the stream of the open
    header block, within the number of them a block may have, and any other
    frame outside a block; a fragment fits what the block may still hold. *)
Definition turn_valid (l : Limits) (s : Sequence) (h : FrameHeader) (body : FrameBody) : Prop :=
  (match body with
   | BContinuation _ => s.(seqStream) = h.(StreamID) /\ 0 <= s.(seqCount) < l.(MaxContinuationFrames)
   | _ => s.(seqStream) = 0
   end) /\ 0 <= s.(seqBytes) /\ s.(seqBytes) + len (fragmentOf body) <= l.(MaxHeaderBlockBytes).

Definition frame_valid (l : Limits) (s : Sequence) (h : FrameHeader) (pad : option Z) (body : FrameBody) : Prop :=
  in_u8 h.(Type_) /\ in_u8 h.(Flags) /\ 0 <= h.(StreamID) < 2 ^ 31 /\ h.(Length) = 0 /\
  len (encodeBody pad body) <= l.(MaxFrameSize) /\ body_valid h pad body /\ turn_valid l s h body.

(** ** What the host is told *)

Definition fieldsTold (h : FrameHeader) (body : FrameBody) : list FrameEvent :=
  let id := h.(StreamID) in
  match body with
  | BData content => told (fun s => EvData id s (Has h.(Flags) FlagEndStream)) content
  | BHeaders None fragment => told (EvHeaderBlock id) fragment
  | BHeaders (Some pr) fragment => EvPriority id pr :: told (EvHeaderBlock id) fragment
  | BPriority pr => [EvPriority id pr]
  | BRSTStream code => [EvRSTStream id code]
  | BSettings settings => map EvSetting settings ++ [EvSettingsEnd (Has h.(Flags) FlagACK)]
  | BPushPromise promised fragment => EvPushPromise id promised :: told (EvHeaderBlock id) fragment
  | BPing data => [EvPing data (Has h.(Flags) FlagACK)]
  | BGoAway lastStream code debug => told EvGoAwayDebug debug ++ [EvGoAway lastStream code]
  | BWindowUpdate increment => [EvWindowUpdate id increment]
  | BContinuation fragment => told (EvHeaderBlock id) fragment
  | BUnknown payload => told (EvUnknown h) payload
  end.

(** Whether the frame carries a part of a header block. *)
Definition carriesBlock (body : FrameBody) : bool :=
  match body with BHeaders _ _ | BPushPromise _ _ | BContinuation _ => true | _ => false end.

(** Whether the block of the frame ends its stream: HEADERS say so themselves. *)
Definition endsStream (s : Sequence) (h : FrameHeader) (body : FrameBody) : bool :=
  match body with BHeaders _ _ => Has h.(Flags) FlagEndStream | _ => s.(seqEndStream) end.

Definition frameTells (s : Sequence) (h : FrameHeader) (body : FrameBody) : list FrameEvent :=
  EvFrameBegin h :: fieldsTold h body ++
  (if carriesBlock body && Has h.(Flags) FlagEndHeaders then [EvHeaderBlockEnd h.(StreamID) (endsStream s h body)] else []) ++
  [EvFrameComplete h].

(** ** The decoder reads the layout *)

Lemma Uint32At_put v tail : in_u32 v -> Uint32At (putUint32 v ++ tail) 0 = v.
Proof.
  intros Hv. change (Uint32At (putUint32 v ++ tail) 0) with
    (Z.lor (Z.lor (Z.lor (Z.shiftl (toByte (Z.shiftr v 24)) 24) (Z.shiftl (toByte (Z.shiftr v 16)) 16))
      (Z.shiftl (toByte (Z.shiftr v 8)) 8)) (toByte v)).
  rewrite !shiftr_byte, toByte_eq, octets4 by (lia || apply mod_octet). unfold in_u32, MaxUint32 in Hv.
  change (2 ^ 24) with 16777216. change (2 ^ 16) with 65536. change (2 ^ 8) with 256. divmod.
Qed.

Lemma Uint32At_second a v tail : in_u32 v -> Uint32At (putUint32 a ++ putUint32 v ++ tail) 4 = v.
Proof. exact (Uint32At_put v tail). Qed.

Lemma mask_small v : 0 <= v < 2 ^ 31 -> Z.land v streamMask = v.
Proof. intros H. change streamMask with (Z.ones 31). rewrite Z.land_ones by lia. by apply Z.mod_small. Qed.

Lemma decode_encodePriority pr id : priority_valid id pr -> decodePriority (encodePriority pr) = pr.
Proof.
  intros (Hd & _ & Hw). unfold decodePriority, encodePriority. set (v := _ + _).
  assert (in_u32 v) as Hv by (unfold v, in_u32, MaxUint32; destruct (Exclusive pr); lia).
  rewrite Uint32At_put by done. destruct pr as [d x w]. cbn [StreamDependency Exclusive Weight] in *. f_equal.
  - change streamMask with (Z.ones 31). rewrite Z.land_ones by lia. unfold v. destruct x; divmod.
  - rewrite Z.shiftr_div_pow2 by lia. assert (v / 2 ^ 31 = if x then 1 else 0) as -> by (unfold v; destruct x; divmod). by destruct x.
Qed.

Lemma prefix_len {A} (x y : list A) : len x <= len (x ++ y).
Proof. rewrite len_app. pose proof (len_nonneg y). lia. Qed.

Lemma unpad_padded h pad minimum body :
  pad_valid h.(Flags) pad -> minimum <= len body -> unpad h minimum (padded pad body) = Some body.
Proof.
  intros Hp Hm. unfold unpad, padded. destruct pad as [n|]; [|by rewrite Hp]. destruct Hp as [-> Hn]. unfold in_u8 in Hn.
  assert (len (replicate (Z.to_nat n) 0) = n) as E by (unfold len; rewrite length_replicate; lia).
  rewrite len_app, E. destruct (Z.ltb_spec (len body + n - minimum) n); [lia|]. f_equal. apply take_exact. lia.
Qed.

Ltac frame_type Ht :=
  rewrite Ht; unfold FrameData, FrameHeaders, FramePriority, FrameRSTStream, FrameSettings, FramePushPromise, FramePing,
    FrameGoAway, FrameWindowUpdate, FrameContinuation; cbn [Z.eqb Pos.eqb orb andb].

Lemma decode_encodeBody h pad body :
  body_valid h pad body -> decodeBody (sized h (encodeBody pad body)) (encodeBody pad body) = Some body.
Proof.
  intros Hb. unfold decodeBody. cbn [Type_ Flags sized].
  destruct body as [c|[pr|] f|pr|c|l|pr f|d|last c dbg|i|f|x]; cbn [body_valid encodeBody] in *; destruct Hb as [Ht Hb];
    try frame_type Ht.
  - destruct Hb as (_ & Hp & _). by rewrite unpad_padded by (done || apply len_nonneg).
  - destruct Hb as (_ & Hp & _ & -> & Hpr). rewrite unpad_padded by (done || apply (prefix_len (encodePriority pr))).
    cbn [mbind option_bind]. rewrite take_app_length', drop_app_length' by done. by rewrite (decode_encodePriority pr _ Hpr).
  - destruct Hb as (_ & Hp & _ & ->). by rewrite unpad_padded by (done || apply len_nonneg).
  - destruct Hb as (_ & Hpr). by rewrite (decode_encodePriority pr _ Hpr).
  - destruct Hb as (_ & Hc). rewrite <- (app_nil_r (putUint32 c)). by rewrite Uint32At_put.
  - destruct Hb as (_ & Hl & _). rewrite decode_encodeSettings; [done|]. eapply Forall_impl; [|exact Hl]. by intros x (? & ? & _).
  - destruct Hb as (_ & Hp & Hpr & _). rewrite unpad_padded by (done || apply (prefix_len (putUint32 pr))).
    cbn [mbind option_bind]. rewrite Uint32At_put, mask_small by (unfold in_u32, MaxUint32; lia). by rewrite drop_app_length' by done.
  - done.
  - destruct Hb as (_ & Hl & Hc & _). rewrite Uint32At_put, Uint32At_second, mask_small by (done || unfold in_u32, MaxUint32; lia).
    rewrite app_assoc. by rewrite drop_app_length' by done.
  - rewrite <- (app_nil_r (putUint32 i)). rewrite Uint32At_put, mask_small by (unfold in_u32, MaxUint32; lia). done.
  - done.
  - unfold FrameData, FrameHeaders, FramePriority, FrameRSTStream, FrameSettings, FramePushPromise, FramePing,
      FrameGoAway, FrameWindowUpdate, FrameContinuation. by rewrite !(proj2 (Z.eqb_neq _ _)) by lia.
Qed.

Lemma setting_valid_spec x : setting_valid x -> validSetting x = true.
Proof.
  intros (_ & _ & H1 & H4 & H5). unfold validSetting, SettingEnablePush, SettingEnableConnectProtocol, SettingNoRFC7540Priorities,
    SettingInitialWindowSize, SettingMaxFrameSize, streamMask, defaultMaxFrameSize, maxFrameSize.
  change (Z.shiftl 16 10) with 16384. change (Z.shiftl 1 24 - 1) with 16777215.
  repeat match goal with |- context [?a =? ?b] => destruct (Z.eqb_spec a b) end; cbn [orb]; lia.
Qed.

Lemma bodyEvents_valid l s h pad body :
  let h' := sized h (encodeBody pad body) in
  body_valid h pad body -> turn_valid l s h body ->
  bodyEvents (l.(MaxHeaderBlockBytes) - s.(seqBytes)) h' body = (fieldsTold h' body, CodeNone).
Proof.
  intros h' Hb (_ & H0 & Hroom). assert (forall f, fragmentOf body = f ->
    fragmentEvents (MaxHeaderBlockBytes l - seqBytes s) (StreamID h) f = (told (EvHeaderBlock (StreamID h)) f, CodeNone)) as Hf.
  { intros f <-. unfold fragmentEvents. by rewrite (proj2 (Z.ltb_ge _ _)) by lia. }
  subst h'. destruct body as [c|[pr|] f|pr|c|x|pr f|d|last c dbg|i|f|x]; cbn [body_valid bodyEvents fieldsTold sized StreamID Flags] in *;
    try done; try (by apply Hf).
  - destruct Hb as (_ & _ & _ & _ & _ & _ & Hne & _). rewrite (proj2 (Z.eqb_neq _ _)) by done. by rewrite (Hf f).
  - destruct Hb as (_ & _ & _ & Hne & _). by rewrite (proj2 (Z.eqb_neq _ _)).
  - destruct Hb as (_ & _ & Hl & _). rewrite settingsEvents_valid; [done|]. eapply Forall_impl; [apply setting_valid_spec | exact Hl].
  - destruct Hb as (_ & _ & _ & Hp & _). rewrite (proj2 (Z.eqb_neq _ _)) by lia. by rewrite (Hf f).
  - destruct Hb as (_ & Hi). by rewrite (proj2 (Z.eqb_neq _ _)) by lia.
Qed.

Lemma header_valid h pad body : body_valid h pad body -> validateFrameHeader (sized h (encodeBody pad body)) = CodeNone.
Proof.
  intros Hb. unfold validateFrameHeader. set (n := len (encodeBody pad body)). cbn [sized Type_ Flags StreamID Length]. fold n.
  assert (forall x minimum, n = len (padded pad x) -> pad_valid h.(Flags) pad -> minimum <= len x ->
    minimum + (if Has h.(Flags) FlagPadded then 1 else 0) <= n) as Hp.
  { intros x m E Hp Hm. rewrite E. unfold padded, pad_valid in *. destruct pad as [k|]; [|rewrite Hp; lia].
    destruct Hp as [-> _]. rewrite len_cons. pose proof (prefix_len x (replicate (Z.to_nat k) 0)). lia. }
  destruct body as [c|[pr|] f|pr|c|l|pr f|d|last c dbg|i|f|x]; cbn [body_valid encodeBody] in *; destruct Hb as [Ht Hb];
    try frame_type Ht; try (rewrite (proj2 (Z.eqb_neq (StreamID h) 0)) by lia); try (rewrite (proj2 (Z.eqb_eq (StreamID h) 0)) by lia);
    cbn [orb negb]; try done.
  - specialize (Hp c 0 eq_refl ltac:(tauto) (len_nonneg c)). destruct (Has _ _); [|done]. by rewrite (proj2 (Z.ltb_ge _ _)).
  - destruct Hb as (_ & Hv & _ & -> & _). specialize (Hp _ 5 eq_refl Hv (prefix_len (encodePriority pr) f)).
    destruct (Has _ _); by rewrite (proj2 (Z.ltb_ge _ _)) by lia.
  - destruct Hb as (_ & Hv & _ & ->). specialize (Hp _ 0 eq_refl Hv (len_nonneg f)). destruct (Has _ _); by rewrite (proj2 (Z.ltb_ge _ _)) by lia.
  - destruct Hb as (_ & _ & Ha). unfold n. rewrite settings_payload_len. destruct (Has _ _); [by rewrite Ha|]. by rewrite Z.mod_mul by lia.
  - destruct Hb as (_ & Hv & _ & _). specialize (Hp _ 4 eq_refl Hv (prefix_len (putUint32 pr) f)).
    destruct (Has _ _); by rewrite (proj2 (Z.ltb_ge _ _)) by lia.
  - unfold n. destruct Hb as (_ & -> & _). done.
  - pose proof (prefix_len (putUint32 last ++ putUint32 c) dbg) as H. rewrite <- app_assoc in H. by rewrite (proj2 (Z.ltb_ge _ _)) by exact H.
  - unfold FrameData, FrameHeaders, FramePriority, FrameRSTStream, FrameSettings, FramePushPromise, FramePing,
      FrameGoAway, FrameWindowUpdate, FrameContinuation. by rewrite !(proj2 (Z.eqb_neq (Type_ h) _)) by lia.
Qed.

Lemma putUint32_bytes v : bytes (putUint32 v).
Proof. repeat constructor; apply u8_range. Qed.

Lemma padded_bytes flags pad x : pad_valid flags pad -> bytes x -> bytes (padded pad x).
Proof.
  intros Hp Hx. destruct pad as [n|]; [|done]. destruct Hp as [_ Hn]. constructor; [exact Hn|]. apply Forall_app_2; [done|].
  apply Forall_replicate. by vm_compute.
Qed.

Lemma encodePriority_bytes id pr : priority_valid id pr -> bytes (encodePriority pr).
Proof. intros (_ & _ & Hw). apply Forall_app_2; [apply putUint32_bytes|]. by apply Forall_cons_2. Qed.

Lemma settings_bytes l : bytes (concat (map encodeSetting l)).
Proof.
  induction l as [|x l IH]; [constructor|]. apply Forall_app_2; [|exact IH]. apply Forall_app_2; [|apply putUint32_bytes].
  repeat constructor; apply u8_range.
Qed.

Lemma encodeBody_bytes h pad body : body_valid h pad body -> bytes (encodeBody pad body).
Proof.
  destruct body as [c|[pr|] f|pr|c|l|pr f|d|last c dbg|i|f|x]; cbn [body_valid encodeBody].
  - intros (_ & _ & Hp & Hc). by apply (padded_bytes _ _ _ Hp).
  - intros (_ & _ & Hp & Hf & _ & Hpr). apply (padded_bytes _ _ _ Hp), Forall_app_2; [by eapply encodePriority_bytes | done].
  - intros (_ & _ & Hp & Hf & _). by apply (padded_bytes _ _ _ Hp).
  - intros (_ & _ & Hpr). by eapply encodePriority_bytes.
  - intros _. apply putUint32_bytes.
  - intros _. apply settings_bytes.
  - intros (_ & _ & Hp & _ & Hf). apply (padded_bytes _ _ _ Hp), Forall_app_2; [apply putUint32_bytes | done].
  - by intros (_ & _ & _ & ?).
  - intros (_ & _ & _ & _ & Hd). apply Forall_app_2; [|apply Forall_app_2]; [apply putUint32_bytes.. | done].
  - intros _. apply putUint32_bytes.
  - by intros (_ & _ & ?).
  - by intros (_ & ?).
Qed.

Lemma body_type h pad body : body_valid h pad body ->
  isHeaderBlockFrame h.(Type_) = carriesBlock body /\
  (h.(Type_) =? FrameContinuation) = (match body with BContinuation _ => true | _ => false end) /\
  (h.(Type_) =? FrameHeaders) = (match body with BHeaders _ _ => true | _ => false end).
Proof.
  unfold isHeaderBlockFrame. destruct body; cbn [body_valid]; intros [Ht _]; try by rewrite Ht.
  unfold FrameHeaders, FramePushPromise, FrameContinuation. by rewrite !(proj2 (Z.eqb_neq _ _)) by lia.
Qed.

Lemma specBegin_valid l s h pad body :
  l.(MaxContinuationFrames) <= MaxUint32 -> frame_valid l s h pad body ->
  exists s', specBegin l s (sized h (encodeBody pad body)) = inl s' /\
    s'.(seqStream) = s.(seqStream) /\ s'.(seqBytes) = s.(seqBytes) /\ s'.(seqEndStream) = endsStream s h body.
Proof.
  intros Hcount (_ & _ & _ & _ & Hsize & Hb & Hturn & _). unfold specBegin. rewrite (header_valid h pad body Hb).
  cbn [sized Length Type_ StreamID Flags]. rewrite (proj2 (Z.ltb_ge _ _)) by done. destruct (body_type h pad body Hb) as (_ & -> & ->).
  destruct body; try (rewrite Hturn; eexists; split; [done|]; by split_and!).
  destruct Hturn as [E Hc], Hb as (_ & Hid & _). rewrite E, Z.eqb_refl, (proj2 (Z.eqb_neq _ _)) by lia. cbn [negb andb].
  rewrite u32_small by lia. rewrite (proj2 (Z.ltb_ge _ _)) by lia. eexists. by split.
Qed.

(** The reference decoder tells the host of a valid frame what its fields say. *)
Lemma specFrame_valid l s h pad body :
  l.(MaxContinuationFrames) <= MaxUint32 -> frame_valid l s h pad body ->
  let h' := sized h (encodeBody pad body) in
  exists s', specFrame l s h' (encodeBody pad body) = (Some s', frameTells s h' body, CodeNone) /\
    s'.(seqStream) = if carriesBlock body && negb (Has h.(Flags) FlagEndHeaders) then h.(StreamID) else 0.
Proof.
  intros Hcount Hv h'. destruct (specBegin_valid l s h pad body Hcount Hv) as (s1 & Hs & E1 & E2 & E3).
  destruct Hv as (_ & _ & _ & _ & _ & Hb & Ht). unfold specFrame, h'. rewrite Hs, (decode_encodeBody h pad body Hb), E2.
  rewrite (bodyEvents_valid l s h pad body Hb Ht). unfold specEnd, frameTells. cbn [sized Type_ Flags StreamID].
  destruct (body_type h pad body Hb) as (-> & _ & _), Ht as (Hturn & _). destruct (carriesBlock body) eqn:Hcb; cbn [andb].
  - change (endsStream s _ body) with (endsStream s h body). rewrite <- E3. destruct (Has h.(Flags) FlagEndHeaders); cbn [negb].
    + eexists. split; [done|]. done.
    + rewrite E1. destruct body; try done; cbn in Hb;
        [rewrite Hturn; by eexists | rewrite Hturn; by eexists|]. destruct Hturn as [-> _]. rewrite (proj2 (Z.eqb_neq _ _)) by lia. by eexists.
  - eexists. split; [done|]. rewrite E1. by destruct body.
Qed.

(** [AppendFrame] writes a valid frame. *)
Lemma AppendFrame_valid dst l s h pad body :
  l.(MaxFrameSize) <= maxFrameSize -> frame_valid l s h pad body ->
  let payload := encodeBody pad body in
  AppendFrame dst h payload = (dst ++ wire (sized h payload, payload), CodeNone) /\ frame_in_range (sized h payload, payload).
Proof.
  intros Hmax (Ht & Hf & Hid & Hl & Hsize & Hb & _) payload.
  assert (header_typed h) as Hty by (split_and!; try done; [rewrite Hl; by vm_compute | unfold in_u32, MaxUint32; lia..]).
  assert (appendable h payload = true) as Ha.
  { unfold appendable. rewrite Hl. unfold streamMask. subst payload. rewrite (proj2 (Z.leb_le _ _)) by lia. cbn [Z.eqb orb andb]. lia. }
  split; [|apply appendable_in_range; try done; by eapply encodeBody_bytes].
  rewrite AppendFrame_eq, Ha by done. subst payload. by rewrite (header_valid h pad body Hb).
Qed.
