(* ===== verification/H2Props.v ===== *)
(** * HTTP/2 frames: the properties of the frame parser and encoder

    What a user of [src/http2/frame.go] relies on, stated on its exported
    methods and proved from [H2FrameWf] (invariant, termination),
    [H2FrameSpec] (the reference decoder and the refinement to it) and
    [H2FrameCodec] (the payload of every frame type and what it tells). *)

From S2P Require Import Prelude H2Frame H2FrameWf H2FrameSpec H2BlockSpec H2FrameCodec.

(** ** Reachable parsers *)

Definition frame_limits_typed_in (l : Limits) : Prop :=
  in_u32 l.(MaxFrameSize) /\ in_u64 l.(MaxHeaderBlockBytes) /\ in_u32 l.(MaxContinuationFrames).

(** The parsers a program can hold between two calls, whatever host it is
    attached to. *)
Inductive frame_reachable {St} (cb : option (Callbacks St)) : Parser -> Prop :=
  | frame_reach_new l : frame_limits_typed_in l -> frame_reachable cb (NewParser l)
  | frame_reach_init p l : frame_reachable cb p -> frame_limits_typed_in l -> frame_reachable cb (Init p l)
  | frame_reach_parse p st src o :
      frame_reachable cb p -> bytes src -> Parse cb p st src = Some o -> frame_reachable cb o.(outParser)
  | frame_reach_parse_one p st src o b :
      frame_reachable cb p -> bytes src -> ParseOne cb p st src = Some (o, b) -> frame_reachable cb o.(outParser)
  | frame_reach_finish p : frame_reachable cb p -> frame_reachable cb (Finish p).1
  | frame_reach_reset p : frame_reachable cb p -> frame_reachable cb (Reset p).

Lemma frame_Init_idle p l : p.(parsing) = false -> (Init p l).(parsing) = false.
Proof. intros H. unfold Init. by rewrite H. Qed.

Lemma frame_Finish_parsing p : p.(parsing) = false -> (Finish p).1.(parsing) = false.
Proof.
  intros H. unfold Finish. rewrite H. destruct (is_none (code p)) eqn:Hc; cbn [negb]; [|done].
  destruct (_ || _); [|done]. unfold fail. by rewrite Hc.
Qed.

Lemma frame_reachable_ok {St} (cb : option (Callbacks St)) p : frame_reachable cb p -> frame_wf p /\ p.(parsing) = false.
Proof.
  induction 1 as [l (? & ? & ?) | p l _ [Hw Hi] (? & ? & ?) | p st src o _ [Hw Hi] Hb E | p st src o b _ [Hw Hi] Hb E
                 | p _ [Hw Hi] | p _ [Hw Hi]].
  - split; [|done]. unfold NewParser, Init. by apply frame_zeroParser_wf, frame_normalized_ok.
  - split; [by apply frame_Init_wf | by apply frame_Init_idle].
  - destruct (frame_runParse_ok cb p st src false Hw Hi Hb) as (o' & Eo & Hwo & Hpo & _).
    unfold Parse in E. rewrite Eo in E. by injection E as <-.
  - destruct (frame_runParse_ok cb p st src true Hw Hi Hb) as (o' & Eo & Hwo & Hpo & _).
    unfold ParseOne in E. rewrite Eo in E. by injection E as <- <-.
  - split; [by apply frame_Finish_wf | by apply frame_Finish_parsing].
  - split; [by apply frame_Reset_wf|]. unfold Reset. rewrite Hi. by apply frame_Init_idle.
Qed.

(** The parser of the witnesses. *)
Definition demoFrames : Parser := NewParser (mkLimits 0 0 0).

Lemma demo_frames_boundary : at_boundary demoFrames /\ demoFrames.(parsing) = false.
Proof.
  assert (frame_limits_typed_in (mkLimits 0 0 0)) as Hl by (unfold frame_limits_typed_in, in_u32, in_u64; cbn; widths; lia).
  destruct (frame_reachable_ok (St := unit) None demoFrames (frame_reach_new None _ Hl)) as [Hw Hp].
  split; [|done]. split; [done|]. split; [done|]. split; [done|]. by vm_compute.
Qed.

Ltac bytes_tac := repeat constructor; by vm_compute.

(** ** Claims *)

(** C31. Termination and safety of the frame parser: with any host and any
    callbacks, an idle well-formed parser returns on any bytes, stays well
    formed and keeps its limits; without an error it has consumed all the
    input or stopped at a frame boundary (only when asked to), and otherwise
    it returns its sticky error code. *)
Theorem frame_parse_returns {St} (cb : option (Callbacks St)) p st src pause :
  frame_wf p -> p.(parsing) = false -> bytes src ->
  exists o, runParse cb p st src pause = Some o /\
    frame_wf o.(outParser) /\ o.(outParser).(parsing) = false /\ o.(outParser).(limits) = p.(limits) /\
    (exists pre, src = pre ++ o.(outRest)) /\ frame_result_ok o /\
    (p.(code) = CodeNone -> o.(outParser).(paused) = true -> pause = true).
Proof. apply frame_runParse_ok. Qed.

Lemma frame_parse_returns_witness :
  exists o, runParse (Some tracer) demoFrames [] [0; 0; 1; 0; 0; 0; 0; 0; 1; 65; 7] false = Some o /\ frame_result_ok o.
Proof.
  destruct (frame_parse_returns (Some tracer) demoFrames [] [0; 0; 1; 0; 0; 0; 0; 0; 1; 65; 7] false
    (proj1 (proj1 demo_frames_boundary)) eq_refl ltac:(bytes_tac)) as (o & Ho & _ & _ & _ & _ & Hr & _).
  exists o. by split.
Defined.

(** C3. Refinement: parsing the wire bytes of any sequence of frames delivers
    exactly what the reference decoder says of each frame in turn (padding
    removed, priority and promised streams decoded, header blocks kept
    together by the CONTINUATION rules), ends with the same sequence state,
    and fails with the reference's error at the first frame it rejects. *)
Theorem frames_refine_spec p st frames :
  at_boundary p -> p.(parsing) = false -> Forall frame_in_range frames ->
  exists o, Parse (Some tracer) p st (wires frames) = Some o /\ frame_wf o.(outParser) /\
    agrees st (specFrames p.(limits) (seqOf p) frames) o.
Proof. apply Parse_frames. Qed.

Definition demoData : FrameHeader * list Z := (mkFrameHeader 3 FrameData 9 1, [1; 65; 0]).

Lemma demo_data_in_range : frame_in_range demoData.
Proof. split; [by vm_compute|]. split; [done|]. bytes_tac. Qed.

Lemma frames_refine_spec_witness :
  exists o, Parse (Some tracer) demoFrames [] (wires [demoData; demoData]) = Some o /\
    agrees [] (specFrames demoFrames.(limits) noSequence [demoData; demoData]) o.
Proof.
  destruct demo_frames_boundary as [Hb Hp].
  destruct (frames_refine_spec demoFrames [] [demoData; demoData] Hb Hp
    ltac:(by repeat (apply Forall_cons_2; [exact demo_data_in_range|]))) as (o & Ho & _ & Ha). exists o. split; [exact Ho | exact Ha].
Defined.

(** C6. Round trip: for every frame type, fields in the ranges of RFC 9113
    (padding, priority, settings, promised and last streams, increments from 1)
    laid out as a payload are written by [AppendFrame], and a parser between
    frames whose limits and open header block admit the frame reads it back by
    [ParseOne]: it tells the host exactly these fields, stops at the end of the
    frame with the bytes behind it unread, and awaits a CONTINUATION of this
    stream if and only if the frame left a header block open. *)
Theorem append_parse_roundtrip p st dst h pad body rest :
  at_boundary p -> p.(parsing) = false -> bytes rest -> frame_valid p.(limits) (seqOf p) h pad body ->
  let h' := sized h (encodeBody pad body) in
  exists w q, AppendFrame dst h (encodeBody pad body) = (dst ++ w, CodeNone) /\
    ParseOne (Some tracer) p st (w ++ rest) = Some (mkFOutcome q (st ++ frameTells (seqOf p) h' body) rest CodeNone, true) /\
    at_boundary q /\ q.(parsing) = false /\ q.(limits) = p.(limits) /\
    q.(continuationStream) = if carriesBlock body && negb (Has h.(Flags) FlagEndHeaders) then h.(StreamID) else 0.
Proof.
  intros Hp Hpar Hr Hv h'. pose proof Hp as (((Hl & _) & _) & _).
  destruct (AppendFrame_valid dst _ _ h pad body ltac:(apply Hl) Hv) as [Ha Hf].
  destruct (specFrame_valid _ _ h pad body ltac:(apply Hl) Hv) as (s' & Hs & Es).
  destruct (ParseOne_frame p st _ rest s' _ Hp Hpar Hf Hr Hs) as (q & Hq & Hqb & Hqp & Hql & <-).
  exists (wire (h', encodeBody pad body)), q. split; [exact Ha|]. by split_and!.
Qed.

(** Padded HEADERS with priority, which leave the block open. *)
Definition demoHeaders : FrameHeader := mkFrameHeader 0 FrameHeaders 41 1.
Definition demoBody : FrameBody := BHeaders (Some (mkPriorityParam 3 true 15)) [130].

Lemma append_parse_roundtrip_witness :
  exists w q, AppendFrame [7] demoHeaders (encodeBody (Some 2) demoBody) = ([7] ++ w, CodeNone) /\
    ParseOne (Some tracer) demoFrames [] (w ++ [9]) =
      Some (mkFOutcome q [EvFrameBegin (mkFrameHeader 9 FrameHeaders 41 1); EvPriority 1 (mkPriorityParam 3 true 15);
        EvHeaderBlock 1 [130]; EvFrameComplete (mkFrameHeader 9 FrameHeaders 41 1)] [9] CodeNone, true) /\
    q.(continuationStream) = 1.
Proof.
  destruct demo_frames_boundary as [Hb Hp].
  destruct (append_parse_roundtrip demoFrames [] [7] demoHeaders (Some 2) demoBody [9] Hb Hp ltac:(bytes_tac)) as (w & q & Ha & Hq & _ & _ & _ & Hc).
  { split_and!; try (by vm_compute); bytes_tac. }
  exists w, q. split_and!; [exact Ha | exact Hq | exact Hc].
Defined.

(** Invariant: every frame parser a program can obtain is well formed
    between calls: header-block bytes and CONTINUATION frames are within their
    limits, and an open payload has a valid header, fits the maximal frame
    size and is positioned inside it. *)
Lemma frame_reachable_wf {St} (cb : option (Callbacks St)) p :
  frame_reachable cb p -> frame_wf p /\ p.(parsing) = false.
Proof. apply frame_reachable_ok. Qed.

(** End of input: [Finish] succeeds, changing nothing, exactly between
    frames with no header block open; otherwise it fails the parser with
    [CodeUnexpectedEOF]. *)
Lemma frame_finish_result p :
  p.(parsing) = false -> p.(code) = CodeNone ->
  Finish p = if (p.(headerN) =? 0) && (p.(continuationStream) =? 0) then (p, CodeNone)
             else (p <| code := CodeUnexpectedEOF |>, CodeUnexpectedEOF).
Proof.
  intros Hp Hc. unfold Finish. rewrite Hp, Hc. cbn [negb is_none].
  destruct (headerN p =? 0), (continuationStream p =? 0); cbn; unfold fail; by rewrite ?Hc.
Qed.

(** Errors are final and re-entrant calls fail: on a parser that has failed,
    [Parse], [ParseOne] and [Finish] change nothing and return its code; a
    method called while parsing only sets [CodeReentrantCall] on a parser
    without an error. *)
Lemma frame_failure_is_final {St} (cb : option (Callbacks St)) p st src l :
  (p.(code) <> CodeNone -> p.(parsing) = false ->
   Parse cb p st src = Some (mkFOutcome p st src p.(code)) /\
   ParseOne cb p st src = Some (mkFOutcome p st src p.(code), p.(paused)) /\ Finish p = (p, p.(code))) /\
  (p.(parsing) = true ->
   let q := fail p CodeReentrantCall in
   Parse cb p st src = Some (mkFOutcome q st src q.(code)) /\
   ParseOne cb p st src = Some (mkFOutcome q st src q.(code), q.(paused)) /\
   Finish p = (q, q.(code)) /\ Init p l = q /\ Reset p = q /\ q.(code) <> CodeNone).
Proof.
  unfold ParseOne, Parse, runParse, Finish, Init, Reset. split.
  - intros Hc ->. by destruct (frame_is_none_spec (code p)).
  - intros ->. cbv zeta. split_and!; try done. unfold fail. by destruct (frame_is_none_spec (code p)).
Qed.

