(* ===== verification/H2FrameHost.v ===== *)
(** * HTTP/2 frames: invariants of the host

    What the frame parser promises to the program behind its callbacks: every
    call happens with arguments the wire format allows, and the calls for a frame
    are made between its [FrameBegin] and its [FrameComplete].  So an invariant
    that each callback keeps on such arguments is kept by a whole run of the
    parser, on any input: [HostInvariant] for one that holds throughout, which
    the session proves of itself, and [FrameInvariant] for a pair, between
    frames and inside one, which the client needs. *)

From S2P Require Import Prelude H2Frame H2FrameWf.

(** A header [beginFrame] has accepted. *)
Definition header_fine (h : FrameHeader) : Prop :=
  validateFrameHeader h = CodeNone /\ 0 <= h.(Length) <= maxFrameSize /\ 0 <= h.(StreamID) <= streamMask.

(** The callbacks inside the frame [h] keep [P] on the arguments they can
    receive. *)
Class PayloadInvariant {St} (c : Callbacks St) (h : FrameHeader) (P : St -> Prop) : Prop := {
  host_Data : forall f id s fin st, c.(cbData) = Some f -> 0 < id <= streamMask -> h.(Type_) = FrameData ->
    P st -> P (f id s fin st).1;
  host_HeaderBlock : forall f id s st, c.(cbHeaderBlock) = Some f -> P st -> P (f id s st).1;
  host_HeaderBlockEnd : forall f id fin st, c.(cbHeaderBlockEnd) = Some f -> isHeaderBlockFrame h.(Type_) = true ->
    P st -> P (f id fin st).1;
  host_Priority : forall f id pr st, c.(cbPriority) = Some f -> P st -> P (f id pr st).1;
  host_RSTStream : forall f id e st, c.(cbRSTStream) = Some f -> 0 < id <= streamMask -> P st -> P (f id e st).1;
  host_Setting : forall f x st, c.(cbSetting) = Some f -> validSetting x = true -> 0 <= x.(Value) <= MaxUint32 ->
    P st -> P (f x st).1;
  host_SettingsEnd : forall f ack st, c.(cbSettingsEnd) = Some f -> P st -> P (f ack st).1;
  host_PushPromise : forall f id promised st, c.(cbPushPromise) = Some f -> 0 < id <= streamMask ->
    0 < promised <= streamMask -> P st -> P (f id promised st).1;
  host_Ping : forall f data ack st, c.(cbPing) = Some f -> length data = 8%nat -> P st -> P (f data ack st).1;
  host_GoAway : forall f last e st, c.(cbGoAway) = Some f -> 0 <= last <= streamMask -> P st -> P (f last e st).1;
  host_GoAwayDebug : forall f s st, c.(cbGoAwayDebug) = Some f -> P st -> P (f s st).1;
  host_WindowUpdate : forall f id inc st, c.(cbWindowUpdate) = Some f -> 0 <= id <= streamMask ->
    0 < inc <= streamMask -> P st -> P (f id inc st).1;
  host_Unknown : forall f s st, c.(cbUnknown) = Some f -> P st -> P (f h s st).1;
}.

(** [P] holds between frames, [Q h] inside a frame [h]. *)
Class FrameInvariant {St} (c : Callbacks St) (P : St -> Prop) (Q : FrameHeader -> St -> Prop) : Prop := {
  frame_begin : forall h st, header_fine h -> P st -> Q h (match c.(cbFrameBegin) with Some f => (f h st).1 | None => st end);
  frame_payload : forall h, header_fine h -> PayloadInvariant c h (Q h);
  frame_complete : forall h st, header_fine h -> Q h st -> P (match c.(cbFrameComplete) with Some f => (f h st).1 | None => st end);
}.

(** The callbacks keep [P] throughout. *)
Class HostInvariant {St} (c : Callbacks St) (P : St -> Prop) : Prop := {
  host_FrameBegin : forall f h st, c.(cbFrameBegin) = Some f -> header_fine h -> P st -> P (f h st).1;
  host_payload : forall h, header_fine h -> PayloadInvariant c h P;
  host_FrameComplete : forall f h st, c.(cbFrameComplete) = Some f -> header_fine h -> P st -> P (f h st).1;
}.

#[export] Instance host_frame {St} (c : Callbacks St) P : HostInvariant c P -> FrameInvariant c P (fun _ => P).
Proof.
  intros [H1 H2 H3]. split; [|done|]; intros h st Hh Hst; [destruct (cbFrameBegin c) eqn:E | destruct (cbFrameComplete c) eqn:E]; try done;
    [by eapply H1 | by eapply H3].
Qed.

Lemma Uint32At_range s : bytes s -> len s = 4 -> 0 <= Uint32At s 0 <= MaxUint32.
Proof.
  intros Hb Hl. pose proof (str_at_byte s 0 Hb ltac:(lia)). pose proof (str_at_byte s 1 Hb ltac:(lia)).
  pose proof (str_at_byte s 2 Hb ltac:(lia)). pose proof (str_at_byte s 3 Hb ltac:(lia)).
  unfold Uint32At. change (0 + 1) with 1. change (0 + 2) with 2. change (0 + 3) with 3.
  assert (forall x b k, 0 <= k -> 0 <= b <= 255 -> Z.lor (Z.shiftl x (k + 8)) (Z.shiftl b k) = Z.shiftl (x * 256 + b) k) as Hor.
  { intros x b k Hk Hb0. rewrite Z.add_comm, <- Z.shiftl_shiftl, <- Z.shiftl_lor by lia. f_equal.
    rewrite lor_shiftl_add by lia. lia. }
  change 24 with (16 + 8). rewrite (Hor _ _ 16) by lia. change 16 with (8 + 8).
  rewrite (Hor _ _ 8), lor_shiftl_add by lia. unfold MaxUint32. lia.
Qed.

Lemma copyAt_length dst k src : length (copyAt dst k src).1 = length dst.
Proof. unfold copyAt. cbn. rewrite !length_app, !length_take, !length_drop. lia. Qed.

(** The eight bytes of the prefix array. *)
Definition prefix_fine (p : Parser) : Prop := bytes p.(prefix) /\ length p.(prefix) = 8%nat.

(** What the payload parsers leave alone. *)
Definition kept (p q : Parser) : Prop :=
  q.(current) = p.(current) /\ q.(header) = p.(header) /\ q.(headerN) = p.(headerN).

#[export] Instance kept_refl : Reflexive kept.
Proof. by repeat split. Qed.
#[export] Instance kept_trans : Transitive kept.
Proof. intros p q r (? & ? & ?) (? & ? & ?). split_and!; congruence. Qed.

Lemma kept_code p d : kept p (p <| code := d |>).
Proof. by split_and!. Qed.

Lemma fail_kept p c : kept p (fail p c) /\ (prefix_fine p -> prefix_fine (fail p c)).
Proof. unfold fail. by destruct (is_none (code p)). Qed.

Lemma copyPrefix_fine p src :
  prefix_fine p -> bytes src ->
  kept p (copyPrefix p src).1 /\ prefix_fine (copyPrefix p src).1 /\ bytes (copyPrefix p src).2.
Proof.
  intros [Hb Hl] Hs. unfold copyPrefix. cbn. split; [by split_and!|]. split; [|by apply Forall_drop].
  split; [apply (copyAt_bytes _ _ _ Hb); by apply Forall_take|]. etrans; [apply (copyAt_length (prefix p) (prefixN p))|done].
Qed.

Section Payload.
Context {St : Type} (c : Callbacks St) (h : FrameHeader) (P : St -> Prop) `{!PayloadInvariant c h P}.

(** The parser is in the payload of the frame [h]. *)
Definition here (p : Parser) : Prop := p.(current) = h /\ header_fine h.

Lemma invoke_host {A} (F : Callbacks St -> option A) call p st q st' :
  (forall f, F c = Some f -> P (call f st).1) -> P st -> invoke (Some c) F call p st = (q, st') ->
  P st' /\ kept p q /\ (prefix_fine p -> prefix_fine q).
Proof.
  intros Hf Hst. unfold invoke. destruct (F c) as [f|]; [|by intros [= <- <-]]. specialize (Hf f eq_refl).
  destruct (call f st) as [st2 b]; intros [= <- <-]. split; [done|]. destruct b; [apply fail_kept | done].
Qed.

Definition host_res (p : Parser) (r : PRes (St := St)) : Prop :=
  P r.(resHost) /\ kept p r.(resParser) /\ prefix_fine r.(resParser) /\ bytes r.(resRest).

Lemma host_res_kept p q r : kept p q -> host_res q r -> host_res p r.
Proof. intros Hk (? & ? & ? & ?). split; [done|]. split; [by etrans | done]. Qed.

Lemma host_res_fail p q st src e : kept p q -> P st -> prefix_fine q -> bytes src -> host_res p (resFail q st src e).
Proof.
  intros Hk Hst Hp Hb. destruct (fail_kept q e) as [Hkf Hpf]. split; [done|]. split; [by etrans|]. split; [by apply Hpf|done].
Qed.

Lemma skipPadding_host p st src : P st -> prefix_fine p -> bytes src -> host_res p (skipPadding p st src).
Proof.
  intros Hst Hp Hb. unfold skipPadding. destruct (_ && _); (split; [done|]); (split; [by split_and!|]); (split; [done|]);
    [by apply Forall_drop | done].
Qed.

Lemma data_id k : validateFrameHeader k = CodeNone -> 0 <= k.(StreamID) <= streamMask ->
  k.(Type_) = FrameData \/ k.(Type_) = FrameRSTStream \/ k.(Type_) = FramePushPromise -> 0 < k.(StreamID) <= streamMask.
Proof.
  intros Hv Hr Ht. destruct (Z.eqb_spec (StreamID k) 0) as [E|]; [|lia]. exfalso. revert Hv.
  unfold validateFrameHeader. rewrite E. by destruct Ht as [-> | [-> | ->]].
Qed.

Lemma endContent_fine p : kept p (endContent p) /\ (prefix_fine p -> prefix_fine (endContent p)).
Proof. unfold endContent. by destruct (_ && _). Qed.

Lemma endContent_host p st src :
  P st -> prefix_fine p -> bytes src -> host_res p (skipPadding (endContent p) st src).
Proof.
  intros Hst Hp Hb. destruct (endContent_fine p) as [Hk Hpf]. eapply host_res_kept; [exact Hk|].
  apply skipPadding_host; auto.
Qed.

Lemma dataContent_host p st src :
  here p -> p.(current).(Type_) = FrameData -> P st -> prefix_fine p -> bytes src ->
  host_res p (dataContent (Some c) p st src).
Proof.
  intros [Eh Hf0] Ht Hst Hp Hb. pose proof Hf0 as (Hv & HL & Hid). rewrite <- Eh in Hv, HL, Hid. unfold dataContent. destruct (_ && _).
  - destruct (invoke _ _ _ p st) as [q st'] eqn:E. apply invoke_host in E as (Hst' & Hk & Hpf); [|intros f Hf|done].
    2: { eapply host_Data; [done | apply data_id; auto | by rewrite <- Eh | done]. }
    cbv zeta beta. eapply host_res_kept; [exact Hk|]. fold (endContent (q <| contentN := u32 (contentN q - minInt (contentN p) (len src)) |> <| payloadN := u32 (payloadN q + minInt (contentN p) (len src)) |>)).
    eapply host_res_kept; [|apply endContent_host; [done | by apply Hpf | by apply Forall_drop]]. by split_and!.
  - by apply endContent_host.
Qed.

Lemma parseData_host p st src :
  here p -> p.(current).(Type_) = FrameData -> P st -> prefix_fine p -> bytes src ->
  host_res p (parseData (Some c) p st src).
Proof.
  intros Hh Ht Hst Hp Hb. unfold parseData. destruct (is_payloadStart _); [|by apply dataContent_host].
  destruct (Has _ _), src as [|b src]; try by apply (dataContent_host (startContent p)).
  apply Forall_cons_1 in Hb as [_ Hb]. cbv zeta. destruct (_ <? _).
  - by apply host_res_fail.
  - by apply (dataContent_host (startContent (takePadLength p b))).
Qed.

Lemma parseHeaderFragment_host p st src remaining :
  P st -> prefix_fine p -> bytes src -> host_res p (parseHeaderFragment (Some c) p st src remaining).
Proof.
  intros Hst Hp Hb. unfold parseHeaderFragment. destruct (_ =? 0); [by split|]. destruct (_ <? _); [by apply host_res_fail|].
  destruct (invoke _ _ _ p st) as [q st'] eqn:E. apply invoke_host in E as (Hst' & Hk & Hpf); [|intros f Hf|done].
  2: by eapply host_HeaderBlock.
  split; [done|]. specialize (Hpf Hp). split; [|split; [|by apply Forall_drop]]; cbn; by destruct (is_payloadContent (state q)).
Qed.

Lemma headerContent_host p st src :
  P st -> prefix_fine p -> bytes src -> host_res p (parseHeaderContentAndPadding (Some c) p st src).
Proof.
  intros Hst Hp Hb. unfold parseHeaderContentAndPadding. destruct (_ && _); [|by apply endContent_host].
  pose proof (parseHeaderFragment_host p st src (contentN p) Hst Hp Hb) as (Hst' & Hk & Hp' & Hb'). cbv zeta.
  destruct (negb (is_none _)); [by split|]. destruct (negb (resDone _)); [by split|].
  eapply host_res_kept; [exact Hk|]. set (q := resParser _ <| contentN := 0 |> <| state := payloadPadding |>).
  assert (kept (resParser (parseHeaderFragment (Some c) p st src (contentN p))) q) as Hkq by by split_and!.
  eapply host_res_kept; [exact Hkq|]. by apply (endContent_host q).
Qed.

Lemma headersPrefix_host p st src :
  P st -> prefix_fine p -> bytes src -> host_res p (headersPrefix (Some c) p st src).
Proof.
  intros Hst Hp Hb. unfold headersPrefix. pose proof (copyPrefix_fine p src Hp Hb) as (Hk & Hq & Hr).
  destruct (copyPrefix p src) as [q rest]. cbn in Hk, Hq, Hr. destruct (_ <? _); [by split|]. cbv zeta.
  destruct (_ =? _); [by apply host_res_fail|].
  destruct (invoke _ _ _ q st) as [u st'] eqn:E. apply invoke_host in E as (Hst' & Hku & Hpf); [|intros f Hf|done].
  2: by eapply host_Priority.
  eapply host_res_kept; [etrans; [exact Hk | exact Hku]|]. specialize (Hpf Hq).
  by apply (headerContent_host (startContent u)).
Qed.

Lemma promisePrefix_host p st src :
  here p -> p.(current).(Type_) = FramePushPromise -> P st -> prefix_fine p -> bytes src ->
  host_res p (promisePrefix (Some c) p st src).
Proof.
  intros [Eh Hf0] Ht Hst Hp Hb. pose proof Hf0 as (Hv & HL & Hid). rewrite <- Eh in Hv, HL, Hid. unfold promisePrefix. pose proof (copyPrefix_fine p src Hp Hb) as (Hk & Hq & Hr).
  destruct (copyPrefix p src) as [q rest]. cbn in Hk, Hq, Hr. destruct (_ <? _); [by split|]. cbv zeta.
  pose proof (streamMask_range (Uint32At (take 4 (prefix q)) 0)) as Hprom.
  destruct (Z.eqb_spec (Z.land (Uint32At (take 4 (prefix q)) 0) streamMask) 0) as [|Hne]; [by apply host_res_fail|].
  destruct (invoke _ _ _ q st) as [u st'] eqn:E. apply invoke_host in E as (Hst' & Hku & Hpf); [|intros f Hf|done].
  2: { destruct Hk as (-> & _). eapply host_PushPromise; [done | apply data_id; auto | lia | done]. }
  eapply host_res_kept; [etrans; [exact Hk | exact Hku]|]. specialize (Hpf Hq).
  by apply (headerContent_host (startContent u)).
Qed.

Lemma parseHeaders_host p st src :
  P st -> prefix_fine p -> bytes src -> host_res p (parseHeaders (Some c) p st src).
Proof.
  intros Hst Hp Hb.
  assert (forall q s, kept p q -> prefix_fine q -> bytes s -> host_res p (afterHeadersStart (Some c) q st s)) as Hgo.
  { intros q s Hk Hq Hs. eapply host_res_kept; [exact Hk|]. unfold afterHeadersStart.
    destruct (is_payloadPrefix _); [by apply headersPrefix_host | by apply headerContent_host]. }
  unfold parseHeaders. destruct (is_payloadStart _); [|by apply Hgo]. cbv zeta.
  destruct (Has _ FlagPadded), src as [|b src]; try (apply Hgo; [by destruct (Has _ _)..|done]).
  apply Forall_cons_1 in Hb as [_ Hb]. destruct (_ <? _); [by apply host_res_fail|].
  apply Hgo; [by destruct (Has _ _)..|done].
Qed.

Lemma parsePushPromise_host p st src :
  here p -> p.(current).(Type_) = FramePushPromise -> P st -> prefix_fine p -> bytes src ->
  host_res p (parsePushPromise (Some c) p st src).
Proof.
  intros Hh Ht Hst Hp Hb.
  assert (forall q s, kept p q -> prefix_fine q -> bytes s -> host_res p (afterPromiseStart (Some c) q st s)) as Hgo.
  { intros q s Hk Hq Hs. eapply host_res_kept; [exact Hk|]. destruct Hk as (E & _). unfold afterPromiseStart.
    destruct (is_payloadPrefix _); [apply promisePrefix_host; unfold here; by rewrite ?E | by apply headerContent_host]. }
  unfold parsePushPromise. destruct (is_payloadStart _); [|by apply Hgo]. cbv zeta.
  destruct (Has _ FlagPadded), src as [|b src]; try by apply Hgo.
  apply Forall_cons_1 in Hb as [_ Hb]. destruct (_ <? _); [by apply host_res_fail | by apply Hgo].
Qed.

Lemma parseFixed_host p st src need : P st -> prefix_fine p -> bytes src -> host_res p (parseFixed p st src need).
Proof.
  intros Hst Hp Hb. unfold parseFixed. set (p1 := p <| prefixNeed := need |>).
  pose proof (copyPrefix_fine p1 src Hp Hb) as (Hk & Hq & Hr).
  destruct (copyPrefix _ src) as [q rest]. split; [done|]. split; [exact Hk | by split].
Qed.

Lemma settingsLoop_host fuel p st src :
  P st -> prefix_fine p -> bytes src -> host_res p (settingsLoop (Some c) fuel p st src).
Proof.
  revert p st src. induction fuel as [|fuel IH]; intros p st src Hst Hp Hb; cbn [settingsLoop]; destruct (_ && _); try by split.
  pose proof (copyPrefix_fine p src Hp Hb) as (Hk & Hq & Hr).
  destruct (copyPrefix p src) as [q rest]. cbn in Hk, Hq, Hr. destruct (_ <? 6); [by split|]. cbv zeta.
  destruct (validSetting _) eqn:Hvs; cbn [negb]; [|by apply host_res_fail].
  destruct (invoke _ _ _ q st) as [u st'] eqn:E. apply invoke_host in E as (Hst' & Hku & Hpf); [|intros f Hf|done].
  2: { eapply host_Setting; [done | done | | done]. cbn. destruct Hq as [Hqb Hql].
       apply Uint32At_range; [by apply Forall_take, Forall_drop|]. unfold len. rewrite length_take, length_drop. lia. }
  eapply host_res_kept; [etrans; [exact Hk | exact Hku]|]. specialize (Hpf Hq). set (u1 := u <| prefixN := 0 |>). by apply (IH u1).
Qed.

Lemma goAwayDebug_host p st src : P st -> prefix_fine p -> bytes src -> host_res p (goAwayDebug (Some c) p st src).
Proof.
  intros Hst Hp Hb. unfold goAwayDebug. destruct (_ && _); [|by split]. cbv zeta.
  destruct (invoke _ _ _ p st) as [u st'] eqn:E. apply invoke_host in E as (Hst' & Hku & Hpf); [|intros f Hf|done].
  2: by eapply host_GoAwayDebug.
  split; [done|]. specialize (Hpf Hp). split; [exact Hku|]. split; [exact Hpf | by apply Forall_drop].
Qed.

Lemma parseGoAway_host p st src : P st -> prefix_fine p -> bytes src -> host_res p (parseGoAway (Some c) p st src).
Proof.
  intros Hst Hp Hb. unfold parseGoAway. destruct (_ <? 8); [|by apply goAwayDebug_host].
  set (p1 := p <| prefixNeed := 8 |>). pose proof (copyPrefix_fine p1 src Hp Hb) as (Hk & Hq & Hr).
  destruct (copyPrefix _ src) as [q rest]. cbn in Hk, Hq, Hr. destruct (_ <? 8); [by split|].
  eapply host_res_kept; [exact Hk|]. by apply goAwayDebug_host.
Qed.

Lemma parseUnknown_host p st src :
  here p -> P st -> prefix_fine p -> bytes src -> host_res p (parseUnknown (Some c) p st src).
Proof.
  intros [Eh _] Hst Hp Hb. unfold parseUnknown. cbv zeta. rewrite Eh.
  destruct (invoke _ _ _ p st) as [u st'] eqn:E. apply invoke_host in E as (Hst' & Hku & Hpf); [|intros f Hf|done].
  2: by eapply host_Unknown.
  split; [done|]. specialize (Hpf Hp). split; [exact Hku|]. split; [exact Hpf | by apply Forall_drop].
Qed.

Lemma payloadSwitch_host p st src :
  here p -> P st -> prefix_fine p -> bytes src -> host_res p (parsePayloadSwitch (Some c) p st src).
Proof.
  intros Hh Hst Hp Hb. unfold parsePayloadSwitch. cbv zeta.
  destruct (Z.eqb_spec (Type_ (current p)) FrameData); [by apply parseData_host|].
  destruct (_ =? FrameHeaders); [by apply parseHeaders_host|]. destruct (_ =? FramePriority); [by apply parseFixed_host|].
  destruct (_ =? FrameRSTStream); [by apply parseFixed_host|].
  destruct (_ =? FrameSettings); [unfold parseSettings; set (p1 := p <| prefixNeed := 6 |>); by apply (settingsLoop_host _ p1)|].
  destruct (Z.eqb_spec (Type_ (current p)) FramePushPromise); [by apply parsePushPromise_host|].
  destruct (_ =? FramePing); [by apply parseFixed_host|]. destruct (_ =? FrameGoAway); [by apply parseGoAway_host|].
  destruct (_ =? FrameWindowUpdate); [by apply parseFixed_host|].
  destruct (_ =? FrameContinuation); [by apply parseHeaderFragment_host | by apply parseUnknown_host].
Qed.

Lemma payloadLoop_host fuel p st src r :
  here p -> P st -> prefix_fine p -> bytes src -> payloadLoop (Some c) fuel p st src = Some r ->
  host_res p r.
Proof.
  revert p st src. induction fuel as [|fuel IH]; intros p st src Hh Hst Hp Hb; cbn [payloadLoop]; destruct (_ && _);
    try done; try by intros [= <-].
  pose proof (payloadSwitch_host p st src Hh Hst Hp Hb) as Hr. cbv zeta. destruct (_ || _); [by intros [= <-]|].
  destruct Hr as (Hst' & Hk & Hp' & Hb'). intros E. eapply host_res_kept; [exact Hk|].
  eapply IH; [|done..|exact E]. unfold here. by destruct Hk as (-> & _).
Qed.

Lemma finishPayload_host p st :
  here p -> prefix_fine p -> P st ->
  match finishPayload (Some c) p st with
  | inl (q, st') => P st' /\ kept p q /\ prefix_fine q
  | inr e => e <> CodeNone
  end.
Proof.
  intros [Eh Hf0] Hp Hst. pose proof Hf0 as (Hv & HL & Hid). rewrite <- Eh in Hv, HL, Hid. unfold finishPayload. cbv zeta.
  assert (forall A (F : Callbacks St -> option A) call, (forall f, F c = Some f -> P (call f st).1) ->
    let (q, st') := invoke (Some c) F call p st in P st' /\ kept p q /\ prefix_fine q) as Hgo.
  { intros A F call Hf. destruct (invoke (Some c) F call p st) as [q st'] eqn:E.
    apply invoke_host in E as (? & ? & Hpf); auto. }
  destruct (_ =? FramePriority); [destruct (_ =? _); [done|]; apply Hgo; intros f Hf; by eapply host_Priority|].
  destruct (Z.eqb_spec (Type_ (current p)) FrameRSTStream).
  { apply Hgo; intros f Hf. eapply host_RSTStream; [done | apply data_id; auto | done]. }
  destruct (_ =? FrameSettings); [apply Hgo; intros f Hf; by eapply host_SettingsEnd|].
  destruct (_ =? FramePing); [apply Hgo; intros f Hf; eapply host_Ping; [done | apply Hp | done]|].
  destruct (_ =? FrameGoAway); [apply Hgo; intros f Hf; eapply host_GoAway; [done | apply streamMask_range | done]|].
  destruct (_ =? FrameWindowUpdate); [|done].
  pose proof (streamMask_range (Uint32At (take 4 (prefix p)) 0)) as Hi.
  destruct (Z.eqb_spec (Z.land (Uint32At (take 4 (prefix p)) 0) streamMask) 0); [done|].
  apply Hgo; intros f Hf. eapply host_WindowUpdate; [done | done | lia | done].
Qed.

Lemma finishHeaderBlock_host p st q st' :
  here p -> P st -> prefix_fine p -> finishHeaderBlock (Some c) p st = (q, st') -> P st' /\ kept p q /\ prefix_fine q.
Proof.
  intros [Eh _] Hst Hp. unfold finishHeaderBlock. cbv zeta. destruct (isHeaderBlockFrame _) eqn:Et; [|by intros [= <- <-]].
  destruct (Has _ _); [|by destruct (_ =? 0); intros [= <- <-]].
  destruct (invoke _ _ _ p st) as [u st2] eqn:E. apply invoke_host in E as (Hst' & Hku & Hpf); [|intros f Hf|done].
  2: { eapply host_HeaderBlockEnd; [done | by rewrite <- Eh | done]. }
  intros [= <- <-]. specialize (Hpf Hp). by split.
Qed.

End Payload.

(** ** Frames *)

Definition buffers_fine (p : Parser) : Prop := bytes p.(header) /\ length p.(header) = 9%nat /\ prefix_fine p.

(** Between two calls: in a payload, the header was accepted. *)
Definition host_fine (p : Parser) : Prop :=
  buffers_fine p /\ (p.(code) = CodeNone -> 9 <= p.(headerN) -> header_fine p.(current)).

Lemma buffers_kept p q : kept p q -> prefix_fine q -> buffers_fine p -> buffers_fine q.
Proof. intros (_ & E & _) Hq (? & ? & _). unfold buffers_fine. by rewrite E. Qed.

Lemma checkContinuation_kept p : kept p (checkContinuation p).1 /\ (checkContinuation p).1.(prefix) = p.(prefix) /\
  (checkContinuation p).2 <> Some CodeNone.
Proof.
  unfold checkContinuation. cbv zeta. destruct (negb _); [destruct (_ || _); [by split_and!|]; destruct (_ <? _); by split_and!|].
  destruct (_ =? _); by split_and!.
Qed.

Lemma checkSequence_kept p q e :
  checkSequence p = (q, e) -> kept p q /\ q.(prefix) = p.(prefix) /\ e <> Some CodeNone /\
  (e = None -> validateFrameHeader p.(current) = CodeNone).
Proof.
  unfold checkSequence. cbv zeta. destruct (_ <? _); [by intros [= <- <-]|].
  pose proof (checkContinuation_kept p) as (Hk & Hp & Hd). destruct (checkContinuation p) as [u [d|]]; cbn in Hk, Hp, Hd; intros [= <- <-].
  { by split_and!. }
  split_and!; [by destruct (_ && _).. | by destruct (validateFrameHeader _) | by destruct (validateFrameHeader _)].
Qed.

Section Host.
Context {St : Type} (c : Callbacks St) (P : St -> Prop) (Q : FrameHeader -> St -> Prop) `{FI : !FrameInvariant c P Q}.

(** The host when the parser has stopped with an error. *)
Definition left_behind (st : St) : Prop := P st \/ exists h, Q h st.

(** The host between two calls. *)
Definition host_at (p : Parser) (st : St) : Prop :=
  if is_none p.(code) then if p.(headerN) <? 9 then P st else Q p.(current) st else left_behind st.

Lemma invoke_result {A} (F : Callbacks St -> option A) call p st q st' :
  invoke (Some c) F call p st = (q, st') ->
  st' = match F c with Some f => (call f st).1 | None => st end /\ kept p q /\ (prefix_fine p -> prefix_fine q).
Proof.
  unfold invoke. destruct (F c) as [f|]; [|by intros [= <- <-]].
  destruct (call f st) as [st2 b]; intros [= <- <-]. split; [done|]. destruct b; [apply fail_kept | done].
Qed.

Lemma beginFrame_host p st q st' e :
  buffers_fine p -> P st -> beginFrame (Some c) p st = ((q, st'), e) ->
  buffers_fine q /\ e = q.(code) /\ q.(headerN) = p.(headerN) /\
  (if is_none e then header_fine q.(current) /\ Q q.(current) st' else left_behind st').
Proof.
  intros Hb Hst. unfold beginFrame. fold (opened p). pose proof Hb as (Hhb & Hhl & Hp).
  destruct (checkSequence (opened p)) as [u err] eqn:E. apply checkSequence_kept in E as (Hk & Ep & Hne & Hv).
  assert (buffers_fine u) as Hu.
  { apply (buffers_kept (opened p)); [done | unfold prefix_fine; by rewrite Ep | done]. }
  assert (headerN u = headerN p) as HN by (by destruct Hk as (_ & _ & ->)).
  destruct err as [d|].
  { intros [= <- <- <-]. destruct (fail_kept u d) as [Hkf Hpf].
    split; [eapply buffers_kept; [exact Hkf | apply Hpf, Hu | done]|]. split; [done|]. split; [by destruct Hkf as (_ & _ & ->)|].
    destruct (frame_is_none_spec (code (fail u d))) as [Hn|Hn]; [|by left].
    exfalso. unfold fail in Hn. destruct (frame_is_none_spec (code u)); cbn in Hn; congruence. }
  assert (header_fine (current u)) as Hf.
  { destruct Hk as (-> & _). split; [by apply Hv|]. split; [by apply decodeFrameHeader_length|]. apply streamMask_range. }
  destruct (invoke _ _ _ u st) as [w st2] eqn:E. apply invoke_result in E as (-> & Hku & Hpf).
  pose proof (frame_begin (current u) st Hf Hst) as HQ. intros [= <- <- <-].
  split; [eapply buffers_kept; [exact Hku | apply Hpf, Hu | done]|]. split; [done|].
  destruct Hku as (Ec & _ & Eh). rewrite Ec, Eh. split; [done|]. destruct (is_none (code w)); [done|]. right. by exists (current u).
Qed.

Lemma finishFrame_host p st q st' e :
  header_fine p.(current) -> buffers_fine p -> Q p.(current) st -> finishFrame (Some c) p st = ((q, st'), e) ->
  host_fine q /\ e = q.(code) /\ host_at q st'.
Proof.
  intros Hf Hb Hst. unfold finishFrame. pose proof Hb as (_ & _ & Hp). set (h := current p) in *.
  pose proof (frame_payload h Hf) as PI. assert (here h p) as Hh by done.
  pose proof (finishPayload_host c h (Q h) p st Hh Hp Hst) as H1. destruct (finishPayload _ p st) as [[u1 st1]|d].
  2: { intros [= <- <- <-]. destruct (fail_kept p d) as [Hkf Hpf].
       assert (code (fail p d) <> CodeNone) as Hne.
       { intros Hn. unfold fail in Hn. destruct (frame_is_none_spec (code p)); cbn in Hn; congruence. }
       split; [split; [by eapply buffers_kept; auto | done]|]. split; [done|]. unfold host_at.
       destruct (frame_is_none_spec (code (fail p d))); [done|]. right. by exists h. }
  destruct H1 as (Hst1 & Hk1 & Hp1). destruct (finishHeaderBlock _ u1 st1) as [u2 st2] eqn:E2.
  apply (finishHeaderBlock_host c h (Q h)) in E2 as (Hst2 & Hk2 & Hp2); [|split; [by destruct Hk1 as (-> & _) | done] | done..].
  destruct (invoke _ _ _ u2 st2) as [u3 st3] eqn:E. apply invoke_result in E as (-> & Hk3 & Hp3).
  pose proof (frame_complete h st2 Hf Hst2) as HP.
  specialize (Hp3 Hp2). assert (buffers_fine u3) as Hb3.
  { eapply buffers_kept; [|exact Hp3 | exact Hb]. etrans; [exact Hk1|]. by etrans. }
  destruct (frame_is_none_spec (code u3)) as [Hn|Hn]; cbn [negb]; intros [= <- <- <-].
  - split; [split; [exact Hb3 | intros _ H9; cbn in H9; lia]|]. split; [by rewrite <- Hn|]. unfold host_at. cbn. by rewrite Hn.
  - split; [by split|]. split; [done|]. unfold host_at. destruct (frame_is_none_spec (code u3)); [done|]. by left.
Qed.

(** ** The parse loop *)

Definition host_turn (t : (Parser * St * list Z) + FOutcome (St := St)) : Prop :=
  match t with
  | inl (q, st, rest) => host_at q st /\ host_fine q /\ q.(code) = CodeNone /\ bytes rest
  | inr o => host_at o.(outParser) o.(outHost) /\ host_fine o.(outParser) /\ bytes o.(outRest)
  end.

Lemma finish_turn_host p st rest :
  header_fine p.(current) -> buffers_fine p -> Q p.(current) st -> bytes rest ->
  host_turn (let '((q, st'), e) := finishFrame (Some c) p st in
             if negb (is_none e) then inr (mkFOutcome q st' rest e) else inl (q, st', rest)).
Proof.
  intros Hf Hb Hst Hr. destruct (finishFrame (Some c) p st) as [[q st'] e] eqn:E.
  apply finishFrame_host in E as (Hq & -> & Hst'); [|done..].
  destruct (frame_is_none_spec (code q)); cbn [negb]; [split; [done | by split] | split; [done | by split]].
Qed.

Lemma payloadTurn_host p st src t :
  header_fine p.(current) -> buffers_fine p -> 9 <= p.(headerN) -> Q p.(current) st -> bytes src ->
  payloadTurn (Some c) p st src = Some t -> host_turn t.
Proof.
  intros Hf Hb HN Hst Hs. unfold payloadTurn, parsePayload. destruct (payloadLoop _ _ p st src) as [r|] eqn:E; [|done].
  pose proof Hb as (_ & _ & Hp). pose proof (frame_payload (current p) Hf) as PI.
  apply (payloadLoop_host c (current p) (Q (current p))) in E as (Hst' & Hk & Hp' & Hr); [|done..].
  assert (buffers_fine (resParser r)) as Hb' by (by eapply buffers_kept).
  destruct Hk as (Ec & _ & EN). rewrite <- Ec in Hf, Hst'. rewrite <- EN in HN.
  assert (host_fine (resParser r)) as Hh by done.
  assert (host_at (resParser r) (resHost r)) as Hat.
  { unfold host_at. destruct (is_none _); [|right; by eexists]. by destruct (Z.ltb_spec (headerN (resParser r)) 9); [lia|]. }
  cbv zeta. intros [= <-]. repeat (match goal with |- host_turn (if ?b then _ else _) => destruct b end; [by split|]).
  by apply finish_turn_host.
Qed.

Lemma frameTurn_host p st src t :
  host_fine p -> p.(code) = CodeNone -> host_at p st -> bytes src -> frameTurn (Some c) p st src = Some t -> host_turn t.
Proof.
  intros (Hb & Hin) Hn Hst Hs. unfold host_at in Hst. rewrite Hn in Hst. cbn [is_none] in Hst. unfold frameTurn.
  destruct (Z.ltb_spec (headerN p) 9) as [Hlt|Hge]; [|apply payloadTurn_host; auto].
  pose proof (copyAt_bytes (header p) (headerN p) src) as Hcb. pose proof (copyAt_length (header p) (headerN p) src) as Hcl.
  destruct Hb as (Hhb & Hhl & Hp). destruct (copyAt _ _ src) as [h copied]. cbn in Hcb, Hcl.
  set (q := p <| header := h |> <| headerN := _ |>). assert (buffers_fine q) as Hbq.
  { split; [by apply Hcb|]. split; [cbn; congruence | done]. }
  assert (bytes (drop (Z.to_nat copied) src)) as Hr by by apply Forall_drop. cbv zeta.
  destruct (Z.ltb_spec (headerN q) 9) as [Hq|Hq].
  { intros [= <-]. split; [|split; [|done]].
    - unfold host_at. cbn [outParser outHost]. change (code q) with (code p). rewrite Hn. cbn [is_none]. by destruct (Z.ltb_spec (headerN q) 9); [|lia].
    - split; [done|]. intros _ H9. cbn in H9, Hq. lia. }
  destruct (beginFrame (Some c) q st) as [[u st'] e] eqn:E. apply beginFrame_host in E as (Hu & -> & HN & Hf); [|done..].
  destruct (frame_is_none_spec (code u)) as [Hnu|Hnu]; cbn [negb is_none] in *.
  2: { intros [= <-]. split; [|split; [by split | done]]. unfold host_at. cbn. by destruct (frame_is_none_spec (code u)). }
  destruct Hf as [Hf HQ]. destruct (_ =? 0); [|apply payloadTurn_host; auto; lia].
  pose proof (finish_turn_host u st' _ Hf Hu HQ Hr) as Ht. destruct (finishFrame _ u st') as [[w st2] e]. by intros [= <-].
Qed.

Lemma frameLoop_host fuel p st src o :
  host_fine p -> p.(code) = CodeNone -> host_at p st -> bytes src -> frameLoop (Some c) fuel p st src = Some o ->
  host_at o.(outParser) o.(outHost) /\ host_fine o.(outParser) /\ bytes o.(outRest).
Proof.
  revert p st src. induction fuel as [|fuel IH]; intros p st src Hp Hn Hst Hb; cbn [frameLoop]; destruct src as [|b src];
    try (by intros [= <-]); (destruct (paused p); [by intros [= <-]|]); [done|].
  destruct (frameTurn (Some c) p st (b :: src)) as [t|] eqn:E; [|done]. apply frameTurn_host in E; [|done..].
  destruct t as [[[q st'] rest]|o']; [|by intros [= <-]]. destruct E as (? & ? & ? & ?). by apply IH.
Qed.

(** A run keeps the invariant of the host, whatever it is. *)
Lemma runParse_at p st src pause o :
  host_fine p -> host_at p st -> bytes src -> runParse (Some c) p st src pause = Some o ->
  host_at o.(outParser) o.(outHost) /\ host_fine o.(outParser) /\ bytes o.(outRest).
Proof.
  intros Hp Hst Hb. unfold runParse. destruct (parsing p).
  { intros [= <-]. cbn. destruct Hp as [Hb' Hin]. unfold fail. destruct (frame_is_none_spec (code p)) as [Hn|Hn].
    - split; [|split; [by split | done]]. unfold host_at in *. rewrite Hn in Hst. cbn in *.
      destruct (_ <? 9); [by left | right; by eexists].
    - by split. }
  destruct (frame_is_none_spec (code p)) as [Hn|Hn]; cbn [negb]; [|by intros [= <-]].
  fold (frame_started p pause). cbv zeta. destruct (frameLoop _ _ _ st src) as [o'|] eqn:E; [|done].
  apply frameLoop_host in E as (? & ? & ?); [|done..]. by intros [= <-].
Qed.
End Host.

Lemma host_at_const {St} (P : St -> Prop) p st : host_at P (fun _ => P) p st <-> P st.
Proof.
  unfold host_at, left_behind. destruct (is_none _); [by destruct (_ <? 9)|].
  split; [by intros [H|[_ H]] | by left].
Qed.

Lemma runParse_host {St} (c : Callbacks St) P `{!HostInvariant c P} p st src pause o :
  host_fine p -> P st -> bytes src -> runParse (Some c) p st src pause = Some o ->
  P o.(outHost) /\ host_fine o.(outParser) /\ bytes o.(outRest).
Proof.
  intros Hp Hst Hb E. apply (runParse_at c P (fun _ => P)) in E as (H & ? & ?); [|done | by apply host_at_const | done].
  by apply host_at_const in H.
Qed.

Lemma zeroParser_fine l : host_fine (zeroParser l).
Proof.
  split; [|cbn; lia]. split; [by apply Forall_replicate|]. split; [done|]. split; [by apply Forall_replicate | done].
Qed.

(** ** Progress *)

Section Progress.
Context {St : Type} (cb : option (Callbacks St)).

(** A turn that stops without an error has used up the input. *)
Lemma payloadTurn_stop p st src o :
  frame_ok p -> bytes src -> p.(payloadN) < p.(current).(Length) -> payloadTurn cb p st src = Some (inr o) ->
  o.(outCode) = CodeNone -> o.(outRest) = [].
Proof.
  intros Hp Hb HN. unfold payloadTurn. destruct (parsePayload_ok cb p st src Hp Hb HN) as (r & -> & Hr).
  intros [= E] Ho. revert E. destruct Hr as (_ & _ & _ & _ & Hr).
  destruct (frame_is_none_spec (resCode r)) as [Hc|Hc]; cbn [negb]; [|by intros [= <-]].
  destruct Hr as (Hok & _ & Hd & Hrest).
  destruct (frame_is_none_spec (code (resParser r))) as [Hc'|Hc']; cbn [negb]; [|by intros [= <-]].
  destruct (resDone r) eqn:Hdone; cbn [negb].
  - destruct (finishFrame _ _ _) as [[u st2] c]. destruct (frame_is_none_spec c); cbn [negb]; [done|]. by intros [= <-].
  - intros [= <-]. cbn. apply Hrest. destruct Hok as (_ & (? & _) & _). symmetry in Hd. apply Z.eqb_neq in Hd. lia.
Qed.

Lemma frameTurn_stop p st src o :
  frame_wf p -> p.(code) = CodeNone -> bytes src -> frameTurn cb p st src = Some (inr o) ->
  o.(outCode) = CodeNone -> o.(outRest) = [].
Proof.
  intros (Hbase & Hcnt & Hin) Hn Hb. pose proof Hbase as (Hl & Hh & Hhb & Hp & HhN & Hbb & Hcs). unfold frameTurn.
  destruct (Z.ltb_spec (headerN p) 9) as [Hlt|Hge].
  2: { destruct (Hin Hn ltac:(lia)) as (Hok & HN & _). by apply payloadTurn_stop. }
  pose proof (copyAt_bytes (header p) (headerN p) src Hhb Hb) as Hcb.
  pose proof (copyAt_length (header p) (headerN p) src) as Hcl. destruct (copyAt (header p) (headerN p) src) as [h n] eqn:E.
  cbn in Hcb, Hcl. assert (n = Z.min (9 - headerN p) (len src)) as Hnn.
  { unfold copyAt in E. injection E as <- <-. unfold len. rewrite Hh. lia. }
  pose proof (len_nonneg src). cbv zeta. rewrite (u8_small (headerN p + n)) by (widths; lia).
  set (q := p <| header := h |> <| headerN := headerN p + n |>). set (rest := drop (Z.to_nat n) src).
  destruct (Z.ltb_spec (headerN q) 9) as [Hq|Hq].
  { intros [= <-] _. cbn in *. unfold rest. apply drop_all_Z. lia. }
  assert (frame_base q) as Hbq.
  { split; [exact Hl|]. split; [cbn; congruence|]. split; [exact Hcb|]. split; [exact Hp|]. split; [cbn in *; lia|]. by split. }
  destruct (beginFrame cb q st) as [[r st'] c] eqn:Eb.
  destruct (beginFrame_ok cb q st r st' c Hbq Hcnt ltac:(cbn in *; lia) Hn Eb) as (_ & -> & _ & _ & _ & Hopen).
  destruct (frame_is_none_spec (code r)) as [Hnr|Hnr]; cbn [negb]; [|by intros [= <-] Ho].
  destruct (Hopen Hnr) as (Hok & HN0 & _). destruct (Z.eqb_spec (Length (current r)) 0) as [HL0|HL0].
  - destruct (finishFrame _ _ _) as [[u st2] c]. destruct (frame_is_none_spec c); cbn [negb]; [done|]. by intros [= <-].
  - apply payloadTurn_stop; [done | by apply bytes_drop|]. destruct Hok as (_ & (? & _) & _). lia.
Qed.

(** A run on some input without an error consumes some of it. *)
Lemma runParse_progress p st src pause o :
  frame_wf p -> p.(parsing) = false -> bytes src -> src <> [] -> runParse cb p st src pause = Some o ->
  o.(outCode) = CodeNone -> len o.(outRest) < len src.
Proof.
  intros Hw Hp Hb Hne. unfold runParse. rewrite Hp. destruct (frame_is_none_spec (code p)) as [Hn|Hn]; cbn [negb]; [|by intros [= <-]].
  cbv zeta. fold (frame_started p pause). destruct src as [|b src]; [done|]. cbn [length frameLoop].
  change (paused (frame_started p pause)) with false. cbv iota.
  destruct (frameTurn_ok cb (frame_started p pause) st (b :: src) Hw Hn Hb ltac:(done)) as (t & Et & Ht). rewrite Et.
  destruct t as [[[q st'] rest]|o'].
  - destruct Ht as (Hwq & Hnq & _ & _ & _ & [pre Hpre] & Hlen).
    destruct (frameLoop_ok cb (length src) q st' rest Hwq Hnq) as (o' & -> & _ & _ & [pre' Hs] & _).
    + rewrite Hpre in Hb. by apply Forall_app in Hb as [_ ?].
    + unfold len in Hlen. cbn [length] in Hlen. lia.
    + intros [= <-] _. cbn. rewrite Hs, len_app in Hlen. pose proof (len_nonneg pre'). lia.
  - intros [= <-] Ho. cbn in *. rewrite (frameTurn_stop (frame_started p pause) _ _ _ Hw Hn Hb Et Ho). rewrite len_cons.
    pose proof (len_nonneg src). unfold len at 1. cbn. lia.
Qed.
End Progress.
