(* ===== verification/H2Hpack.v ===== *)
(** * HTTP/2: the bounded HPACK decoder

    A translation of [src/http2/hpack.go].  The compression itself is
    [golang.org/x/net/http2/hpack], which is not part of the repository: its
    decoder and encoder are the operations of the class [Hpack], and nothing
    is assumed of them but their shape.  [Decoder.Write] calls the emit
    function on the decoded fields in order, so it returns the list of them;
    [Encoder.WriteField] hands its bytes to the writer in one [Write], so it
    returns the bytes.

    The theorems say what [HeaderDecoder] adds: whatever the library emits, the
    fields that reach the session stay within the configured count and size. *)

From S2P Require Import Prelude.

Record HeaderField := mkHeaderField {
  Name : list Z;
  FieldValue : list Z;
  Sensitive : bool;
}.

#[export] Instance HeaderField_eq_dec : EqDecision HeaderField.
Proof. solve_decision. Defined.

(** [golang.org/x/net/http2/hpack] *)
Class Hpack := {
  Decoder : Type;
  Encoder : Type;
  HpackError : Type;
  NewDecoder : Z -> Decoder;
  SetAllowedMaxDynamicTableSize : Decoder -> Z -> Decoder;
  SetMaxStringLength : Decoder -> Z -> Decoder;
  (** the emitted fields, the bytes consumed and the error *)
  DecoderWrite : Decoder -> list Z -> Decoder * list HeaderField * (Z * option HpackError);
  DecoderClose : Decoder -> Decoder * option HpackError;
  NewEncoder : Encoder;
  SetMaxDynamicTableSizeLimit : Encoder -> Z -> Encoder;
  SetMaxDynamicTableSize : Encoder -> Z -> Encoder;
  (** the bytes written for one field *)
  WriteField : Encoder -> HeaderField -> Encoder * list Z;
  HpackErrorString : HpackError -> list Z;
}.

Record HeaderLimits := mkHeaderLimits {
  MaxDynamicTableBytes : Z; (* uint32 *)
  MaxFieldBytes : Z; (* uint32 *)
  MaxHeaderListBytes : Z; (* uint64 *)
  MaxHeaders : Z; (* uint32 *)
}.

Definition defaultMaxDynamicTableBytes : Z := Z.shiftl 4 10.
Definition defaultMaxFieldBytes : Z := Z.shiftl 16 10.
Definition defaultMaxHeaderListBytes : Z := Z.shiftl 64 10.
Definition defaultMaxHeaders : Z := 256.

Definition normalizedHeader (l : HeaderLimits) : HeaderLimits :=
  let or_default (v default : Z) : Z := if v =? 0 then default else v in
  {| MaxDynamicTableBytes := or_default l.(MaxDynamicTableBytes) defaultMaxDynamicTableBytes;
     MaxFieldBytes := or_default l.(MaxFieldBytes) defaultMaxFieldBytes;
     MaxHeaderListBytes := or_default l.(MaxHeaderListBytes) defaultMaxHeaderListBytes;
     MaxHeaders := or_default l.(MaxHeaders) defaultMaxHeaders |}.

Section Decoding.
Context `{Hpack}.

(** The errors of [hpack.go] and of the library. *)
Inductive DecoderError :=
  | ErrHeaderDecoderState
  | ErrHeaderListTooLarge
  | ErrTooManyHeaders
  | ErrHpack (e : HpackError).

(** The struct [HeaderDecoder]; [emits] tells whether [emit] is set. *)
Record HeaderDecoder := mkHeaderDecoder {
  decoder : Decoder;
  hlimits : HeaderLimits;
  emits : bool;
  active : bool;
  fields : Z; (* uint32 *)
  listSize : Z; (* uint64 *)
  derr : option DecoderError;
}.

Definition MaxInt : Z := 9223372036854775807.

Definition NewHeaderDecoder (l : HeaderLimits) (emit : bool) : HeaderDecoder :=
  let l := normalizedHeader l in
  let d := NewDecoder l.(MaxDynamicTableBytes) in
  let d := SetAllowedMaxDynamicTableSize d l.(MaxDynamicTableBytes) in
  let maxStringBytes := if MaxInt <? l.(MaxFieldBytes) then MaxInt else l.(MaxFieldBytes) in
  {| decoder := SetMaxStringLength d maxStringBytes;
     hlimits := l;
     emits := emit;
     active := false;
     fields := 0;
     listSize := 0;
     derr := None |}.

Definition BeginBlock (d : HeaderDecoder) : HeaderDecoder * option DecoderError :=
  if d.(active) then (d, Some ErrHeaderDecoderState)
  else (mkHeaderDecoder d.(decoder) d.(hlimits) d.(emits) true 0 0 None, None).

(** [uint64(len(field.Name)) + uint64(len(field.Value)) + 32] *)
Definition fieldSize (f : HeaderField) : Z := u64 (u64 (len f.(Name) + len f.(FieldValue)) + 32).

(** The decoder after [emitField], and what it passes on. *)
Definition emitField (d : HeaderDecoder) (f : HeaderField) : HeaderDecoder * list HeaderField :=
  match d.(derr) with
  | Some _ => (d, [])
  | None =>
      let n := u32 (d.(fields) + 1) in
      let upd (size : Z) (e : option DecoderError) : HeaderDecoder :=
        mkHeaderDecoder d.(decoder) d.(hlimits) d.(emits) d.(active) n size e in
      if d.(hlimits).(MaxHeaders) <? n then (upd d.(listSize) (Some ErrTooManyHeaders), [])
      else
        let size := fieldSize f in
        if u64 (d.(hlimits).(MaxHeaderListBytes) - d.(listSize)) <? size
        then (upd d.(listSize) (Some ErrHeaderListTooLarge), [])
        else (upd (u64 (d.(listSize) + size)) None, if d.(emits) then [f] else [])
  end.

Fixpoint emitFields (d : HeaderDecoder) (fs : list HeaderField) : HeaderDecoder * list HeaderField :=
  match fs with
  | [] => (d, [])
  | f :: fs =>
      let (d, out) := emitField d f in
      let (d, out') := emitFields d fs in (d, out ++ out')
  end.

Definition setDecoder (d : HeaderDecoder) (x : Decoder) : HeaderDecoder :=
  mkHeaderDecoder x d.(hlimits) d.(emits) d.(active) d.(fields) d.(listSize) d.(derr).

(** [Write]: the decoder, the fields passed to [emit], and [(n, err)]. *)
Definition DWrite (d : HeaderDecoder) (src : list Z)
  : HeaderDecoder * list HeaderField * (Z * option DecoderError) :=
  if negb d.(active) then (d, [], (0, Some ErrHeaderDecoderState))
  else
    match d.(derr) with
    | Some e => (d, [], (0, Some e))
    | None =>
        let '((x, fs), (n, err)) := DecoderWrite d.(decoder) src in
        let (d, out) := emitFields (setDecoder d x) fs in
        (d, out, (n, match d.(derr) with Some e => Some e | None => ErrHpack <$> err end))
    end.

Definition EndBlock (d : HeaderDecoder) : HeaderDecoder * option DecoderError :=
  if negb d.(active) then (d, Some ErrHeaderDecoderState)
  else
    let (x, err) := DecoderClose d.(decoder) in
    (mkHeaderDecoder x d.(hlimits) d.(emits) false d.(fields) d.(listSize) d.(derr),
     match d.(derr) with Some e => Some e | None => ErrHpack <$> err end).

Definition SetAllowedDynamicTableBytes (d : HeaderDecoder) (size : Z) : HeaderDecoder * option DecoderError :=
  if d.(active) || (d.(hlimits).(MaxDynamicTableBytes) <? size) then (d, Some ErrHeaderDecoderState)
  else (setDecoder d (SetAllowedMaxDynamicTableSize d.(decoder) size), None).

(** ** The bounds *)

(** [MaxHeaders] below its type's maximum, where the counter cannot wrap. *)
Definition header_limits_ok (l : HeaderLimits) : Prop :=
  0 < l.(MaxDynamicTableBytes) <= MaxUint32 /\ 0 < l.(MaxFieldBytes) <= MaxUint32 /\
  0 < l.(MaxHeaderListBytes) <= MaxUint64 /\ 0 < l.(MaxHeaders) < MaxUint32.

Fixpoint listSizeOf (fs : list HeaderField) : Z :=
  match fs with [] => 0 | f :: fs => len f.(Name) + len f.(FieldValue) + 32 + listSizeOf fs end.

(** Counters within the limits; a decoder without an error has counted every
    field it passed on. *)
Definition decoder_ok (d : HeaderDecoder) : Prop :=
  header_limits_ok d.(hlimits) /\ 0 <= d.(listSize) <= d.(hlimits).(MaxHeaderListBytes) /\
  (d.(derr) = None -> 0 <= d.(fields) <= d.(hlimits).(MaxHeaders)).

(** Fields of a size that fits 64 bits, as every Go value is. *)
Definition field_fits (f : HeaderField) : Prop := len f.(Name) + len f.(FieldValue) + 32 <= MaxUint64.

Lemma fieldSize_eq f : field_fits f -> fieldSize f = len f.(Name) + len f.(FieldValue) + 32.
Proof.
  unfold field_fits, fieldSize, MaxUint64. intros Hf. pose proof (len_nonneg (Name f)). pose proof (len_nonneg (FieldValue f)).
  rewrite (u64_small (len (Name f) + len (FieldValue f))), u64_small; unfold MaxUint64; lia.
Qed.

Lemma listSizeOf_nonneg fs : 0 <= listSizeOf fs.
Proof.
  induction fs as [|f fs IH]; cbn; [lia|]. pose proof (len_nonneg (Name f)). pose proof (len_nonneg (FieldValue f)). lia.
Qed.

Lemma listSizeOf_app x y : listSizeOf (x ++ y) = listSizeOf x + listSizeOf y.
Proof. induction x; cbn; [done|]. rewrite IHx. lia. Qed.

(** What was counted before and after: the fields passed on account for the
    growth of the counters. *)
Definition emitted (d d' : HeaderDecoder) (out : list HeaderField) : Prop :=
  d'.(hlimits) = d.(hlimits) /\ d'.(emits) = d.(emits) /\ d'.(active) = d.(active) /\ d'.(decoder) = d.(decoder) /\
  (d.(derr) <> None -> d' = d /\ out = []) /\
  d.(listSize) + listSizeOf out <= d'.(listSize) /\
  (d.(derr) = None -> d'.(derr) = None -> d.(fields) + len out <= d'.(fields)).

Lemma emitField_ok d f :
  decoder_ok d -> field_fits f -> let (d', out) := emitField d f in decoder_ok d' /\ emitted d d' out.
Proof.
  intros (Hl & Hs & Hn) Hf. pose proof Hl as (H1 & H2 & H3 & H4). unfold emitField. destruct (derr d) as [e|] eqn:He.
  { split; [split; [done | split; [done | by rewrite He]]|]. split_and!; cbn; first [done | lia | by rewrite He]. }
  rewrite ?He in Hn. specialize (Hn eq_refl). rewrite fieldSize_eq by done. pose proof (len_nonneg (Name f)). pose proof (len_nonneg (FieldValue f)).
  unfold field_fits in Hf. rewrite (u32_small (fields d + 1)), (u64_small (_ - _)) by lia.
  destruct (Z.ltb_spec (MaxHeaders (hlimits d)) (fields d + 1)) as [Hx|Hx].
  { split; [split; [exact Hl | split; [exact Hs | done]]|]. split_and!; cbn; first [done | lia | by rewrite He]. }
  destruct (Z.ltb_spec (MaxHeaderListBytes (hlimits d) - listSize d) (len (Name f) + len (FieldValue f) + 32)) as [Hy|Hy].
  { split; [split; [exact Hl | split; [exact Hs | done]]|]. split_and!; cbn; first [done | lia | by rewrite He]. }
  rewrite u64_small by lia. split.
  - split; [exact Hl | split; cbn; lia].
  - split_and!; cbn; first [done | by rewrite He | destruct (emits d); cbn [listSizeOf]; lia
      | intros; destruct (emits d); unfold len; cbn; lia].
Qed.

Lemma emitFields_ok d fs :
  decoder_ok d -> Forall field_fits fs -> let (d', out) := emitFields d fs in decoder_ok d' /\ emitted d d' out.
Proof.
  revert d. induction fs as [|f fs IH]; intros d Hd Hf; cbn.
  { split; [done|]. split_and!; cbn; first [done | lia | intros; unfold len; cbn; lia]. }
  apply Forall_cons_1 in Hf as [Hf Hfs]. pose proof (emitField_ok d f Hd Hf) as H1.
  destruct (emitField d f) as [d1 o1]. destruct H1 as [Hd1 (A1 & A2 & A3 & A4 & A5 & A6 & A7)].
  pose proof (IH d1 Hd1 Hfs) as H2. destruct (emitFields d1 fs) as [d2 o2].
  destruct H2 as [Hd2 (B1 & B2 & B3 & B4 & B5 & B6 & B7)]. split; [done|].
  split_and!; [congruence..| | |].
  - intros Hne. destruct (A5 Hne) as [-> ->]. destruct (B5 Hne) as [-> ->]. done.
  - rewrite listSizeOf_app. lia.
  - intros Hn Hn2. rewrite len_app. destruct (derr d1) as [e|] eqn:He1.
    + destruct B5 as [-> ->]; [done|]. by rewrite He1 in Hn2.
    + specialize (A7 Hn eq_refl). specialize (B7 eq_refl Hn2). lia.
Qed.

(** The fields of one block, fragment by fragment. *)
Fixpoint writeAll (d : HeaderDecoder) (fragments : list (list Z)) : HeaderDecoder * list HeaderField :=
  match fragments with
  | [] => (d, [])
  | s :: rest => let '(d, out, _) := DWrite d s in let (d, out') := writeAll d rest in (d, out ++ out')
  end.

(** The library emits values that exist in memory. *)
Class HpackFits : Prop := decoder_fits x src : Forall field_fits (DecoderWrite x src).1.2.

Context `{!HpackFits}.

Definition wrote (d d' : HeaderDecoder) (out : list HeaderField) : Prop :=
  d'.(hlimits) = d.(hlimits) /\ d'.(active) = d.(active) /\
  (d.(derr) <> None -> d' = d /\ out = []) /\ d.(listSize) + listSizeOf out <= d'.(listSize) /\
  (d.(derr) = None -> d'.(derr) = None -> d.(fields) + len out <= d'.(fields)).

Lemma DWrite_ok d src :
  decoder_ok d -> let '(d', out, (n, e)) := DWrite d src in
  decoder_ok d' /\ wrote d d' out /\ (d'.(derr) <> None -> e <> None).
Proof.
  intros Hd. unfold DWrite. destruct (active d) eqn:Ha; cbn [negb].
  2: { split; [done|]. split; [|done]. split_and!; cbn; first [done | lia | intros; unfold len; cbn; lia]. }
  destruct (derr d) as [e|] eqn:He.
  { split; [done|]. split; [|done]. split_and!; cbn; first [done | lia | by rewrite He]. }
  destruct (DecoderWrite (decoder d) src) as [[x fs] [n err]] eqn:E.
  pose proof (decoder_fits (decoder d) src) as Hfits. rewrite E in Hfits. cbn in Hfits.
  assert (decoder_ok (setDecoder d x)) as Hd' by exact Hd.
  pose proof (emitFields_ok (setDecoder d x) fs Hd' Hfits) as H1. destruct (emitFields (setDecoder d x) fs) as [d1 out].
  destruct H1 as [Hd1 (A1 & A2 & A3 & A4 & A5 & A6 & A7)]. split; [done|].
  split; [|by destruct (derr d1)]. by split_and!.
Qed.

Lemma writeAll_ok d fragments :
  decoder_ok d -> let (d', out) := writeAll d fragments in decoder_ok d' /\ wrote d d' out.
Proof.
  revert d. induction fragments as [|s rest IH]; intros d Hd; cbn.
  { split; [done|]. split_and!; cbn; first [done | lia | intros; unfold len; cbn; lia]. }
  pose proof (DWrite_ok d s Hd) as H1. destruct (DWrite d s) as [[d1 o1] [n e]].
  destruct H1 as (Hd1 & (A1 & A2 & A3 & A4 & A5) & _). pose proof (IH d1 Hd1) as H2.
  destruct (writeAll d1 rest) as [d2 o2]. destruct H2 as (Hd2 & (B1 & B2 & B3 & B4 & B5)). split; [done|].
  split_and!; [congruence | congruence | | |].
  - intros Hne. destruct (A3 Hne) as [-> ->]. destruct (B3 Hne) as [-> ->]. done.
  - rewrite listSizeOf_app. lia.
  - intros Hn Hn2. rewrite len_app. destruct (derr d1) as [e1|] eqn:He1.
    + destruct B3 as [-> ->]; [done|]. by rewrite He1 in Hn2.
    + specialize (A5 Hn eq_refl). specialize (B5 eq_refl Hn2). lia.
Qed.

(** The fields of a block never exceed the limits. *)
Lemma block_bounded d d1 fragments :
  decoder_ok d -> BeginBlock d = (d1, None) ->
  let (d2, out) := writeAll d1 fragments in
  listSizeOf out <= d.(hlimits).(MaxHeaderListBytes) /\
  (d2.(derr) = None -> len out <= d.(hlimits).(MaxHeaders)) /\
  (d2.(derr) <> None -> exists e, (EndBlock d2).2 = Some e).
Proof.
  intros Hd. unfold BeginBlock. destruct (active d); [done|]. intros [= <-].
  set (d1 := mkHeaderDecoder _ _ _ _ _ _ _). pose proof Hd as (Hl & _ & _). pose proof Hl as (_ & _ & HM & HN).
  assert (decoder_ok d1) as Hd1 by (split; [exact Hl|]; split; [cbn; lia | intros _; cbn; lia]).
  pose proof (writeAll_ok d1 fragments Hd1) as H1. destruct (writeAll d1 fragments) as [d2 out].
  destruct H1 as ((Hl2 & Hs2 & Hn2) & (A1 & A2 & A3 & A4 & A5)). cbn in A4, A1, A2, A5. rewrite A1 in *.
  split; [lia|]. split; [intros Hn; specialize (Hn2 Hn); specialize (A5 eq_refl Hn); lia|].
  intros Hne. unfold EndBlock. rewrite A2. cbn [negb]. destruct (DecoderClose _). cbn.
  destruct (derr d2); [by eexists | done].
Qed.
End Decoding.
Arguments DecoderError {_}. Arguments HeaderDecoder {_}. Arguments HpackFits {_}.
