(* ===== verification/H2Headers.v ===== *)
(** * HTTP/2: field sections

    The validation of decoded field sections in [src/http2/session.go]: the
    pseudo-header rules of RFC 9113, the metadata the stream states need, and
    [content-length].  Every function is pure. *)

From S2P Require Import Prelude H2Hpack.

Inductive Role := RoleClient | RoleServer.

Definition is_client (r : Role) : bool := match r with RoleClient => true | _ => false end.
Definition is_server (r : Role) : bool := match r with RoleServer => true | _ => false end.

Record headerSectionMetadata := mkMetadata {
  request : bool;
  response : bool;
  informational : bool;
  noBody : bool;
  invalid : bool;
  mmethod : list Z;
  mstatus : list Z;
  hasContentLength : bool;
  contentLength : Z; (* uint64 *)
}.

Definition zeroMetadata : headerSectionMetadata := mkMetadata false false false false false [] [] false 0.

#[export] Instance eta_metadata : Eta headerSectionMetadata := fun m =>
  mkMetadata m.(request) m.(response) m.(informational) m.(noBody) m.(invalid) m.(mmethod) m.(mstatus)
    m.(hasContentLength) m.(contentLength).
#[export] Instance set_request : Setter request := ltac:(mk_setter request).
#[export] Instance set_response : Setter response := ltac:(mk_setter response).
#[export] Instance set_informational : Setter informational := ltac:(mk_setter informational).
#[export] Instance set_noBody : Setter noBody := ltac:(mk_setter noBody).
#[export] Instance set_invalid : Setter invalid := ltac:(mk_setter invalid).
#[export] Instance set_mmethod : Setter mmethod := ltac:(mk_setter mmethod).
#[export] Instance set_mstatus : Setter mstatus := ltac:(mk_setter mstatus).
#[export] Instance set_hasContentLength : Setter hasContentLength := ltac:(mk_setter hasContentLength).
#[export] Instance set_contentLength : Setter contentLength := ltac:(mk_setter contentLength).

(** The loop of [parseSessionContentLength]. *)
Fixpoint parseLengthDigits (parsed : Z) (value : list Z) : option Z :=
  match value with
  | [] => Some parsed
  | b :: value =>
      if (b <? ch "0") || (ch "9" <? b) then None
      else
        let digit := b - ch "0" in
        if (MaxUint64 - digit) / 10 <? parsed then None
        else parseLengthDigits (u64 (u64 (parsed * 10) + digit)) value
  end.

Definition parseSessionContentLength (value : list Z) : option Z :=
  match value with [] => None | _ => parseLengthDigits 0 value end.

Definition inspectField (m : headerSectionMetadata) (f : HeaderField) : headerSectionMetadata :=
  let v := f.(FieldValue) in
  if bytes_eqb f.(Name) (str ":method") then m <| request := true |> <| mmethod := v |>
  else if bytes_eqb f.(Name) (str ":status") then
    let m := m <| response := true |> <| mstatus := v |> in
    let m := if (len v =? 3) && (str_at v 0 =? ch "1") then m <| informational := true |> else m in
    m <| noBody := bytes_eqb v (str "204") || bytes_eqb v (str "304") |>
  else if bytes_eqb f.(Name) (str "content-length") then
    if m.(hasContentLength) then m <| invalid := true |>
    else
      match parseSessionContentLength v with
      | None => m <| invalid := true |>
      | Some n => m <| hasContentLength := true |> <| contentLength := n |>
      end
  else m.

Definition inspectHeaderSection (headers : list HeaderField) : headerSectionMetadata :=
  let m := fold_left inspectField headers zeroMetadata in
  if bytes_eqb m.(mstatus) (str "204") && m.(hasContentLength) then m <| invalid := true |> else m.

Definition firstNonEmpty (current next : list Z) : list Z := match current with [] => next | _ => current end.

Definition isFieldNameByte (b : Z) : bool :=
  between (ch "a") b (ch "z") || between (ch "0") b (ch "9") || one_of b (str "!#$%&'*+-.^_`|~").

Definition validSessionHeaderName (name : list Z) : bool :=
  match name with
  | [] => false
  | b :: rest =>
      if b =? ch ":" then match rest with [] => false | _ => forallb isFieldNameByte rest end
      else forallb isFieldNameByte name
  end.

Definition isBlank (b : Z) : bool := (b =? ch " ") || (b =? 9).

Definition validSessionHeaderValue (value : list Z) : bool :=
  match value with
  | [] => true
  | _ =>
      if isBlank (str_at value 0) || isBlank (str_at value (len value - 1)) then false
      else forallb (fun b => negb (negb (b =? 9) && (b <? 32) || (b =? 127))) value
  end.

Definition isConnectionSpecific (name value : list Z) : bool :=
  if bytes_eqb name (str "connection") || bytes_eqb name (str "proxy-connection") || bytes_eqb name (str "keep-alive")
     || bytes_eqb name (str "transfer-encoding") || bytes_eqb name (str "upgrade")
  then true
  else if bytes_eqb name (str "te") then negb (bytes_eqb value (str "trailers"))
  else false.

(** The local variables of [validateHeaderSection]. *)
Record sectionScan := mkScan {
  pseudoDone : bool;
  seen : list (list Z);
  vmethod : list Z;
  vscheme : list Z;
  vauthority : list Z;
  vpath : list Z;
  vprotocol : list Z;
  vstatus : list Z;
}.

Definition zeroScan : sectionScan := mkScan false [] [] [] [] [] [] [].

#[export] Instance eta_scan : Eta sectionScan := fun s =>
  mkScan s.(pseudoDone) s.(seen) s.(vmethod) s.(vscheme) s.(vauthority) s.(vpath) s.(vprotocol) s.(vstatus).
#[export] Instance set_pseudoDone : Setter pseudoDone := ltac:(mk_setter pseudoDone).
#[export] Instance set_seen : Setter seen := ltac:(mk_setter seen).
#[export] Instance set_vmethod : Setter vmethod := ltac:(mk_setter vmethod).
#[export] Instance set_vscheme : Setter vscheme := ltac:(mk_setter vscheme).
#[export] Instance set_vauthority : Setter vauthority := ltac:(mk_setter vauthority).
#[export] Instance set_vpath : Setter vpath := ltac:(mk_setter vpath).
#[export] Instance set_vprotocol : Setter vprotocol := ltac:(mk_setter vprotocol).
#[export] Instance set_vstatus : Setter vstatus := ltac:(mk_setter vstatus).

(** One turn of the loop; [None] is [return ErrInvalidHeaders]. *)
Definition scanField (trailer : bool) (s : sectionScan) (f : HeaderField) : option sectionScan :=
  let n := f.(Name) in
  let v := f.(FieldValue) in
  if negb (validSessionHeaderName n) || negb (validSessionHeaderValue v) then None
  else if str_at n 0 =? ch ":" then
    if trailer || s.(pseudoDone) || existsb (bytes_eqb n) s.(seen) then None
    else
      let s := s <| seen := n :: s.(seen) |> in
      if bytes_eqb n (str ":method") then Some (s <| vmethod := v |>)
      else if bytes_eqb n (str ":scheme") then Some (s <| vscheme := v |>)
      else if bytes_eqb n (str ":authority") then Some (s <| vauthority := v |>)
      else if bytes_eqb n (str ":path") then Some (s <| vpath := v |>)
      else if bytes_eqb n (str ":protocol") then Some (s <| vprotocol := v |>)
      else if bytes_eqb n (str ":status") then Some (s <| vstatus := v |>)
      else None
  else if isConnectionSpecific n v then None
  else Some (s <| pseudoDone := true |>).

Fixpoint scanFields (trailer : bool) (s : sectionScan) (headers : list HeaderField) : option sectionScan :=
  match headers with
  | [] => Some s
  | f :: headers => match scanField trailer s f with None => None | Some s => scanFields trailer s headers end
  end.

Definition is_empty (s : list Z) : bool := match s with [] => true | _ => false end.

(** The checks of a request section, and of a response section. *)
Definition requestValid (s : sectionScan) (extendedConnect : bool) : bool :=
  if is_empty s.(vmethod) || negb (is_empty s.(vstatus)) then false
  else if bytes_eqb s.(vmethod) (str "CONNECT") then
    if is_empty s.(vprotocol) then
      negb (is_empty s.(vauthority) || negb (is_empty s.(vscheme)) || negb (is_empty s.(vpath)))
    else negb (negb extendedConnect || is_empty s.(vauthority) || is_empty s.(vscheme) || is_empty s.(vpath))
  else negb (is_empty s.(vscheme) || is_empty s.(vpath) || negb (is_empty s.(vprotocol))).

Definition responseValid (s : sectionScan) : bool :=
  if is_empty s.(vstatus) || negb (len s.(vstatus) =? 3) || negb (is_empty s.(vmethod)) || negb (is_empty s.(vscheme))
     || negb (is_empty s.(vauthority)) || negb (is_empty s.(vpath)) || negb (is_empty s.(vprotocol))
  then false
  else forallb (fun b => between (ch "0") b (ch "9")) s.(vstatus) && negb (bytes_eqb s.(vstatus) (str "101")).

(** [validateHeaderSection(...) == nil] *)
Definition validateHeaderSection (role : Role) (outbound trailer : bool) (headers : list HeaderField)
    (extendedConnect : bool) : bool :=
  match headers with
  | [] => false
  | _ =>
      if (inspectHeaderSection headers).(invalid) then false
      else
        match scanFields trailer zeroScan headers with
        | None => false
        | Some s =>
            if trailer then true
            else if is_client role && outbound || is_server role && negb outbound
            then requestValid s extendedConnect else responseValid s
        end
  end.
