(* ===== verification/H2HeadersSpec.v ===== *)
(** * HTTP/2: what a valid field section is

    [validateHeaderSection] of [src/http2/session.go] scans a section once;
    here the rules of RFC 9113, section 8.3, are stated on the whole section
    and the scan is proved equivalent to them.  [parseSessionContentLength] is
    related to the decimal value of its argument. *)

From S2P Require Import Prelude H2Hpack H2Headers.
Open Scope Z_scope.

(** ** content-length *)

Lemma parseLengthDigits_value acc v :
  0 <= acc <= MaxUint64 ->
  forall n, parseLengthDigits acc v = Some n <->
    Forall is_digit v /\ n = digits_value 10 (digitOf <$> v) acc /\ n <= MaxUint64.
Proof.
  revert acc. induction v as [|b v IH]; intros acc Hacc n; cbn [parseLengthDigits].
  { split; [intros [= <-]; split; [constructor|]; split; [done | lia] | intros (_ & -> & _); done]. }
  destruct ((b <? ch "0") || (ch "9" <? b)) eqn:Hb.
  { split; [done|]. intros ([Hd _]%Forall_cons_1 & _). unfold is_digit in Hd. apply orb_prop in Hb as [Hb|Hb]; bool_to_prop; lia. }
  bool_to_prop. assert (is_digit b) as Hd by (unfold is_digit; lia). cbv zeta.
  destruct ((MaxUint64 - (b - ch "0")) / 10 <? acc) eqn:Ho.
  - split; [done|]. intros ([_ Hds]%Forall_cons_1 & -> & Hmax). apply overflow_test in Ho; [|lia..].
    change (digits_value 10 (digitOf <$> v) (acc * 10 + (b - ch "0")) <= MaxUint64) in Hmax.
    pose proof (digits_value_mono 10 (digitOf <$> v) (acc * 10 + (b - ch "0")) ltac:(lia) ltac:(lia)) as Hm.
    enough (Forall (fun d => 0 <= d) (digitOf <$> v)) as Hpos by (specialize (Hm Hpos); lia).
    apply Forall_fmap. rewrite Forall_forall in Hds |- *. intros x Hx. specialize (Hds x Hx). unfold is_digit, digitOf in *. cbn. lia.
  - assert (acc * 10 + (b - ch "0") <= MaxUint64) as Hle.
    { destruct (Z.le_gt_cases (acc * 10 + (b - ch "0")) MaxUint64); [done|].
      rewrite (proj2 (overflow_test 10 acc (b - ch "0") ltac:(lia) ltac:(lia))) in Ho by lia. done. }
    rewrite (u64_small (acc * 10)), u64_small by lia. rewrite IH by lia. cbn [fmap list_fmap]. unfold digits_value at 2. cbn [foldl].
    split; intros (H1' & H2' & H3'); (split; [|by split]); [by constructor | by apply Forall_cons_1 in H1' as [_ ?]].
Qed.

Lemma parseContentLength_spec v n :
  parseSessionContentLength v = Some n <-> v <> [] /\ Forall is_digit v /\ n = decimal v /\ n <= MaxUint64.
Proof.
  unfold parseSessionContentLength. destruct v as [|b v]; [by split; [|intros []]|].
  rewrite parseLengthDigits_value by (unfold MaxUint64; lia). unfold decimal. split; [by intros | by intros [_ ?]].
Qed.

(** ** The shape of a section *)

Definition pseudoNames : list (list Z) :=
  [str ":method"; str ":scheme"; str ":authority"; str ":path"; str ":protocol"; str ":status"].

Definition is_pseudo (f : HeaderField) : bool := str_at f.(Name) 0 =? ch ":".

Definition field_valid (f : HeaderField) : Prop :=
  validSessionHeaderName f.(Name) = true /\ validSessionHeaderValue f.(FieldValue) = true.

Definition pseudo_ok (f : HeaderField) : Prop := field_valid f /\ is_pseudo f = true /\ f.(Name) ∈ pseudoNames.

Definition regular_ok (f : HeaderField) : Prop :=
  field_valid f /\ is_pseudo f = false /\ isConnectionSpecific f.(Name) f.(FieldValue) = false.

(** Pseudo-header fields first, known ones only, each at most once and none in
    trailers; then fields that are not connection-specific. *)
Definition well_shaped (trailer : bool) (taken : list (list Z)) (headers : list HeaderField) : Prop :=
  exists pseudo regular, headers = pseudo ++ regular /\ Forall pseudo_ok pseudo /\ Forall regular_ok regular /\
    NoDup (Name <$> pseudo) /\ Forall (fun f => f.(Name) ∉ taken) pseudo /\ (trailer = true -> pseudo = []).

Lemma bytes_eqb_spec x y : reflect (x = y) (bytes_eqb x y).
Proof. unfold bytes_eqb. apply bool_decide_reflect. Qed.

Lemma existsb_seen n l : existsb (bytes_eqb n) l = true <-> n ∈ l.
Proof.
  rewrite existsb_exists. split.
  - intros (x & Hx & E). apply list_elem_of_In in Hx. by destruct (bytes_eqb_spec n x) as [->|].
  - intros Hn. exists n. split; [by apply list_elem_of_In|]. by destruct (bytes_eqb_spec n n).
Qed.

(** The value a scan holds for a name. *)
Definition held (s : sectionScan) (n : list Z) : list Z :=
  if bytes_eqb n (str ":method") then s.(vmethod)
  else if bytes_eqb n (str ":scheme") then s.(vscheme)
  else if bytes_eqb n (str ":authority") then s.(vauthority)
  else if bytes_eqb n (str ":path") then s.(vpath)
  else if bytes_eqb n (str ":protocol") then s.(vprotocol)
  else s.(vstatus).

(** One turn of the scan. *)
Lemma scanField_pseudo trailer s f :
  is_pseudo f = true ->
  (exists s1, scanField trailer s f = Some s1 /\ s1.(seen) = f.(Name) :: s.(seen) /\ s1.(pseudoDone) = s.(pseudoDone) /\
     (forall n, n ∈ pseudoNames -> held s1 n = if bytes_eqb f.(Name) n then f.(FieldValue) else held s n) /\
     pseudo_ok f /\ trailer = false /\ s.(pseudoDone) = false /\ f.(Name) ∉ s.(seen)) \/
  (scanField trailer s f = None /\ (pseudo_ok f -> trailer = true \/ s.(pseudoDone) = true \/ f.(Name) ∈ s.(seen))).
Proof.
  intros Hp. unfold scanField. destruct (validSessionHeaderName (Name f)) eqn:Hn; cbn [negb orb].
  2: { right. split; [done|]. intros [[H _] _]. congruence. }
  destruct (validSessionHeaderValue (FieldValue f)) eqn:Hv; cbn [negb].
  2: { right. split; [done|]. intros [[_ H] _]. congruence. }
  unfold is_pseudo in Hp. rewrite Hp. destruct (trailer || pseudoDone s || existsb (bytes_eqb (Name f)) (seen s)) eqn:Hg.
  { right. split; [done|]. intros _. rewrite <- existsb_seen. destruct trailer, (pseudoDone s); auto. }
  apply orb_false_elim in Hg as [[-> Hpd]%orb_false_elim Hns].
  assert (Name f ∉ seen s) as Hni by (rewrite <- existsb_seen; congruence). cbv zeta.
  assert (forall s1, seen s1 = Name f :: seen s -> pseudoDone s1 = pseudoDone s -> Name f ∈ pseudoNames ->
    (forall n, n ∈ pseudoNames -> held s1 n = if bytes_eqb (Name f) n then FieldValue f else held s n) ->
    exists s2, Some s1 = Some s2 /\ seen s2 = Name f :: seen s /\ pseudoDone s2 = pseudoDone s /\
     (forall n, n ∈ pseudoNames -> held s2 n = if bytes_eqb (Name f) n then FieldValue f else held s n) /\
     pseudo_ok f /\ false = false /\ pseudoDone s = false /\ Name f ∉ seen s) as Hgo.
  { intros s1 H1 H2 H3 H4. exists s1. split; [done|]. split; [done|]. split; [done|]. split; [done|]. split; [|done].
    split; [done|]. split; [by unfold is_pseudo; rewrite Hp | done]. }
  repeat match goal with |- _ \/ ((if bytes_eqb (Name f) ?x then _ else _) = None /\ _) =>
    destruct (bytes_eqb_spec (Name f) x) as [E|];
    [left; apply Hgo; [done | done | rewrite E; repeat first [apply list_elem_of_here | apply list_elem_of_further] |
       intros k Hin; rewrite E; unfold pseudoNames in Hin;
       repeat (apply elem_of_cons in Hin as [->|Hin]; [by vm_compute|]); by apply not_elem_of_nil in Hin]|] end.
  right. split; [done|]. intros (_ & _ & Hin). exfalso. unfold pseudoNames in Hin.
  repeat (apply elem_of_cons in Hin as [?|Hin]; [done|]). by apply not_elem_of_nil in Hin.
Qed.

Lemma scanField_regular trailer s f :
  is_pseudo f = false ->
  (scanField trailer s f = Some (s <| pseudoDone := true |>) /\ regular_ok f) \/ (scanField trailer s f = None /\ ~ regular_ok f).
Proof.
  intros Hp. unfold scanField, regular_ok, field_valid. rewrite Hp. unfold is_pseudo in Hp. rewrite Hp.
  destruct (validSessionHeaderName (Name f)), (validSessionHeaderValue (FieldValue f)), (isConnectionSpecific (Name f) (FieldValue f));
    cbn; first [left; by split_and! | right; split; [done|]; by intros ([? ?] & _ & ?)].
Qed.

(** After the pseudo-header fields: regular ones to the end. *)
Lemma scanFields_regular trailer s headers :
  s.(pseudoDone) = true ->
  match scanFields trailer s headers with
  | Some s' => s' = s /\ Forall regular_ok headers
  | None => ~ Forall regular_ok headers
  end.
Proof.
  induction headers as [|f headers IH]; intros Hd; cbn [scanFields]; [by split|]. destruct (is_pseudo f) eqn:Hp.
  - destruct (scanField_pseudo trailer s f Hp) as [(s1 & _ & _ & _ & _ & _ & _ & Hx & _)|[-> _]]; [congruence|].
    intros [(_ & Hr & _) _]%Forall_cons_1. congruence.
  - destruct (scanField_regular trailer s f Hp) as [[-> Hr]|[-> Hr]].
    + replace (s <| pseudoDone := true |>) with s by (destruct s; cbn in *; by rewrite Hd). specialize (IH Hd).
      destruct (scanFields trailer s headers) as [s'|].
      * destruct IH as [-> IH]. split; [done | by constructor].
      * by intros [_ ?]%Forall_cons_1.
    + by intros [? _]%Forall_cons_1.
Qed.

(** The last value of a name in a section. *)
Definition valueOf (n : list Z) (acc : list Z) (headers : list HeaderField) : list Z :=
  fold_left (fun v f => if bytes_eqb f.(Name) n then f.(FieldValue) else v) headers acc.

Lemma regular_value n acc headers : n ∈ pseudoNames -> Forall regular_ok headers -> valueOf n acc headers = acc.
Proof.
  intros Hn. assert (str_at n 0 = ch ":") as Hc.
  { unfold pseudoNames in Hn. repeat (apply elem_of_cons in Hn as [->|Hn]; [done|]). by apply not_elem_of_nil in Hn. }
  induction 1 as [|f headers (_ & Hp & _) Hr IH]; [done|]. cbn. destruct (bytes_eqb_spec (Name f) n) as [E|]; [|exact IH].
  unfold is_pseudo in Hp. by rewrite E, Hc in Hp.
Qed.

(** The scan accepts exactly the well-shaped sections, and then holds the
    values of the pseudo-header fields. *)
Lemma scanFields_shape trailer s headers :
  s.(pseudoDone) = false ->
  match scanFields trailer s headers with
  | Some s' => well_shaped trailer s.(seen) headers /\ forall n, n ∈ pseudoNames -> held s' n = valueOf n (held s n) headers
  | None => ~ well_shaped trailer s.(seen) headers
  end.
Proof.
  revert s. induction headers as [|f headers IH]; intros s Hd; cbn [scanFields].
  { split; [|done]. exists [], []. split_and!; by constructor. }
  destruct (is_pseudo f) eqn:Hp.
  - destruct (scanField_pseudo trailer s f Hp) as [(s1 & -> & Es & Ed & Hv & Hok & -> & _ & Hni)|[-> Hno]].
    + specialize (IH s1 ltac:(congruence)). destruct (scanFields false s1 headers) as [s'|].
      * destruct IH as [(P & R & -> & HP & HR & Hnd & Ht & _) IH]. rewrite Es in Ht. split.
        -- exists (f :: P), R. split; [done|]. split; [by constructor|]. split; [done|]. split; [|split; [|done]].
           ++ cbn. constructor; [|done]. intros (g & Eg & Hg)%list_elem_of_fmap. rewrite Forall_forall in Ht.
              apply list_elem_of_In in Hg. apply (Ht g Hg). rewrite Eg. apply list_elem_of_here.
           ++ constructor; [done|]. rewrite Forall_forall in Ht |- *. intros g Hg Hin. apply (Ht g Hg). by apply list_elem_of_further.
        -- intros n Hn. rewrite (IH n Hn), (Hv n Hn). done.
      * intros (P & R & E & HP & HR & Hnd & Ht & _). apply IH. rewrite Es. destruct P as [|g P]; cbn in E.
        { rewrite <- E in HR. apply Forall_cons_1 in HR as [(_ & Hx & _) _]. congruence. }
        injection E as <- ->. exists P, R. split; [done|]. apply Forall_cons_1 in HP as [_ HP]. apply Forall_cons_1 in Ht as [_ Ht].
        cbn in Hnd. inversion Hnd as [|? ? Hnf Hnd']. split; [done|]. split; [done|]. split; [exact Hnd'|]. split; [|done].
        rewrite Forall_forall in Ht |- *. intros g Hg [Eg|Hin]%elem_of_cons; [|by apply (Ht g Hg)]. apply Hnf. apply list_elem_of_fmap.
        exists g. split; [done | by apply list_elem_of_In].
    + intros (P & R & E & HP & HR & Hnd & Ht & Htr). destruct P as [|g P]; cbn in E.
      { rewrite <- E in HR. apply Forall_cons_1 in HR as [(_ & Hx & _) _]. congruence. }
      injection E as <- ->. apply Forall_cons_1 in HP as [Hok _]. apply Forall_cons_1 in Ht as [Hni _].
      destruct (Hno Hok) as [H|[H|H]]; [by specialize (Htr H) | congruence | done].
  - destruct (scanField_regular trailer s f Hp) as [[-> Hr]|[-> Hr]].
    + pose proof (scanFields_regular trailer (s <| pseudoDone := true |>) headers eq_refl) as Hreg.
      destruct (scanFields trailer _ headers) as [s'|].
      * destruct Hreg as [-> Hreg]. split.
        -- exists [], (f :: headers). by split_and!; constructor.
        -- intros n Hn. rewrite regular_value by (done || by constructor). unfold held. by repeat destruct (bytes_eqb _ _).
      * intros (P & R & E & HP & HR & _). destruct P as [|g P]; cbn in E.
        -- rewrite <- E in HR. by apply Forall_cons_1 in HR as [_ ?].
        -- injection E as <- ->. apply Forall_cons_1 in HP as [(_ & Hx & _) _]. congruence.
    + intros (P & R & E & HP & HR & _). destruct P as [|g P]; cbn in E.
      * rewrite <- E in HR. by apply Forall_cons_1 in HR as [? _].
      * injection E as <- ->. apply Forall_cons_1 in HP as [(_ & Hx & _) _]. congruence.
Qed.

(** ** Valid sections *)

(** The pseudo-header fields of a request, and of a response. *)
Definition request_rules (headers : list HeaderField) (extendedConnect : bool) : Prop :=
  let value n := valueOf n [] headers in
  value (str ":method") <> [] /\ value (str ":status") = [] /\
  if bytes_eqb (value (str ":method")) (str "CONNECT") then
    value (str ":authority") <> [] /\
    if bytes_eqb (value (str ":protocol")) [] then value (str ":scheme") = [] /\ value (str ":path") = []
    else extendedConnect = true /\ value (str ":scheme") <> [] /\ value (str ":path") <> []
  else value (str ":scheme") <> [] /\ value (str ":path") <> [] /\ value (str ":protocol") = [].

Definition response_rules (headers : list HeaderField) : Prop :=
  let value n := valueOf n [] headers in
  length (value (str ":status")) = 3%nat /\ Forall is_digit (value (str ":status")) /\ value (str ":status") <> str "101" /\
  value (str ":method") = [] /\ value (str ":scheme") = [] /\ value (str ":authority") = [] /\
  value (str ":path") = [] /\ value (str ":protocol") = [].

Lemma is_empty_spec s : reflect (s = []) (is_empty s).
Proof. by destruct s; constructor. Qed.

Ltac split_tests :=
  repeat match goal with
  | |- context [is_empty ?s] => destruct (is_empty_spec s)
  | |- context [bytes_eqb ?x ?y] => destruct (bytes_eqb_spec x y)
  end; cbn; intuition (try congruence).

Lemma requestValid_spec s headers ec :
  (forall n, n ∈ pseudoNames -> held s n = valueOf n [] headers) -> requestValid s ec = true <-> request_rules headers ec.
Proof.
  intros Hv. unfold request_rules. rewrite <- !Hv by (repeat first [apply list_elem_of_here | apply list_elem_of_further]).
  change (held s (str ":method")) with (vmethod s). change (held s (str ":scheme")) with (vscheme s).
  change (held s (str ":authority")) with (vauthority s). change (held s (str ":path")) with (vpath s).
  change (held s (str ":protocol")) with (vprotocol s). change (held s (str ":status")) with (vstatus s).
  unfold requestValid. destruct ec; split_tests.
Qed.

Lemma forallb_digits l : forallb (fun b => between (ch "0") b (ch "9")) l = true <-> Forall is_digit l.
Proof.
  unfold between, is_digit. rewrite forallb_forall, Forall_forall. split; intros H x Hx; specialize (H x Hx); lia.
Qed.

Lemma responseValid_spec s headers :
  (forall n, n ∈ pseudoNames -> held s n = valueOf n [] headers) -> responseValid s = true <-> response_rules headers.
Proof.
  intros Hv. unfold response_rules. rewrite <- !Hv by (repeat first [apply list_elem_of_here | apply list_elem_of_further]).
  change (held s (str ":method")) with (vmethod s). change (held s (str ":scheme")) with (vscheme s).
  change (held s (str ":authority")) with (vauthority s). change (held s (str ":path")) with (vpath s).
  change (held s (str ":protocol")) with (vprotocol s). change (held s (str ":status")) with (vstatus s).
  unfold responseValid. rewrite <- forallb_digits.
  assert ((len (vstatus s) =? 3) = true <-> length (vstatus s) = 3%nat) as H3 by (unfold len; lia).
  assert (vstatus s = [] -> length (vstatus s) = 3%nat -> False) as H0 by (intros ->; done).
  destruct (len (vstatus s) =? 3); destruct (forallb _ (vstatus s)); split_tests.
Qed.

(** A section is a request where it travels from the client to the server. *)
Definition is_request (r : Role) (outbound : bool) : bool := is_client r && outbound || is_server r && negb outbound.

Lemma validateHeaderSection_spec r outbound trailer headers ec :
  validateHeaderSection r outbound trailer headers ec = true <->
    headers <> [] /\ (inspectHeaderSection headers).(invalid) = false /\ well_shaped trailer [] headers /\
    (trailer = false -> if is_request r outbound then request_rules headers ec else response_rules headers).
Proof.
  unfold validateHeaderSection. destruct headers as [|f headers]; [by split; [|intros []]|]. set (hs := f :: headers).
  destruct (invalid (inspectHeaderSection hs)); [by split; [|intros (_ & ? & _)]|].
  pose proof (scanFields_shape trailer zeroScan hs eq_refl) as Hs. destruct (scanFields trailer zeroScan hs) as [s|].
  2: { split; [done|]. by intros (_ & _ & ? & _). }
  destruct Hs as [Hw Hv]. assert (forall n, n ∈ pseudoNames -> held s n = valueOf n [] hs) as Hv'.
  { intros n Hn. rewrite (Hv n Hn). f_equal. unfold held. by repeat destruct (bytes_eqb _ _). }
  destruct trailer; [by split; [intros _|]|]. fold (is_request r outbound).
  destruct (is_request r outbound); [rewrite (requestValid_spec s hs ec Hv') | rewrite (responseValid_spec s hs Hv')];
    (split; [intros H; by split_and! | by intros (_ & _ & _ & H); apply H]).
Qed.
