(* ===== verification/H2Session.v ===== *)
(** * HTTP/2: the session

    A translation of [src/http2/session.go]: the state of one connection, the
    callbacks the frame parser makes on it, and the operations of the program
    that owns it.  The frame parser of [H2Frame] runs on this state as its
    host; the HPACK library is the class [Hpack] of [H2Hpack].

    A [*sessionStream] of the code is the entry of [streams] under its id: every
    operation looks its stream up before it changes it, and an entry is
    deleted only when it is closed, so the two never differ.  Go ranges over a
    map in an order of its choice: [rangeOrder] stands for it.  [int] is 64
    bits wide; [int64] windows are plain [Z], and [H2SessionWf] bounds them by
    32 bits. *)

From stdpp Require Export gmap.
From S2P Require Import Prelude H2Frame H2Hpack H2Headers.

Inductive StreamState :=
  | StreamIdle
  | StreamReservedLocal
  | StreamReservedRemote
  | StreamOpen
  | StreamHalfClosedLocal
  | StreamHalfClosedRemote
  | StreamClosed.

#[export] Instance StreamState_eq_dec : EqDecision StreamState.
Proof. solve_decision. Defined.

Definition is_closed (s : StreamState) : bool := match s with StreamClosed => true | _ => false end.

Inductive EventType :=
  | EventSettings
  | EventSettingsAck
  | EventHeaders
  | EventData
  | EventStreamEnd
  | EventStreamReset
  | EventPing
  | EventPingAck
  | EventGoAway
  | EventPriority
  | EventPriorityUpdate
  | EventPushPromise
  | EventWindowUpdate
  | EventUnknown.

(** [ErrorCode] is a [uint32]. *)
Definition ErrCodeNo : Z := 0.
Definition ErrCodeProtocol : Z := 1.
Definition ErrCodeInternal : Z := 2.
Definition ErrCodeFlowControl : Z := 3.
Definition ErrCodeStreamClosed : Z := 5.
Definition ErrCodeFrameSize : Z := 6.
Definition ErrCodeRefusedStream : Z := 7.
Definition ErrCodeCompression : Z := 9.
Definition ErrCodeEnhanceYourCalm : Z := 11.

Record Event := mkEvent {
  evType : EventType;
  evStreamID : Z;
  evEndStream : bool;
  evTrailer : bool;
  evHeaders : list HeaderField;
  evData : list Z;
  evSettings : list Setting;
  evErrorCode : Z;
  evLastStreamID : Z;
  evWindowIncrement : Z;
  evPriority : PriorityParam;
  evPing : list Z;
}.

Definition zeroPriority : PriorityParam := mkPriorityParam 0 false 0.

(** [Event{Type: t, StreamID: id}], the other fields zero. *)
Definition event (t : EventType) (id : Z) : Event :=
  mkEvent t id false false [] [] [] 0 0 0 zeroPriority (replicate 8 0).

#[export] Instance eta_Event : Eta Event := fun e =>
  mkEvent e.(evType) e.(evStreamID) e.(evEndStream) e.(evTrailer) e.(evHeaders) e.(evData) e.(evSettings)
    e.(evErrorCode) e.(evLastStreamID) e.(evWindowIncrement) e.(evPriority) e.(evPing).
#[export] Instance set_evEndStream : Setter evEndStream := ltac:(mk_setter evEndStream).
#[export] Instance set_evTrailer : Setter evTrailer := ltac:(mk_setter evTrailer).
#[export] Instance set_evHeaders : Setter evHeaders := ltac:(mk_setter evHeaders).
#[export] Instance set_evData : Setter evData := ltac:(mk_setter evData).
#[export] Instance set_evSettings : Setter evSettings := ltac:(mk_setter evSettings).
#[export] Instance set_evErrorCode : Setter evErrorCode := ltac:(mk_setter evErrorCode).
#[export] Instance set_evLastStreamID : Setter evLastStreamID := ltac:(mk_setter evLastStreamID).
#[export] Instance set_evWindowIncrement : Setter evWindowIncrement := ltac:(mk_setter evWindowIncrement).
#[export] Instance set_evPriority : Setter evPriority := ltac:(mk_setter evPriority).
#[export] Instance set_evPing : Setter evPing := ltac:(mk_setter evPing).

(** ** Limits *)

Record SessionLimits := mkSessionLimits {
  Frame : Limits;
  Header : HeaderLimits;
  MaxConcurrentStreams : Z; (* uint32, like the rest *)
  MaxStreams : Z;
  MaxClosedStreams : Z;
  MaxQueuedOutputBytes : Z;
  MaxQueuedEventBytes : Z;
  MaxQueuedEvents : Z;
  InitialWindowSize : Z;
  MaxControlFrames : Z;
  EnablePush : bool;
  EnableExtendedConnect : bool;
}.

#[export] Instance eta_SessionLimits : Eta SessionLimits := fun l =>
  mkSessionLimits l.(Frame) l.(Header) l.(MaxConcurrentStreams) l.(MaxStreams) l.(MaxClosedStreams)
    l.(MaxQueuedOutputBytes) l.(MaxQueuedEventBytes) l.(MaxQueuedEvents) l.(InitialWindowSize)
    l.(MaxControlFrames) l.(EnablePush) l.(EnableExtendedConnect).
#[export] Instance set_MaxConcurrentStreams : Setter MaxConcurrentStreams := ltac:(mk_setter MaxConcurrentStreams).
#[export] Instance set_InitialWindowSize : Setter InitialWindowSize := ltac:(mk_setter InitialWindowSize).
#[export] Instance set_EnablePush : Setter EnablePush := ltac:(mk_setter EnablePush).
#[export] Instance set_EnableExtendedConnect : Setter EnableExtendedConnect := ltac:(mk_setter EnableExtendedConnect).

Definition defaultSessionConcurrentStreams : Z := 100.
Definition defaultSessionMaxStreams : Z := 1024.
Definition defaultSessionClosedStreams : Z := 256.
Definition defaultSessionOutputBytes : Z := Z.shiftl 4 20.
Definition defaultSessionEventBytes : Z := Z.shiftl 4 20.
Definition defaultSessionEvents : Z := 4096.
Definition defaultInitialWindowSize : Z := 65535.
Definition defaultMaxControlFrames : Z := 4096.

Definition normalizedSession (l : SessionLimits) : SessionLimits :=
  let or_default (v default : Z) : Z := if v =? 0 then default else v in
  let concurrent := or_default l.(MaxConcurrentStreams) defaultSessionConcurrentStreams in
  let streams := or_default l.(MaxStreams) defaultSessionMaxStreams in
  let streams := if streams <? concurrent then concurrent else streams in
  let closed := or_default l.(MaxClosedStreams) defaultSessionClosedStreams in
  let closed := if streams <? closed then streams else closed in
  let window := or_default l.(InitialWindowSize) defaultInitialWindowSize in
  {| Frame := normalized l.(Frame);
     Header := normalizedHeader l.(Header);
     MaxConcurrentStreams := concurrent;
     MaxStreams := streams;
     MaxClosedStreams := closed;
     MaxQueuedOutputBytes := or_default l.(MaxQueuedOutputBytes) defaultSessionOutputBytes;
     MaxQueuedEventBytes := or_default l.(MaxQueuedEventBytes) defaultSessionEventBytes;
     MaxQueuedEvents := or_default l.(MaxQueuedEvents) defaultSessionEvents;
     InitialWindowSize := if MaxInt32 <? window then MaxInt32 else window;
     MaxControlFrames := or_default l.(MaxControlFrames) defaultMaxControlFrames;
     EnablePush := l.(EnablePush);
     EnableExtendedConnect := l.(EnableExtendedConnect) |}.

(** ** Streams *)

#[projections(primitive)]
Record sessionStream := mkStream {
  sid : Z; (* uint32 *)
  sstate : StreamState;
  slocal : bool;
  sendWindow : Z; (* int64 *)
  recvWindow : Z; (* int64 *)
  sentHeaders : bool;
  receivedHeaders : bool;
  sentTrailers : bool;
  receivedTrailers : bool;
  smethod : list Z;
  receiveNoBody : bool;
  sendNoBody : bool;
  receiveHasLength : bool;
  receiveLength : Z; (* uint64 *)
  receiveBody : Z; (* uint64 *)
  sendHasLength : bool;
  sendLength : Z; (* uint64 *)
  sendBody : Z; (* uint64 *)
}.

#[export] Instance eta_stream : Eta sessionStream := fun s =>
  mkStream s.(sid) s.(sstate) s.(slocal) s.(sendWindow) s.(recvWindow) s.(sentHeaders) s.(receivedHeaders)
    s.(sentTrailers) s.(receivedTrailers) s.(smethod) s.(receiveNoBody) s.(sendNoBody) s.(receiveHasLength)
    s.(receiveLength) s.(receiveBody) s.(sendHasLength) s.(sendLength) s.(sendBody).
#[export] Instance set_sstate : Setter sstate := ltac:(mk_setter sstate).
#[export] Instance set_sendWindow : Setter sendWindow := ltac:(mk_setter sendWindow).
#[export] Instance set_recvWindow : Setter recvWindow := ltac:(mk_setter recvWindow).
#[export] Instance set_sentHeaders : Setter sentHeaders := ltac:(mk_setter sentHeaders).
#[export] Instance set_receivedHeaders : Setter receivedHeaders := ltac:(mk_setter receivedHeaders).
#[export] Instance set_sentTrailers : Setter sentTrailers := ltac:(mk_setter sentTrailers).
#[export] Instance set_receivedTrailers : Setter receivedTrailers := ltac:(mk_setter receivedTrailers).
#[export] Instance set_smethod : Setter smethod := ltac:(mk_setter smethod).
#[export] Instance set_receiveNoBody : Setter receiveNoBody := ltac:(mk_setter receiveNoBody).
#[export] Instance set_sendNoBody : Setter sendNoBody := ltac:(mk_setter sendNoBody).
#[export] Instance set_receiveHasLength : Setter receiveHasLength := ltac:(mk_setter receiveHasLength).
#[export] Instance set_receiveLength : Setter receiveLength := ltac:(mk_setter receiveLength).
#[export] Instance set_receiveBody : Setter receiveBody := ltac:(mk_setter receiveBody).
#[export] Instance set_sendHasLength : Setter sendHasLength := ltac:(mk_setter sendHasLength).
#[export] Instance set_sendLength : Setter sendLength := ltac:(mk_setter sendLength).
#[export] Instance set_sendBody : Setter sendBody := ltac:(mk_setter sendBody).

(** [&sessionStream{id: id, state: state, local: local, sendWindow: .., recvWindow: ..}] *)
Definition newStream (id : Z) (state : StreamState) (local : bool) (send recv : Z) : sessionStream :=
  mkStream id state local send recv false false false false [] false false false 0 0 false 0 0.

Definition canSend (s : StreamState) : bool :=
  match s with StreamOpen | StreamHalfClosedRemote | StreamReservedLocal => true | _ => false end.

Definition canReceive (s : StreamState) : bool :=
  match s with StreamOpen | StreamHalfClosedLocal | StreamReservedRemote => true | _ => false end.

(** ** Errors *)

Record ProtocolError := mkProtocolError {
  peStreamID : Z;
  peCode : Z;
  peReason : list Z;
}.

(** The error values of [session.go], and those of the functions it calls. *)
Inductive SessionError `{Hpack} :=
  | ErrInvalidRole
  | ErrSessionClosed
  | ErrWouldBlock
  | ErrStreamNotFound
  | ErrStreamState
  | ErrStreamIDExhausted
  | ErrStreamLimit
  | ErrOutputLimit
  | ErrEventLimit
  | ErrInvalidHeaders
  | ErrInvalidFrame (c : Code) (* fmt.Errorf("%w: %s", ErrInvalidHeaders, code.String()) *)
  | ErrShortBuffer (* io.ErrShortBuffer *)
  | ErrDecoder (e : DecoderError)
  | ErrProtocol (e : ProtocolError).

Definition codeString (c : Code) : list Z :=
  match c with
  | CodeNone => str "ok"
  | CodeReentrantCall => str "reentrant parser call"
  | CodeFrameTooLarge => str "frame too large"
  | CodeInvalidStreamID => str "invalid stream identifier"
  | CodeInvalidFrameSize => str "invalid frame size"
  | CodeInvalidPadding => str "invalid padding"
  | CodeInvalidContinuation => str "invalid CONTINUATION sequence"
  | CodeHeaderBlockTooLarge => str "header block too large"
  | CodeTooManyContinuations => str "too many CONTINUATION frames"
  | CodeInvalidPriority => str "invalid priority dependency"
  | CodeInvalidSetting => str "invalid SETTINGS value"
  | CodeInvalidWindowUpdate => str "invalid WINDOW_UPDATE increment"
  | CodeUnexpectedEOF => str "unexpected EOF"
  end.

(** [ProtocolError.Error] *)
Definition protocolErrorString (e : ProtocolError) : list Z :=
  let scope := if e.(peStreamID) =? 0 then str "connection" else str "stream " ++ formatUint e.(peStreamID) in
  match e.(peReason) with
  | [] => str "wagohttp/http2: " ++ scope ++ str " error " ++ formatUint e.(peCode)
  | reason => str "wagohttp/http2: " ++ scope ++ str " error: " ++ reason
  end.

(** [err.Error()] *)
Definition errorString `{Hpack} (e : SessionError) : list Z :=
  match e with
  | ErrInvalidRole => str "wagohttp/http2: invalid session role"
  | ErrSessionClosed => str "wagohttp/http2: session is closed"
  | ErrWouldBlock => str "wagohttp/http2: operation would block"
  | ErrStreamNotFound => str "wagohttp/http2: stream not found"
  | ErrStreamState => str "wagohttp/http2: invalid stream state"
  | ErrStreamIDExhausted => str "wagohttp/http2: stream identifier exhausted"
  | ErrStreamLimit => str "wagohttp/http2: stream resource limit"
  | ErrOutputLimit => str "wagohttp/http2: queued output limit"
  | ErrEventLimit => str "wagohttp/http2: queued event limit"
  | ErrInvalidHeaders => str "wagohttp/http2: malformed field section"
  | ErrInvalidFrame c => str "wagohttp/http2: malformed field section: " ++ codeString c
  | ErrShortBuffer => str "short buffer"
  | ErrDecoder ErrHeaderDecoderState => str "wagohttp/http2: invalid header decoder state"
  | ErrDecoder ErrHeaderListTooLarge => str "wagohttp/http2: decoded header list too large"
  | ErrDecoder ErrTooManyHeaders => str "wagohttp/http2: too many decoded headers"
  | ErrDecoder (ErrHpack e) => HpackErrorString e
  | ErrProtocol e => protocolErrorString e
  end.

(** ** The connection state

    The struct [Session] without its frame parser, which runs on it.  The
    writer of the HPACK encoder is local to [encodeAndAppendHeaders], which
    sets it before every use. *)

#[projections(primitive)]
Record Core `{Hpack} := mkCore {
  role : Role;
  slimits : SessionLimits;
  caps : SessionLimits;
  hdecoder : HeaderDecoder;
  encoder : Encoder;
  streams : gmap Z sessionStream;
  closedStreams : list Z;
  nextLocalStream : Z; (* uint32 *)
  lastPeerStream : Z; (* uint32 *)
  lastProcessedPeerStream : Z; (* uint32 *)
  activeLocal : Z; (* uint32 *)
  activePeer : Z; (* uint32 *)
  peerMaxConcurrent : Z; (* uint32 *)
  peerMaxFrame : Z; (* uint32 *)
  localHeaderTable : Z; (* uint32 *)
  peerInitialWindow : Z; (* int64 *)
  connectionSendWindow : Z; (* int64 *)
  connectionRecvWindow : Z; (* int64 *)
  peerEnablePush : bool;
  peerEnableConnect : bool;
  peerNoPriorities : bool;
  localSettingsOutstanding : Z; (* uint32 *)
  controlFrames : Z; (* uint32 *)
  sstarted : bool;
  closed : bool;
  failed : option SessionError;
  peerInitialSettings : bool;
  goAwayReceived : bool;
  goAwaySent : bool;
  peerLastStream : Z; (* uint32 *)
  prefacePos : Z; (* uint8 *)
  output : list Z;
  events : list Event;
  eventBytes : Z; (* uint32 *)
  headerBlock : list Z;
  currentHeaders : list HeaderField;
  currentHeaderStream : Z; (* uint32 *)
  currentHeaderEventStream : Z; (* uint32 *)
  currentHeaderEnd : bool;
  currentHeaderTrailer : bool;
  currentHeaderPush : bool;
  currentFrame : FrameHeader;
  pendingSettings : list Setting;
  extensionPayload : list Z;
}.

#[export] Instance eta_Core `{H : Hpack} : Eta Core := fun s =>
  mkCore H s.(role) s.(slimits) s.(caps) s.(hdecoder) s.(encoder) s.(streams) s.(closedStreams) s.(nextLocalStream)
    s.(lastPeerStream) s.(lastProcessedPeerStream) s.(activeLocal) s.(activePeer) s.(peerMaxConcurrent)
    s.(peerMaxFrame) s.(localHeaderTable) s.(peerInitialWindow) s.(connectionSendWindow) s.(connectionRecvWindow)
    s.(peerEnablePush) s.(peerEnableConnect) s.(peerNoPriorities) s.(localSettingsOutstanding) s.(controlFrames)
    s.(sstarted) s.(closed) s.(failed) s.(peerInitialSettings) s.(goAwayReceived) s.(goAwaySent) s.(peerLastStream)
    s.(prefacePos) s.(output) s.(events) s.(eventBytes) s.(headerBlock) s.(currentHeaders) s.(currentHeaderStream)
    s.(currentHeaderEventStream) s.(currentHeaderEnd) s.(currentHeaderTrailer) s.(currentHeaderPush)
    s.(currentFrame) s.(pendingSettings) s.(extensionPayload).
#[export] Instance setc_slimits `{H : Hpack} : Setter (@slimits H) := ltac:(mk_setter (@slimits H)).
#[export] Instance setc_hdecoder `{H : Hpack} : Setter (@hdecoder H) := ltac:(mk_setter (@hdecoder H)).
#[export] Instance setc_encoder `{H : Hpack} : Setter (@encoder H) := ltac:(mk_setter (@encoder H)).
#[export] Instance setc_streams `{H : Hpack} : Setter (@streams H) := ltac:(mk_setter (@streams H)).
#[export] Instance setc_closedStreams `{H : Hpack} : Setter (@closedStreams H) := ltac:(mk_setter (@closedStreams H)).
#[export] Instance setc_nextLocalStream `{H : Hpack} : Setter (@nextLocalStream H) := ltac:(mk_setter (@nextLocalStream H)).
#[export] Instance setc_lastPeerStream `{H : Hpack} : Setter (@lastPeerStream H) := ltac:(mk_setter (@lastPeerStream H)).
#[export] Instance setc_lastProcessedPeerStream `{H : Hpack} : Setter (@lastProcessedPeerStream H) := ltac:(mk_setter (@lastProcessedPeerStream H)).
#[export] Instance setc_activeLocal `{H : Hpack} : Setter (@activeLocal H) := ltac:(mk_setter (@activeLocal H)).
#[export] Instance setc_activePeer `{H : Hpack} : Setter (@activePeer H) := ltac:(mk_setter (@activePeer H)).
#[export] Instance setc_peerMaxConcurrent `{H : Hpack} : Setter (@peerMaxConcurrent H) := ltac:(mk_setter (@peerMaxConcurrent H)).
#[export] Instance setc_peerMaxFrame `{H : Hpack} : Setter (@peerMaxFrame H) := ltac:(mk_setter (@peerMaxFrame H)).
#[export] Instance setc_localHeaderTable `{H : Hpack} : Setter (@localHeaderTable H) := ltac:(mk_setter (@localHeaderTable H)).
#[export] Instance setc_peerInitialWindow `{H : Hpack} : Setter (@peerInitialWindow H) := ltac:(mk_setter (@peerInitialWindow H)).
#[export] Instance setc_connectionSendWindow `{H : Hpack} : Setter (@connectionSendWindow H) := ltac:(mk_setter (@connectionSendWindow H)).
#[export] Instance setc_connectionRecvWindow `{H : Hpack} : Setter (@connectionRecvWindow H) := ltac:(mk_setter (@connectionRecvWindow H)).
#[export] Instance setc_peerEnablePush `{H : Hpack} : Setter (@peerEnablePush H) := ltac:(mk_setter (@peerEnablePush H)).
#[export] Instance setc_peerEnableConnect `{H : Hpack} : Setter (@peerEnableConnect H) := ltac:(mk_setter (@peerEnableConnect H)).
#[export] Instance setc_peerNoPriorities `{H : Hpack} : Setter (@peerNoPriorities H) := ltac:(mk_setter (@peerNoPriorities H)).
#[export] Instance setc_localSettingsOutstanding `{H : Hpack} : Setter (@localSettingsOutstanding H) := ltac:(mk_setter (@localSettingsOutstanding H)).
#[export] Instance setc_controlFrames `{H : Hpack} : Setter (@controlFrames H) := ltac:(mk_setter (@controlFrames H)).
#[export] Instance setc_sstarted `{H : Hpack} : Setter (@sstarted H) := ltac:(mk_setter (@sstarted H)).
#[export] Instance setc_closed `{H : Hpack} : Setter (@closed H) := ltac:(mk_setter (@closed H)).
#[export] Instance setc_failed `{H : Hpack} : Setter (@failed H) := ltac:(mk_setter (@failed H)).
#[export] Instance setc_peerInitialSettings `{H : Hpack} : Setter (@peerInitialSettings H) := ltac:(mk_setter (@peerInitialSettings H)).
#[export] Instance setc_goAwayReceived `{H : Hpack} : Setter (@goAwayReceived H) := ltac:(mk_setter (@goAwayReceived H)).
#[export] Instance setc_goAwaySent `{H : Hpack} : Setter (@goAwaySent H) := ltac:(mk_setter (@goAwaySent H)).
#[export] Instance setc_peerLastStream `{H : Hpack} : Setter (@peerLastStream H) := ltac:(mk_setter (@peerLastStream H)).
#[export] Instance setc_prefacePos `{H : Hpack} : Setter (@prefacePos H) := ltac:(mk_setter (@prefacePos H)).
#[export] Instance setc_output `{H : Hpack} : Setter (@output H) := ltac:(mk_setter (@output H)).
#[export] Instance setc_events `{H : Hpack} : Setter (@events H) := ltac:(mk_setter (@events H)).
#[export] Instance setc_eventBytes `{H : Hpack} : Setter (@eventBytes H) := ltac:(mk_setter (@eventBytes H)).
#[export] Instance setc_headerBlock `{H : Hpack} : Setter (@headerBlock H) := ltac:(mk_setter (@headerBlock H)).
#[export] Instance setc_currentHeaders `{H : Hpack} : Setter (@currentHeaders H) := ltac:(mk_setter (@currentHeaders H)).
#[export] Instance setc_currentHeaderStream `{H : Hpack} : Setter (@currentHeaderStream H) := ltac:(mk_setter (@currentHeaderStream H)).
#[export] Instance setc_currentHeaderEventStream `{H : Hpack} : Setter (@currentHeaderEventStream H) := ltac:(mk_setter (@currentHeaderEventStream H)).
#[export] Instance setc_currentHeaderEnd `{H : Hpack} : Setter (@currentHeaderEnd H) := ltac:(mk_setter (@currentHeaderEnd H)).
#[export] Instance setc_currentHeaderTrailer `{H : Hpack} : Setter (@currentHeaderTrailer H) := ltac:(mk_setter (@currentHeaderTrailer H)).
#[export] Instance setc_currentHeaderPush `{H : Hpack} : Setter (@currentHeaderPush H) := ltac:(mk_setter (@currentHeaderPush H)).
#[export] Instance setc_currentFrame `{H : Hpack} : Setter (@currentFrame H) := ltac:(mk_setter (@currentFrame H)).
#[export] Instance setc_pendingSettings `{H : Hpack} : Setter (@pendingSettings H) := ltac:(mk_setter (@pendingSettings H)).
#[export] Instance setc_extensionPayload `{H : Hpack} : Setter (@extensionPayload H) := ltac:(mk_setter (@extensionPayload H)).

(** [int(v)] of a [uint64]. *)
Definition toInt (v : Z) : Z := (v + 2 ^ 63) mod 2 ^ 64 - 2 ^ 63.

(** The order in which Go ranges over [session.streams]. *)
Class RangeOrder `{Hpack} := rangeOrder : Core -> list Z.

Section Session.
Context `{HP : Hpack} `{RO : !RangeOrder}.

(** ** Queues *)

Definition eventRetainedBytes (e : Event) : Z :=
  let total := u64 (len e.(evData) + len e.(evSettings) * 6) in
  let total := fold_left (fun t f => u64 (t + len f.(Name) + len f.(FieldValue) + 32)) e.(evHeaders) total in
  if MaxUint32 <? total then MaxUint32 else total.

Definition queueEvent (s : Core) (e : Event) : Core * option SessionError :=
  let bytes := eventRetainedBytes e in
  if (s.(slimits).(MaxQueuedEvents) <=? u32 (len s.(events)))
     || (u32 (s.(slimits).(MaxQueuedEventBytes) - s.(eventBytes)) <? bytes)
  then (s, Some ErrEventLimit)
  else (s <| events := s.(events) ++ [e] |> <| eventBytes := u32 (s.(eventBytes) + bytes) |>, None).

(** [_ = session.queueEvent(event)] *)
Definition tryEvent (s : Core) (e : Event) : Core := (queueEvent s e).1.

Definition reserveOutput (s : Core) (bytes : Z) : bool :=
  (0 <=? bytes) && (bytes <=? s.(slimits).(MaxQueuedOutputBytes) - len s.(output)).

Definition appendFrameEvenFailed (s : Core) (h : FrameHeader) (payload : list Z) : Core * option SessionError :=
  if negb (reserveOutput s (9 + len payload)) then (s, Some ErrOutputLimit)
  else
    let (out, c) := AppendFrame s.(output) h payload in
    (s <| output := out |>, match c with CodeNone => None | _ => Some (ErrInvalidFrame c) end).

Definition ready (s : Core) : option SessionError :=
  if s.(closed) then Some ErrSessionClosed else s.(failed).

Definition appendFrame (s : Core) (h : FrameHeader) (payload : list Z) : Core * option SessionError :=
  match ready s with
  | Some err => (s, Some err)
  | None => appendFrameEvenFailed s h payload
  end.

(** [FrameHeader{Type: t, Flags: flags, StreamID: id}] *)
Definition frameHeader (t flags id : Z) : FrameHeader := mkFrameHeader 0 t flags id.

Definition appendSettings (s : Core) (settings : list Setting) (ack : bool) : Core * option SessionError :=
  if ack then appendFrameEvenFailed s (frameHeader FrameSettings FlagACK 0) []
  else appendFrameEvenFailed s (frameHeader FrameSettings 0 0) (concat (map encodeSetting settings)).

Definition appendWindowUpdate (s : Core) (id increment : Z) : Core * option SessionError :=
  if (increment =? 0) || (MaxInt32 <? increment) then (s, Some ErrStreamState)
  else appendFrameEvenFailed s (frameHeader FrameWindowUpdate 0 id) (putUint32 increment).

(** ** Stream states *)

Definition updateStream (s : Core) (id : Z) (f : sessionStream -> sessionStream) : Core :=
  s <| streams := alter f id s.(streams) |>.

(** The eviction loop of [closeStream]. *)
Fixpoint evict (max : Z) (closed : list Z) (m : gmap Z sessionStream) : list Z * gmap Z sessionStream :=
  match closed with
  | [] => ([], m)
  | oldest :: rest =>
      if max <? u32 (len closed) then
        evict max rest
          (match m !! oldest with
           | Some x => if is_closed x.(sstate) then delete oldest m else m
           | None => m
           end)
      else (closed, m)
  end.

Definition closeStream (s : Core) (id : Z) : Core :=
  match s.(streams) !! id with
  | None => s
  | Some x =>
      if is_closed x.(sstate) then s
      else
        let s := updateStream s id (fun x => x <| sstate := StreamClosed |>) in
        let s :=
          if x.(slocal) then
            if negb (s.(activeLocal) =? 0) then s <| activeLocal := u32 (s.(activeLocal) - 1) |> else s
          else if negb (s.(activePeer) =? 0) then s <| activePeer := u32 (s.(activePeer) - 1) |> else s in
        let (cl, m) := evict s.(slimits).(MaxClosedStreams) (s.(closedStreams) ++ [id]) s.(streams) in
        s <| closedStreams := cl |> <| streams := m |>
  end.

Definition streamError (s : Core) (id c : Z) : Core :=
  let s := closeStream s id in
  let s := (appendFrame s (frameHeader FrameRSTStream 0 id) (putUint32 c)).1 in
  tryEvent s (event EventStreamReset id <| evErrorCode := c |>).

(** [connectionError]: the state and the error it returns. *)
Definition connectionErrorE (s : Core) (c : Z) (reason : list Z) : Core * SessionError :=
  match s.(failed) with
  | Some err => (s, err)
  | None =>
      let err := ErrProtocol (mkProtocolError 0 c reason) in
      let s := s <| failed := Some err |> <| goAwaySent := true |> in
      ((appendFrameEvenFailed s (frameHeader FrameGoAway 0 0)
          (putUint32 s.(lastProcessedPeerStream) ++ putUint32 c)).1, err)
  end.

Definition connectionError (s : Core) (c : Z) (reason : list Z) : Core := (connectionErrorE s c reason).1.

Definition handleProtocolError (s : Core) (err : SessionError) : Core :=
  match err with
  | ErrProtocol e =>
      if e.(peStreamID) =? 0 then connectionError s e.(peCode) e.(peReason)
      else streamError s e.(peStreamID) e.(peCode)
  | _ => connectionError s ErrCodeInternal (errorString err)
  end.

Definition localEnd (s : Core) (id : Z) : Core :=
  match s.(streams) !! id with
  | None => s
  | Some x =>
      match x.(sstate) with
      | StreamOpen => updateStream s id (fun x => x <| sstate := StreamHalfClosedLocal |>)
      | StreamHalfClosedRemote => closeStream s id
      | StreamReservedLocal => updateStream s id (fun x => x <| sstate := StreamHalfClosedRemote |>)
      | _ => s
      end
  end.

Definition maxSessionUint32 (left right : Z) : Z := if right <? left then left else right.

Definition remoteEnd (s : Core) (id : Z) : Core :=
  match s.(streams) !! id with
  | None => s
  | Some x =>
      if x.(receiveHasLength) && negb x.(receiveNoBody) && negb (x.(receiveLength) =? x.(receiveBody))
      then streamError s id ErrCodeProtocol
      else
        let s :=
          match x.(sstate) with
          | StreamOpen => updateStream s id (fun x => x <| sstate := StreamHalfClosedRemote |>)
          | StreamHalfClosedLocal => closeStream s id
          | StreamReservedRemote => updateStream s id (fun x => x <| sstate := StreamHalfClosedLocal |>)
          | _ => s
          end in
        if is_closed x.(sstate) then s
        else
          let s := tryEvent s (event EventStreamEnd x.(sid)) in
          s <| lastProcessedPeerStream := maxSessionUint32 s.(lastProcessedPeerStream) x.(sid) |>
  end.

(** ** Inbound frames: the callbacks of the frame parser *)

Definition peerMayOpen (s : Core) (id : Z) : bool :=
  if (id =? 0) || (id <=? s.(lastPeerStream)) then false
  else if is_server s.(role) then Z.land id 1 =? 1
  else (Z.land id 1 =? 0) && s.(slimits).(EnablePush).

Definition streamCount (s : Core) : Z := u32 (Z.of_nat (size s.(streams))).

Definition protocolError (id c : Z) (reason : list Z) : option SessionError :=
  Some (ErrProtocol (mkProtocolError id c reason)).

(** The first part of [beginInboundHeaders]: find or open the stream. *)
Definition openInbound (s : Core) (id : Z) : Core * option SessionError :=
  match s.(streams) !! id with
  | None =>
      if negb (peerMayOpen s id) then (s, protocolError 0 ErrCodeProtocol (str "peer opened an invalid stream identifier"))
      else if s.(slimits).(MaxConcurrentStreams) <=? s.(activePeer)
      then (s, protocolError id ErrCodeRefusedStream (str "peer concurrent stream limit exceeded"))
      else if s.(slimits).(MaxStreams) <=? streamCount s
      then (s, protocolError id ErrCodeRefusedStream (str "stream storage exhausted"))
      else
        (s <| streams := <[id := newStream id StreamOpen false s.(peerInitialWindow) s.(slimits).(InitialWindowSize)]> s.(streams) |>
           <| activePeer := u32 (s.(activePeer) + 1) |> <| lastPeerStream := id |>, None)
  | Some x =>
      if is_closed x.(sstate) then (s, protocolError 0 ErrCodeStreamClosed (str "HEADERS on a closed stream"))
      else if negb (canReceive x.(sstate)) || x.(receivedTrailers)
      then (s, protocolError id ErrCodeStreamClosed (str "HEADERS in invalid stream state"))
      else (s, None)
  end.

Definition beginInboundHeaders (s : Core) (id : Z) (endStream : bool) : Core * option SessionError :=
  match openInbound s id with
  | (s, Some err) => (s, Some err)
  | (s, None) =>
      match s.(streams) !! id with
      | None => (s, None)
      | Some x =>
          if x.(receivedHeaders) && negb endStream
          then (s, protocolError id ErrCodeProtocol (str "trailing HEADERS omitted END_STREAM"))
          else
            let s :=
              match x.(sstate) with
              | StreamReservedRemote => updateStream s id (fun x => x <| sstate := StreamHalfClosedLocal |>)
              | _ => s
              end in
            let s := s <| currentHeaders := [] |> <| currentHeaderStream := id |> <| currentHeaderEventStream := id |>
                       <| currentHeaderEnd := endStream |> <| currentHeaderTrailer := x.(receivedHeaders) |>
                       <| currentHeaderPush := false |> in
            let (d, err) := BeginBlock s.(hdecoder) in
            (s <| hdecoder := d |>, ErrDecoder <$> err)
      end
  end.

Definition is_failed (s : Core) : bool := match s.(failed) with Some _ => true | None => false end.

(** The DATA checks of [onFrameBegin]. *)
Definition beginData (s : Core) (h : FrameHeader) : Core :=
  let refuse := streamError s h.(StreamID) ErrCodeStreamClosed in
  match s.(streams) !! h.(StreamID) with
  | None => refuse
  | Some x =>
      if negb (canReceive x.(sstate)) || negb x.(receivedHeaders) || x.(receivedTrailers) || x.(receiveNoBody)
      then refuse
      else if s.(connectionRecvWindow) <? h.(Length)
      then connectionError s ErrCodeFlowControl (str "connection receive window exceeded")
      else if x.(recvWindow) <? h.(Length) then streamError s h.(StreamID) ErrCodeFlowControl
      else
        updateStream (s <| connectionRecvWindow := s.(connectionRecvWindow) - h.(Length) |>) h.(StreamID)
          (fun x => x <| recvWindow := x.(recvWindow) - h.(Length) |>)
  end.

Definition PriorityUpdateType : Z := 16. (* 0x10 *)

Definition onFrameBegin (h : FrameHeader) (s : Core) : Core :=
  if is_failed s then s
  else
    let s := s <| currentFrame := h |> in
    if negb s.(peerInitialSettings) && (negb (h.(Type_) =? FrameSettings) || Has h.(Flags) FlagACK)
    then connectionError s ErrCodeProtocol (str "peer did not begin with SETTINGS")
    else if h.(Type_) =? FrameHeaders then
      match beginInboundHeaders s h.(StreamID) (Has h.(Flags) FlagEndStream) with
      | (s, Some err) => handleProtocolError s err
      | (s, None) => s
      end
    else if h.(Type_) =? FrameData then beginData s h
    else if h.(Type_) =? PriorityUpdateType then s <| extensionPayload := [] |>
    else s.

Definition onData (id : Z) (data : list Z) (endStream : bool) (s : Core) : Core :=
  if is_failed s || (len data =? 0) then s
  else
    match s.(streams) !! id with
    | None => s
    | Some x =>
        if x.(receiveHasLength) && (u64 (x.(receiveLength) - x.(receiveBody)) <? len data)
        then streamError s id ErrCodeProtocol
        else
          let s := updateStream s id (fun x => x <| receiveBody := u64 (x.(receiveBody) + len data) |>) in
          match queueEvent s (event EventData id <| evEndStream := endStream |> <| evData := data |>) with
          | (s, None) => s
          | (s, Some err) => connectionError s ErrCodeEnhanceYourCalm (errorString err)
          end
    end.

(** [onHeaderBlock], with [onDecodedHeader] on every field the decoder emits. *)
Definition onHeaderBlock (id : Z) (fragment : list Z) (s : Core) : Core :=
  if is_failed s || negb (id =? s.(currentHeaderStream)) then s
  else
    let '((d, fs), (_, err)) := DWrite s.(hdecoder) fragment in
    let s := s <| hdecoder := d |> <| currentHeaders := s.(currentHeaders) ++ fs |> in
    match err with
    | Some e => connectionError s ErrCodeCompression (errorString (ErrDecoder e))
    | None => s
    end.

(** What [onHeaderBlockEnd] does to a stream with the metadata of its section. *)
Definition takeHeaders (m : headerSectionMetadata) (trailer : bool) (x : sessionStream) : sessionStream :=
  let x := x <| receivedHeaders := true |> <| smethod := firstNonEmpty x.(smethod) m.(mmethod) |> in
  let x := x <| receiveNoBody := m.(noBody) || bytes_eqb x.(smethod) (str "HEAD") && m.(response) |>
             <| receiveHasLength := m.(hasContentLength) |> <| receiveLength := m.(contentLength) |> in
  if trailer then x <| receivedTrailers := true |> else x.

Definition onHeaderBlockEnd (id : Z) (endStream : bool) (s : Core) : Core :=
  if is_failed s || negb (id =? s.(currentHeaderStream)) then s
  else
    let (d, err) := EndBlock s.(hdecoder) in
    let s := s <| hdecoder := d |> in
    match err with
    | Some e => connectionError s ErrCodeCompression (errorString (ErrDecoder e))
    | None =>
        let target := s.(currentHeaderEventStream) in
        match s.(streams) !! target with
        | None => s
        | Some _ =>
            let validationRole := if s.(currentHeaderPush) then RoleServer else s.(role) in
            if negb (validateHeaderSection validationRole false s.(currentHeaderTrailer) s.(currentHeaders)
                       s.(slimits).(EnableExtendedConnect))
            then streamError s target ErrCodeProtocol
            else
              let m := inspectHeaderSection s.(currentHeaders) in
              let t := if s.(currentHeaderPush) then EventPushPromise else EventHeaders in
              match queueEvent s (event t target <| evEndStream := endStream |> <| evTrailer := s.(currentHeaderTrailer) |>
                                    <| evHeaders := s.(currentHeaders) |>) with
              | (s, Some err) => connectionError s ErrCodeEnhanceYourCalm (errorString err)
              | (s, None) =>
                  let s :=
                    if s.(currentHeaderPush) then updateStream s target (fun x => x <| smethod := m.(mmethod) |>)
                    else if negb m.(informational) then
                      let s := updateStream s target (takeHeaders m s.(currentHeaderTrailer)) in
                      if endStream then remoteEnd s target else s
                    else if endStream then streamError s target ErrCodeProtocol
                    else s in
                  s <| currentHeaderStream := 0 |> <| currentHeaderEventStream := 0 |> <| currentHeaderPush := false |>
                    <| currentHeaders := [] |>
              end
        end
    end.

Definition onPriority (id : Z) (priority : PriorityParam) (s : Core) : Core :=
  if is_failed s then s else tryEvent s (event EventPriority id <| evPriority := priority |>).

Definition onRSTStream (id c : Z) (s : Core) : Core :=
  match s.(streams) !! id with
  | None => if s.(lastPeerStream) <? id then connectionError s ErrCodeProtocol (str "RST_STREAM on idle stream") else s
  | Some _ => tryEvent (closeStream s id) (event EventStreamReset id <| evErrorCode := c |>)
  end.

Definition onSetting (x : Setting) (s : Core) : Core := s <| pendingSettings := s.(pendingSettings) ++ [x] |>.

(** The loop of [applyPeerSetting] over the streams: the streams when it ends
    or returns, and whether a window overflowed. *)
Fixpoint shiftSendWindows (order : list Z) (change : Z) (m : gmap Z sessionStream) : gmap Z sessionStream * bool :=
  match order with
  | [] => (m, true)
  | id :: order =>
      match m !! id with
      | None => shiftSendWindows order change m
      | Some x =>
          if is_closed x.(sstate) then shiftSendWindows order change m
          else
            let updated := x.(sendWindow) + change in
            if (MaxInt32 <? updated) || (updated <? MinInt32) then (m, false)
            else shiftSendWindows order change (<[id := x <| sendWindow := updated |>]> m)
      end
  end.

Definition applyPeerSetting (s : Core) (x : Setting) : Core * option SessionError :=
  let v := x.(Value) in
  if x.(ID) =? SettingHeaderTableSize then
    (s <| encoder := SetMaxDynamicTableSize (SetMaxDynamicTableSizeLimit s.(encoder) v) v |>, None)
  else if x.(ID) =? SettingEnablePush then
    if is_client s.(role) then (s, protocolError 0 ErrCodeProtocol (str "server sent SETTINGS_ENABLE_PUSH"))
    else (s <| peerEnablePush := negb (v =? 0) |>, None)
  else if x.(ID) =? SettingMaxConcurrentStreams then (s <| peerMaxConcurrent := v |>, None)
  else if x.(ID) =? SettingInitialWindowSize then
    let (m, ok) := shiftSendWindows (rangeOrder s) (v - s.(peerInitialWindow)) s.(streams) in
    let s := s <| streams := m |> in
    if ok then (s <| peerInitialWindow := v |>, None)
    else (s, protocolError 0 ErrCodeFlowControl (str "SETTINGS_INITIAL_WINDOW_SIZE overflow"))
  else if x.(ID) =? SettingMaxFrameSize then (s <| peerMaxFrame := v |>, None)
  else if x.(ID) =? SettingEnableConnectProtocol then (s <| peerEnableConnect := negb (v =? 0) |>, None)
  else if x.(ID) =? SettingNoRFC7540Priorities then
    if s.(peerInitialSettings) && negb (eqb s.(peerNoPriorities) (negb (v =? 0)))
    then (s, protocolError 0 ErrCodeProtocol (str "SETTINGS_NO_RFC7540_PRIORITIES changed after initial SETTINGS"))
    else (s <| peerNoPriorities := negb (v =? 0) |>, None)
  else (s, None).

Fixpoint applyPeerSettings (s : Core) (l : list Setting) : Core * option SessionError :=
  match l with
  | [] => (s, None)
  | x :: l =>
      match applyPeerSetting s x with
      | (s, Some err) => (s, Some err)
      | (s, None) => applyPeerSettings s l
      end
  end.

Definition onSettingsEnd (ack : bool) (s : Core) : Core :=
  if is_failed s then s
  else if ack then
    if s.(localSettingsOutstanding) =? 0 then connectionError s ErrCodeProtocol (str "unexpected SETTINGS acknowledgement")
    else
      tryEvent (s <| localSettingsOutstanding := u32 (s.(localSettingsOutstanding) - 1) |>) (event EventSettingsAck 0)
  else
    match applyPeerSettings s s.(pendingSettings) with
    | (s, Some err) => handleProtocolError s err
    | (s, None) =>
        let settings := s.(pendingSettings) in
        let s := s <| pendingSettings := [] |> <| peerInitialSettings := true |> in
        match appendSettings s [] true with
        | (s, Some err) => connectionError s ErrCodeInternal (errorString err)
        | (s, None) => tryEvent s (event EventSettings 0 <| evSettings := settings |>)
        end
    end.

Definition onPushPromise (id promised : Z) (s : Core) : Core :=
  if is_failed s then s
  else
    let parentReceives := match s.(streams) !! id with Some x => canReceive x.(sstate) | None => false end in
    if negb (is_client s.(role)) || negb s.(slimits).(EnablePush) || negb s.(peerEnablePush) || (promised =? 0)
       || negb (Z.land promised 1 =? 0) || (promised <=? s.(lastPeerStream)) || negb parentReceives
    then connectionError s ErrCodeProtocol (str "invalid PUSH_PROMISE")
    else if (s.(slimits).(MaxConcurrentStreams) <=? s.(activePeer)) || (s.(slimits).(MaxStreams) <=? streamCount s)
    then streamError s promised ErrCodeRefusedStream
    else
      let x := newStream promised StreamReservedRemote false s.(peerInitialWindow) s.(slimits).(InitialWindowSize) in
      let s := s <| streams := <[promised := x]> s.(streams) |> <| activePeer := u32 (s.(activePeer) + 1) |>
                 <| lastPeerStream := promised |> <| currentHeaders := [] |> <| currentHeaderStream := id |>
                 <| currentHeaderEventStream := promised |> <| currentHeaderEnd := false |>
                 <| currentHeaderTrailer := false |> <| currentHeaderPush := true |> in
      let (d, err) := BeginBlock s.(hdecoder) in
      let s := s <| hdecoder := d |> in
      match err with
      | Some e => connectionError s ErrCodeCompression (errorString (ErrDecoder e))
      | None => s
      end.

Definition onPing (data : list Z) (ack : bool) (s : Core) : Core :=
  if is_failed s then s
  else if ack then tryEvent s (event EventPingAck 0 <| evPing := data |>)
  else
    match appendFrame s (frameHeader FramePing FlagACK 0) data with
    | (s, Some err) => connectionError s ErrCodeInternal (errorString err)
    | (s, None) => tryEvent s (event EventPing 0 <| evPing := data |>)
    end.

(** The loop of [onGoAway]: an entry deleted before it is reached is not
    visited. *)
Fixpoint refuseAbove (order : list Z) (last : Z) (s : Core) : Core :=
  match order with
  | [] => s
  | id :: order =>
      refuseAbove order last
        (match s.(streams) !! id with
         | Some x =>
             if x.(slocal) && (last <? x.(sid)) && negb (is_closed x.(sstate))
             then tryEvent (closeStream s id) (event EventStreamReset x.(sid) <| evErrorCode := ErrCodeRefusedStream |>)
             else s
         | None => s
         end)
  end.

Definition onGoAway (last c : Z) (s : Core) : Core :=
  if s.(goAwayReceived) && (s.(peerLastStream) <? last)
  then connectionError s ErrCodeProtocol (str "GOAWAY last stream identifier increased")
  else
    let s := s <| goAwayReceived := true |> <| peerLastStream := last |> in
    let s := refuseAbove (rangeOrder s) last s in
    tryEvent s (event EventGoAway 0 <| evLastStreamID := last |> <| evErrorCode := c |>).

Definition onWindowUpdate (id increment : Z) (s : Core) : Core :=
  if is_failed s then s
  else if id =? 0 then
    if MaxInt32 - increment <? s.(connectionSendWindow)
    then connectionError s ErrCodeFlowControl (str "connection send window overflow")
    else
      tryEvent (s <| connectionSendWindow := s.(connectionSendWindow) + increment |>)
        (event EventWindowUpdate 0 <| evWindowIncrement := increment |>)
  else
    match s.(streams) !! id with
    | None =>
        if s.(lastPeerStream) <? id then connectionError s ErrCodeProtocol (str "WINDOW_UPDATE on idle stream") else s
    | Some x =>
        if is_closed x.(sstate) then s
        else if MaxInt32 - increment <? x.(sendWindow) then streamError s id ErrCodeFlowControl
        else
          tryEvent (updateStream s id (fun x => x <| sendWindow := x.(sendWindow) + increment |>))
            (event EventWindowUpdate id <| evWindowIncrement := increment |>)
    end.

Definition onUnknown (h : FrameHeader) (fragment : list Z) (s : Core) : Core :=
  if h.(Type_) =? PriorityUpdateType then
    if s.(slimits).(Frame).(MaxFrameSize) - len s.(extensionPayload) <? len fragment
    then connectionError s ErrCodeFrameSize (str "PRIORITY_UPDATE too large")
    else s <| extensionPayload := s.(extensionPayload) ++ fragment |>
  else s.

(** The receive windows are topped up at half: the connection's, then the
    stream's. *)
Definition replenishConnection (s : Core) : Core :=
  let target := s.(slimits).(InitialWindowSize) in
  if s.(connectionRecvWindow) <=? Z.quot target 2 then
    let increment := target - s.(connectionRecvWindow) in
    if 0 <? increment then
      (appendWindowUpdate s 0 (u32 increment)).1 <| connectionRecvWindow := s.(connectionRecvWindow) + increment |>
    else s
  else s.

Definition replenishStream (s : Core) (id : Z) : Core :=
  match s.(streams) !! id with
  | None => s
  | Some x =>
      let target := s.(slimits).(InitialWindowSize) in
      if x.(recvWindow) <=? Z.quot target 2 then
        let increment := target - x.(recvWindow) in
        if 0 <? increment then
          updateStream (appendWindowUpdate s id (u32 increment)).1 id
            (fun x => x <| recvWindow := x.(recvWindow) + increment |>)
        else s
      else s
  end.

Definition countControlFrame (s : Core) (t : Z) : Core :=
  if negb (t =? FrameData) && negb (t =? FrameHeaders) && negb (t =? FrameContinuation)
  then s <| controlFrames := u32 (s.(controlFrames) + 1) |>
  else s <| controlFrames := 0 |>.

Definition onFrameComplete (h : FrameHeader) (s : Core) : Core :=
  if is_failed s then s
  else
    let s := countControlFrame s h.(Type_) in
    if s.(slimits).(MaxControlFrames) <? s.(controlFrames)
    then connectionError s ErrCodeEnhanceYourCalm (str "control frame quota exceeded")
    else if h.(Type_) =? FrameData then
      match s.(streams) !! h.(StreamID) with
      | None => s
      | Some _ =>
          let s := replenishStream (replenishConnection s) h.(StreamID) in
          if Has h.(Flags) FlagEndStream then remoteEnd s h.(StreamID) else s
      end
    else if h.(Type_) =? PriorityUpdateType then
      if negb (h.(StreamID) =? 0) || (len s.(extensionPayload) <? 4)
      then connectionError s ErrCodeProtocol (str "invalid PRIORITY_UPDATE")
      else
        tryEvent s (event EventPriorityUpdate (Z.land (Uint32At (take 4 s.(extensionPayload)) 0) MaxInt32)
                      <| evData := drop 4 s.(extensionPayload) |>)
    else s.

(** The callbacks [NewSession] installs; none of them calls the parser. *)
Definition callbacks : Callbacks Core :=
  let on (f : Core -> Core) : Reaction Core := fun s => (f s, false) in
  {| cbFrameBegin := Some (fun h => on (onFrameBegin h));
     cbData := Some (fun id data fin => on (onData id data fin));
     cbHeaderBlock := Some (fun id fragment => on (onHeaderBlock id fragment));
     cbHeaderBlockEnd := Some (fun id fin => on (onHeaderBlockEnd id fin));
     cbPriority := Some (fun id pr => on (onPriority id pr));
     cbRSTStream := Some (fun id c => on (onRSTStream id c));
     cbSetting := Some (fun x => on (onSetting x));
     cbSettingsEnd := Some (fun ack => on (onSettingsEnd ack));
     cbPushPromise := Some (fun id promised => on (onPushPromise id promised));
     cbPing := Some (fun data ack => on (onPing data ack));
     cbGoAway := Some (fun last c => on (onGoAway last c));
     cbGoAwayDebug := None;
     cbWindowUpdate := Some (fun id inc => on (onWindowUpdate id inc));
     cbUnknown := Some (fun h fragment => on (onUnknown h fragment));
     cbFrameComplete := Some (fun h => on (onFrameComplete h)) |}.

(** ** Outbound operations *)

(** The writes of the HPACK encoder to [headerBlock], within the limit of the
    writer. *)
Fixpoint encodeFields (limit : Z) (s : Core) (headers : list HeaderField) : Core * option SessionError :=
  match headers with
  | [] => (s, None)
  | f :: headers =>
      let (e, bytes) := WriteField s.(encoder) f in
      let s := s <| encoder := e |> in
      if limit - len s.(headerBlock) <? len bytes then (s, Some ErrOutputLimit)
      else encodeFields limit (s <| headerBlock := s.(headerBlock) ++ bytes |>) headers
  end.

(** One frame of a header block: its payload and flags, and the rest. *)
Definition nextBlockFrame (s : Core) (frameType id promised : Z) (endStream first : bool) (block : list Z)
  : FrameHeader * list Z * list Z :=
  let prefix := if first && (frameType =? FramePushPromise) then 4 else 0 in
  let count := minInt (len block) (s.(peerMaxFrame) - prefix) in
  let flags := if count =? len block then FlagEndHeaders else 0 in
  let flags := if first && endStream && (frameType =? FrameHeaders) then Z.lor flags FlagEndStream else flags in
  let fragment := take (Z.to_nat count) block in
  let payload := if first && (frameType =? FramePushPromise) then putUint32 promised ++ fragment else fragment in
  ((frameHeader (if first then frameType else FrameContinuation) flags id, payload), drop (Z.to_nat count) block).

(** The frames of a header block; every turn but the first consumes bytes of
    it, so its length is enough fuel. *)
Fixpoint appendBlock (fuel : nat) (s : Core) (frameType id promised : Z) (endStream first : bool) (block : list Z)
  : Core * option SessionError :=
  if first || negb (len block =? 0) then
    match fuel with
    | O => (s, None)
    | S fuel =>
        let '((h, payload), rest) := nextBlockFrame s frameType id promised endStream first block in
        match appendFrame s h payload with
        | (s, Some err) => (s, Some err)
        | (s, None) => appendBlock fuel s frameType id promised endStream false rest
        end
    end
  else (s, None).

Definition encodeAndAppendHeaders (s : Core) (frameType id promised : Z) (headers : list HeaderField) (endStream : bool)
  : Core * option SessionError :=
  let maxBlock := toInt s.(slimits).(Header).(MaxHeaderListBytes) in
  let frameCount := Z.quot maxBlock s.(peerMaxFrame) + 2 in
  if negb (reserveOutput s (toInt (maxBlock + frameCount * 9 + 4))) then (s, Some ErrWouldBlock)
  else
    match encodeFields maxBlock (s <| headerBlock := [] |>) headers with
    | (s, Some err) => (s, Some err)
    | (s, None) => appendBlock (S (length s.(headerBlock))) s frameType id promised endStream true s.(headerBlock)
    end.

(** What [SendHeaders] records of the section it sent. *)
Definition sentSection (m : headerSectionMetadata) (trailer projectedNoBody : bool) (x : sessionStream) : sessionStream :=
  let x := match x.(sstate) with StreamReservedLocal => x <| sstate := StreamHalfClosedRemote |> | _ => x end in
  let x :=
    if negb m.(informational) then
      x <| sentHeaders := true |> <| smethod := firstNonEmpty x.(smethod) m.(mmethod) |>
        <| sendNoBody := projectedNoBody |> <| sendHasLength := m.(hasContentLength) |>
        <| sendLength := m.(contentLength) |>
    else x in
  if trailer then x <| sentTrailers := true |> else x.

Definition SendHeaders (s : Core) (id : Z) (headers : list HeaderField) (endStream : bool) : Core * option SessionError :=
  match ready s with
  | Some err => (s, Some err)
  | None =>
      match s.(streams) !! id with
      | None => (s, Some ErrStreamNotFound)
      | Some x =>
          if negb (canSend x.(sstate)) || x.(sentTrailers) then (s, Some ErrStreamState)
          else
            let trailer := x.(sentHeaders) in
            if trailer && negb endStream then (s, Some ErrInvalidHeaders)
            else if negb (validateHeaderSection s.(role) true trailer headers s.(slimits).(EnableExtendedConnect))
            then (s, Some ErrInvalidHeaders)
            else
              let m := inspectHeaderSection headers in
              if if m.(informational) then trailer || endStream else m.(noBody) && negb endStream
              then (s, Some ErrInvalidHeaders)
              else
                let projectedNoBody := m.(noBody) || bytes_eqb x.(smethod) (str "HEAD") && m.(response) in
                if endStream && m.(hasContentLength) && negb projectedNoBody && negb (m.(contentLength) =? x.(sendBody))
                then (s, Some ErrInvalidHeaders)
                else
                  match encodeAndAppendHeaders s FrameHeaders id 0 headers endStream with
                  | (s, Some err) => (s, Some err)
                  | (s, None) =>
                      let s := updateStream s id (sentSection m trailer projectedNoBody) in
                      if endStream then
                        match s.(streams) !! id with
                        | Some x =>
                            if x.(sendHasLength) && negb x.(sendNoBody) && negb (x.(sendLength) =? x.(sendBody))
                            then (s, Some ErrInvalidHeaders)
                            else (localEnd s id, None)
                        | None => (s, None)
                        end
                      else (s, None)
                  end
      end
  end.

Definition OpenStream (s : Core) (headers : list HeaderField) (endStream : bool) : Core * (Z * option SessionError) :=
  if s.(goAwayReceived) || s.(goAwaySent) then (s, (0, Some ErrSessionClosed))
  else if negb (is_client s.(role)) then (s, (0, Some ErrStreamState))
  else if (s.(nextLocalStream) =? 0) || (MaxInt32 <? s.(nextLocalStream)) then (s, (0, Some ErrStreamIDExhausted))
  else if s.(peerMaxConcurrent) <=? s.(activeLocal) then (s, (0, Some ErrWouldBlock))
  else if s.(slimits).(MaxStreams) <=? streamCount s then (s, (0, Some ErrStreamLimit))
  else
    let id := s.(nextLocalStream) in
    let x := newStream id StreamOpen true s.(peerInitialWindow) s.(slimits).(InitialWindowSize) in
    let s := s <| nextLocalStream := u32 (s.(nextLocalStream) + 2) |> <| streams := <[id := x]> s.(streams) |>
               <| activeLocal := u32 (s.(activeLocal) + 1) |> in
    match SendHeaders s id headers endStream with
    | (s, Some err) =>
        (s <| streams := delete id s.(streams) |> <| activeLocal := u32 (s.(activeLocal) - 1) |>, (0, Some err))
    | (s, None) => (s, (id, None))
    end.

Definition PushPromise (s : Core) (parent : Z) (headers : list HeaderField) : Core * (Z * option SessionError) :=
  if negb (is_server s.(role)) || negb s.(slimits).(EnablePush) || negb s.(peerEnablePush)
  then (s, (0, Some ErrStreamState))
  else if negb (match s.(streams) !! parent with Some x => canSend x.(sstate) | None => false end)
  then (s, (0, Some ErrStreamNotFound))
  else if (s.(nextLocalStream) =? 0) || (MaxInt32 <? s.(nextLocalStream)) then (s, (0, Some ErrStreamIDExhausted))
  else if s.(peerMaxConcurrent) <=? s.(activeLocal) then (s, (0, Some ErrWouldBlock))
  else if s.(slimits).(MaxStreams) <=? streamCount s then (s, (0, Some ErrStreamLimit))
  else if negb (validateHeaderSection RoleClient true false headers s.(slimits).(EnableExtendedConnect))
  then (s, (0, Some ErrInvalidHeaders))
  else
    let promised := s.(nextLocalStream) in
    let x := newStream promised StreamReservedLocal true s.(peerInitialWindow) s.(slimits).(InitialWindowSize)
               <| smethod := (inspectHeaderSection headers).(mmethod) |> in
    let s := s <| nextLocalStream := u32 (s.(nextLocalStream) + 2) |> in
    match encodeAndAppendHeaders s FramePushPromise parent promised headers false with
    | (s, Some err) => (s, (0, Some err))
    | (s, None) =>
        (s <| streams := <[promised := x]> s.(streams) |> <| activeLocal := u32 (s.(activeLocal) + 1) |>, (promised, None))
    end.

Definition PriorityUpdate (s : Core) (id : Z) (value : list Z) : Core * option SessionError :=
  if s.(peerMaxFrame) - 4 <? len value then (s, Some ErrOutputLimit)
  else appendFrame s (frameHeader PriorityUpdateType 0 0) (putUint32 (Z.land id MaxInt32) ++ value).

(** The last part of [SendData], on a non-empty [src]. *)
Definition sendChunk (s : Core) (id : Z) (x : sessionStream) (src : list Z) (endStream : bool)
  : Core * (Z * option SessionError) :=
  let available := minInt (len src) s.(peerMaxFrame) in
  let available := if s.(connectionSendWindow) <? available then s.(connectionSendWindow) else available in
  let available := if x.(sendWindow) <? available then x.(sendWindow) else available in
  if available <=? 0 then (s, (0, Some ErrWouldBlock))
  else
    let last := (available =? len src) && endStream in
    if last && x.(sendHasLength) && negb (u64 (x.(sendBody) + available) =? x.(sendLength))
    then (s, (0, Some ErrInvalidHeaders))
    else
      match appendFrame s (frameHeader FrameData (if last then FlagEndStream else 0) id) (take (Z.to_nat available) src) with
      | (s, Some err) => (s, (0, Some err))
      | (s, None) =>
          let s := s <| connectionSendWindow := s.(connectionSendWindow) - available |> in
          let s := updateStream s id (fun x => x <| sendWindow := x.(sendWindow) - available |>
                                                 <| sendBody := u64 (x.(sendBody) + available) |>) in
          (if last then localEnd s id else s, (available, None))
      end.

Definition SendData (s : Core) (id : Z) (src : list Z) (endStream : bool) : Core * (Z * option SessionError) :=
  match ready s with
  | Some err => (s, (0, Some err))
  | None =>
      match s.(streams) !! id with
      | None => (s, (0, Some ErrStreamNotFound))
      | Some x =>
          if negb x.(sentHeaders) || negb (canSend x.(sstate)) || x.(sentTrailers) || x.(sendNoBody)
          then (s, (0, Some ErrStreamState))
          else if x.(sendHasLength) && (u64 (x.(sendLength) - x.(sendBody)) <? len src)
          then (s, (0, Some ErrInvalidHeaders))
          else
            match src with
            | [] =>
                if negb endStream then (s, (0, None))
                else if x.(sendHasLength) && negb (x.(sendLength) =? x.(sendBody)) then (s, (0, Some ErrInvalidHeaders))
                else
                  match appendFrame s (frameHeader FrameData FlagEndStream id) [] with
                  | (s, Some err) => (s, (0, Some err))
                  | (s, None) => (localEnd s id, (0, None))
                  end
            | _ => sendChunk s id x src endStream
            end
      end
  end.

Definition ResetStream (s : Core) (id c : Z) : Core * option SessionError :=
  match s.(streams) !! id with
  | None => (s, Some ErrStreamNotFound)
  | Some x =>
      match x.(sstate) with
      | StreamIdle => (s, Some ErrStreamNotFound)
      | _ =>
          match appendFrame s (frameHeader FrameRSTStream 0 id) (putUint32 c) with
          | (s, Some err) => (s, Some err)
          | (s, None) => (closeStream s id, None)
          end
      end
  end.

Definition Ping (s : Core) (data : list Z) : Core * option SessionError :=
  appendFrame s (frameHeader FramePing 0 0) data.

Definition GoAway (s : Core) (c : Z) (debug : list Z) : Core * option SessionError :=
  if s.(goAwaySent) then (s, None)
  else
    let debug := if s.(peerMaxFrame) - 8 <? len debug then take (Z.to_nat (s.(peerMaxFrame) - 8)) debug else debug in
    match appendFrame s (frameHeader FrameGoAway 0 0) (putUint32 s.(lastProcessedPeerStream) ++ putUint32 c ++ debug) with
    | (s, Some err) => (s, Some err)
    | (s, None) => (s <| goAwaySent := true |>, None)
    end.

Definition Close (s : Core) : Core :=
  if s.(closed) then s
  else s <| closed := true |> <| streams := ∅ |> <| events := [] |> <| output := [] |> <| headerBlock := [] |>
         <| currentHeaders := [] |>.

Definition ConsumeOutput (s : Core) (n : Z) : Core * option SessionError :=
  if (n <? 0) || (len s.(output) <? n) then (s, Some ErrShortBuffer)
  else (s <| output := drop (Z.to_nat n) s.(output) |>, None).

Definition NextEvent (s : Core) : Core * option Event :=
  match s.(events) with
  | [] => (s, None)
  | e :: rest => (s <| events := rest |> <| eventBytes := u32 (s.(eventBytes) - eventRetainedBytes e) |>, Some e)
  end.

Definition StreamState_ (s : Core) (id : Z) : option StreamState := sstate <$> s.(streams) !! id.

(** ** The session and its frame parser *)

Record Session := mkSession { core : Core; parser : Parser }.

Definition boolSetting (b : bool) : Z := if b then 1 else 0.
Definition clampUint64To32 (v : Z) : Z := if MaxUint32 <? v then MaxUint32 else v.

(** The SETTINGS of [start]; only clients send SETTINGS_ENABLE_PUSH. *)
Definition startSettings (r : Role) (l : SessionLimits) : list Setting :=
  [mkSetting SettingHeaderTableSize l.(Header).(MaxDynamicTableBytes)] ++
  (if is_server r then [] else [mkSetting SettingEnablePush (boolSetting l.(EnablePush))]) ++
  [mkSetting SettingMaxConcurrentStreams l.(MaxConcurrentStreams);
   mkSetting SettingInitialWindowSize l.(InitialWindowSize);
   mkSetting SettingMaxFrameSize l.(Frame).(MaxFrameSize);
   mkSetting SettingMaxHeaderListSize (clampUint64To32 l.(Header).(MaxHeaderListBytes));
   mkSetting SettingEnableConnectProtocol (boolSetting l.(EnableExtendedConnect));
   mkSetting SettingNoRFC7540Priorities 1].

Definition start (s : Core) : Core * option SessionError :=
  if s.(sstarted) then (s, None)
  else
    let s := s <| sstarted := true |> in
    let preface := if is_client s.(role) then ClientPreface else [] in
    if is_client s.(role) && negb (reserveOutput s (len ClientPreface)) then (s, Some ErrOutputLimit)
    else
      match appendSettings (s <| output := s.(output) ++ preface |>) (startSettings s.(role) s.(slimits)) false with
      | (s, Some err) => (s, Some err)
      | (s, None) => (s <| localSettingsOutstanding := u32 (s.(localSettingsOutstanding) + 1) |>, None)
      end.

(** The session before [start], with limits already normalized. *)
Definition initialCore (r : Role) (l : SessionLimits) : Core :=
  {| role := r;
     slimits := l;
     caps := l;
     hdecoder := NewHeaderDecoder l.(Header) true;
     encoder := SetMaxDynamicTableSizeLimit NewEncoder defaultMaxDynamicTableBytes;
     streams := ∅;
     closedStreams := [];
     nextLocalStream := if is_client r then 1 else 2;
     lastPeerStream := 0;
     lastProcessedPeerStream := 0;
     activeLocal := 0;
     activePeer := 0;
     peerMaxConcurrent := MaxUint32;
     peerMaxFrame := defaultMaxFrameSize;
     localHeaderTable := l.(Header).(MaxDynamicTableBytes);
     peerInitialWindow := defaultInitialWindowSize;
     connectionSendWindow := defaultInitialWindowSize;
     connectionRecvWindow := l.(InitialWindowSize);
     peerEnablePush := true;
     peerEnableConnect := false;
     peerNoPriorities := false;
     localSettingsOutstanding := 0;
     controlFrames := 0;
     sstarted := false;
     closed := false;
     failed := None;
     peerInitialSettings := false;
     goAwayReceived := false;
     goAwaySent := false;
     peerLastStream := 0;
     prefacePos := 0;
     output := [];
     events := [];
     eventBytes := 0;
     headerBlock := [];
     currentHeaders := [];
     currentHeaderStream := 0;
     currentHeaderEventStream := 0;
     currentHeaderEnd := false;
     currentHeaderTrailer := false;
     currentHeaderPush := false;
     currentFrame := zeroFrameHeader;
     pendingSettings := [];
     extensionPayload := [] |}.

(** [NewSession] once the role is known to be one of the two. *)
Definition NewSession (r : Role) (l : SessionLimits) : Session + SessionError :=
  let l := normalizedSession l in
  match start (initialCore r l) with
  | (_, Some err) => inr err
  | (s, None) => inl (mkSession s (NewParser l.(Frame)))
  end.

(** The roles of a caller's [uint8], and the check [NewSession] starts with. *)
Definition roleOf (r : Z) : option Role := if r =? 1 then Some RoleClient else if r =? 2 then Some RoleServer else None.

Definition NewSessionRole (r : Z) (l : SessionLimits) : Session + SessionError :=
  match roleOf r with Some r => NewSession r l | None => inr ErrInvalidRole end.

Definition frameCodeToError (c : Code) : Z :=
  match c with
  | CodeFrameTooLarge | CodeInvalidFrameSize => ErrCodeFrameSize
  | CodeInvalidSetting => ErrCodeProtocol
  | CodeHeaderBlockTooLarge | CodeTooManyContinuations => ErrCodeEnhanceYourCalm
  | _ => ErrCodeProtocol
  end.

(** The preface loop of [Feed]: the position reached, the unread bytes, and
    whether the bytes agree with the preface. *)
Fixpoint matchPreface (pos : Z) (src : list Z) : Z * list Z * bool :=
  match src with
  | [] => (pos, [], true)
  | b :: rest =>
      if pos <? len ClientPreface then
        if b =? str_at ClientPreface pos then matchPreface (u8 (pos + 1)) rest else (pos, src, false)
      else (pos, src, true)
  end.

(** The frame loop of [Feed]: [None] is running out of fuel. *)
Fixpoint feedFrames (fuel : nat) (s : Session) (src : list Z) : option (Session * list Z * option SessionError) :=
  match src with
  | [] => Some (s, [], None)
  | _ =>
      match fuel with
      | O => None
      | S fuel =>
          match ParseOne (Some callbacks) s.(parser) s.(core) src with
          | None => None
          | Some (o, _) =>
              let s := mkSession o.(outHost) o.(outParser) in
              match o.(outCode) with
              | CodeNone =>
                  match s.(core).(failed) with
                  | Some err => Some (s, o.(outRest), Some err)
                  | None =>
                      if len o.(outRest) =? len src then Some (s, o.(outRest), None) else feedFrames fuel s o.(outRest)
                  end
              | c =>
                  let (st, err) := connectionErrorE s.(core) (frameCodeToError c) (codeString c) in
                  Some (mkSession st s.(parser), o.(outRest), Some err)
              end
          end
      end
  end.

(** [Feed]: the session, the unread suffix, and the error. *)
Definition Feed (s : Session) (src : list Z) : option (Session * list Z * option SessionError) :=
  let st := s.(core) in
  if st.(closed) then Some (s, src, Some ErrSessionClosed)
  else
    match st.(failed) with
    | Some err => Some (s, src, Some err)
    | None =>
        if is_server st.(role) && (st.(prefacePos) <? len ClientPreface) then
          let '((pos, rest), ok) := matchPreface st.(prefacePos) src in
          let st := st <| prefacePos := pos |> in
          if negb ok then
            let (st, err) := connectionErrorE st ErrCodeProtocol (str "invalid client connection preface") in
            Some (mkSession st s.(parser), rest, Some err)
          else feedFrames (length rest) (mkSession st s.(parser)) rest
        else feedFrames (length src) s src
    end.

Definition SessionFinish (s : Session) : Session * option SessionError :=
  let st := s.(core) in
  if st.(closed) then (s, Some ErrSessionClosed)
  else
    match st.(failed) with
    | Some err => (s, Some err)
    | None =>
        let fail_with (p : Parser) (c : Z) (reason : list Z) : Session * option SessionError :=
          let (st, err) := connectionErrorE st c reason in (mkSession st p, Some err) in
        if is_server st.(role) && negb (st.(prefacePos) =? len ClientPreface)
        then fail_with s.(parser) ErrCodeProtocol (str "truncated client connection preface")
        else
          let (p, c) := Finish s.(parser) in
          match c with
          | CodeNone => (mkSession st p, None)
          | _ => fail_with p (frameCodeToError c) (codeString c)
          end
    end.

(** ** Local settings *)

(** The variables [UpdateSettings] computes before it commits. *)
Record localSettings := mkLocalSettings {
  newHeaderTable : Z;
  newEnablePush : bool;
  newMaxConcurrent : Z;
  newInitialWindow : Z;
  newMaxFrame : Z;
  newEnableConnect : bool;
}.

Definition updateSetting (s : Session) (n : localSettings) (x : Setting) : option localSettings :=
  let st := s.(core) in
  let v := x.(Value) in
  if negb (validSetting x) then None
  else if x.(ID) =? SettingHeaderTableSize then
    if (st.(caps).(Header).(MaxDynamicTableBytes) <? v) || st.(hdecoder).(active) then None
    else Some (mkLocalSettings v n.(newEnablePush) n.(newMaxConcurrent) n.(newInitialWindow) n.(newMaxFrame) n.(newEnableConnect))
  else if x.(ID) =? SettingEnablePush then
    if negb (is_client st.(role)) then None
    else Some (mkLocalSettings n.(newHeaderTable) (negb (v =? 0)) n.(newMaxConcurrent) n.(newInitialWindow) n.(newMaxFrame) n.(newEnableConnect))
  else if x.(ID) =? SettingMaxConcurrentStreams then
    if st.(caps).(MaxStreams) <? v then None
    else Some (mkLocalSettings n.(newHeaderTable) n.(newEnablePush) v n.(newInitialWindow) n.(newMaxFrame) n.(newEnableConnect))
  else if x.(ID) =? SettingInitialWindowSize then
    Some (mkLocalSettings n.(newHeaderTable) n.(newEnablePush) n.(newMaxConcurrent) v n.(newMaxFrame) n.(newEnableConnect))
  else if x.(ID) =? SettingMaxFrameSize then
    if st.(caps).(Frame).(MaxFrameSize) <? v then None
    else Some (mkLocalSettings n.(newHeaderTable) n.(newEnablePush) n.(newMaxConcurrent) n.(newInitialWindow) v n.(newEnableConnect))
  else if x.(ID) =? SettingMaxHeaderListSize then
    if st.(caps).(Header).(MaxHeaderListBytes) <? v then None else Some n
  else if x.(ID) =? SettingEnableConnectProtocol then
    Some (mkLocalSettings n.(newHeaderTable) n.(newEnablePush) n.(newMaxConcurrent) n.(newInitialWindow) n.(newMaxFrame) (negb (v =? 0)))
  else if x.(ID) =? SettingNoRFC7540Priorities then if negb (v =? 1) then None else Some n
  else Some n.

Fixpoint updateSettings (s : Session) (n : localSettings) (l : list Setting) : option localSettings :=
  match l with
  | [] => Some n
  | x :: l => match updateSetting s n x with None => None | Some n => updateSettings s n l end
  end.

(** No receive window leaves the range of an [int32]. *)
Definition recvWindowsShift (m : gmap Z sessionStream) (change : Z) : bool :=
  forallb (fun x => negb ((MaxInt32 <? x.(recvWindow) + change) || (x.(recvWindow) + change <? MinInt32)))
    (map_to_list m).*2.

(** [session.parser.limits.MaxFrameSize = v] *)
Definition setMaxFrame (p : Parser) (v : Z) : Parser :=
  p <| limits := mkLimits v p.(limits).(MaxHeaderBlockBytes) p.(limits).(MaxContinuationFrames) |>.

Definition UpdateSettings (s : Session) (settings : list Setting) : Session * option SessionError :=
  let st := s.(core) in
  let with_core (st : Core) : Session := mkSession st s.(parser) in
  match ready st with
  | Some err => (s, Some err)
  | None =>
      if Z.quot st.(peerMaxFrame) 6 <? len settings then (s, Some ErrInvalidHeaders)
      else if negb (reserveOutput st (9 + len settings * 6)) then (s, Some ErrOutputLimit)
      else
        let n := mkLocalSettings st.(localHeaderTable) st.(slimits).(EnablePush) st.(slimits).(MaxConcurrentStreams)
                   st.(slimits).(InitialWindowSize) s.(parser).(limits).(MaxFrameSize) st.(slimits).(EnableExtendedConnect) in
        match updateSettings s n settings with
        | None => (s, Some ErrInvalidHeaders)
        | Some n =>
            let change := n.(newInitialWindow) - st.(slimits).(InitialWindowSize) in
            if negb (recvWindowsShift st.(streams) change) then (s, Some ErrStreamState)
            else
              match SetAllowedDynamicTableBytes st.(hdecoder) n.(newHeaderTable) with
              | (_, Some e) => (s, Some (ErrDecoder e))
              | (d, None) =>
                  match appendSettings (st <| hdecoder := d |>) settings false with
                  | (st, Some err) => (with_core st, Some err)
                  | (st, None) =>
                      let l := st.(slimits) <| EnablePush := n.(newEnablePush) |>
                                 <| MaxConcurrentStreams := n.(newMaxConcurrent) |>
                                 <| InitialWindowSize := n.(newInitialWindow) |>
                                 <| EnableExtendedConnect := n.(newEnableConnect) |> in
                      let st := st <| localHeaderTable := n.(newHeaderTable) |> <| slimits := l |>
                                  <| streams := (fun x => x <| recvWindow := x.(recvWindow) + change |>) <$> st.(streams) |>
                                  <| localSettingsOutstanding := u32 (st.(localSettingsOutstanding) + 1) |> in
                      (mkSession st (setMaxFrame s.(parser) n.(newMaxFrame)), None)
                  end
              end
        end
  end.
End Session.
