(* ===== verification/H2SessionTable.v ===== *)
(** * HTTP/2: the stream table of a session

    The streams a session remembers, the counters of live streams and the
    queue of closed ones ([closeStream] of [src/http2/session.go] and its
    eviction loop).  [table_ok] is the part of the session's invariant about
    them; [status] is the state of any stream identifier, remembered or not,
    and [rfc_step] the transitions of RFC 9113, section 5.1. *)

From stdpp Require Import gmap.
From S2P Require Import Prelude H2Frame H2Hpack H2Headers H2Session.
Open Scope Z_scope.

(** ** Counting *)

(** A live stream opened by this endpoint ([b]) or by its peer. *)
Definition live_of (b : bool) (x : sessionStream) : bool := negb (is_closed x.(sstate)) && eqb x.(slocal) b.

Definition count (b : bool) (m : gmap Z sessionStream) : Z :=
  Z.of_nat (size (filter (fun kv : Z * sessionStream => live_of b kv.2 = true) m)).

Definition b2z (b : bool) : Z := if b then 1 else 0.

Lemma count_fresh b m id x : m !! id = None -> count b (<[id := x]> m) = count b m + b2z (live_of b x).
Proof.
  intros Hn. unfold count. rewrite map_filter_insert. cbn. rewrite delete_id by done. destruct (live_of b x); cbn.
  - rewrite decide_True by done. rewrite map_size_insert_None; [lia|]. apply map_lookup_filter_None. by left.
  - rewrite decide_False by done. lia.
Qed.

Lemma count_delete b m id x : m !! id = Some x -> count b (delete id m) = count b m - b2z (live_of b x).
Proof.
  intros Hx. rewrite <- (insert_delete_id m id x Hx) at 2. rewrite count_fresh; [lia|]. apply lookup_delete_eq.
Qed.

Lemma count_update b m id x y :
  m !! id = Some x -> count b (<[id := y]> m) = count b m - b2z (live_of b x) + b2z (live_of b y).
Proof.
  intros Hx. rewrite <- insert_delete_eq, count_fresh, (count_delete b m id x Hx); [done|]. apply lookup_delete_eq.
Qed.

Lemma count_range b m : 0 <= count b m <= Z.of_nat (size m).
Proof.
  unfold count. pose proof (map_subseteq_size _ _ (map_filter_subseteq (fun kv : Z * sessionStream => live_of b kv.2 = true) m)).
  lia.
Qed.

Lemma count_pos b m id x : m !! id = Some x -> live_of b x = true -> 0 < count b m.
Proof.
  intros Hx Hl. pose proof (count_delete b m id x Hx) as H. rewrite Hl in H. pose proof (count_range b (delete id m)).
  cbn in H. lia.
Qed.

Lemma count_empty b : count b ∅ = 0.
Proof. unfold count. by rewrite map_filter_empty, map_size_empty. Qed.

(** ** Closed streams *)

(** [cl] lists the closed streams of [m]. *)
Definition lists_closed (cl : list Z) (m : gmap Z sessionStream) : Prop :=
  NoDup cl /\ forall id, id ∈ cl <-> exists x, m !! id = Some x /\ is_closed x.(sstate) = true.

Lemma lists_closed_len cl m : lists_closed cl m -> len cl <= Z.of_nat (size m).
Proof.
  intros [Hnd Hc]. unfold len. rewrite <- (size_list_to_set (C := gset Z) cl Hnd), <- (size_dom (D := gset Z)).
  apply inj_le, subseteq_size. intros id Hid. apply elem_of_list_to_set, Hc in Hid as (x & Hx & _).
  by apply elem_of_dom_2 in Hx.
Qed.

(** What eviction and shifting windows may do to the table. *)
Definition forgets (m m' : gmap Z sessionStream) : Prop :=
  forall id, m' !! id = m !! id \/ (m' !! id = None /\ exists x, m !! id = Some x /\ is_closed x.(sstate) = true).

Lemma evict_ok max cl m :
  0 <= max -> len cl <= MaxUint32 -> lists_closed cl m ->
  let (cl', m') := evict max cl m in
  lists_closed cl' m' /\ len cl' <= max /\ forgets m m' /\ (forall b, count b m' = count b m) /\ (size m' <= size m)%nat.
Proof.
  intros Hmax. revert m. induction cl as [|id cl IH]; intros m Hlen Hc; cbn [evict].
  { split; [done|]. split; [done|]. split; [by left | done]. }
  rewrite u32_small by (pose proof (len_nonneg (id :: cl)); lia). destruct (Z.ltb_spec max (len (id :: cl))) as [Hlt|Hge].
  2: { split; [done|]. split; [done|]. split; [by left | done]. }
  destruct Hc as [Hnd Hin]. apply NoDup_cons in Hnd as [Hni Hnd].
  destruct (proj1 (Hin id) ltac:(by apply list_elem_of_here)) as (x & Hx & Hcl). rewrite Hx, Hcl.
  assert (lists_closed cl (delete id m)) as Hc'.
  { split; [done|]. intros j. split.
    - intros Hj. destruct (proj1 (Hin j) ltac:(by apply list_elem_of_further)) as (y & Hy & Hcy). exists y.
      rewrite lookup_delete_ne by congruence. done.
    - intros (y & Hy & Hcy). apply lookup_delete_Some in Hy as [Hne Hy].
      pose proof (proj2 (Hin j) ltac:(by exists y)) as Hj. apply elem_of_cons in Hj as [->|Hj]; [congruence | done]. }
  rewrite len_cons in Hlen. specialize (IH (delete id m) ltac:(lia) Hc'). destruct (evict max cl (delete id m)) as [cl' m'].
  destruct IH as (H1 & H2 & H3 & H4 & H5). split; [done|]. split; [done|]. split; [|split].
  - intros j. destruct (Z.eq_dec id j) as [<-|Hne].
    + right. split; [|eauto]. destruct (H3 id) as [->|[-> _]]; [apply lookup_delete_eq | done].
    + destruct (H3 j) as [E|(E & y & Hy & Hcy)]; rewrite lookup_delete_ne in *; eauto.
  - intros b. rewrite H4, (count_delete b m id x Hx). unfold live_of. rewrite Hcl. cbn. lia.
  - rewrite map_size_delete_Some in H5 by eauto. lia.
Qed.

(** ** Identifiers and states *)

(** Clients open odd streams and servers even ones. *)
Definition local_id (r : Role) (id : Z) : bool := eqb (Z.odd id) (is_client r).

Lemma land1_odd id : (Z.land id 1 =? 1) = Z.odd id.
Proof.
  change 1 with (Z.ones 1) at 1. rewrite Z.land_ones by lia. change (2 ^ 1) with 2. rewrite Zmod_odd. by destruct (Z.odd id).
Qed.

Lemma land1_even id : (Z.land id 1 =? 0) = negb (Z.odd id).
Proof.
  change 1 with (Z.ones 1). rewrite Z.land_ones by lia. change (2 ^ 1) with 2. rewrite Zmod_odd. by destruct (Z.odd id).
Qed.

Lemma local_id_next r id : local_id r (id + 2) = local_id r id.
Proof. unfold local_id. change 2 with (2 * 1). by rewrite Z.odd_add_mul_2. Qed.

(** The transitions of a stream: RFC 9113, figure 2, and the implicit closing
    of skipped identifiers (section 5.1.1). *)
Inductive rfc_step : StreamState -> StreamState -> Prop :=
  | rfc_send_promise : rfc_step StreamIdle StreamReservedLocal
  | rfc_recv_promise : rfc_step StreamIdle StreamReservedRemote
  | rfc_headers : rfc_step StreamIdle StreamOpen
  | rfc_skipped : rfc_step StreamIdle StreamClosed
  | rfc_reserved_send : rfc_step StreamReservedLocal StreamHalfClosedRemote
  | rfc_reserved_recv : rfc_step StreamReservedRemote StreamHalfClosedLocal
  | rfc_local_end : rfc_step StreamOpen StreamHalfClosedLocal
  | rfc_remote_end : rfc_step StreamOpen StreamHalfClosedRemote
  | rfc_close_half_local : rfc_step StreamHalfClosedLocal StreamClosed
  | rfc_close_half_remote : rfc_step StreamHalfClosedRemote StreamClosed
  | rfc_reset_open : rfc_step StreamOpen StreamClosed
  | rfc_reset_reserved_local : rfc_step StreamReservedLocal StreamClosed
  | rfc_reset_reserved_remote : rfc_step StreamReservedRemote StreamClosed.

Create HintDb h2.
#[export] Hint Constructors rfc_step : h2.

Lemma rfc_close s : rtc rfc_step s StreamClosed.
Proof. destruct s; first [reflexivity | apply rtc_once; constructor]. Qed.

Lemma rfc_closed_final s : rtc rfc_step StreamClosed s -> s = StreamClosed.
Proof. intros H. inversion H as [|? y ? Hs]; [done|]. inversion Hs. Qed.

(** ** The invariant *)

(** What the bookkeeping depends on. *)
Definition key (x : sessionStream) : Z * bool * bool := (x.(sid), x.(slocal), is_closed x.(sstate)).

Definition key_live (b : bool) (k : Z * bool * bool) : bool := negb k.2 && eqb k.1.2 b.

Lemma count_key b m : count b m = Z.of_nat (size (filter (fun kv : Z * (Z * bool * bool) => key_live b kv.2 = true) (key <$> m))).
Proof. unfold count. by rewrite map_filter_fmap, map_size_fmap. Qed.

Lemma lists_closed_key cl m m' : key <$> m' = key <$> m -> lists_closed cl m -> lists_closed cl m'.
Proof.
  intros E [Hnd Hin]. split; [done|]. intros id. rewrite Hin.
  assert (forall m1 m2 : gmap Z sessionStream, key <$> m1 = key <$> m2 ->
    (exists x, m1 !! id = Some x /\ is_closed (sstate x) = true) -> exists x, m2 !! id = Some x /\ is_closed (sstate x) = true) as Hgo.
  { intros m1 m2 E' (x & Hx & Hc). apply (f_equal (lookup id)) in E'. rewrite !lookup_fmap, Hx in E'.
    destruct (m2 !! id) as [y|]; [|done]. cbn in E'. injection E' as E1 E2 E3. exists y. split; [done|]. congruence. }
  split; apply Hgo; congruence.
Qed.

Definition windows_ok (x : sessionStream) : Prop :=
  MinInt32 <= x.(sendWindow) <= MaxInt32 /\ MinInt32 <= x.(recvWindow) <= MaxInt32.

Definition id_used (r : Role) (next last id : Z) : bool := if local_id r id then id <? next else id <=? last.

Definition id_ok (r : Role) (next last id : Z) (k : Z * bool * bool) : Prop :=
  k.1.1 = id /\ 0 < id <= MaxInt32 /\ k.1.2 = local_id r id /\ id_used r next last id = true.

Section Table.
Context `{HP : Hpack}.
Implicit Types s : Core.

Definition used s (id : Z) : bool := id_used s.(role) s.(nextLocalStream) s.(lastPeerStream) id.

(** The state of a stream identifier: those no longer remembered are closed. *)
Definition status s (id : Z) : StreamState :=
  match s.(streams) !! id with
  | Some x => x.(sstate)
  | None => if used s id then StreamClosed else StreamIdle
  end.

Definition ids_ok s : Prop :=
  0 < s.(nextLocalStream) <= MaxInt32 + 2 /\ local_id s.(role) s.(nextLocalStream) = true /\
  0 <= s.(lastPeerStream) <= MaxInt32 /\ 0 <= s.(lastProcessedPeerStream) <= MaxInt32.

Definition entries_ok s : Prop :=
  map_Forall (id_ok s.(role) s.(nextLocalStream) s.(lastPeerStream)) (key <$> s.(streams)) /\
  map_Forall (fun _ => windows_ok) s.(streams).

Definition counts_ok s : Prop :=
  lists_closed s.(closedStreams) s.(streams) /\ len s.(closedStreams) <= s.(slimits).(MaxClosedStreams) /\
  Z.of_nat (size s.(streams)) <= s.(slimits).(MaxStreams) /\
  s.(activeLocal) = count true s.(streams) /\ s.(activePeer) = count false s.(streams).

Definition table_limits_ok s : Prop :=
  0 < s.(slimits).(MaxClosedStreams) <= MaxUint32 /\ 0 < s.(slimits).(MaxStreams) <= MaxUint32.

Definition table_ok s : Prop := table_limits_ok s /\ ids_ok s /\ entries_ok s /\ counts_ok s.

Lemma table_stream s id x :
  table_ok s -> s.(streams) !! id = Some x ->
  x.(sid) = id /\ 0 < id <= MaxInt32 /\ x.(slocal) = local_id s.(role) id /\ used s id = true /\ windows_ok x.
Proof.
  intros (_ & _ & [Hi Hw] & _) Hx. specialize (Hw id x Hx). assert ((key <$> streams s) !! id = Some (key x)) as Hk.
  { by rewrite lookup_fmap, Hx. }
  specialize (Hi id (key x) Hk). destruct Hi as (? & ? & ? & ?). done.
Qed.

(** Changing streams in place. *)
Lemma table_map s m :
  table_ok s -> key <$> m = key <$> s.(streams) -> map_Forall (fun _ => windows_ok) m -> table_ok (s <| streams := m |>).
Proof.
  intros (Hl & Hids & [Hi Hw] & (Hc & Hlen & Hsz & Ha & Hp)) E Hm.
  assert (size m = size (streams s)) as Esz by (rewrite <- (map_size_fmap key m), E; apply map_size_fmap).
  split; [exact Hl|]. split; [exact Hids|]. split; [split; [cbn; by rewrite E | exact Hm]|].
  split; [by eapply lists_closed_key|]. split; [exact Hlen|]. split; [cbn; by rewrite Esz|].
  split; cbn; rewrite count_key, E, <- count_key; done.
Qed.

Lemma key_alter (m : gmap Z sessionStream) id f x :
  m !! id = Some x -> key (f x) = key x -> key <$> alter f id m = key <$> m.
Proof.
  intros Hx Hk. apply map_eq. intros j. rewrite !lookup_fmap. destruct (Z.eq_dec id j) as [<-|Hne].
  - rewrite lookup_alter_eq, Hx. cbn. by rewrite Hk.
  - by rewrite lookup_alter_ne.
Qed.

Lemma table_update s id f x :
  table_ok s -> s.(streams) !! id = Some x -> key (f x) = key x -> windows_ok (f x) -> table_ok (updateStream s id f).
Proof.
  intros Ht Hx Hk Hw. apply table_map; [done | by apply (key_alter _ _ _ x)|]. pose proof Ht as (_ & _ & [_ Hws] & _).
  intros j y Hy. apply lookup_alter_Some in Hy as [(<- & z & Hz & ->)|[_ Hy]]; [|by apply (Hws j)].
  rewrite Hx in Hz. by injection Hz as <-.
Qed.

(** Closing a stream. *)
Definition closing (x : sessionStream) : sessionStream := x <| sstate := StreamClosed |>.

Lemma lists_closed_close cl m id x :
  lists_closed cl m -> m !! id = Some x -> is_closed x.(sstate) = false ->
  lists_closed (cl ++ [id]) (<[id := closing x]> m).
Proof.
  intros [Hnd Hin] Hx Hc. assert (id ∉ cl) as Hni.
  { intros Hi. apply Hin in Hi as (y & Hy & Hcy). congruence. }
  split.
  - apply NoDup_app. split; [done|]. split; [|apply NoDup_singleton]. intros j Hj ->%list_elem_of_singleton. done.
  - intros j. rewrite elem_of_app, list_elem_of_singleton, Hin. destruct (Z.eq_dec id j) as [<-|Hne].
    + rewrite lookup_insert_eq. split; [|by right]. intros _. by exists (closing x).
    + rewrite lookup_insert_ne by done. split; [intros [?|?]; [done|congruence] | by left].
Qed.

(** The fields the table consists of. *)
Definition with_table s (m : gmap Z sessionStream) (cl : list Z) (al ap : Z) : Core :=
  s <| streams := m |> <| closedStreams := cl |> <| activeLocal := al |> <| activePeer := ap |>.

Lemma alter_insert m id (f : sessionStream -> sessionStream) x :
  m !! id = Some x -> alter f id m = <[id := f x]> (m : gmap Z sessionStream).
Proof.
  intros Hx. apply map_eq. intros j. destruct (Z.eq_dec id j) as [<-|Hne].
  - by rewrite lookup_alter_eq, lookup_insert_eq, Hx.
  - by rewrite lookup_alter_ne, lookup_insert_ne.
Qed.

Lemma closeStream_id s id : match s.(streams) !! id with Some x => is_closed x.(sstate) = true | None => True end ->
  closeStream s id = s.
Proof. unfold closeStream. destruct (streams s !! id); [by intros ->|done]. Qed.

(** Closing a live stream, with the counters as numbers. *)
Lemma closeStream_eq s id x :
  table_ok s -> s.(streams) !! id = Some x -> is_closed x.(sstate) = false ->
  closeStream s id =
    let r := evict s.(slimits).(MaxClosedStreams) (s.(closedStreams) ++ [id]) (<[id := closing x]> s.(streams)) in
    with_table s r.2 r.1 (s.(activeLocal) - b2z x.(slocal)) (s.(activePeer) - b2z (negb x.(slocal))).
Proof.
  intros (Hl & _ & _ & (_ & _ & Hsz & Ha & Hp)) Hx Hc. unfold closeStream. rewrite Hx, Hc. unfold updateStream.
  rewrite (alter_insert _ _ _ x Hx). fold (closing x). destruct Hl as [_ Hm].
  pose proof (count_range true (streams s)). pose proof (count_range false (streams s)).
  assert (live_of (slocal x) x = true) as Hlive by (unfold live_of; rewrite Hc; by destruct (slocal x)).
  pose proof (count_pos _ _ _ _ Hx Hlive) as Hpos. cbv zeta.
  destruct (slocal x); cbn [b2z negb].
  - assert ((activeLocal s =? 0) = false) as E by lia. cbn. rewrite E. cbn. destruct (evict _ _ _) as [cl m]. cbn.
    unfold with_table. rewrite u32_small, Z.sub_0_r by lia. done.
  - assert ((activePeer s =? 0) = false) as E by lia. cbn. rewrite E. cbn. destruct (evict _ _ _) as [cl m]. cbn.
    unfold with_table. rewrite u32_small, Z.sub_0_r by lia. done.
Qed.

(** Removing closed entries does not change the state of any identifier. *)
Lemma status_forgets s m cl al ap id :
  forgets s.(streams) m -> (forall x, s.(streams) !! id = Some x -> used s id = true) ->
  status (with_table s m cl al ap) id = status s id.
Proof.
  intros Hf Hu. unfold status. change (streams (with_table s m cl al ap)) with m.
  change (used (with_table s m cl al ap) id) with (used s id).
  destruct (Hf id) as [->|(-> & x & Hx & Hc)]; [done|]. rewrite Hx, (Hu x Hx). by destruct (sstate x).
Qed.

Lemma entries_forgets s m cl al ap : forgets s.(streams) m -> entries_ok s -> entries_ok (with_table s m cl al ap).
Proof.
  intros Hf [Hi Hw]. split.
  - intros j k Hk. cbn in Hk. apply Hi. rewrite lookup_fmap in *. by destruct (Hf j) as [<-|[E _]]; [|rewrite E in Hk].
  - intros j x Hx. apply (Hw j). cbn in Hx. by destruct (Hf j) as [<-|[E _]]; [|rewrite E in Hx].
Qed.

Lemma closeStream_table s id :
  table_ok s ->
  table_ok (closeStream s id) /\
  exists m cl al ap, closeStream s id = with_table s m cl al ap.
Proof.
  intros Ht. destruct (streams s !! id) as [x|] eqn:Hx.
  2: { rewrite closeStream_id by by rewrite Hx. split; [done|].
       by exists (streams s), (closedStreams s), (activeLocal s), (activePeer s). }
  destruct (is_closed (sstate x)) eqn:Hc.
  { rewrite closeStream_id by by rewrite Hx. split; [done|].
    by exists (streams s), (closedStreams s), (activeLocal s), (activePeer s). }
  rewrite (closeStream_eq s id x Ht Hx Hc). cbv zeta. split; [|eauto].
  pose proof Ht as (Hl & Hids & [Hi Hw] & (Hcl & Hlen & Hsz & Ha & Hp)). destruct Hl as [HlC HlS].
  pose proof (lists_closed_close _ _ _ _ Hcl Hx Hc) as Hcl'. pose proof (lists_closed_len _ _ Hcl') as Hlen'.
  assert (size (<[id := closing x]> (streams s)) = size (streams s)) as Esz by (apply map_size_insert_Some; eauto).
  pose proof (evict_ok (MaxClosedStreams (slimits s)) (closedStreams s ++ [id]) _ ltac:(lia) ltac:(lia) Hcl') as He.
  destruct (evict _ _ _) as [cl m]. destruct He as (H1 & H2 & H3 & H4 & H5). cbn [fst snd].
  set (s1 := s <| streams := <[id := closing x]> (streams s) |>).
  assert (entries_ok s1) as He1.
  { destruct (table_stream s id x Ht Hx) as (E1 & E2 & E3 & E4 & E5). split.
    - intros j k Hk. cbn in Hk. rewrite fmap_insert in Hk. apply lookup_insert_Some in Hk as [[<- <-]|[_ Hk]]; [|by apply Hi].
      exact (conj E1 (conj E2 (conj E3 E4))).
    - intros j y Hy. cbn in Hy. apply lookup_insert_Some in Hy as [[<- <-]|[_ Hy]]; [exact E5 | by apply (Hw j)]. }
  split; [done|]. split; [exact Hids|]. split.
  { exact (entries_forgets s1 m cl (activeLocal s - b2z (slocal x)) (activePeer s - b2z (negb (slocal x))) H3 He1). }
  split; [done|]. split; [done|]. split; [cbn; lia|].
  cbn. rewrite !H4, !(count_update _ _ _ x) by done. unfold live_of. cbn. rewrite Hc. destruct (slocal x); cbn; lia.
Qed.

(** Closing a live stream changes the state of no other identifier. *)
Lemma closeStream_status_eq s id x j :
  table_ok s -> s.(streams) !! id = Some x -> is_closed x.(sstate) = false ->
  status (closeStream s id) j = if id =? j then StreamClosed else status s j.
Proof.
  intros Ht Hx Hc. rewrite (closeStream_eq s id x Ht Hx Hc). cbv zeta.
  pose proof Ht as ((HlC & HlS) & Hids & [Hi Hw] & (Hcl & Hlen & Hsz & Ha & Hp)).
  pose proof (lists_closed_close _ _ _ _ Hcl Hx Hc) as Hcl'. pose proof (lists_closed_len _ _ Hcl') as Hlen'.
  assert (size (<[id := closing x]> (streams s)) = size (streams s)) as Esz by (apply map_size_insert_Some; eauto).
  pose proof (evict_ok (MaxClosedStreams (slimits s)) (closedStreams s ++ [id]) _ ltac:(lia) ltac:(lia) Hcl') as He.
  destruct (evict _ _ _) as [cl m]. destruct He as (_ & _ & H3 & _ & _). cbn [fst snd].
  set (s1 := s <| streams := <[id := closing x]> (streams s) |>).
  assert (status s1 j = status (with_table s m cl (activeLocal s - b2z (slocal x)) (activePeer s - b2z (negb (slocal x)))) j) as <-.
  { symmetry. apply (status_forgets s1); [exact H3|]. intros y Hy. change (used s1 j) with (used s j). cbn in Hy.
    apply lookup_insert_Some in Hy as [[<- _]|[_ Hy]]; [by eapply table_stream | by eapply table_stream]. }
  unfold status at 1. cbn. destruct (Z.eqb_spec id j) as [<-|Hne].
  - by rewrite lookup_insert_eq.
  - by rewrite lookup_insert_ne.
Qed.

Lemma closeStream_status s id j :
  table_ok s -> rtc rfc_step (status s j) (status (closeStream s id) j).
Proof.
  intros Ht. destruct (streams s !! id) as [x|] eqn:Hx; [|by rewrite closeStream_id by by rewrite Hx].
  destruct (is_closed (sstate x)) eqn:Hc; [by rewrite closeStream_id by by rewrite Hx|].
  rewrite (closeStream_status_eq s id x j Ht Hx Hc). destruct (id =? j); [apply rfc_close | done].
Qed.

(** A stream is closed after [closeStream], if it was ever used. *)
Lemma closeStream_closed s id :
  table_ok s -> used s id = true -> status (closeStream s id) id = StreamClosed.
Proof.
  intros Ht Hu. destruct (streams s !! id) as [x|] eqn:Hx.
  - destruct (is_closed (sstate x)) eqn:Hc.
    + rewrite closeStream_id by by rewrite Hx. unfold status. rewrite Hx. by destruct (sstate x).
    + rewrite (closeStream_status_eq s id x id Ht Hx Hc). by rewrite Z.eqb_refl.
  - rewrite closeStream_id by by rewrite Hx. unfold status. by rewrite Hx, Hu.
Qed.

(** ** New streams *)

Lemma id_used_mono r next next' last last' id :
  next <= next' -> last <= last' -> id_used r next last id = true -> id_used r next' last' id = true.
Proof. unfold id_used. destruct (local_id r id); rewrite ?Z.ltb_lt, ?Z.leb_le; lia. Qed.

Lemma fresh s id : table_ok s -> used s id = false -> s.(streams) !! id = None.
Proof.
  intros Ht Hu. destruct (streams s !! id) as [x|] eqn:Hx; [|done].
  destruct (table_stream s id x Ht Hx) as (_ & _ & _ & Hu' & _). congruence.
Qed.

Lemma streamCount_eq s : table_ok s -> streamCount s = Z.of_nat (size s.(streams)).
Proof. intros ((_ & Hm) & _ & _ & (_ & _ & Hsz & _)). unfold streamCount. apply u32_small. lia. Qed.

(** The table with one more stream, and identifiers used up to it. *)
Definition grown s (next last id : Z) (x : sessionStream) : Core :=
  s <| nextLocalStream := next |> <| lastPeerStream := last |> <| streams := <[id := x]> s.(streams) |>
    <| activeLocal := s.(activeLocal) + b2z x.(slocal) |> <| activePeer := s.(activePeer) + b2z (negb x.(slocal)) |>.

Lemma grown_table s next last id x :
  table_ok s -> used s id = false -> s.(nextLocalStream) <= next <= MaxInt32 + 2 -> local_id s.(role) next = true ->
  s.(lastPeerStream) <= last <= MaxInt32 -> 0 < id <= MaxInt32 -> id_used s.(role) next last id = true ->
  streamCount s < s.(slimits).(MaxStreams) -> x.(sid) = id -> x.(slocal) = local_id s.(role) id ->
  is_closed x.(sstate) = false -> windows_ok x -> table_ok (grown s next last id x).
Proof.
  intros Ht Hu Hn Hln Hlast Hid Hu' Hsz Es El Hc Hw. rewrite streamCount_eq in Hsz by done.
  pose proof (fresh s id Ht Hu) as Hfr. pose proof Ht as (Hl & (Hi1 & Hi2 & Hi3 & Hi4) & [Hi Hws] & (Hcl & Hlen & Hsz' & Ha & Hp)).
  split; [exact Hl|]. split; [split; [cbn; lia|]; split; [done|]; split; [cbn; lia | done]|]. split; [split|].
  - intros j k Hk. cbn in Hk. rewrite fmap_insert in Hk. apply lookup_insert_Some in Hk as [[<- <-]|[_ Hk]].
    + exact (conj Es (conj Hid (conj El Hu'))).
    + destruct (Hi j k Hk) as (? & ? & ? & Hj). split; [done|]. split; [done|]. split; [done|].
      revert Hj. apply id_used_mono; cbn; lia.
  - intros j y Hy. cbn in Hy. apply lookup_insert_Some in Hy as [[<- <-]|[_ Hy]]; [exact Hw | by apply (Hws j)].
  - destruct Hcl as [Hnd Hin]. split; [split; [done|]|].
    + intros j. cbn. rewrite Hin. destruct (Z.eq_dec id j) as [<-|Hne].
      * rewrite lookup_insert_eq, Hfr. split; [by intros (? & ? & _) | intros (y & [= <-] & Hy); congruence].
      * by rewrite lookup_insert_ne.
    + split; [exact Hlen|]. split; [cbn; rewrite map_size_insert_None by done; lia|].
      cbn. rewrite !count_fresh by done. unfold live_of. rewrite Hc. destruct (slocal x); cbn; lia.
Qed.

Lemma grown_status s next last id x j :
  table_ok s -> used s id = false -> s.(nextLocalStream) <= next -> s.(lastPeerStream) <= last ->
  rfc_step StreamIdle x.(sstate) -> rtc rfc_step (status s j) (status (grown s next last id x) j).
Proof.
  intros Ht Hu Hn Hl Hs. unfold status. change (streams (grown s next last id x)) with (<[id := x]> (streams s)).
  destruct (Z.eq_dec id j) as [<-|Hne].
  - rewrite lookup_insert_eq, (fresh s id Ht Hu), Hu. by apply rtc_once.
  - rewrite lookup_insert_ne by done. destruct (streams s !! j); [done|].
    destruct (used s j) eqn:Hj.
    + unfold used in *. cbn. by rewrite (id_used_mono _ _ next _ last _ Hn Hl Hj).
    + destruct (used (grown s next last id x) j); [apply rtc_once; constructor | done].
Qed.

(** An identifier given up without a stream. *)
Lemma skipped_table s next :
  table_ok s -> s.(nextLocalStream) <= next <= MaxInt32 + 2 -> local_id s.(role) next = true ->
  table_ok (s <| nextLocalStream := next |>).
Proof.
  intros (Hl & (Hi1 & Hi2 & Hi3 & Hi4) & [Hi Hw] & Hc) Hn Hln. split; [exact Hl|].
  split; [split; [cbn; lia|]; split; [done|]; by split|]. split; [split|exact Hc]; [|exact Hw].
  intros j k Hk. destruct (Hi j k Hk) as (? & ? & ? & Hj). split; [done|]. split; [done|]. split; [done|].
  revert Hj. apply id_used_mono; cbn; lia.
Qed.

Lemma skipped_status s next j :
  s.(nextLocalStream) <= next -> rtc rfc_step (status s j) (status (s <| nextLocalStream := next |>) j).
Proof.
  intros Hn. unfold status. cbn. destruct (streams s !! j); [done|]. destruct (used s j) eqn:Hj.
  - unfold used in *. cbn. by rewrite (id_used_mono _ _ next _ (lastPeerStream s) _ Hn (Z.le_refl _) Hj).
  - destruct (used (s <| nextLocalStream := next |>) j); [apply rtc_once; constructor | done].
Qed.
End Table.
