(* ===== verification/H2SessionWf.v ===== *)
(** * HTTP/2: the invariant of a session

    [core_ok] collects what holds of an open session between any two steps:
    queues within their limits, windows within 31 bits, the stream table of
    [H2SessionTable], settings already validated, decoded headers within their
    limit.  [evolves] is what a step may do: streams move along [rfc_step], a
    failure is final, and the output grows by whole valid frames.  Both are
    proved of the building blocks of [src/http2/session.go] here and of its
    callbacks and operations in the files that follow. *)

From stdpp Require Import gmap.
From S2P Require Import Prelude H2Frame H2FrameWf H2FrameSpec H2Hpack H2Headers H2Session H2SessionTable.
Open Scope Z_scope.

Definition setting_ok (x : Setting) : Prop := validSetting x = true /\ 0 <= x.(Value) <= MaxUint32.

(** A frame this endpoint may send: valid, and no longer than [m]. *)
Definition sent (m : Z) (f : FrameHeader * list Z) : Prop :=
  validateFrameHeader f.1 = CodeNone /\ f.1.(Length) = len f.2 /\ len f.2 <= m /\ header_typed f.1 /\
  f.1.(StreamID) <= streamMask.

Section Invariant.
Context `{HP : Hpack}.
Implicit Types s : Core.

Definition eventSum (l : list Event) : Z := foldr (fun e t => eventRetainedBytes e + t) 0 l.

Definition event_ok (max : Z) (e : Event) : Prop := listSizeOf e.(evHeaders) <= max.

Definition queue_ok s : Prop :=
  let l := s.(slimits) in
  (l.(MaxQueuedOutputBytes) <= MaxUint32 /\ l.(MaxQueuedEvents) <= MaxUint32 /\ l.(MaxQueuedEventBytes) <= MaxUint32) /\
  len s.(output) <= l.(MaxQueuedOutputBytes) /\ len s.(events) <= l.(MaxQueuedEvents) /\
  s.(eventBytes) = eventSum s.(events) /\ s.(eventBytes) <= l.(MaxQueuedEventBytes) /\
  Forall (event_ok l.(Header).(MaxHeaderListBytes)) s.(events).

Definition flow_ok s : Prop :=
  0 <= s.(connectionSendWindow) <= MaxInt32 /\ 0 <= s.(connectionRecvWindow) <= MaxInt32 /\
  0 <= s.(peerInitialWindow) <= MaxInt32 /\ 0 <= s.(slimits).(InitialWindowSize) <= MaxInt32 /\
  defaultMaxFrameSize <= s.(peerMaxFrame) <= maxFrameSize.

Definition headers_ok s : Prop :=
  s.(hdecoder).(hlimits) = s.(slimits).(Header) /\ decoder_ok s.(hdecoder) /\
  listSizeOf s.(currentHeaders) <= s.(hdecoder).(listSize).

Definition open_ok s : Prop := s.(closed) = false /\ 0 <= s.(prefacePos) <= len ClientPreface.

Definition core_ok s : Prop :=
  open_ok s /\ queue_ok s /\ flow_ok s /\ headers_ok s /\ Forall setting_ok s.(pendingSettings) /\ table_ok s.

(** The limits no operation changes. *)
Definition fixed (l : SessionLimits) : Limits * HeaderLimits * (Z * Z) * (Z * Z * Z) :=
  (l.(Frame), l.(Header), (l.(MaxStreams), l.(MaxClosedStreams)),
   (l.(MaxQueuedOutputBytes), l.(MaxQueuedEventBytes), l.(MaxQueuedEvents))).

Definition evolves (m : Z) s s' : Prop :=
  s'.(role) = s.(role) /\ fixed s'.(slimits) = fixed s.(slimits) /\
  (forall id, rtc rfc_step (status s id) (status s' id)) /\
  (s.(failed) <> None -> s'.(failed) = s.(failed)) /\
  exists frames, Forall (sent m) frames /\ s'.(output) = s.(output) ++ wires frames.

#[export] Instance evolves_refl m : Reflexive (evolves m).
Proof.
  intros s. split; [done|]. split; [done|]. split; [done|]. split; [done|]. exists []. split; [done|]. by rewrite app_nil_r.
Qed.

#[export] Instance evolves_trans m : Transitive (evolves m).
Proof.
  intros s1 s2 s3 (A1 & A2 & A3 & A4 & f & A5 & A6) (B1 & B2 & B3 & B4 & g & B5 & B6).
  split; [congruence|]. split; [congruence|]. split; [intros id; etrans; [apply A3 | apply B3]|]. split.
  - intros Hf. rewrite B4; [by apply A4|]. rewrite A4; done.
  - exists (f ++ g). split; [by apply Forall_app|]. rewrite B6, A6, wires_app. by rewrite app_assoc.
Qed.

(** A step to a state that is again sound. *)
Definition good (m : Z) s s' : Prop := core_ok s' /\ evolves m s s'.

Lemma good_refl m s : core_ok s -> good m s s.
Proof. by split. Qed.

Lemma good_trans m s1 s2 s3 : good m s1 s2 -> good m s2 s3 -> good m s1 s3.
Proof. intros [_ E1] [Hok E2]. split; [done | by etrans]. Qed.

(** A step that changes nothing the invariant reads. *)
Lemma good_skip m s s' : core_ok s' -> evolves m s s' -> good m s s'.
Proof. by split. Qed.

(** ** Queues *)

Lemma retained_range e : 0 <= eventRetainedBytes e <= MaxUint32.
Proof.
  unfold eventRetainedBytes. cbv zeta.
  assert (forall l t, 0 <= t -> 0 <= fold_left (fun t f => u64 (t + len (Name f) + len (FieldValue f) + 32)) l t) as Hf.
  { induction l as [|f l IH]; intros t Ht; [done|]. cbn. apply IH, u64_range. }
  match goal with |- context [MaxUint32 <? ?t] => assert (0 <= t) as Ht by (apply Hf, u64_range); destruct (Z.ltb_spec MaxUint32 t) end;
    unfold MaxUint32 in *; lia.
Qed.

Lemma eventSum_app l e : eventSum (l ++ [e]) = eventSum l + eventRetainedBytes e.
Proof. unfold eventSum. induction l as [|x l IH]; cbn [foldr app]; [lia|]. rewrite IH. lia. Qed.

Lemma eventSum_nonneg l : 0 <= eventSum l.
Proof. unfold eventSum. induction l as [|e l IH]; cbn [foldr]; [lia|]. pose proof (retained_range e). lia. Qed.

Definition event_fits s (e : Event) : Prop := event_ok s.(slimits).(Header).(MaxHeaderListBytes) e.

(** [queueEvent] exactly. *)
Lemma queueEvent_eq s e :
  queue_ok s ->
  queueEvent s e =
    if (len s.(events) <? s.(slimits).(MaxQueuedEvents)) &&
       (eventSum s.(events) + eventRetainedBytes e <=? s.(slimits).(MaxQueuedEventBytes))
    then (s <| events := s.(events) ++ [e] |> <| eventBytes := eventSum s.(events) + eventRetainedBytes e |>, None)
    else (s, Some ErrEventLimit).
Proof.
  intros ((H1 & H2 & H3) & H4 & H5 & H6 & H7 & H8). pose proof (eventSum_nonneg (events s)) as Hn. pose proof (retained_range e) as Hr.
  pose proof (len_nonneg (events s)). unfold queueEvent. rewrite H6 in *.
  rewrite (u32_small (len (events s))), (u32_small (_ - _)) by lia.
  destruct (Z.leb_spec (MaxQueuedEvents (slimits s)) (len (events s))) as [Ha|Ha];
    destruct (Z.ltb_spec (len (events s)) (MaxQueuedEvents (slimits s))); try lia; cbn [orb andb]; [done|].
  destruct (Z.ltb_spec (MaxQueuedEventBytes (slimits s) - eventSum (events s)) (eventRetainedBytes e));
    destruct (Z.leb_spec (eventSum (events s) + eventRetainedBytes e) (MaxQueuedEventBytes (slimits s))); try lia; [done|].
  by rewrite u32_small by lia.
Qed.

Context (m : Z).

Lemma queueEvent_good s e : core_ok s -> event_fits s e -> good m s (queueEvent s e).1.
Proof.
  intros Hok He. pose proof Hok as (Hc & Hq & Hrest). rewrite queueEvent_eq by done.
  destruct (Z.ltb_spec (len (events s)) (MaxQueuedEvents (slimits s))) as [H1|]; [|by apply good_refl]. cbn [andb].
  destruct (Z.leb_spec (eventSum (events s) + eventRetainedBytes e) (MaxQueuedEventBytes (slimits s))) as [H2|]; [|by apply good_refl].
  cbn [fst]. split.
  - split; [done|]. split; [|exact Hrest]. destruct Hq as (Hl & Ho & Hev & Hb & Hbl & Hf).
    split; [exact Hl|]. split; [exact Ho|]. split; [cbn; rewrite len_app; unfold len at 2; cbn; lia|].
    split; [cbn; by rewrite eventSum_app|]. split; [cbn; lia|]. cbn. apply Forall_app. by split; [|constructor].
  - exact (evolves_refl m s).
Qed.

Lemma tryEvent_good s e : core_ok s -> event_fits s e -> good m s (tryEvent s e).
Proof. apply queueEvent_good. Qed.

(** An event without headers always fits. *)
Lemma event_fits_nil s e : core_ok s -> e.(evHeaders) = [] -> event_fits s e.
Proof.
  intros (_ & _ & _ & (E & ((_ & _ & H3 & _) & _) & _) & _) He. unfold event_fits, event_ok. rewrite He, <- E. cbn. lia.
Qed.

(** ** Output *)

Lemma wire_len f : len (wire f) = 9 + len f.2.
Proof. unfold wire. rewrite len_app. reflexivity. Qed.

(** [appendFrameEvenFailed] appends one valid frame, or nothing. *)
Lemma append_cases s h payload :
  header_typed h ->
  (exists e, appendFrameEvenFailed s h payload = (s, Some e)) \/
  (appendFrameEvenFailed s h payload = (s <| output := s.(output) ++ wire (sized h payload, payload) |>, None) /\
   sent (len payload) (sized h payload, payload) /\
   len s.(output) + 9 + len payload <= s.(slimits).(MaxQueuedOutputBytes)).
Proof.
  intros Hh. unfold appendFrameEvenFailed. destruct (reserveOutput s (9 + len payload)) eqn:Hr; cbn [negb]; [|by left; eexists].
  rewrite AppendFrame_eq by done. destruct (appendable h payload) eqn:Ha; [|by left; eexists].
  destruct (frame_is_none_spec (validateFrameHeader (sized h payload))) as [Hv|Hv].
  - right. split; [done|]. unfold reserveOutput in Hr. unfold appendable in Ha. bool_to_prop. split; [|lia].
    destruct Hh as (? & ? & ? & ?). pose proof (len_nonneg payload). rewrite maxFrameSize_eq in *.
    split; [done|]. split; [done|]. split; [cbn; lia|]. split; [|done]. split; [|done]. unfold in_u32. cbn. widths. lia.
  - left. destruct (validateFrameHeader (sized h payload)); [done|..]; by eexists.
Qed.

Lemma sent_weaken n n' f : n <= n' -> sent n f -> sent n' f.
Proof. intros Hn (? & ? & ? & ? & ?). split; [done|]. split; [done|]. split; [lia|]. done. Qed.

Lemma appended_good s f :
  core_ok s -> sent m f -> len s.(output) + 9 + len f.2 <= s.(slimits).(MaxQueuedOutputBytes) ->
  good m s (s <| output := s.(output) ++ wire f |>).
Proof.
  intros (Hc & Hq & Hrest) Hf Hl. split.
  - split; [done|]. split; [|exact Hrest]. destruct Hq as (H1 & H2 & H3). split; [exact H1|]. split; [|exact H3].
    change (len (output s ++ wire f) <= MaxQueuedOutputBytes (slimits s)). rewrite len_app, wire_len. lia.
  - split; [done|]. split; [done|]. split; [intros id; exact (rtc_refl _ _)|]. split; [done|]. exists [f].
    split; [by constructor|]. unfold wires. cbn [map concat]. by rewrite app_nil_r.
Qed.

Lemma appendEven_good s h payload :
  core_ok s -> header_typed h -> len payload <= m -> good m s (appendFrameEvenFailed s h payload).1.
Proof.
  intros Hok Hh Hl. destruct (append_cases s h payload Hh) as [[e ->]|(-> & Hs & Hlen)]; [by apply good_refl|].
  apply appended_good; [done | by eapply sent_weaken | exact Hlen].
Qed.

Lemma appendFrame_good s h payload :
  core_ok s -> header_typed h -> len payload <= m -> good m s (appendFrame s h payload).1.
Proof.
  intros. unfold appendFrame. destruct (ready s); [by apply good_refl | by apply appendEven_good].
Qed.

Lemma frameHeader_typed t fl id : in_u8 t -> in_u8 fl -> in_u32 id -> header_typed (frameHeader t fl id).
Proof. intros. split; [cbn; unfold in_u32, MaxUint32; lia|]. by split_and!. Qed.

Context (Hm : defaultMaxFrameSize <= m).

Lemma small_payload (p : list Z) : len p <= 8 -> len p <= m.
Proof. change defaultMaxFrameSize with 16384 in Hm. lia. Qed.

Lemma windowUpdate_good s id inc : core_ok s -> in_u32 id -> good m s (appendWindowUpdate s id inc).1.
Proof.
  intros Hok Hid. unfold appendWindowUpdate. destruct (_ || _); [by apply good_refl|].
  apply appendEven_good; [done | apply frameHeader_typed; [done | done | exact Hid] | by apply small_payload].
Qed.

(** ** Errors *)

Lemma connectionErrorE_good s c reason : core_ok s -> good m s (connectionErrorE s c reason).1.
Proof.
  intros Hok. unfold connectionErrorE. destruct (failed s) eqn:Hf; [by apply good_refl|]. cbv zeta.
  set (s1 := s <| failed := _ |> <| goAwaySent := true |>). cbn [fst].
  assert (good m s s1) as H1.
  { split; [exact Hok|]. split; [done|]. split; [done|]. split; [intros id; exact (rtc_refl _ _)|].
    split; [congruence|]. exists []. split; [done|]. cbn. by rewrite app_nil_r. }
  eapply good_trans; [exact H1|]. apply appendEven_good; [apply H1 | by apply frameHeader_typed | by apply small_payload].
Qed.

Lemma connectionError_good s c reason : core_ok s -> good m s (connectionError s c reason).
Proof. apply connectionErrorE_good. Qed.

Lemma closeStream_good s id : core_ok s -> good m s (closeStream s id).
Proof.
  intros (Hc & Hq & Hf & Hh & Hp & Ht). destruct (closeStream_table s id Ht) as [Ht' (t & cl & al & ap & E)].
  pose proof (fun j => closeStream_status s id j Ht) as Hs. rewrite E in *. split.
  - split; [done|]. split; [exact Hq|]. split; [exact Hf|]. split; [exact Hh|]. split; [exact Hp | exact Ht'].
  - split; [done|]. split; [done|]. split; [exact Hs|]. split; [done|]. exists []. split; [done|]. cbn. by rewrite app_nil_r.
Qed.

Lemma streamError_good s id c : core_ok s -> in_u32 id -> good m s (streamError s id c).
Proof.
  intros Hok Hid. unfold streamError. pose proof (closeStream_good s id Hok) as H1. cbv zeta.
  eapply good_trans; [exact H1|]. set (s1 := closeStream s id) in *.
  pose proof (appendFrame_good s1 (frameHeader FrameRSTStream 0 id) (putUint32 c) (proj1 H1)
    ltac:(by apply frameHeader_typed) ltac:(by apply small_payload)) as H2.
  eapply good_trans; [exact H2|]. apply tryEvent_good; [apply H2|]. apply event_fits_nil; [apply H2 | done].
Qed.

(** ** Streams *)

Lemma core_stream s id x :
  core_ok s -> s.(streams) !! id = Some x ->
  x.(sid) = id /\ 0 < id <= MaxInt32 /\ x.(slocal) = local_id s.(role) id /\ used s id = true /\ windows_ok x.
Proof. intros (_ & _ & _ & _ & _ & Ht). by apply table_stream. Qed.

(** Streams changed in place. *)
Lemma map_good s t :
  core_ok s -> key <$> t = key <$> s.(streams) -> map_Forall (fun _ => windows_ok) t ->
  (forall id x y, s.(streams) !! id = Some x -> t !! id = Some y -> rtc rfc_step x.(sstate) y.(sstate)) ->
  good m s (s <| streams := t |>).
Proof.
  intros (Hc & Hq & Hf & Hh & Hp & Ht) Hk Hw Hs. split.
  - split; [done|]. split; [exact Hq|]. split; [exact Hf|]. split; [exact Hh|]. split; [exact Hp|]. by apply table_map.
  - split; [done|]. split; [done|]. split.
    + intros id. unfold status. change (used (s <| streams := t |>) id) with (used s id). cbn.
      apply (f_equal (lookup id)) in Hk. rewrite !lookup_fmap in Hk. specialize (Hs id).
      destruct (streams s !! id), (t !! id); try done. by eapply Hs.
    + split; [done|]. exists []. split; [done|]. cbn. by rewrite app_nil_r.
Qed.

(** An in-place change that keeps the stream's place in the table. *)
Definition adjusts (x y : sessionStream) : Prop := key y = key x /\ windows_ok y /\ rtc rfc_step x.(sstate) y.(sstate).

Lemma update_good s id f :
  core_ok s -> (forall x, s.(streams) !! id = Some x -> adjusts x (f x)) -> good m s (updateStream s id f).
Proof.
  intros Hok Hx. apply map_good; [done|..].
  - destruct (streams s !! id) as [x|] eqn:E.
    + by apply (key_alter _ _ _ x), Hx.
    + f_equal. apply map_eq. intros j. rewrite lookup_alter. destruct (decide (id = j)) as [<-|]; [by rewrite E|done].
  - pose proof Hok as (_ & _ & _ & _ & _ & (_ & _ & [_ Hw] & _)). intros j y Hy.
    apply lookup_alter_Some in Hy as [(<- & z & Hz & ->)|[_ Hy]]; [by apply Hx | by apply (Hw j)].
  - intros j x y Hj Hy. apply lookup_alter_Some in Hy as [(<- & z & Hz & ->)|[_ Hy]].
    + rewrite Hj in Hz. injection Hz as <-. by apply Hx.
    + rewrite Hj in Hy. by injection Hy as <-.
Qed.

Lemma core_windows s id x : core_ok s -> s.(streams) !! id = Some x -> windows_ok x.
Proof. intros Hok Hx. by destruct (core_stream s id x Hok Hx) as (_ & _ & _ & _ & ?). Qed.

Lemma adjust_state s id x t :
  core_ok s -> s.(streams) !! id = Some x -> is_closed t = is_closed x.(sstate) -> rfc_step x.(sstate) t ->
  forall y, s.(streams) !! id = Some y -> adjusts y (y <| sstate := t |>).
Proof.
  intros Hok Hx Hc Hs y Hy. rewrite Hx in Hy. injection Hy as <-. split; [unfold key; cbn; by rewrite Hc|].
  split; [by apply (core_windows s id x) | by apply rtc_once].
Qed.

Lemma localEnd_good s id : core_ok s -> good m s (localEnd s id).
Proof.
  intros Hok. unfold localEnd. destruct (streams s !! id) as [x|] eqn:Hx; [|by apply good_refl].
  destruct (sstate x) eqn:Hs; try by apply good_refl.
  - apply update_good; [done|]. apply (adjust_state s id x); rewrite ?Hs; [done | done | done | constructor].
  - apply update_good; [done|]. apply (adjust_state s id x); rewrite ?Hs; [done | done | done | constructor].
  - by apply closeStream_good.
Qed.

(** The highest stream processed is the identifier of a stream. *)
Lemma processed_good s id :
  core_ok s -> 0 <= id <= MaxInt32 ->
  good m s (s <| lastProcessedPeerStream := maxSessionUint32 s.(lastProcessedPeerStream) id |>).
Proof.
  intros (Hc & Hq & Hf & Hh & Hp & (Hl & (I1 & I2 & I3 & I4) & He & Hn)) Hid. split; [|exact (evolves_refl m s)].
  split; [done|]. split; [exact Hq|]. split; [exact Hf|]. split; [exact Hh|]. split; [exact Hp|].
  split; [exact Hl|]. split; [|by split]. split; [exact I1|]. split; [exact I2|]. split; [exact I3|].
  cbn. unfold maxSessionUint32. by destruct (_ <? _).
Qed.

Lemma remoteEnd_good s id : core_ok s -> good m s (remoteEnd s id).
Proof.
  intros Hok. unfold remoteEnd. destruct (streams s !! id) as [x|] eqn:Hx; [|by apply good_refl].
  destruct (core_stream s id x Hok Hx) as (Eid & Hid & _).
  destruct (_ && _); [apply streamError_good; [done|unfold in_u32; unfold MaxInt32, MaxUint32 in *; lia]|]. cbv zeta.
  set (s1 := match sstate x with StreamOpen => _ | _ => _ end).
  assert (good m s s1) as H1.
  { unfold s1. destruct (sstate x) eqn:Hs; try by apply good_refl.
    - apply update_good; [done|]. apply (adjust_state s id x); rewrite ?Hs; [done | done | done | constructor].
    - apply update_good; [done|]. apply (adjust_state s id x); rewrite ?Hs; [done | done | done | constructor].
    - by apply closeStream_good. }
  destruct (is_closed (sstate x)); [exact H1|]. eapply good_trans; [exact H1|].
  assert (good m s1 (tryEvent s1 (event EventStreamEnd (sid x)))) as H2.
  { apply tryEvent_good; [apply H1|]. apply event_fits_nil; [apply H1 | done]. }
  eapply good_trans; [exact H2|]. apply processed_good; [apply H2 | lia].
Qed.

Lemma handleProtocolError_good s err :
  core_ok s -> match err with ErrProtocol e => in_u32 e.(peStreamID) | _ => True end -> good m s (handleProtocolError s err).
Proof.
  intros Hok He. unfold handleProtocolError. destruct err; try by apply connectionError_good.
  destruct (_ =? 0); [by apply connectionError_good | by apply streamError_good].
Qed.
End Invariant.
