(* ===== verification/H2SessionInbound.v ===== *)
(** * HTTP/2: received frames keep the session sound

    Every callback [src/http2/session.go] installs in the frame parser takes a
    sound session to a sound session, along [evolves]; through the contract of
    [H2FrameHost] the whole of [Feed] does, on any input. *)

From stdpp Require Import gmap.
From S2P Require Import Prelude H2Frame H2FrameWf H2FrameSpec H2FrameHost H2Hpack H2Headers H2Session H2SessionTable H2SessionWf.
Open Scope Z_scope.

Ltac ids := unfold in_u32, streamMask, MaxInt32, MaxUint32 in *; lia.

(** Split the condition a step branches on. *)
Ltac head_if H := match goal with |- good _ _ (if ?b then _ else _) => destruct b eqn:H end.

Section Inbound.
Context `{HP : Hpack} `{RO : !RangeOrder} `{HF : !HpackFits} (m : Z) (Hm : defaultMaxFrameSize <= m).
Implicit Types s : Core.

(** ** Opening streams *)

Lemma peer_open_good s id st :
  core_ok s -> s.(lastPeerStream) < id <= MaxInt32 -> local_id s.(role) id = false ->
  streamCount s < s.(slimits).(MaxStreams) -> rfc_step StreamIdle st -> is_closed st = false ->
  good m s (s <| streams := <[id := newStream id st false s.(peerInitialWindow) s.(slimits).(InitialWindowSize)]> s.(streams) |>
              <| activePeer := u32 (s.(activePeer) + 1) |> <| lastPeerStream := id |>).
Proof.
  intros Hok Hid Hl Hsz Hst Hc. pose proof Hok as (Hcl & Hq & Hf & Hh & Hp & Ht).
  pose proof Ht as (Hlim & (I1 & I2 & I3 & I4) & _ & (_ & _ & Hs & _ & Hap)). destruct Hlim as [_ HS].
  pose proof (count_range false (streams s)). set (x := newStream id st false _ _).
  assert (u32 (activePeer s + 1) = activePeer s + 1) as ->.
  { rewrite streamCount_eq in Hsz by done. apply u32_small. lia. }
  assert (used s id = false) as Hu by (unfold used, id_used; rewrite Hl; apply Z.leb_gt; lia).
  assert (windows_ok x) as Hw.
  { destruct Hf as (_ & _ & W1 & W2 & _). unfold windows_ok, MinInt32. cbn. lia. }
  assert (grown s (nextLocalStream s) id id x =
          s <| streams := <[id := x]> s.(streams) |> <| activePeer := s.(activePeer) + 1 |> <| lastPeerStream := id |>) as <-.
  { unfold grown. cbn. by rewrite Z.add_0_r. }
  split.
  - split; [done|]. split; [exact Hq|]. split; [exact Hf|]. split; [exact Hh|]. split; [exact Hp|].
    apply grown_table; try done; [lia | lia | lia |]. unfold id_used. rewrite Hl. apply Z.leb_le. lia.
  - split; [done|]. split; [done|]. split; [intros j; apply grown_status; try done; lia|].
    split; [done|]. exists []. split; [done|]. cbn. by rewrite app_nil_r.
Qed.

Definition err_fits (err : SessionError) : Prop :=
  match err with ErrProtocol e => in_u32 e.(peStreamID) | _ => True end.

(** The result of an operation that may return an error. *)
Definition step_ok s (r : Core * option SessionError) : Prop :=
  good m s r.1 /\ forall err, r.2 = Some err -> err_fits err.

Lemma step_ok_err s e : core_ok s -> err_fits e -> step_ok s (s, Some e).
Proof. intros Hok He. split; [by apply good_refl|]. by intros ? [= <-]. Qed.

Lemma openInbound_ok s id : core_ok s -> 0 <= id <= streamMask -> step_ok s (openInbound s id).
Proof.
  intros Hok Hid. unfold openInbound. destruct (streams s !! id) as [x|].
  - destruct (is_closed _); [apply step_ok_err; [done|]; cbn; ids|].
    destruct (_ || _); [apply step_ok_err; [done|]; cbn; ids|]. split; [by apply good_refl | done].
  - destruct (peerMayOpen s id) eqn:Hpeer; cbn [negb]; [|apply step_ok_err; [done|]; cbn; ids].
    destruct (_ <=? _); [apply step_ok_err; [done|]; cbn; ids|].
    destruct (Z.leb_spec (MaxStreams (slimits s)) (streamCount s)); [apply step_ok_err; [done|]; cbn; ids|].
    split; [|done]. cbn [fst]. unfold peerMayOpen in Hpeer.
    destruct ((id =? 0) || (id <=? lastPeerStream s)) eqn:E; [done|]. bool_to_prop.
    apply peer_open_good; [done | ids | | done | constructor | done]. rewrite land1_odd, land1_even in Hpeer. unfold local_id.
    destruct (role s), (Z.odd id); cbn in *; congruence || done.
Qed.

(** Fields of the session the invariant does not read. *)
Ltac skip := apply good_skip; [assumption | exact (evolves_refl m _)].

(** Starting a header block. *)
Lemma begin_block_good s d e :
  core_ok s -> BeginBlock s.(hdecoder) = (d, e) -> good m s (s <| currentHeaders := [] |> <| hdecoder := d |>).
Proof.
  intros (Hcl & Hq & Hf & (E & (D1 & D2 & D3) & Hh) & Hp & Ht) Hb. split; [|exact (evolves_refl m s)].
  split; [done|]. split; [exact Hq|]. split; [exact Hf|]. split; [|by split].
  unfold BeginBlock in Hb. destruct (active (hdecoder s)); injection Hb as <- <-.
  - split; [exact E|]. split; [done|]. cbn. lia.
  - split; [exact E|]. pose proof D1 as (_ & _ & L1 & L2). split; [|cbn; lia]. split; [exact D1|]. split; [cbn; lia|]. intros _. cbn. lia.
Qed.

Lemma beginInboundHeaders_ok s id fin :
  core_ok s -> 0 <= id <= streamMask -> step_ok s (beginInboundHeaders s id fin).
Proof.
  intros Hok Hid. unfold beginInboundHeaders. destruct (openInbound_ok s id Hok Hid) as [H1 He].
  destruct (openInbound s id) as [s1 [e|]]; cbn in H1, He; [by split; [|intros ? [= <-]; apply He]|]. clear He.
  pose proof H1 as [Hok1 _].
  destruct (streams s1 !! id) as [x|] eqn:Hx; [|by split].
  destruct (_ && _); [split; [done|]; intros ? [= <-]; cbn; ids|]. cbv zeta.
  set (s2 := match sstate x with StreamReservedRemote => _ | _ => _ end).
  assert (good m s1 s2) as H2.
  { unfold s2. destruct (sstate x) eqn:Hs; try by apply good_refl.
    apply update_good; [done|]. apply (adjust_state s1 id x); rewrite ?Hs; [done | done | done | constructor]. }
  set (s3 := s2 <| currentHeaderStream := id |> <| currentHeaderEventStream := id |> <| currentHeaderEnd := fin |>
                <| currentHeaderTrailer := receivedHeaders x |> <| currentHeaderPush := false |>).
  pose proof (good_trans m _ _ _ H1 H2) as H3. assert (core_ok s3) as Hok3 by exact (proj1 H2).
  match goal with |- context [BeginBlock ?d] => change d with (hdecoder s3) end.
  destruct (BeginBlock (hdecoder s3)) as [d e] eqn:E. split; [|intros err; destruct e; by intros [= <-]].
  cbn [fst]. eapply good_trans; [exact H3|]. pose proof (begin_block_good s3 d e Hok3 E) as H4.
  split; [exact (proj1 H4) | exact (proj2 H4)].
Qed.

Lemma step_ok_handle s r :
  step_ok s r -> good m s (match r with (s', Some err) => handleProtocolError s' err | (s', None) => s' end).
Proof.
  destruct r as [s' [e|]]; intros [H1 He]; [|done]. eapply good_trans; [exact H1|].
  apply handleProtocolError_good; [done | apply H1 | by apply (He e)].
Qed.

Lemma beginData_good s h : core_ok s -> header_fine h -> good m s (beginData s h).
Proof.
  intros Hok (_ & HL & Hid). unfold beginData.
  assert (in_u32 (StreamID h)) as Hin by ids. rewrite maxFrameSize_eq in HL.
  destruct (streams s !! StreamID h) as [x|] eqn:Hx; [|by apply streamError_good].
  destruct (_ || _); [by apply streamError_good|]. destruct (Z.ltb_spec (connectionRecvWindow s) (Length h)); [by apply connectionError_good|].
  destruct (Z.ltb_spec (recvWindow x) (Length h)); [by apply streamError_good|].
  pose proof Hok as (Hcl & Hq & (F1 & F2 & F3) & Hrest).
  set (s1 := s <| connectionRecvWindow := _ |>). assert (good m s s1) as H1.
  { split; [|exact (evolves_refl m s)]. split; [done|]. split; [exact Hq|]. split; [|exact Hrest]. split; [exact F1|].
    split; [cbn; lia | exact F3]. }
  eapply good_trans; [exact H1|]. apply update_good; [apply H1|]. intros y Hy. change (streams s1) with (streams s) in Hy.
  rewrite Hx in Hy. injection Hy as <-. destruct (core_windows s _ x Hok Hx) as [W1 W2].
  split; [done|]. split; [|done]. split; [exact W1|]. cbn. unfold MinInt32 in *. lia.
Qed.

Lemma onFrameBegin_good s h : core_ok s -> header_fine h -> good m s (onFrameBegin h s).
Proof.
  intros Hok Hh. unfold onFrameBegin. destruct (is_failed s); [by apply good_refl|]. cbv zeta.
  set (s1 := s <| currentFrame := h |>). assert (core_ok s1) as Hok1 by exact Hok.
  assert (good m s s1) as H1 by (split; [done | exact (evolves_refl m s)]).
  eapply good_trans; [exact H1|]. destruct (_ && _); [by apply connectionError_good|].
  destruct (_ =? FrameHeaders).
  { apply step_ok_handle, beginInboundHeaders_ok; [done | apply Hh]. }
  destruct (_ =? FrameData); [by apply beginData_good|].
  destruct (_ =? PriorityUpdateType); [split; [exact Hok1 | exact (evolves_refl m s1)] | by apply good_refl].
Qed.

(** ** Data and header blocks *)

(** A change of a stream that touches neither its state nor its windows. *)
Lemma note_good s id f :
  core_ok s -> (forall x, (f x).(sid) = x.(sid) /\ (f x).(slocal) = x.(slocal) /\ (f x).(sstate) = x.(sstate) /\
    (f x).(sendWindow) = x.(sendWindow) /\ (f x).(recvWindow) = x.(recvWindow)) ->
  good m s (updateStream s id f).
Proof.
  intros Hok Hf. apply update_good; [done|]. intros x Hx. destruct (Hf x) as (E1 & E2 & E3 & E4 & E5).
  split; [unfold key; by rewrite E1, E2, E3|]. split; [|by rewrite E3]. unfold windows_ok. rewrite E4, E5.
  by apply (core_windows s id x).
Qed.

Lemma queue_or_fail_good s e c :
  core_ok s -> event_fits s e ->
  good m s (match queueEvent s e with (s', None) => s' | (s', Some err) => connectionError s' c (errorString err) end).
Proof.
  intros Hok He. pose proof (queueEvent_good m s e Hok He) as H1. destruct (queueEvent s e) as [s' [err|]]; [|done].
  eapply good_trans; [exact H1|]. apply connectionError_good; [done | apply H1].
Qed.

Lemma onData_good s id data fin : core_ok s -> 0 < id <= streamMask -> good m s (onData id data fin s).
Proof.
  intros Hok Hid. unfold onData. destruct (_ || _); [by apply good_refl|].
  destruct (streams s !! id) as [x|]; [|by apply good_refl].
  destruct (_ && _); [apply streamError_good; [done..|ids]|]. cbv zeta.
  set (s1 := updateStream s id _). assert (good m s s1) as H1 by by apply note_good.
  eapply good_trans; [exact H1|]. apply queue_or_fail_good; [apply H1 | apply event_fits_nil; [apply H1 | done]].
Qed.

Lemma onHeaderBlock_good s id fragment : core_ok s -> good m s (onHeaderBlock id fragment s).
Proof.
  intros Hok. unfold onHeaderBlock. destruct (_ || _); [by apply good_refl|].
  pose proof Hok as (Hcl & Hq & Hf & (E & Hd & Hh) & Hp & Ht).
  pose proof (DWrite_ok (hdecoder s) fragment Hd) as Hw. destruct (DWrite (hdecoder s) fragment) as [[d fs] [n err]].
  destruct Hw as (Hd' & (W1 & W2 & W3 & W4 & _) & _). cbv zeta.
  set (s1 := s <| hdecoder := d |> <| currentHeaders := _ |>). assert (good m s s1) as H1.
  { split; [|exact (evolves_refl m s)]. split; [done|]. split; [exact Hq|]. split; [exact Hf|]. split; [|by split].
    split; [cbn; congruence|]. split; [exact Hd'|]. cbn. rewrite listSizeOf_app. lia. }
  destruct err; [|exact H1]. eapply good_trans; [exact H1|]. apply connectionError_good; [done | apply H1].
Qed.

Lemma current_fits s e : core_ok s -> e.(evHeaders) = s.(currentHeaders) -> event_fits s e.
Proof.
  intros (_ & _ & _ & (E & (_ & D2 & _) & Hh) & _) He. unfold event_fits, event_ok. rewrite He, <- E. lia.
Qed.

Lemma end_block_good s d e : core_ok s -> EndBlock s.(hdecoder) = (d, e) -> good m s (s <| hdecoder := d |>).
Proof.
  intros (Hcl & Hq & Hf & (E & (D1 & D2 & D3) & Hh) & Hp & Ht) Hb. split; [|exact (evolves_refl m s)].
  split; [done|]. split; [exact Hq|]. split; [exact Hf|]. split; [|by split]. unfold EndBlock in Hb.
  destruct (active (hdecoder s)); cbn [negb] in Hb; [|by injection Hb as <- <-].
  destruct (DecoderClose _) as [x err]. injection Hb as <- <-. split; [exact E|]. split; [|exact Hh].
  split; [exact D1|]. split; [exact D2 | exact D3].
Qed.

Lemma takeHeaders_notes h trailer x :
  (takeHeaders h trailer x).(sid) = x.(sid) /\ (takeHeaders h trailer x).(slocal) = x.(slocal) /\
  (takeHeaders h trailer x).(sstate) = x.(sstate) /\ (takeHeaders h trailer x).(sendWindow) = x.(sendWindow) /\
  (takeHeaders h trailer x).(recvWindow) = x.(recvWindow).
Proof. unfold takeHeaders. by destruct trailer. Qed.

Lemma onHeaderBlockEnd_good s id fin : core_ok s -> good m s (onHeaderBlockEnd id fin s).
Proof.
  intros Hok. unfold onHeaderBlockEnd. destruct (_ || _); [by apply good_refl|].
  destruct (EndBlock (hdecoder s)) as [d err] eqn:E. cbv zeta. set (s1 := s <| hdecoder := d |>).
  assert (good m s s1) as H1 by by eapply end_block_good. eapply good_trans; [exact H1|]. clear E. destruct H1 as [Hok1 _].
  generalize dependent s1. clear s Hok. intros s Hok.
  destruct err; [by apply connectionError_good|]. set (target := currentHeaderEventStream s).
  destruct (streams s !! target) as [x|] eqn:Hx; [|by apply good_refl].
  destruct (core_stream s target x Hok Hx) as (_ & Hid & _). assert (in_u32 target) as Hin by ids.
  destruct (negb _); [by apply streamError_good|]. cbv zeta.
  set (e := event _ target <| evEndStream := fin |> <| evTrailer := _ |> <| evHeaders := currentHeaders s |>).
  pose proof (queueEvent_good m s e Hok ltac:(by apply current_fits)) as H1.
  destruct (queueEvent s e) as [s1 [e1|]]; cbn in H1.
  { eapply good_trans; [exact H1|]. apply connectionError_good; [done | apply H1]. }
  eapply good_trans; [exact H1|]. destruct H1 as [Hok1 _]. set (s2 := if currentHeaderPush s1 then _ else _).
  assert (good m s1 s2) as H2.
  { unfold s2. destruct (currentHeaderPush s1); [by apply note_good|]. destruct (negb _).
    - set (s3 := updateStream s1 target _). assert (good m s1 s3) as H3 by (apply note_good; [done | intros y; apply takeHeaders_notes]).
      destruct fin; [|done]. eapply good_trans; [exact H3|]. by apply remoteEnd_good; [|apply H3].
    - destruct fin; [by apply streamError_good | by apply good_refl]. }
  eapply good_trans; [exact H2|]. destruct H2 as [Hok2 _]. split; [|exact (evolves_refl m s2)].
  destruct Hok2 as (Hcl & Hq & Hf & (E & (D1 & D2 & D3) & Hh) & Hp & Ht).
  split; [done|]. split; [exact Hq|]. split; [exact Hf|]. split; [|by split]. split; [exact E|].
  split; [by split|]. cbn. lia.
Qed.

Lemma event_good s e : core_ok s -> e.(evHeaders) = [] -> good m s (tryEvent s e).
Proof. intros Hok He. apply tryEvent_good; [done | by apply event_fits_nil]. Qed.

Lemma onPriority_good s id pr : core_ok s -> good m s (onPriority id pr s).
Proof. intros Hok. unfold onPriority. destruct (is_failed s); [by apply good_refl | by apply event_good]. Qed.

Lemma onRSTStream_good s id c : core_ok s -> good m s (onRSTStream id c s).
Proof.
  intros Hok. unfold onRSTStream. destruct (streams s !! id).
  - pose proof (closeStream_good m s id Hok) as H1. eapply good_trans; [exact H1|]. by apply event_good; [apply H1|].
  - destruct (_ <? _); [by apply connectionError_good | by apply good_refl].
Qed.

Lemma pending_good s l : core_ok s -> Forall setting_ok l -> good m s (s <| pendingSettings := l |>).
Proof.
  intros (Hcl & Hq & Hf & Hh & Hp & Ht) Hl. split; [|exact (evolves_refl m s)].
  split; [done|]. split; [exact Hq|]. split; [exact Hf|]. split; [exact Hh|]. by split.
Qed.

Lemma onSetting_good s x : core_ok s -> setting_ok x -> good m s (onSetting x s).
Proof.
  intros Hok Hx. apply pending_good; [done|]. apply Forall_app. split; [apply Hok | by constructor].
Qed.

(** ** Settings *)

(** The windows after the loop: the same streams in the same states. *)
Lemma shiftSendWindows_ok order change (t : gmap Z sessionStream) :
  map_Forall (fun _ => windows_ok) t ->
  let t' := (shiftSendWindows order change t).1 in
  key <$> t' = key <$> t /\ map_Forall (fun _ => windows_ok) t' /\
  forall id x y, t !! id = Some x -> t' !! id = Some y -> y.(sstate) = x.(sstate).
Proof.
  assert (forall u : gmap Z sessionStream, map_Forall (fun _ => windows_ok) u -> key <$> u = key <$> u /\
    map_Forall (fun _ => windows_ok) u /\ forall id x y, u !! id = Some x -> u !! id = Some y -> y.(sstate) = x.(sstate)) as Hid.
  { intros u Hu. split; [done|]. split; [done|]. congruence. }
  revert t. induction order as [|id order IH]; intros t Ht; cbn [shiftSendWindows]; [by apply Hid|].
  destruct (t !! id) as [x|] eqn:Hx; [|by apply IH]. destruct (is_closed _); [by apply IH|]. cbv zeta.
  destruct (Z.ltb_spec MaxInt32 (sendWindow x + change)); cbn [orb]; [by apply Hid|].
  destruct (Z.ltb_spec (sendWindow x + change) MinInt32); [by apply Hid|].
  set (y := x <| sendWindow := _ |>). assert (map_Forall (fun _ => windows_ok) (<[id := y]> t)) as Hy.
  { apply map_Forall_insert_2; [|done]. split; [cbn; lia | apply (Ht id x Hx)]. }
  specialize (IH _ Hy). cbv zeta in IH. destruct (shiftSendWindows order change (<[id := y]> t)) as [t' ok]. cbn in *.
  destruct IH as (I1 & I2 & I3). split; [|split; [done|]].
  - rewrite I1. rewrite fmap_insert. apply insert_id. rewrite lookup_fmap, Hx. done.
  - intros j a b Ha Hb. destruct (Z.eq_dec id j) as [<-|Hne].
    + rewrite (I3 id y b) by (rewrite ?lookup_insert_eq; done). rewrite Hx in Ha. by injection Ha as <-.
    + apply (I3 j a b); [by rewrite lookup_insert_ne | done].
Qed.

Lemma flow_good s s' :
  core_ok s -> flow_ok s' -> s' = s <| connectionSendWindow := s'.(connectionSendWindow) |>
    <| connectionRecvWindow := s'.(connectionRecvWindow) |> <| peerInitialWindow := s'.(peerInitialWindow) |>
    <| peerMaxFrame := s'.(peerMaxFrame) |> -> good m s s'.
Proof.
  intros (Hcl & Hq & Hf & Hh & Hp & Ht) Hf' E. rewrite E in *. split; [|exact (evolves_refl m s)].
  split; [done|]. split; [exact Hq|]. split; [exact Hf'|]. split; [exact Hh|]. by split.
Qed.

Lemma applyPeerSetting_ok s x : core_ok s -> setting_ok x -> step_ok s (applyPeerSetting s x).
Proof.
  intros Hok [Hv Hr]. unfold applyPeerSetting. cbv zeta.
  assert (forall s', core_ok s' -> evolves m s s' -> step_ok s (s', None)) as Hgo by (intros; split; [by split | done]).
  assert (forall c reason, step_ok s (s, protocolError 0 c reason)) as Herr by (intros; apply step_ok_err; [done|]; cbn; ids).
  destruct (Z.eqb_spec (ID x) SettingHeaderTableSize) as [Ei|_]; [apply Hgo; [exact Hok | exact (evolves_refl m s)]|].
  destruct (Z.eqb_spec (ID x) SettingEnablePush) as [Ei|_].
  { destruct (is_client _); [apply Herr | apply Hgo; [exact Hok | exact (evolves_refl m s)]]. }
  destruct (Z.eqb_spec (ID x) SettingMaxConcurrentStreams) as [Ei|_]; [apply Hgo; [exact Hok | exact (evolves_refl m s)]|].
  destruct (Z.eqb_spec (ID x) SettingInitialWindowSize) as [Ei|_].
  { pose proof Hok as (_ & _ & Hf & _ & _ & (_ & _ & [_ Hw] & _)).
    pose proof (shiftSendWindows_ok (rangeOrder s) (Value x - peerInitialWindow s) (streams s) Hw) as (I1 & I2 & I3).
    destruct (shiftSendWindows _ _ _) as [t ok]. cbn in I1, I2, I3. set (s1 := s <| streams := t |>).
    assert (good m s s1) as H1.
    { apply map_good; [done..|]. intros id a b Ha Hb. by rewrite (I3 id a b). }
    destruct ok; [|split; [exact H1|]; intros ? [= <-]; cbn; ids]. split; [|done]. cbn [fst].
    eapply good_trans; [exact H1|]. apply flow_good; [apply H1 | | done].
    assert (Value x <= MaxInt32). { unfold validSetting in Hv. rewrite Ei in Hv. cbn in Hv. bool_to_prop. ids. }
    destruct Hf as (F1 & F2 & F3 & F4 & F5). split; [done|]. split; [done|]. split; [cbn; lia|]. by split. }
  destruct (Z.eqb_spec (ID x) SettingMaxFrameSize) as [Ei|_].
  { split; [|done]. cbn [fst]. apply flow_good; [done | | done]. pose proof Hok as (_ & _ & (F1 & F2 & F3 & F4 & F5) & _).
    split; [done|]. split; [done|]. split; [done|]. split; [done|]. cbn. unfold validSetting in Hv. rewrite Ei in Hv. cbn in Hv.
    bool_to_prop. change (Z.shiftl 16 10) with defaultMaxFrameSize in *. lia. }
  destruct (Z.eqb_spec (ID x) SettingEnableConnectProtocol) as [Ei|_]; [apply Hgo; [exact Hok | exact (evolves_refl m s)]|].
  destruct (Z.eqb_spec (ID x) SettingNoRFC7540Priorities) as [Ei|_].
  { destruct (_ && _); [apply Herr | apply Hgo; [exact Hok | exact (evolves_refl m s)]]. }
  by apply Hgo.
Qed.

Lemma applyPeerSettings_ok s l : core_ok s -> Forall setting_ok l -> step_ok s (applyPeerSettings s l).
Proof.
  intros Hok Hl. revert s Hok. induction Hl as [|x l Hx Hl IH]; intros s Hok; cbn [applyPeerSettings].
  { split; [by apply good_refl | done]. }
  destruct (applyPeerSetting_ok s x Hok Hx) as [H1 He]. destruct (applyPeerSetting s x) as [s1 [e|]]; [by split|].
  destruct (IH s1 (proj1 H1)) as [H2 He2]. split; [by eapply good_trans | done].
Qed.

Lemma onSettingsEnd_good s ack : core_ok s -> good m s (onSettingsEnd ack s).
Proof.
  intros Hok. unfold onSettingsEnd. destruct (is_failed s); [by apply good_refl|]. destruct ack.
  - destruct (_ =? 0); [by apply connectionError_good|]. set (s1 := s <| localSettingsOutstanding := _ |>).
    assert (good m s s1) as H1 by (split; [exact Hok | exact (evolves_refl m s)]).
    eapply good_trans; [exact H1|]. by apply event_good; [apply H1|].
  - pose proof (applyPeerSettings_ok s (pendingSettings s) Hok ltac:(apply Hok)) as Hs.
    destruct (applyPeerSettings s (pendingSettings s)) as [s1 [e|]]; [exact (step_ok_handle s (s1, Some e) Hs)|].
    destruct Hs as [H1 _]. cbn in H1. cbv zeta. eapply good_trans; [exact H1|].
    pose proof (pending_good s1 [] (proj1 H1) ltac:(constructor)) as H2.
    set (s2 := s1 <| pendingSettings := [] |> <| peerInitialSettings := true |>).
    assert (good m s1 s2) as H3 by (split; [exact (proj1 H2) | exact (proj2 H2)]). eapply good_trans; [exact H3|].
    pose proof (appendEven_good m s2 (frameHeader FrameSettings FlagACK 0) [] (proj1 H3)
      ltac:(by apply frameHeader_typed) ltac:(by apply small_payload)) as H4.
    unfold appendSettings. destruct (appendFrameEvenFailed s2 _ []) as [s3 [e|]]; cbn in H4; (eapply good_trans; [exact H4|]).
    + apply connectionError_good; [done | apply H4].
    + by apply event_good; [apply H4|].
Qed.

(** ** The other frames *)

Lemma onPushPromise_good s id promised :
  core_ok s -> 0 < promised <= streamMask -> good m s (onPushPromise id promised s).
Proof.
  intros Hok Hp. unfold onPushPromise. destruct (is_failed s); [by apply good_refl|]. cbv zeta.
  head_if Hcond; [by apply connectionError_good|]. head_if Hlim; [apply streamError_good; [done..|ids]|].
  bool_to_prop. set (x := newStream promised _ _ _ _).
  set (s1 := s <| streams := <[promised := x]> (streams s) |> <| activePeer := u32 (activePeer s + 1) |> <| lastPeerStream := promised |>).
  assert (good m s s1) as G1.
  { apply peer_open_good; [done | ids | | done | constructor | done].
    match goal with H : Z.land promised 1 = 0 |- _ => apply Z.eqb_eq in H; rewrite land1_even in H end.
    unfold local_id. destruct (role s), (Z.odd promised); done. }
  eapply good_trans; [exact G1|].
  set (s2 := s1 <| currentHeaderStream := id |> <| currentHeaderEventStream := promised |> <| currentHeaderEnd := false |>
                <| currentHeaderTrailer := false |> <| currentHeaderPush := true |>).
  assert (core_ok s2) as Hok2 by exact (proj1 G1).
  match goal with |- context [BeginBlock ?d] => change d with (hdecoder s2) end.
  destruct (BeginBlock (hdecoder s2)) as [d e] eqn:E. pose proof (begin_block_good s2 d e Hok2 E) as G2.
  set (s3 := s2 <| currentHeaders := [] |> <| hdecoder := d |>) in *. assert (good m s1 s3) as G3 by exact G2.
  destruct e; [|exact G3]. eapply good_trans; [exact G3|]. apply connectionError_good; [done | apply G3].
Qed.

Lemma onPing_good s data ack : core_ok s -> length data = 8%nat -> good m s (onPing data ack s).
Proof.
  intros Hok Hl. unfold onPing. destruct (is_failed s); [by apply good_refl|]. destruct ack; [by apply event_good|].
  pose proof (appendFrame_good m s (frameHeader FramePing FlagACK 0) data Hok ltac:(by apply frameHeader_typed)
    ltac:(apply (small_payload m Hm); unfold len; lia)) as H1.
  destruct (appendFrame s _ data) as [s1 [e|]]; cbn in H1; (eapply good_trans; [exact H1|]).
  - apply connectionError_good; [done | apply H1].
  - by apply event_good; [apply H1|].
Qed.

Lemma refuseAbove_good order last s : core_ok s -> good m s (refuseAbove order last s).
Proof.
  revert s. induction order as [|id order IH]; intros s Hok; cbn [refuseAbove]; [by apply good_refl|].
  match goal with |- good m s (refuseAbove order last ?u) => set (s1 := u) end.
  assert (good m s s1) as H1.
  { unfold s1. destruct (streams s !! id) as [x|]; [|by apply good_refl]. destruct (_ && _); [|by apply good_refl].
    pose proof (closeStream_good m s id Hok) as H1. eapply good_trans; [exact H1|]. by apply event_good; [apply H1|]. }
  eapply good_trans; [exact H1|]. apply IH, H1.
Qed.

Lemma onGoAway_good s last c : core_ok s -> good m s (onGoAway last c s).
Proof.
  intros Hok. unfold onGoAway. destruct (_ && _); [by apply connectionError_good|]. cbv zeta.
  set (s1 := s <| goAwayReceived := true |> <| peerLastStream := last |>).
  assert (good m s s1) as H1 by (split; [exact Hok | exact (evolves_refl m s)]).
  pose proof (refuseAbove_good (rangeOrder s1) last s1 (proj1 H1)) as H2.
  eapply good_trans; [exact H1|]. eapply good_trans; [exact H2|]. by apply event_good; [apply H2|].
Qed.

Lemma onWindowUpdate_good s id inc :
  core_ok s -> 0 <= id <= streamMask -> 0 < inc <= streamMask -> good m s (onWindowUpdate id inc s).
Proof.
  intros Hok Hid Hinc. unfold onWindowUpdate. destruct (is_failed s); [by apply good_refl|].
  pose proof Hok as (_ & _ & (F1 & F2 & F3 & F4 & F5) & _).
  destruct (_ =? 0).
  - destruct (Z.ltb_spec (MaxInt32 - inc) (connectionSendWindow s)); [by apply connectionError_good|].
    set (s1 := s <| connectionSendWindow := _ |>). assert (good m s s1) as H1.
    { apply flow_good; [done | | done]. split; [cbn; lia | done]. }
    eapply good_trans; [exact H1|]. by apply event_good; [apply H1|].
  - destruct (streams s !! id) as [x|] eqn:Hx; [|destruct (_ <? _); [by apply connectionError_good | by apply good_refl]].
    destruct (is_closed _); [by apply good_refl|].
    destruct (Z.ltb_spec (MaxInt32 - inc) (sendWindow x)); [apply streamError_good; [done..|ids]|].
    set (s1 := updateStream s id _). assert (good m s s1) as H1.
    { apply update_good; [done|]. intros y Hy. rewrite Hx in Hy. injection Hy as <-.
      destruct (core_windows s id x Hok Hx) as [W1 W2]. split; [done|]. split; [|done]. split; [cbn; lia | done]. }
    eapply good_trans; [exact H1|]. by apply event_good; [apply H1|].
Qed.

Lemma onUnknown_good s h fragment : core_ok s -> good m s (onUnknown h fragment s).
Proof.
  intros Hok. unfold onUnknown. destruct (_ =? _); [|by apply good_refl]. destruct (_ <? _); [by apply connectionError_good|].
  split; [exact Hok | exact (evolves_refl m s)].
Qed.

Lemma replenishConnection_good s : core_ok s -> good m s (replenishConnection s).
Proof.
  intros Hok. unfold replenishConnection. cbv zeta. destruct (_ <=? _); [|by apply good_refl].
  destruct (Z.ltb_spec 0 (InitialWindowSize (slimits s) - connectionRecvWindow s)); [|by apply good_refl].
  pose proof (windowUpdate_good m Hm s 0 (u32 (InitialWindowSize (slimits s) - connectionRecvWindow s)) Hok ltac:(ids)) as H1.
  eapply good_trans; [exact H1|]. apply flow_good; [apply H1 | | done].
  pose proof H1 as ((_ & _ & (F1 & F2 & F3 & F4 & F5) & _) & _). pose proof Hok as (_ & _ & (_ & G2 & _ & G4 & _) & _).
  split; [exact F1|]. split; [cbn; lia | exact (conj F3 (conj F4 F5))].
Qed.

Lemma appendWindowUpdate_streams s id inc : (appendWindowUpdate s id inc).1.(streams) = s.(streams).
Proof.
  unfold appendWindowUpdate, appendFrameEvenFailed. destruct (_ || _); [done|]. destruct (negb _); [done|].
  by destruct (AppendFrame _ _ _).
Qed.

Lemma replenishStream_good s id : core_ok s -> good m s (replenishStream s id).
Proof.
  intros Hok. unfold replenishStream. destruct (streams s !! id) as [x|] eqn:Hx; [|by apply good_refl]. cbv zeta.
  destruct (_ <=? _); [|by apply good_refl].
  destruct (Z.ltb_spec 0 (InitialWindowSize (slimits s) - recvWindow x)); [|by apply good_refl].
  destruct (core_stream s id x Hok Hx) as (_ & Hid & _ & _ & [W1 W2]).
  pose proof (windowUpdate_good m Hm s id (u32 (InitialWindowSize (slimits s) - recvWindow x)) Hok ltac:(ids)) as H1.
  eapply good_trans; [exact H1|]. apply update_good; [apply H1|]. intros y Hy. rewrite appendWindowUpdate_streams in Hy.
  rewrite Hx in Hy. injection Hy as <-. pose proof Hok as (_ & _ & (_ & _ & _ & F4 & _) & _).
  split; [done|]. split; [|done]. split; [exact W1|]. cbn. unfold MinInt32 in *. lia.
Qed.

Lemma onFrameComplete_good s h : core_ok s -> header_fine h -> good m s (onFrameComplete h s).
Proof.
  intros Hok Hh. unfold onFrameComplete. destruct (is_failed s); [by apply good_refl|]. cbv zeta.
  set (s1 := countControlFrame s (Type_ h)). assert (good m s s1) as H1.
  { unfold s1, countControlFrame. destruct (_ && _); (split; [exact Hok | exact (evolves_refl m s)]). }
  eapply good_trans; [exact H1|]. destruct H1 as [Hok1 _]. destruct (_ <? _); [by apply connectionError_good|].
  destruct (_ =? FrameData).
  - destruct (streams s1 !! _); [|by apply good_refl].
    pose proof (replenishConnection_good s1 Hok1) as H2.
    pose proof (replenishStream_good (replenishConnection s1) (StreamID h) (proj1 H2)) as H3.
    pose proof (good_trans m _ _ _ H2 H3) as H4. destruct (Has _ _); [|exact H4].
    eapply good_trans; [exact H4|]. apply remoteEnd_good; [done | apply H4].
  - destruct (_ =? PriorityUpdateType); [|by apply good_refl].
    destruct (_ || _); [by apply connectionError_good | by apply event_good].
Qed.

(** The session is a host of the frame parser that keeps its invariant. *)
#[export] Instance session_host s0 : HostInvariant callbacks (fun s => good m s0 s).
Proof.
  assert (forall s f, good m s0 s -> (core_ok s -> good m s (f s)) -> good m s0 (f s)) as Hgo.
  { intros s f H1 H2. eapply good_trans; [exact H1|]. apply H2, H1. }
  assert (forall h, header_fine h -> PayloadInvariant callbacks h (fun s => good m s0 s)) as Hp.
  { intros h Hh. constructor; intros f; intros; try done; match goal with H : _ = Some f |- _ => injection H as <- end; cbn [fst].
    - apply (Hgo _ (onData id s fin)); [done|]. intros. by apply onData_good.
    - apply (Hgo _ (onHeaderBlock id s)); [done|]. intros. by apply onHeaderBlock_good.
    - apply (Hgo _ (onHeaderBlockEnd id fin)); [done|]. intros. by apply onHeaderBlockEnd_good.
    - apply (Hgo _ (onPriority id pr)); [done|]. intros. by apply onPriority_good.
    - apply (Hgo _ (onRSTStream id e)); [done|]. intros. by apply onRSTStream_good.
    - apply (Hgo _ (onSetting x)); [done|]. intros. by apply onSetting_good.
    - apply (Hgo _ (onSettingsEnd ack)); [done|]. intros. by apply onSettingsEnd_good.
    - apply (Hgo _ (onPushPromise id promised)); [done|]. intros. by apply onPushPromise_good.
    - apply (Hgo _ (onPing data ack)); [done|]. intros. by apply onPing_good.
    - apply (Hgo _ (onGoAway _ e)); [done|]. intros. by apply onGoAway_good.
    - apply (Hgo _ (onWindowUpdate id inc)); [done|]. intros. by apply onWindowUpdate_good.
    - apply (Hgo _ (onUnknown h s)); [done|]. intros. by apply onUnknown_good. }
  split; [|exact Hp|]; intros f h s Hf Hh Hs; injection Hf as <-; cbn [fst].
  - apply (Hgo _ (onFrameBegin h)); [done|]. intros. by apply onFrameBegin_good.
  - apply (Hgo _ (onFrameComplete h)); [done|]. intros. by apply onFrameComplete_good.
Qed.

(** ** Feeding bytes *)

Definition parser_ok (p : Parser) : Prop := frame_wf p /\ host_fine p /\ p.(parsing) = false.

Definition session_ok (ss : Session) : Prop :=
  core_ok ss.(core) /\ parser_ok ss.(parser).

(** What feeding [src] gives: everything read, or the failure of the session. *)
Definition fed (ss : Session) (src : list Z) (r : Session * list Z * option SessionError) : Prop :=
  let '((s', rest), err) := r in
  core_ok s'.(core) /\ parser_ok s'.(parser) /\ evolves m ss.(core) s'.(core) /\ (exists pre, src = pre ++ rest) /\
  err = s'.(core).(failed) /\ (err = None -> rest = []).

Lemma connectionErrorE_failed s c reason :
  (connectionErrorE s c reason).1.(failed) = Some (connectionErrorE s c reason).2.
Proof.
  unfold connectionErrorE. destruct (failed s) eqn:E; [done|]. cbn. unfold appendFrameEvenFailed.
  destruct (negb _); [done|]. by destruct (AppendFrame _ _ _).
Qed.

Lemma feedFrames_ok fuel (s : Session) src :
  core_ok s.(core) -> s.(core).(failed) = None -> parser_ok s.(parser) -> bytes src -> (length src <= fuel)%nat ->
  exists r, feedFrames fuel s src = Some r /\ fed s src r.
Proof.
  revert s src. induction fuel as [|fuel IH]; intros s src Hok Hnf Hp Hb Hfuel; destruct src as [|b src]; cbn [length] in Hfuel; try lia.
  1, 2: eexists; split; [done|]; split; [done|]; split; [done|]; split; [done|]; split; [by exists []|]; by split.
  cbn [feedFrames]. destruct Hp as (Hw & Hh & Hpar). unfold ParseOne.
  destruct (frame_runParse_ok (Some callbacks) (parser s) (core s) (b :: src) true Hw Hpar Hb)
    as (o & Eo & Hwo & Hpo & _ & Hsuf & Hres & _). rewrite Eo.
  destruct (runParse_host callbacks (fun x => good m (core s) x) (parser s) (core s) (b :: src) true o Hh
    (good_refl m _ Hok) Hb Eo) as ([Hoko Hevo] & Hho & Hbo). cbv zeta.
  destruct (frame_is_none_spec (outCode o)) as [Hc|Hc].
  2: { set (r := connectionErrorE (outHost o) (frameCodeToError (outCode o)) (codeString (outCode o))).
       exists (mkSession r.1 (outParser o), outRest o, Some r.2). split.
       - destruct (outCode o); [done|..]; unfold r; by destruct (connectionErrorE _ _ _).
       - pose proof (connectionErrorE_good m Hm (outHost o) (frameCodeToError (outCode o)) (codeString (outCode o)) Hoko) as [H1 H2].
         split; [exact H1|]. split; [done|]. split; [etrans; [exact Hevo | exact H2]|]. split; [done|].
         split; [symmetry; apply connectionErrorE_failed | done]. }
  rewrite Hc. cbn [core]. destruct (failed (outHost o)) as [e|] eqn:Hf.
  { eexists. split; [done|]. split; [done|]. split; [done|]. split; [done|]. split; [done|]. by split. }
  pose proof (runParse_progress (Some callbacks) (parser s) (core s) (b :: src) true o Hw Hpar Hb ltac:(done) Eo Hc) as Hlen.
  rewrite (proj2 (Z.eqb_neq _ _)) by lia.
  destruct (IH (mkSession (outHost o) (outParser o)) (outRest o)) as ([[s' rest] err] & E & (F1 & F2 & F3 & [pre F4] & F5)); try done.
  { unfold len in Hlen. cbn [length] in Hlen. lia. }
  eexists. split; [exact E|]. split; [done|]. split; [done|]. split; [etrans; [exact Hevo | exact F3]|]. split; [|done].
  destruct Hsuf as [pre' ->]. exists (pre' ++ pre). rewrite <- app_assoc. by f_equal.
Qed.

Lemma matchPreface_ok pos src :
  0 <= pos <= len ClientPreface ->
  let '((pos', rest), ok) := matchPreface pos src in
  0 <= pos' <= len ClientPreface /\ exists pre, src = pre ++ rest.
Proof.
  revert pos. induction src as [|b src IH]; intros pos Hpos; cbn [matchPreface]; [split; [done | by exists []]|].
  destruct (Z.ltb_spec pos (len ClientPreface)) as [Hlt|Hge]; [|split; [done | by exists []]].
  destruct (_ =? _); [|split; [done | by exists []]]. change (len ClientPreface) with 24 in *.
  rewrite u8_small by (widths; lia). specialize (IH (pos + 1) ltac:(lia)).
  destruct (matchPreface (pos + 1) src) as [[pos' rest] ok]. destruct IH as [H1 [pre ->]].
  split; [done|]. by exists (b :: pre).
Qed.

Lemma preface_good s pos : core_ok s -> 0 <= pos <= len ClientPreface -> good m s (s <| prefacePos := pos |>).
Proof. intros [[Hc _] Hok] Hpos. split; [|exact (evolves_refl m s)]. split; [by split | exact Hok]. Qed.

Lemma Feed_ok (s : Session) src :
  session_ok s -> bytes src -> exists r, Feed s src = Some r /\ fed s src r.
Proof.
  intros (Hok & Hp) Hb. unfold Feed. pose proof Hok as ((Hcl & Hpre) & _). rewrite Hcl.
  destruct (failed (core s)) as [e|] eqn:Hf.
  { eexists. split; [done|]. split; [done|]. split; [done|]. split; [done|]. split; [by exists []|]. by split. }
  destruct (_ && _); [|by apply feedFrames_ok].
  pose proof (matchPreface_ok (prefacePos (core s)) src Hpre) as Hmp.
  destruct (matchPreface _ src) as [[pos rest] ok]. destruct Hmp as [Hpos [pre Hsuf]].
  set (st := core s <| prefacePos := pos |>). pose proof (preface_good (core s) pos Hok Hpos) as [Hst Hev]. fold st in Hst, Hev.
  assert (bytes rest) as Hbr by (rewrite Hsuf in Hb; by apply Forall_app in Hb as [_ ?]).
  destruct ok; cbn [negb].
  - destruct (feedFrames_ok (length rest) (mkSession st (parser s)) rest Hst Hf Hp Hbr ltac:(lia)) as ([[s' r'] err] & E & (F1 & F2 & F3 & [pre' F4] & F5)).
    eexists. split; [exact E|]. split; [done|]. split; [done|]. split; [etrans; [exact Hev | exact F3]|]. split; [|done].
    exists (pre ++ pre'). rewrite Hsuf, F4. by rewrite app_assoc.
  - set (r := connectionErrorE st ErrCodeProtocol _).
    exists (mkSession r.1 (parser s), rest, Some r.2). split; [by destruct r|].
    pose proof (connectionErrorE_good m Hm st ErrCodeProtocol (str "invalid client connection preface") Hst) as [H1 H2].
    split; [exact H1|]. split; [done|]. split; [etrans; [exact Hev | exact H2]|]. split; [by exists pre|].
    split; [symmetry; apply connectionErrorE_failed | done].
Qed.
End Inbound.
