(* ===== verification/H2SessionOutbound.v ===== *)
(** * HTTP/2: the operations of the owner keep the session sound

    [SendHeaders], [OpenStream], [PushPromise], [SendData] and the other
    operations of [src/http2/session.go]: each keeps the invariant of
    [H2SessionWf], moves streams along [rfc_step], and appends whole frames
    no longer than the peer allows. *)

From stdpp Require Import gmap.
From S2P Require Import Prelude H2Frame H2FrameWf H2FrameSpec H2FrameHost H2Hpack H2Headers H2Session H2SessionTable H2SessionWf H2SessionInbound.
Open Scope Z_scope.

(** Split the condition an operation branches on. *)
Ltac fst_if H := match goal with |- good _ _ (fst (if ?b then _ else _)) => destruct b eqn:H end.

Section Outbound.
Context `{HP : Hpack} `{RO : !RangeOrder} `{HF : !HpackFits} (m : Z) (Hm : defaultMaxFrameSize <= m).
Implicit Types s : Core.

(** ** Header blocks *)

(** What encoding and sending a header block may change. *)
Definition with_output s (e : Encoder) (hb out : list Z) : Core :=
  s <| encoder := e |> <| headerBlock := hb |> <| output := out |>.

Lemma with_output_self s : with_output s s.(encoder) s.(headerBlock) s.(output) = s.
Proof. done. Qed.

(** The frame a header block operation sends next fits the peer's limit. *)
Lemma nextBlockFrame_ok s t id promised fin first block :
  core_ok s -> in_u8 t -> in_u32 id ->
  let '((h, payload), rest) := nextBlockFrame s t id promised fin first block in
  header_typed h /\ len payload <= s.(peerMaxFrame).
Proof.
  intros (_ & _ & (_ & _ & _ & _ & HF5) & _) Ht Hid. unfold nextBlockFrame. cbv zeta.
  change defaultMaxFrameSize with 16384 in HF5. split.
  - apply frameHeader_typed; [by destruct first | | done].
    destruct (_ =? len block), (first && fin && _); by vm_compute.
  - rewrite minInt_eq. pose proof (len_nonneg block). destruct (first && (t =? FramePushPromise)).
    + rewrite len_app. change (len (putUint32 promised)) with 4. unfold len at 1. rewrite length_take. lia.
    + unfold len at 1. rewrite length_take. lia.
Qed.

(** [appendFrame] changes the output only. *)
Lemma appendFrame_output s h payload :
  header_typed h -> exists out, (appendFrame s h payload).1 = s <| output := out |>.
Proof.
  intros Hh. unfold appendFrame. destruct (ready s); [by exists (output s)|].
  destruct (append_cases s h payload Hh) as [[e ->]|(-> & _)]; [by exists (output s) | by eexists].
Qed.

Lemma appendBlock_ok fuel s t id promised fin first block :
  core_ok s -> in_u8 t -> in_u32 id -> s.(peerMaxFrame) <= m ->
  good m s (appendBlock fuel s t id promised fin first block).1 /\
  exists out, (appendBlock fuel s t id promised fin first block).1 = s <| output := out |>.
Proof.
  revert s first block. induction fuel as [|fuel IH]; intros s first block Hok Ht Hid Hmax; cbn [appendBlock];
    destruct (first || _); try by (split; [by apply good_refl | by exists (output s)]).
  pose proof (nextBlockFrame_ok s t id promised fin first block Hok Ht Hid) as Hn.
  destruct (nextBlockFrame s t id promised fin first block) as [[h payload] rest]. destruct Hn as [Hh Hl].
  pose proof (appendFrame_good m s h payload Hok Hh ltac:(lia)) as H1.
  destruct (appendFrame_output s h payload Hh) as [out Eo].
  destruct (appendFrame s h payload) as [s1 [e|]]; cbn in H1, Eo; subst s1; [by split; [|exists out]|].
  destruct (IH (s <| output := out |>) false rest (proj1 H1) Ht Hid Hmax) as [H2 [out' E']].
  split; [eapply good_trans; [exact H1 | exact H2]|]. exists out'. rewrite E'. done.
Qed.

Lemma encodeFields_shape limit s headers :
  exists e hb, (encodeFields limit s headers).1 = with_output s e hb s.(output).
Proof.
  revert s. induction headers as [|f headers IH]; intros s; cbn [encodeFields]; [by exists (encoder s), (headerBlock s)|].
  destruct (WriteField (encoder s) f) as [e bytes]. cbv zeta.
  destruct (_ <? _); [by exists e, (headerBlock s)|].
  destruct (IH (s <| encoder := e |> <| headerBlock := headerBlock (s <| encoder := e |>) ++ bytes |>)) as (e' & hb' & E').
  exists e', hb'. rewrite E'. done.
Qed.

Lemma encodeAndAppend_ok s t id promised headers fin :
  core_ok s -> in_u8 t -> in_u32 id -> s.(peerMaxFrame) <= m ->
  good m s (encodeAndAppendHeaders s t id promised headers fin).1 /\
  exists e hb out, (encodeAndAppendHeaders s t id promised headers fin).1 = with_output s e hb out.
Proof.
  intros Hok Ht Hid Hmax. unfold encodeAndAppendHeaders. cbv zeta.
  destruct (negb _); [split; [by apply good_refl | by exists (encoder s), (headerBlock s), (output s)]|].
  set (s0 := s <| headerBlock := [] |>). set (limit := toInt _).
  destruct (encodeFields_shape limit s0 headers) as (e & hb & E).
  assert (good m s (with_output s0 e hb (output s0))) as H1 by (split; [exact Hok | exact (evolves_refl m s)]).
  destruct (encodeFields limit s0 headers) as [s1 [err|]]; cbn [fst] in E; subst s1.
  { split; [exact H1|]. by exists e, hb, (output s). }
  set (s1 := with_output s0 e hb (output s0)) in *.
  destruct (appendBlock_ok (S (length (headerBlock s1))) s1 t id promised fin true (headerBlock s1) (proj1 H1) Ht Hid Hmax) as [H2 [out E2]].
  split; [eapply good_trans; [exact H1 | exact H2]|]. exists e, hb, out. rewrite E2. done.
Qed.

(** ** Sending headers *)

Lemma sentSection_adjusts h trailer nobody x :
  windows_ok x -> adjusts x (sentSection h trailer nobody x).
Proof.
  intros Hw. unfold sentSection. cbv zeta. destruct (sstate x) eqn:Hs; destruct (negb _), trailer;
    (split; [unfold key; cbn; by rewrite Hs|]); (split; [exact Hw|]); cbn; rewrite Hs;
    first [reflexivity | apply rtc_once; constructor].
Qed.

Lemma SendHeaders_good s id headers fin :
  core_ok s -> s.(peerMaxFrame) <= m -> good m s (SendHeaders s id headers fin).1.
Proof.
  intros Hok Hmax. unfold SendHeaders. destruct (ready s); [by apply good_refl|].
  destruct (streams s !! id) as [x|] eqn:Hx; [|by apply good_refl]. destruct (core_stream s id x Hok Hx) as (_ & Hid & _).
  cbv zeta. do 5 (fst_if Hb; [by apply good_refl|]; clear Hb).
  destruct (encodeAndAppend_ok s FrameHeaders id 0 headers fin Hok ltac:(by vm_compute) ltac:(ids) Hmax) as [H1 (e & hb & out & E)].
  destruct (encodeAndAppendHeaders s FrameHeaders id 0 headers fin) as [s1 [err|]]; cbn [fst] in *; [exact H1|].
  eapply good_trans; [exact H1|]. destruct H1 as [Hok1 _]. set (f := sentSection _ _ _).
  assert (good m s1 (updateStream s1 id f)) as H2.
  { apply update_good; [done|]. intros y Hy. apply sentSection_adjusts. by apply (core_windows s1 id y). }
  destruct fin; [|exact H2]. destruct (streams (updateStream s1 id f) !! id); [|exact H2].
  fst_if Hb; [exact H2|]. eapply good_trans; [exact H2|]. apply localEnd_good, H2.
Qed.

(** ** Opening streams *)

Lemma local_open_good s st x :
  core_ok s -> s.(nextLocalStream) <= MaxInt32 -> streamCount s < s.(slimits).(MaxStreams) ->
  rfc_step StreamIdle st -> is_closed st = false -> x.(sid) = s.(nextLocalStream) -> x.(sstate) = st -> x.(slocal) = true ->
  windows_ok x ->
  good m s (s <| nextLocalStream := u32 (s.(nextLocalStream) + 2) |> <| streams := <[s.(nextLocalStream) := x]> s.(streams) |>
              <| activeLocal := u32 (s.(activeLocal) + 1) |>).
Proof.
  intros Hok Hn Hsz Hst Hc Es Est El Hw. pose proof Hok as (Hcl & Hq & Hf & Hh & Hp & Ht).
  pose proof Ht as ((_ & HS) & (I1 & I2 & I3 & I4) & _ & (_ & _ & Hs & Hal & Hap)).
  pose proof (count_range true (streams s)). rewrite streamCount_eq in Hsz by done.
  rewrite (u32_small (nextLocalStream s + 2)) by ids. rewrite (u32_small (activeLocal s + 1)) by ids.
  assert (used s (nextLocalStream s) = false) as Hu by (unfold used, id_used; rewrite I2; apply Z.ltb_ge; lia).
  assert (grown s (nextLocalStream s + 2) (lastPeerStream s) (nextLocalStream s) x =
    s <| nextLocalStream := nextLocalStream s + 2 |> <| streams := <[nextLocalStream s := x]> (streams s) |>
      <| activeLocal := activeLocal s + 1 |>) as <-.
  { unfold grown. rewrite El. cbn. by rewrite Z.add_0_r. }
  split.
  - split; [done|]. split; [exact Hq|]. split; [exact Hf|]. split; [exact Hh|]. split; [exact Hp|].
    apply grown_table; try done; [lia | by rewrite local_id_next | lia | lia | | by rewrite streamCount_eq | by rewrite I2 | by rewrite Est].
    unfold id_used. rewrite I2. apply Z.ltb_lt. lia.
  - split; [done|]. split; [done|]. split; [intros j; apply grown_status; try done; [lia | by rewrite Est]|].
    split; [done|]. exists []. split; [done|]. cbn. by rewrite app_nil_r.
Qed.

(** Giving up a stream that was just opened. *)
Lemma drop_local_good s id x :
  core_ok s -> s.(streams) !! id = Some x -> is_closed x.(sstate) = false -> x.(slocal) = true ->
  good m s (s <| streams := delete id s.(streams) |> <| activeLocal := u32 (s.(activeLocal) - 1) |>).
Proof.
  intros Hok Hx Hc El. pose proof Hok as (Hcl & Hq & Hf & Hh & Hp & Ht).
  pose proof Ht as ((HC & HS) & Hids & [Hi Hw] & ((Hnd & Hin) & Hlen & Hsz & Hal & Hap)).
  assert (live_of true x = true) as Hlive by (unfold live_of; by rewrite Hc, El).
  pose proof (count_pos true _ _ _ Hx Hlive). pose proof (count_range true (streams s)).
  rewrite (u32_small (activeLocal s - 1)) by ids.
  set (s1 := s <| streams := delete id (streams s) |> <| activeLocal := activeLocal s - 1 |>). split.
  - split; [done|]. split; [exact Hq|]. split; [exact Hf|]. split; [exact Hh|]. split; [exact Hp|].
    split; [done|]. split; [exact Hids|]. split; [split|].
    + intros j k Hk. apply Hi. cbn in Hk. rewrite lookup_fmap in *. destruct (Z.eq_dec id j) as [<-|Hne].
      * by rewrite lookup_delete_eq in Hk.
      * by rewrite lookup_delete_ne in Hk.
    + intros j y Hy. cbn in Hy. apply lookup_delete_Some in Hy as [_ Hy]. by apply (Hw j).
    + split; [split; [done|]|].
      * intros j. cbn. rewrite Hin. destruct (Z.eq_dec id j) as [<-|Hne]; [|by rewrite lookup_delete_ne].
        rewrite lookup_delete_eq, Hx. split; [intros (y & [= <-] & Hy); congruence | by intros (y & ? & _)].
      * split; [exact Hlen|]. split; [cbn; rewrite map_size_delete_Some by eauto; lia|].
        cbn. rewrite !(count_delete _ _ _ _ Hx), Hlive. unfold live_of. rewrite Hc, El. cbn. lia.
  - split; [done|]. split; [done|]. split; [|split; [done | exists []; split; [done|]; cbn; by rewrite app_nil_r]].
    intros j. unfold status. change (used s1 j) with (used s j). cbn. destruct (Z.eq_dec id j) as [<-|Hne].
    + rewrite lookup_delete_eq, Hx. destruct (table_stream s id x Ht Hx) as (_ & _ & _ & -> & _). apply rfc_close.
    + by rewrite lookup_delete_ne.
Qed.

(** A stream survives a refused [SendHeaders]. *)
Lemma SendHeaders_err s id headers fin s' e x :
  core_ok s -> s.(peerMaxFrame) <= m -> SendHeaders s id headers fin = (s', Some e) -> s.(streams) !! id = Some x ->
  is_closed x.(sstate) = false ->
  exists y, s'.(streams) !! id = Some y /\ is_closed y.(sstate) = false /\ y.(slocal) = x.(slocal).
Proof.
  intros Hok Hmax E Hx Hc. pose proof (core_stream s id x Hok Hx) as (_ & Hid & _).
  revert E. unfold SendHeaders. destruct (ready s); [intros [= <- _]; eauto|]. rewrite Hx. cbv zeta.
  do 5 (match goal with |- (if ?b then _ else _) = _ -> _ => destruct b; [intros [= <- _]; eauto|] end).
  destruct (encodeAndAppend_ok s FrameHeaders id 0 headers fin Hok ltac:(by vm_compute) ltac:(ids) Hmax) as [_ (e1 & hb & out & E)].
  destruct (encodeAndAppendHeaders s FrameHeaders id 0 headers fin) as [s1 [err|]]; cbn [fst] in E; subst s1.
  { intros [= <- _]. eauto. }
  set (f := sentSection _ _ _). destruct fin; [|done].
  destruct (streams (updateStream _ _ _) !! id) as [y|] eqn:Hy; [|done]. match goal with |- (if ?b then _ else _) = _ -> _ => destruct b end; [|done].
  intros [= <- _]. exists y. split; [done|]. cbn in Hy. rewrite lookup_alter_eq, Hx in Hy. injection Hy as <-.
  destruct (sentSection_adjusts (inspectHeaderSection headers) (sentHeaders x) (noBody (inspectHeaderSection headers)
    || bytes_eqb (smethod x) (str "HEAD") && response (inspectHeaderSection headers)) x (core_windows s id x Hok Hx)) as [Hk _].
  injection Hk as E1 E2 E3. fold f in E1, E2, E3. split; [congruence | done].
Qed.

Lemma initial_windows s : core_ok s -> 
  MinInt32 <= s.(peerInitialWindow) <= MaxInt32 /\ MinInt32 <= s.(slimits).(InitialWindowSize) <= MaxInt32.
Proof. intros (_ & _ & (_ & _ & ? & ? & _) & _). unfold MinInt32. lia. Qed.

Lemma OpenStream_good s headers fin : core_ok s -> s.(peerMaxFrame) <= m -> good m s (OpenStream s headers fin).1.
Proof.
  intros Hok Hmax. unfold OpenStream. fst_if Hb1; [by apply good_refl|]. fst_if Hb2; [by apply good_refl|].
  fst_if Hb3; [by apply good_refl|]. fst_if Hb4; [by apply good_refl|]. fst_if Hb5; [by apply good_refl|]. bool_to_prop. cbv zeta.
  set (x := newStream _ _ _ _ _). set (s1 := s <| nextLocalStream := _ |> <| streams := _ |> <| activeLocal := _ |>).
  assert (good m s s1) as G1.
  { apply (local_open_good s StreamOpen x); try done; [constructor | by apply initial_windows]. }
  eapply good_trans; [exact G1|].
  pose proof (SendHeaders_good s1 (nextLocalStream s) headers fin (proj1 G1) Hmax) as G2.
  destruct (SendHeaders s1 (nextLocalStream s) headers fin) as [s2 [e|]] eqn:E; cbn [fst] in *; [|exact G2].
  destruct (SendHeaders_err s1 _ headers fin s2 e x (proj1 G1) Hmax E ltac:(cbn; apply lookup_insert_eq) ltac:(done)) as (y & Hy & Hc & El).
  eapply good_trans; [exact G2|]. by apply (drop_local_good s2 _ y); [apply G2|..].
Qed.

Lemma PushPromise_good s parent headers : core_ok s -> s.(peerMaxFrame) <= m -> good m s (PushPromise s parent headers).1.
Proof.
  intros Hok Hmax. unfold PushPromise. fst_if Hb1; [by apply good_refl|]. fst_if Hb2; [by apply good_refl|].
  fst_if Hb3; [by apply good_refl|]. fst_if Hb4; [by apply good_refl|]. fst_if Hb5; [by apply good_refl|].
  fst_if Hb6; [by apply good_refl|]. apply orb_false_elim in Hb3 as [_ Hn]. apply Z.ltb_ge in Hn. apply Z.leb_gt in Hb5.
  assert (in_u32 parent) as Hpar.
  { destruct (streams s !! parent) as [y|] eqn:Hy; [|done]. destruct (core_stream s parent y Hok Hy) as (_ & ? & _). ids. }
  cbv zeta. set (x := newStream _ _ _ _ _ <| smethod := _ |>).
  pose proof Hok as (Hcl & Hq & Hf & Hh & Hp & Ht). pose proof Ht as (_ & (I1 & I2 & _) & _).
  set (s1 := s <| nextLocalStream := _ |>). assert (good m s s1) as G1.
  { unfold s1. rewrite u32_small by ids. split.
    - split; [done|]. split; [exact Hq|]. split; [exact Hf|]. split; [exact Hh|]. split; [exact Hp|].
      apply skipped_table; [done | lia | by rewrite local_id_next].
    - split; [done|]. split; [done|]. split; [intros j; apply skipped_status; lia|]. split; [done|].
      exists []. split; [done|]. cbn. by rewrite app_nil_r. }
  destruct (encodeAndAppend_ok s1 FramePushPromise parent (nextLocalStream s) headers false (proj1 G1) ltac:(by vm_compute) Hpar Hmax)
    as [G2 (e & hb & out & E)].
  destruct (encodeAndAppendHeaders s1 FramePushPromise parent (nextLocalStream s) headers false) as [s2 [err|]];
    cbn [fst] in *; [eapply good_trans; [exact G1 | exact G2]|]. subst s2.
  set (s0 := with_output s e hb out). assert (good m s s0) as G0.
  { destruct G2 as [(_ & Hq2 & _) (_ & _ & _ & _ & frames & Hf2 & Eo)]. split.
    - split; [done|]. split; [exact Hq2|]. split; [exact Hf|]. split; [exact Hh|]. split; [exact Hp | exact Ht].
    - split; [done|]. split; [done|]. split; [intros j; exact (rtc_refl _ _)|]. split; [done|]. by exists frames. }
  eapply good_trans; [exact G0|].
  apply (local_open_good s0 StreamReservedLocal x); [apply G0 | done | done | constructor | done | done | done | done | by apply initial_windows].
Qed.

(** ** Sending data *)

Lemma sendChunk_good s id x src fin :
  core_ok s -> s.(peerMaxFrame) <= m -> s.(streams) !! id = Some x -> good m s (sendChunk s id x src fin).1.
Proof.
  intros Hok Hmax Hx. pose proof (core_stream s id x Hok Hx) as (_ & Hid & _). unfold sendChunk. cbv zeta.
  set (n0 := minInt (len src) (peerMaxFrame s)).
  set (n1 := if connectionSendWindow s <? n0 then connectionSendWindow s else n0).
  set (n := if sendWindow x <? n1 then sendWindow x else n1).
  assert (n <= len src /\ n <= peerMaxFrame s /\ n <= connectionSendWindow s /\ n <= sendWindow x) as (N1 & N2 & N3 & N4).
  { unfold n, n1, n0. rewrite minInt_eq. repeat case_match; bool_to_prop; lia. }
  destruct (Z.leb_spec n 0); [by apply good_refl|]. fst_if Hb; [by apply good_refl|].
  set (h := frameHeader FrameData _ id). assert (header_typed h) as Hh.
  { apply frameHeader_typed; [by vm_compute | by destruct (_ && fin) | ids]. }
  assert (len (take (Z.to_nat n) src) <= m) as Hl by (unfold len; rewrite length_take; lia).
  pose proof (appendFrame_good m s h (take (Z.to_nat n) src) Hok Hh Hl) as G1.
  destruct (appendFrame_output s h (take (Z.to_nat n) src) Hh) as [out E].
  destruct (appendFrame s h _) as [s1 [e|]]; cbn [fst] in *; [exact G1|]. subst s1.
  eapply good_trans; [exact G1|]. destruct G1 as [Hok1 _]. set (s1 := s <| output := out |>) in *.
  assert (good m s1 (s1 <| connectionSendWindow := connectionSendWindow s1 - n |>)) as G2.
  { apply flow_good; [done | | done]. destruct Hok1 as (_ & _ & (F1 & F2) & _). split; [cbn in *; lia | done]. }
  eapply good_trans; [exact G2|]. destruct G2 as [Hok2 _]. set (s2 := s1 <| connectionSendWindow := _ |>) in *.
  set (f := fun x => _). assert (good m s2 (updateStream s2 id f)) as G3.
  { apply update_good; [done|]. intros y Hy. change (streams s2) with (streams s) in Hy. rewrite Hx in Hy. injection Hy as <-.
    destruct (core_windows s id x Hok Hx) as [W1 W2]. split; [done|]. split; [|done]. split; [|exact W2].
    cbn. unfold MinInt32 in *. lia. }
  destruct (_ && fin); [|exact G3]. eapply good_trans; [exact G3|]. apply localEnd_good, G3.
Qed.

Lemma SendData_good s id src fin : core_ok s -> s.(peerMaxFrame) <= m -> good m s (SendData s id src fin).1.
Proof.
  intros Hok Hmax. unfold SendData. destruct (ready s); [by apply good_refl|].
  destruct (streams s !! id) as [x|] eqn:Hx; [|by apply good_refl]. pose proof (core_stream s id x Hok Hx) as (_ & Hid & _).
  do 2 (fst_if Hb; [by apply good_refl|]; clear Hb). destruct src as [|b src]; [|by apply sendChunk_good].
  do 2 (fst_if Hb; [by apply good_refl|]; clear Hb).
  pose proof (appendFrame_good m s (frameHeader FrameData FlagEndStream id) [] Hok ltac:(apply frameHeader_typed; [done | done | ids])
    ltac:(by apply (small_payload m Hm))) as G1.
  destruct (appendFrame s _ []) as [s1 [e|]]; cbn [fst] in *; [exact G1|]. eapply good_trans; [exact G1|].
  apply localEnd_good, G1.
Qed.

(** ** Control frames *)

Lemma ResetStream_good s id c : core_ok s -> good m s (ResetStream s id c).1.
Proof.
  intros Hok. unfold ResetStream. destruct (streams s !! id) as [x|] eqn:Hx; [|by apply good_refl].
  pose proof (core_stream s id x Hok Hx) as (_ & Hid & _).
  pose proof (appendFrame_good m s (frameHeader FrameRSTStream 0 id) (putUint32 c) Hok ltac:(apply frameHeader_typed; [done | done | ids])
    ltac:(by apply (small_payload m Hm))) as G1.
  destruct (sstate x); try by apply good_refl.
  all: destruct (appendFrame s _ (putUint32 c)) as [s1 [e|]]; cbn [fst] in *; [exact G1|];
    eapply good_trans; [exact G1|]; apply closeStream_good, G1.
Qed.

Lemma Ping_good s data : core_ok s -> length data = 8%nat -> good m s (Ping s data).1.
Proof.
  intros Hok Hl. apply appendFrame_good; [done | by apply frameHeader_typed|]. apply (small_payload m Hm). unfold len. lia.
Qed.

Lemma GoAway_good s c debug : core_ok s -> s.(peerMaxFrame) <= m -> good m s (GoAway s c debug).1.
Proof.
  intros Hok Hmax. unfold GoAway. fst_if Hb; [by apply good_refl|]. cbv zeta.
  set (d := if peerMaxFrame s - 8 <? len debug then take (Z.to_nat (peerMaxFrame s - 8)) debug else debug).
  assert (len d <= peerMaxFrame s - 8) as Hd.
  { pose proof Hok as (_ & _ & (_ & _ & _ & _ & F5) & _). change defaultMaxFrameSize with 16384 in F5. unfold d.
    destruct (Z.ltb_spec (peerMaxFrame s - 8) (len debug)); [unfold len; rewrite length_take|]; lia. }
  set (p := putUint32 (lastProcessedPeerStream s) ++ putUint32 c ++ d).
  assert (len p <= m) as Hp by (unfold p; rewrite !len_app; change (len (putUint32 (lastProcessedPeerStream s))) with 4;
    change (len (putUint32 c)) with 4; lia).
  pose proof (appendFrame_good m s (frameHeader FrameGoAway 0 0) p Hok ltac:(by apply frameHeader_typed) Hp) as G1.
  destruct (appendFrame s _ p) as [s1 [e|]]; cbn [fst] in *; [exact G1|]. eapply good_trans; [exact G1|].
  split; [exact (proj1 G1) | exact (evolves_refl m s1)].
Qed.

Lemma PriorityUpdate_good s id value : core_ok s -> s.(peerMaxFrame) <= m -> good m s (PriorityUpdate s id value).1.
Proof.
  intros Hok Hmax. unfold PriorityUpdate. destruct (Z.ltb_spec (peerMaxFrame s - 4) (len value)); [by apply good_refl|].
  apply appendFrame_good; [done | by apply frameHeader_typed|]. rewrite len_app. change (len (putUint32 (Z.land id MaxInt32))) with 4. lia.
Qed.

(** ** Draining *)

Lemma NextEvent_good s : core_ok s -> good m s (NextEvent s).1.
Proof.
  intros Hok. unfold NextEvent. destruct (events s) as [|e rest] eqn:E; [by apply good_refl|]. cbn [fst].
  destruct Hok as (Ho & (Hl & Hout & Hev & Hb & Hbl & Hf) & Hrest). rewrite E in *. unfold eventSum in Hb. cbn [foldr] in Hb.
  fold (eventSum rest) in Hb. pose proof (retained_range e). pose proof (eventSum_nonneg rest). rewrite len_cons in Hev.
  destruct Hl as (L1 & L2 & L3).
  assert (u32 (eventBytes s - eventRetainedBytes e) = eventSum rest) as -> by (rewrite u32_small by ids; lia).
  split; [|exact (evolves_refl m s)].
  split; [done|]. split; [|exact Hrest]. apply Forall_cons_1 in Hf as [_ Hf].
  split; [by split_and!|]. split; [exact Hout|]. split; [cbn; lia|]. split; [done|]. split; [|exact Hf].
  change (eventSum rest <= MaxQueuedEventBytes (slimits s)). lia.
Qed.

Lemma ConsumeOutput_ok s n : core_ok s -> core_ok (ConsumeOutput s n).1.
Proof.
  intros Hok. unfold ConsumeOutput. destruct (_ || _); [done|]. cbn [fst]. destruct Hok as (Ho & (Hl & Hout & Hq) & Hrest).
  split; [done|]. split; [|exact Hrest]. split; [exact Hl|]. split; [|exact Hq]. cbn. unfold len in *. rewrite length_drop. lia.
Qed.
End Outbound.
