(* ===== verification/H2SessionLife.v ===== *)
(** * HTTP/2: the life of a session

    A session from [NewSession] through any sequence of operations: the
    operations as data ([Op]), what running one does ([run]), and the
    soundness of every session a program can reach, closed ones included. *)

From stdpp Require Import gmap.
From S2P Require Import Prelude H2Frame H2FrameWf H2FrameSpec H2FrameHost H2Hpack H2Headers H2Session H2SessionTable H2SessionWf H2SessionInbound H2SessionOutbound.
Open Scope Z_scope.

Section Life.
Context `{HP : Hpack} `{RO : !RangeOrder} `{HF : !HpackFits}.
Implicit Types s : Core.
Implicit Types ss : Session.

(** ** Local settings *)

Definition value_typed (x : Setting) : Prop := in_u32 x.(Value).

Definition local_ok (n : localSettings) : Prop :=
  0 <= n.(newInitialWindow) <= MaxInt32 /\ 0 < n.(newMaxFrame) <= maxFrameSize.

Lemma updateSetting_ok ss n x n' : local_ok n -> value_typed x -> updateSetting ss n x = Some n' -> local_ok n'.
Proof.
  intros [H1 H2] Hx. unfold updateSetting. cbv zeta. destruct (validSetting x) eqn:Hv; [|done]. cbn [negb].
  destruct (Z.eqb_spec (ID x) SettingHeaderTableSize); [destruct (_ || _); [done|]; by intros [= <-]|].
  destruct (Z.eqb_spec (ID x) SettingEnablePush); [destruct (negb _); [done|]; by intros [= <-]|].
  destruct (Z.eqb_spec (ID x) SettingMaxConcurrentStreams); [destruct (_ <? _); [done|]; by intros [= <-]|].
  destruct (Z.eqb_spec (ID x) SettingInitialWindowSize) as [Ei|].
  { intros [= <-]. split; [|done]. cbn. unfold validSetting in Hv. rewrite Ei in Hv. cbn in Hv. bool_to_prop.
    unfold value_typed in Hx. ids. }
  destruct (Z.eqb_spec (ID x) SettingMaxFrameSize) as [Ei|].
  { destruct (_ <? _); [done|]. intros [= <-]. split; [done|]. cbn. unfold validSetting in Hv. rewrite Ei in Hv. cbn in Hv. bool_to_prop.
    change defaultMaxFrameSize with 16384 in *. rewrite maxFrameSize_eq in *. lia. }
  destruct (_ =? SettingMaxHeaderListSize); [destruct (_ <? _); [done|]; by intros [= <-]|].
  destruct (_ =? SettingEnableConnectProtocol); [by intros [= <-]|].
  destruct (_ =? SettingNoRFC7540Priorities); [destruct (negb _); [done|]; by intros [= <-] | by intros [= <-]].
Qed.

Lemma updateSettings_ok ss n l n' : local_ok n -> Forall value_typed l -> updateSettings ss n l = Some n' -> local_ok n'.
Proof.
  intros Hn Hl. revert n Hn. induction Hl as [|x l Hx Hl IH]; intros n Hn; cbn [updateSettings]; [by intros [= <-]|].
  destruct (updateSetting ss n x) as [n1|] eqn:E; [|done]. apply IH. by eapply updateSetting_ok.
Qed.

Lemma setMaxFrame_ok p v : parser_ok p -> 0 < v <= maxFrameSize -> parser_ok (setMaxFrame p v).
Proof.
  intros ((Hb & Hc & Hin) & Hh & Hp) Hv. split; [|by split]. destruct Hb as ((L1 & L2) & Hb).
  split; [split; [by split | exact Hb]|]. split; [exact Hc|]. intros Hn H9. destruct (Hin Hn H9) as ((_ & Hrest) & HN & Hid).
  split; [|by split]. split; [by split | exact Hrest].
Qed.

Lemma recvWindowsShift_ok (t : gmap Z sessionStream) change id x :
  recvWindowsShift t change = true -> t !! id = Some x -> MinInt32 <= x.(recvWindow) + change <= MaxInt32.
Proof.
  unfold recvWindowsShift. intros Hf Hx. rewrite forallb_forall in Hf.
  specialize (Hf x).
  assert (In x (map_to_list t).*2) as Hin.
  { apply list_elem_of_In. apply list_elem_of_fmap. exists (id, x). split; [done|]. by apply elem_of_map_to_list. }
  specialize (Hf Hin). bool_to_prop. lia.
Qed.

Lemma SetAllowed_ok s v d :
  core_ok s -> SetAllowedDynamicTableBytes s.(hdecoder) v = (d, None) -> headers_ok (s <| hdecoder := d |>).
Proof.
  intros (_ & _ & _ & (E & (D1 & D2 & D3) & Hh) & _). unfold SetAllowedDynamicTableBytes. destruct (_ || _); [done|].
  intros [= <-]. split; [exact E|]. split; [|exact Hh]. split; [exact D1|]. split; [exact D2 | exact D3].
Qed.

Lemma appendSettings_good m s l :
  core_ok s -> len l * 6 <= m -> good m s (appendSettings s l false).1.
Proof.
  intros Hok Hl. apply appendEven_good; [done | by apply frameHeader_typed|].
  assert (len (concat (map encodeSetting l)) = len l * 6) as ->; [|done].
  clear. induction l as [|x l IH]; [done|]. cbn [map concat]. rewrite len_app, IH, len_cons. change (len (encodeSetting x)) with 6. lia.
Qed.

Lemma appendSettings_output s l :
  exists out, (appendSettings s l false).1 = s <| output := out |>.
Proof.
  unfold appendSettings. destruct (append_cases s (frameHeader FrameSettings 0 0) (concat (map encodeSetting l))
    ltac:(by apply frameHeader_typed)) as [[e ->]|(-> & _)]; [by exists (output s) | by eexists].
Qed.

Lemma UpdateSettings_good ss l m :
  session_ok ss -> Forall value_typed l -> ss.(core).(peerMaxFrame) <= m ->
  good m ss.(core) (UpdateSettings ss l).1.(core) /\ parser_ok (UpdateSettings ss l).1.(parser).
Proof.
  intros [Hok Hp] Hl Hm. unfold UpdateSettings. cbv zeta. set (s := core ss) in *.
  assert (good m s s /\ parser_ok (parser ss)) as Hid by (split; [by apply good_refl | done]).
  destruct (ready s); [exact Hid|]. destruct (Z.ltb_spec (Z.quot (peerMaxFrame s) 6) (len l)) as [|Hlen]; [exact Hid|].
  destruct (negb (reserveOutput s _)); [exact Hid|]. set (n0 := mkLocalSettings _ _ _ _ _ _).
  destruct (updateSettings ss n0 l) as [n|] eqn:En; [|exact Hid].
  assert (local_ok n) as [Nw Nf].
  { eapply updateSettings_ok; [|exact Hl | exact En]. split; cbn; [apply Hok|].
    destruct Hp as (((Hlim & _) & _) & _). apply Hlim. }
  destruct (recvWindowsShift (streams s) (newInitialWindow n - InitialWindowSize (slimits s))) eqn:Hsh; cbn [negb]; [|exact Hid].
  destruct (SetAllowedDynamicTableBytes (hdecoder s) (newHeaderTable n)) as [d [e|]] eqn:Ed; [exact Hid|].
  pose proof (SetAllowed_ok s _ d Hok Ed) as Hh. set (s1 := s <| hdecoder := d |>).
  assert (good m s s1) as G1.
  { destruct Hok as (Ho & Hq & Hf & _ & Hrest). split; [|exact (evolves_refl m s)]. split; [done|]. split; [exact Hq|]. by split. }
  pose proof (appendSettings_good m s1 l (proj1 G1)) as G2.
  assert (len l * 6 <= m) as Hl6.
  { pose proof Hok as (_ & _ & (_ & _ & _ & _ & F5) & _). change defaultMaxFrameSize with 16384 in F5.
    rewrite Z.quot_div_nonneg in Hlen by lia. pose proof (Z.mul_div_le (peerMaxFrame s) 6). lia. }
  specialize (G2 Hl6). destruct (appendSettings_output s1 l) as [out Eo].
  destruct (appendSettings s1 l false) as [s2 [e|]]; cbn [fst] in *; subst s2.
  { split; [eapply good_trans; [exact G1 | exact G2] | done]. }
  split; [|by apply setMaxFrame_ok]. cbn [core parser fst].
  eapply good_trans; [eapply good_trans; [exact G1 | exact G2]|]. destruct G2 as [Hok2 _]. set (s2 := s1 <| output := out |>) in *.
  set (change := newInitialWindow n - InitialWindowSize (slimits s)) in *.
  set (t := (fun x => x <| recvWindow := recvWindow x + change |>) <$> streams s2).
  assert (good m s2 (s2 <| streams := t |>)) as G3.
  { apply map_good; [done| | |].
    - apply map_eq. intros id. unfold t. rewrite !lookup_fmap. by destruct (streams s2 !! id).
    - intros id y Hy. unfold t in Hy. rewrite lookup_fmap in Hy. destruct (streams s2 !! id) as [x|] eqn:Hx; [|done].
      injection Hy as <-. pose proof (recvWindowsShift_ok _ _ _ _ Hsh Hx). destruct (core_windows s2 id x Hok2 Hx) as [W1 _].
      by split.
    - intros id x y Hx Hy. unfold t in Hy. rewrite lookup_fmap, Hx in Hy. by injection Hy as <-. }
  eapply good_trans; [exact G3|]. destruct G3 as [(Ho & Hq & (F1 & F2 & F3 & F4) & Hrest) _].
  split; [|split; [done|]; split; [done|]; split; [intros id; exact (rtc_refl _ _)|]; split; [done|];
           exists []; split; [done|]; cbn; by rewrite app_nil_r].
  split; [exact Ho|]. split; [exact Hq|]. split; [|exact Hrest].
  split; [exact F1|]. split; [exact F2|]. split; [exact F3|]. split; [exact Nw | apply F4].
Qed.

(** ** The end of input *)

Lemma Finish_fine p : host_fine p -> host_fine (Finish p).1.
Proof.
  intros [Hb Hin]. unfold Finish. assert (forall c, host_fine (fail p c)) as Hf.
  { intros c. unfold fail. destruct (frame_is_none_spec (code p)) as [Hn|Hn]; [|by split].
    split; [exact Hb|]. exact (fun _ => Hin Hn). }
  destruct (parsing p); [apply Hf|]. destruct (negb _); [by split|]. destruct (_ || _); [apply Hf | by split].
Qed.

Lemma SessionFinish_good ss m :
  defaultMaxFrameSize <= m -> session_ok ss ->
  good m ss.(core) (SessionFinish ss).1.(core) /\ parser_ok (SessionFinish ss).1.(parser).
Proof.
  intros Hm [Hok Hp]. unfold SessionFinish. cbv zeta. set (s := core ss) in *.
  assert (good m s s /\ parser_ok (parser ss)) as Hid by (split; [by apply good_refl | done]).
  destruct (closed s); [exact Hid|]. destruct (failed s); [exact Hid|].
  assert (forall p c reason, parser_ok p -> good m s (let (st, err) := connectionErrorE s c reason in (mkSession st p, Some err)).1.(core) /\
    parser_ok (let (st, err) := connectionErrorE s c reason in (mkSession st p, Some err)).1.(parser)) as Hfail.
  { intros p c reason Hp'. pose proof (connectionErrorE_good m Hm s c reason Hok) as G.
    destruct (connectionErrorE s c reason) as [st err]. by split. }
  destruct (_ && _); [by apply Hfail|]. destruct Hp as (Hw & Hh & Hpar).
  assert (parser_ok (Finish (parser ss)).1) as Hp'.
  { split; [by apply frame_Finish_wf|]. split; [by apply Finish_fine|]. unfold Finish. rewrite Hpar.
    destruct (is_none (code (parser ss))) eqn:Hc; cbn [negb]; [|done]. destruct (_ || _); [|done]. unfold fail. by rewrite Hc. }
  destruct (Finish (parser ss)) as [p c]. cbn [fst] in Hp'. destruct c; try by apply Hfail. split; [by apply good_refl | done].
Qed.

(** ** The start *)

(** Limits as the types of the code allow them; the counter of fields needs
    one value below the maximum. *)
Definition session_limits_typed (l : SessionLimits) : Prop :=
  (in_u32 l.(Frame).(MaxFrameSize) /\ in_u64 l.(Frame).(MaxHeaderBlockBytes) /\ in_u32 l.(Frame).(MaxContinuationFrames)) /\
  (in_u32 l.(Header).(MaxDynamicTableBytes) /\ in_u32 l.(Header).(MaxFieldBytes) /\ in_u64 l.(Header).(MaxHeaderListBytes) /\
   0 <= l.(Header).(MaxHeaders) < MaxUint32) /\
  (in_u32 l.(MaxConcurrentStreams) /\ in_u32 l.(MaxStreams) /\ in_u32 l.(MaxClosedStreams) /\
   in_u32 l.(MaxQueuedOutputBytes) /\ in_u32 l.(MaxQueuedEventBytes) /\ in_u32 l.(MaxQueuedEvents) /\ in_u32 l.(InitialWindowSize)).

Lemma normalizedHeader_ok l :
  in_u32 l.(MaxDynamicTableBytes) -> in_u32 l.(MaxFieldBytes) -> in_u64 l.(MaxHeaderListBytes) -> 0 <= l.(MaxHeaders) < MaxUint32 ->
  header_limits_ok (normalizedHeader l) /\ normalizedHeader (normalizedHeader l) = normalizedHeader l.
Proof.
  intros H1 H2 H3 H4. unfold in_u32, in_u64 in *. unfold header_limits_ok, normalizedHeader. cbv zeta. cbn.
  change defaultMaxDynamicTableBytes with 4096. change defaultMaxFieldBytes with 16384.
  change defaultMaxHeaderListBytes with 65536. change defaultMaxHeaders with 256.
  destruct (Z.eqb_spec (MaxDynamicTableBytes l) 0), (Z.eqb_spec (MaxFieldBytes l) 0), (Z.eqb_spec (MaxHeaderListBytes l) 0),
    (Z.eqb_spec (MaxHeaders l) 0); (split; [widths; lia|]); cbn; f_equal;
    repeat match goal with |- context [?x =? 0] => destruct (Z.eqb_spec x 0); try lia end.
Qed.

Definition session_limits_ok (l : SessionLimits) : Prop :=
  frame_limits_ok l.(Frame) /\ header_limits_ok l.(Header) /\ normalizedHeader l.(Header) = l.(Header) /\
  0 < l.(MaxClosedStreams) <= MaxUint32 /\ 0 < l.(MaxStreams) <= MaxUint32 /\
  0 < l.(MaxQueuedOutputBytes) <= MaxUint32 /\ 0 < l.(MaxQueuedEventBytes) <= MaxUint32 /\
  0 < l.(MaxQueuedEvents) <= MaxUint32 /\ 0 < l.(InitialWindowSize) <= MaxInt32.

Lemma normalizedSession_ok l : session_limits_typed l -> session_limits_ok (normalizedSession l).
Proof.
  intros ((F1 & F2 & F3) & (D1 & D2 & D3 & D4) & (S1 & S2 & S3 & S4 & S5 & S6 & S7)).
  destruct (normalizedHeader_ok (Header l) D1 D2 D3 D4) as [Hh Hi].
  split; [by apply frame_normalized_ok|]. split; [exact Hh|]. split; [exact Hi|]. clear - S1 S2 S3 S4 S5 S6 S7.
  unfold in_u32 in *. unfold normalizedSession. cbv zeta. cbn.
  change defaultSessionConcurrentStreams with 100. change defaultSessionMaxStreams with 1024.
  change defaultSessionClosedStreams with 256. change defaultSessionOutputBytes with 4194304.
  change defaultSessionEventBytes with 4194304. change defaultSessionEvents with 4096. change defaultInitialWindowSize with 65535.
  unfold MaxInt32, MaxUint32 in *.
  split_and!; repeat (match goal with |- context [if ?x =? ?y then _ else _] => destruct (Z.eqb_spec x y)
    | |- context [if ?x <? ?y then _ else _] => destruct (Z.ltb_spec x y) end); lia.
Qed.

Lemma initialCore_ok r l : session_limits_ok l -> core_ok (initialCore r l).
Proof.
  intros (Hf & Hh & Hi & HC & HS & HO & HEB & HE & HW). split; [split; [done|]; by vm_compute|]. split; [|split; [|split; [|split]]].
  - split; [cbn; lia|]. split; [cbn; rewrite len_nil; lia|]. split; [cbn; rewrite len_nil; lia|]. split; [done|]. split; [cbn; lia | constructor].
  - split; [by vm_compute|]. split; [cbn; lia|]. split; [by vm_compute|]. split; [cbn; lia | by vm_compute].
  - pose proof Hh as (_ & _ & L1 & L2). split; [exact Hi|]. split; [|cbn; lia]. unfold decoder_ok.
    change (hlimits (hdecoder (initialCore r l))) with (normalizedHeader (Header l)). rewrite Hi. split; [done|]. cbn. lia.
  - constructor.
  - split; [by split|]. split; [split; [destruct r; by vm_compute|]; split; [by destruct r|]; by vm_compute|].
    split; [split|].
    + cbn. rewrite fmap_empty. apply map_Forall_empty.
    + apply map_Forall_empty.
    + split; [split; [constructor|]|].
      * intros id. cbn. rewrite lookup_empty. split; [by intros ?%elem_of_nil | by intros (? & ? & _)].
      * split; [cbn; rewrite len_nil; lia|]. split; [cbn; rewrite map_size_empty; lia|]. cbn. by rewrite !count_empty.
Qed.

Definition startPreface (r : Role) : list Z := if is_client r then ClientPreface else [].

Definition settingsFrame (r : Role) (l : SessionLimits) : FrameHeader * list Z :=
  let payload := concat (map encodeSetting (startSettings r l)) in
  (mkFrameHeader (len payload) FrameSettings 0 0, payload).

Lemma settingsFrame_len r l : len (settingsFrame r l).2 <= 48.
Proof. destruct r; by vm_compute. Qed.

(** A new session is sound, and has queued its preface and its SETTINGS frame. *)
Lemma NewSession_ok r l ss :
  session_limits_typed l -> NewSession r l = inl ss ->
  session_ok ss /\ ss.(core).(output) = startPreface r ++ wire (settingsFrame r (normalizedSession l)) /\
  ss.(core).(failed) = None /\ ss.(core).(role) = r /\ ss.(core).(slimits) = normalizedSession l.
Proof.
  intros Hl. pose proof (normalizedSession_ok l Hl) as Hn. unfold NewSession. set (l' := normalizedSession l) in *.
  pose proof (initialCore_ok r l' Hn) as Hok. unfold start. cbv zeta.
  change (sstarted (initialCore r l')) with false. cbv iota.
  set (s1 := initialCore r l' <| sstarted := true |>). change (role s1) with r. fold (startPreface r).
  destruct (is_client r && negb (reserveOutput s1 (len ClientPreface))) eqn:Hr; [done|].
  set (s2 := s1 <| output := output s1 ++ startPreface r |>).
  assert (core_ok s2) as Hok2.
  { destruct Hok as (Ho & (Q1 & Q2 & Q3) & Hrest). split; [done|]. split; [|exact Hrest]. split; [exact Q1|]. split; [|exact Q3].
    destruct r; [|exact Q2]. cbn [is_client andb] in Hr. apply negb_false_iff in Hr. unfold reserveOutput in Hr. bool_to_prop.
    change (len ClientPreface <= MaxQueuedOutputBytes l' - 0) in H0. change (len ClientPreface <= MaxQueuedOutputBytes l'). lia. }
  change (slimits s1) with l'. unfold appendSettings.
  destruct (append_cases s2 (frameHeader FrameSettings 0 0) (concat (map encodeSetting (startSettings r l')))
    ltac:(by apply frameHeader_typed)) as [[e ->]|(E & Hs & Hlen)]; [done|]. rewrite E. intros [= <-].
  pose proof (settingsFrame_len r l') as H48. apply (sent_weaken _ defaultMaxFrameSize) in Hs.
  2: { change defaultMaxFrameSize with 16384. change (len (settingsFrame r l').2 <= 16384). lia. }
  pose proof (appended_good defaultMaxFrameSize s2 _ Hok2 Hs Hlen) as [Hok3 _].
  split; [split; [exact Hok3|]|by split]. cbn [parser]. destruct Hn as ((F1 & F2 & F3) & _).
  split; [|split; [apply zeroParser_fine | done]]. apply frame_zeroParser_wf, (frame_normalized_ok (Frame l')); unfold in_u32, in_u64; widths; lia.
Qed.

(** ** Operations as data *)

Inductive Op :=
  | DoFeed (src : list Z)
  | DoFinish
  | DoSendHeaders (id : Z) (headers : list HeaderField) (fin : bool)
  | DoOpenStream (headers : list HeaderField) (fin : bool)
  | DoPushPromise (parent : Z) (headers : list HeaderField)
  | DoSendData (id : Z) (src : list Z) (fin : bool)
  | DoResetStream (id c : Z)
  | DoPing (data : list Z)
  | DoGoAway (c : Z) (debug : list Z)
  | DoPriorityUpdate (id : Z) (value : list Z)
  | DoUpdateSettings (settings : list Setting)
  | DoNextEvent
  | DoConsumeOutput (n : Z)
  | DoClose.

Definition on_core (f : Core -> Core) ss : Session := mkSession (f ss.(core)) ss.(parser).

(** The session after an operation; [None] is a [Feed] out of fuel. *)
Definition run (op : Op) ss : option Session :=
  match op with
  | DoFeed src => (fun r => r.1.1) <$> Feed ss src
  | DoFinish => Some (SessionFinish ss).1
  | DoSendHeaders id headers fin => Some (on_core (fun s => (SendHeaders s id headers fin).1) ss)
  | DoOpenStream headers fin => Some (on_core (fun s => (OpenStream s headers fin).1) ss)
  | DoPushPromise parent headers => Some (on_core (fun s => (PushPromise s parent headers).1) ss)
  | DoSendData id src fin => Some (on_core (fun s => (SendData s id src fin).1) ss)
  | DoResetStream id c => Some (on_core (fun s => (ResetStream s id c).1) ss)
  | DoPing data => Some (on_core (fun s => (Ping s data).1) ss)
  | DoGoAway c debug => Some (on_core (fun s => (GoAway s c debug).1) ss)
  | DoPriorityUpdate id value => Some (on_core (fun s => (PriorityUpdate s id value).1) ss)
  | DoUpdateSettings settings => Some (UpdateSettings ss settings).1
  | DoNextEvent => Some (on_core (fun s => (NextEvent s).1) ss)
  | DoConsumeOutput n => Some (on_core (fun s => (ConsumeOutput s n).1) ss)
  | DoClose => Some (on_core Close ss)
  end.

Fixpoint runs (ops : list Op) ss : option Session :=
  match ops with [] => Some ss | op :: ops => match run op ss with None => None | Some ss => runs ops ss end end.

(** Arguments of the types of the code: bytes, eight of them for PING. *)
Definition op_typed (op : Op) : Prop :=
  match op with
  | DoFeed src => bytes src
  | DoPing data => length data = 8%nat
  | DoUpdateSettings settings => Forall value_typed settings
  | _ => True
  end.

Definition emits (op : Op) : bool := match op with DoConsumeOutput _ | DoClose => false | _ => true end.

(** A closed session holds nothing. *)
Definition closed_ok s : Prop := s.(closed) = true /\ s.(streams) = ∅ /\ s.(events) = [] /\ s.(output) = [].

(** A session with the limits of [l], or a closed one. *)
Definition state_ok (l : SessionLimits) ss : Prop :=
  session_ok ss /\ fixed ss.(core).(slimits) = fixed l \/ closed_ok ss.(core).

Lemma run_good op ss m :
  session_ok ss -> op_typed op -> emits op = true -> ss.(core).(peerMaxFrame) <= m ->
  exists ss', run op ss = Some ss' /\ session_ok ss' /\ evolves m ss.(core) ss'.(core).
Proof.
  intros Hss Ht He Hm. pose proof Hss as [Hok Hp].
  assert (defaultMaxFrameSize <= m) as Hd by (destruct Hok as (_ & _ & (_ & _ & _ & _ & F5) & _); lia).
  assert (forall f, good m (core ss) (f (core ss)) ->
    exists ss', Some (on_core f ss) = Some ss' /\ session_ok ss' /\ evolves m (core ss) (core ss')) as Hgo.
  { intros f [G1 G2]. eexists. split; [done|]. split; [by split | done]. }
  destruct op; cbn [run]; try done; try apply Hgo.
  - destruct (Feed_ok m Hd ss src Hss Ht) as ([[ss' rest] err] & -> & (F1 & F2 & F3 & _)). exists ss'. by split.
  - destruct (SessionFinish_good ss m Hd Hss) as [[G1 G2] G3]. eexists. split; [done|]. split; [by split | done].
  - by apply SendHeaders_good.
  - by apply OpenStream_good.
  - by apply PushPromise_good.
  - by apply SendData_good.
  - by apply ResetStream_good.
  - by apply Ping_good.
  - by apply GoAway_good.
  - by apply PriorityUpdate_good.
  - destruct (UpdateSettings_good ss settings m Hss Ht Hm) as [[G1 G2] G3]. eexists. split; [done|]. split; [by split | done].
  - by apply NextEvent_good.
Qed.


Lemma closed_open s headers fin :
  closed_ok s -> closed_ok (OpenStream s headers fin).1 /\
  forall id, rtc rfc_step (status s id) (status (OpenStream s headers fin).1 id).
Proof.
  intros Hc. pose proof Hc as (Ec & Es & Ee & Eo). unfold OpenStream.
  do 2 (match goal with |- context [fst (if ?b then _ else _)] => destruct b; [by split|] end).
  destruct ((nextLocalStream s =? 0) || (MaxInt32 <? nextLocalStream s)) eqn:Hn; [by split|].
  do 2 (match goal with |- context [fst (if ?b then _ else _)] => destruct b; [by split|] end). bool_to_prop. cbv zeta.
  assert (forall a b c x, SendHeaders (s <| nextLocalStream := a |> <| streams := b |> <| activeLocal := c |>) x headers fin =
    (s <| nextLocalStream := a |> <| streams := b |> <| activeLocal := c |>, Some ErrSessionClosed)) as E.
  { intros. unfold SendHeaders, ready. cbn. by rewrite Ec. }
  rewrite E. cbn [fst]. set (x := newStream _ _ _ _ _). cbn.
  assert (delete (nextLocalStream s) (<[nextLocalStream s := x]> (streams s)) = ∅) as Ed.
  { rewrite Es. apply map_eq. intros j. rewrite lookup_empty. destruct (Z.eq_dec (nextLocalStream s) j) as [<-|Hne].
    - apply lookup_delete_eq.
    - by rewrite lookup_delete_ne, lookup_insert_ne, lookup_empty. }
  split; [by split|]. intros id.
  assert (nextLocalStream s <= u32 (nextLocalStream s + 2)) as Hle.
  { destruct (Z.le_gt_cases 0 (nextLocalStream s)); [rewrite u32_small by ids; lia|].
    pose proof (u32_range (nextLocalStream s + 2)). lia. }
  pose proof (skipped_status s (u32 (nextLocalStream s + 2)) id Hle) as Hs.
  unfold status in *. cbn. rewrite Ed, lookup_empty. cbn in Hs. rewrite Es, lookup_empty in *. exact Hs.
Qed.

(** Nothing happens to a closed session but the use of identifiers. *)
Lemma closed_inert op ss :
  closed_ok ss.(core) -> exists ss', run op ss = Some ss' /\ closed_ok ss'.(core) /\
    forall id, rtc rfc_step (status ss.(core) id) (status ss'.(core) id).
Proof.
  intros Hc. pose proof Hc as (Ec & Es & Ee & Eo). 
  assert (forall h p, appendFrame (core ss) h p = (core ss, Some ErrSessionClosed)) as Ea.
  { intros. unfold appendFrame, ready. by rewrite Ec. }
  assert (forall ss', ss'.(core) = core ss -> exists ss2, Some ss' = Some ss2 /\ closed_ok (core ss2) /\
    forall id, rtc rfc_step (status (core ss) id) (status (core ss2) id)) as Hsame.
  { intros ss' E. exists ss'. rewrite E. by split. }
  destruct op; cbn [run].
  - unfold Feed. rewrite Ec. by apply Hsame.
  - apply Hsame; cbn. unfold SessionFinish. by rewrite Ec.
  - apply Hsame; cbn. unfold SendHeaders, ready. by rewrite Ec.
  - destruct (closed_open (core ss) headers fin Hc) as [H1 H2]. eexists. split; [done|]. split; [exact H1 | exact H2].
  - apply Hsame; cbn. unfold PushPromise. destruct (_ || _); [done|]. by rewrite Es, lookup_empty.
  - apply Hsame; cbn. unfold SendData, ready. by rewrite Ec.
  - apply Hsame; cbn. unfold ResetStream. by rewrite Es, lookup_empty.
  - apply Hsame; cbn. unfold Ping. by rewrite Ea.
  - apply Hsame; cbn. unfold GoAway. destruct (goAwaySent _); [done|]. cbv zeta. by rewrite Ea.
  - apply Hsame; cbn. unfold PriorityUpdate. destruct (_ <? _); [done|]. by rewrite Ea.
  - apply Hsame; cbn. unfold UpdateSettings, ready. by rewrite Ec.
  - apply Hsame; cbn. unfold NextEvent. by rewrite Ee.
  - eexists. split; [done|]. cbn. unfold ConsumeOutput. destruct (_ || _); [by split|]. cbn. split; [|done].
    split; [done|]. split; [done|]. split; [done|]. cbn. rewrite Eo. apply drop_nil.
  - apply Hsame; cbn. unfold Close. by rewrite Ec.
Qed.

Lemma close_ok s : core_ok s -> closed_ok (Close s) /\ forall id, rtc rfc_step (status s id) (status (Close s) id).
Proof.
  intros Hok. pose proof Hok as ((Hc & _) & _). unfold Close. rewrite Hc. split; [by split|].
  intros id. unfold status. cbn. rewrite lookup_empty.
  destruct (streams s !! id) as [x|] eqn:Hx; [|exact (rtc_refl _ _)].
  destruct (core_stream s id x Hok Hx) as (_ & _ & _ & Hu & _). unfold used in *. cbn. rewrite Hu. apply rfc_close.
Qed.

(** Every operation returns, keeps the session sound and moves streams along
    the transitions of the RFC. *)
Lemma run_ok l op ss :
  state_ok l ss -> op_typed op ->
  exists ss', run op ss = Some ss' /\ state_ok l ss' /\ forall id, rtc rfc_step (status ss.(core) id) (status ss'.(core) id).
Proof.
  intros [[Hss Hfix]|Hc] Ht.
  - destruct (emits op) eqn:He.
    + destruct (run_good op ss (peerMaxFrame (core ss)) Hss Ht He ltac:(lia)) as (ss' & -> & H1 & (_ & Hf & H2 & _)).
      exists ss'. split; [done|]. split; [left; split; [done | congruence] | done].
    + destruct op; try done; cbn [run]; (eexists; split; [done|]).
      * pose proof (ConsumeOutput_ok (core ss) n (proj1 Hss)) as H1. split.
        { left. split; [split; [exact H1 | apply Hss]|]. cbn. unfold ConsumeOutput. by destruct (_ || _). }
        intros id. cbn. unfold ConsumeOutput. by destruct (_ || _).
      * destruct (close_ok (core ss) (proj1 Hss)) as [H1 H2]. split; [by right | exact H2].
  - destruct (closed_inert op ss Hc) as (ss' & -> & H1 & H2). exists ss'. split; [done|]. split; [by right | done].
Qed.

Lemma runs_ok l ops ss :
  state_ok l ss -> Forall op_typed ops ->
  exists ss', runs ops ss = Some ss' /\ state_ok l ss' /\ forall id, rtc rfc_step (status ss.(core) id) (status ss'.(core) id).
Proof.
  intros Hss Ht. revert ss Hss. induction Ht as [|op ops Hop Ht IH]; intros ss Hss; cbn [runs]; [by exists ss|].
  destruct (run_ok l op ss Hss Hop) as (s1 & -> & H1 & H2). destruct (IH s1 H1) as (s2 & -> & H3 & H4).
  exists s2. split; [done|]. split; [done|]. intros id. etrans; [apply H2 | apply H4].
Qed.
End Life.
