(* ===== verification/H2SessionFlow.v ===== *)
(** * HTTP/2: what the operations of a session do

    The functional behaviour behind the claims: how much [SendData] sends and
    what it charges, how a header block is cut into frames and put together
    again by the peer's frame parser, what SETTINGS and GOAWAY do to every
    stream, and how received DATA is charged to the windows. *)

From stdpp Require Import gmap.
From S2P Require Import Prelude H2Frame H2FrameWf H2FrameSpec H2BlockSpec H2FrameHost H2Hpack H2Headers H2Session H2SessionTable H2SessionWf H2SessionInbound H2SessionOutbound.
Open Scope Z_scope.

Section Flow.
Context `{HP : Hpack} `{RO : !RangeOrder} `{HF : !HpackFits}.
Implicit Types s : Core.

(** [appendFrame] on a session that is open: exact. *)
Lemma appendFrame_cases s h payload :
  header_typed h ->
  (exists e, appendFrame s h payload = (s, Some e)) \/
  (appendFrame s h payload = (s <| output := s.(output) ++ wire (sized h payload, payload) |>, None)).
Proof.
  intros Hh. unfold appendFrame. destruct (ready s); [by left; eexists|].
  destruct (append_cases s h payload Hh) as [[e ->]|(-> & _)]; [by left; eexists | by right].
Qed.

(** [appendFrame] of a valid frame on a session that has not failed. *)
Lemma appendFrame_valid s h payload :
  s.(closed) = false -> s.(failed) = None -> header_typed h -> appendable h payload = true ->
  validateFrameHeader (sized h payload) = CodeNone ->
  (appendFrame s h payload).1 =
    s <| output := s.(output) ++ (if len s.(output) + (9 + len payload) <=? s.(slimits).(MaxQueuedOutputBytes) then wire (sized h payload, payload) else []) |>.
Proof.
  intros Hc Hf Hh Ha Hv. unfold appendFrame, ready. rewrite Hc, Hf. unfold appendFrameEvenFailed, reserveOutput.
  pose proof (len_nonneg payload). rewrite (proj2 (Z.leb_le 0 (9 + len payload))) by lia. cbn [andb].
  assert ((9 + len payload <=? MaxQueuedOutputBytes (slimits s) - len (output s)) = (len (output s) + (9 + len payload) <=? MaxQueuedOutputBytes (slimits s))) as -> by lia.
  destruct (_ <=? _); cbn [negb].
  - rewrite AppendFrame_eq, Ha, Hv by done. done.
  - cbn [fst]. rewrite app_nil_r. by destruct s.
Qed.

(** ** Sending data *)

(** How much of [src] fits the frame size and the two send windows. *)
Definition sendable s (x : sessionStream) (src : list Z) : Z :=
  Z.min (Z.min (Z.min (len src) s.(peerMaxFrame)) s.(connectionSendWindow)) x.(sendWindow).

(** The state of a stream after its last frame was sent. *)
Definition ended (st : StreamState) : StreamState :=
  match st with
  | StreamOpen => StreamHalfClosedLocal
  | StreamHalfClosedRemote => StreamClosed
  | StreamReservedLocal => StreamHalfClosedRemote
  | _ => st
  end.

Lemma closeStream_outside s id :
  table_ok s -> (closeStream s id).(output) = s.(output) /\ (closeStream s id).(connectionSendWindow) = s.(connectionSendWindow).
Proof. intros Ht. destruct (closeStream_table s id Ht) as [_ (t & cl & al & ap & ->)]. done. Qed.

Lemma localEnd_outside s id :
  table_ok s -> (localEnd s id).(output) = s.(output) /\ (localEnd s id).(connectionSendWindow) = s.(connectionSendWindow).
Proof.
  intros Ht. unfold localEnd. destruct (streams s !! id) as [x|]; [|done]. destruct (sstate x); try done. by apply closeStream_outside.
Qed.

(** The evicted streams were closed before, so the one just closed stays. *)
Lemma closeStream_lookup s id x y :
  table_ok s -> s.(streams) !! id = Some x -> is_closed x.(sstate) = false ->
  (closeStream s id).(streams) !! id = Some y -> y = closing x.
Proof.
  intros Ht Hx Hc. rewrite (closeStream_eq s id x Ht Hx Hc). cbn.
  pose proof Ht as ((HlC & HlS) & _ & _ & (Hcl & Hlen & Hsz & _)).
  pose proof (lists_closed_close _ _ _ _ Hcl Hx Hc) as Hcl'. pose proof (lists_closed_len _ _ Hcl') as Hlen'.
  assert (size (<[id := closing x]> (streams s)) = size (streams s)) as Esz by (apply map_size_insert_Some; eauto).
  pose proof (evict_ok (MaxClosedStreams (slimits s)) (closedStreams s ++ [id]) _ ltac:(lia) ltac:(lia) Hcl') as He.
  destruct (evict _ _ _) as [cl t]. destruct He as (_ & _ & H3 & _). cbn. intros Hy.
  destruct (H3 id) as [E|[E _]]; rewrite E in Hy; [|done]. rewrite lookup_insert_eq in Hy. by injection Hy as <-.
Qed.

Lemma localEnd_status s id x :
  table_ok s -> s.(streams) !! id = Some x -> canSend x.(sstate) = true ->
  status (localEnd s id) id = ended x.(sstate) /\
  forall y, (localEnd s id).(streams) !! id = Some y -> y.(sendWindow) = x.(sendWindow) /\ y.(sendBody) = x.(sendBody).
Proof.
  intros Ht Hx Hs. unfold localEnd. rewrite Hx.
  assert (forall st, status (updateStream s id (fun x => x <| sstate := st |>)) id = st /\
    forall y, (updateStream s id (fun x => x <| sstate := st |>)).(streams) !! id = Some y ->
      y.(sendWindow) = x.(sendWindow) /\ y.(sendBody) = x.(sendBody)) as Hup.
  { intros st. unfold status. cbn. rewrite lookup_alter_eq, Hx. cbn. split; [done|]. by intros y [= <-]. }
  destruct (sstate x) eqn:E; try done; try apply Hup. cbn [ended]. split.
  - apply closeStream_closed; [done | by apply (table_stream s id x)].
  - intros y Hy. apply closeStream_lookup with (x := x) in Hy as ->; [done | done | done | by rewrite E].
Qed.

(** A successful [SendData] of some bytes. *)
Lemma SendData_sent s s' id src fin n :
  core_ok s -> src <> [] -> SendData s id src fin = (s', (n, None)) ->
  exists x, s.(streams) !! id = Some x /\ canSend x.(sstate) = true /\ n = sendable s x src /\ 0 < n /\
    let last := (n =? len src) && fin in
    s'.(output) = s.(output) ++ wire (mkFrameHeader n FrameData (if last then FlagEndStream else 0) id, take (Z.to_nat n) src) /\
    s'.(connectionSendWindow) = s.(connectionSendWindow) - n /\
    status s' id = (if last then ended x.(sstate) else x.(sstate)) /\
    forall y, s'.(streams) !! id = Some y ->
      y.(sendWindow) = x.(sendWindow) - n /\ y.(sendBody) = u64 (x.(sendBody) + n).
Proof.
  intros Hok Hne. unfold SendData. destruct (ready s); [done|]. destruct (streams s !! id) as [x|] eqn:Hx; [|done].
  destruct (negb (sentHeaders x) || negb (canSend (sstate x)) || sentTrailers x || sendNoBody x) eqn:Hg; [done|].
  destruct (_ && _); [done|]. destruct src as [|b src]; [done|]. clear Hne. set (src0 := b :: src) in *.
  bool_to_prop. unfold sendChunk. cbv zeta. rewrite minInt_eq.
  set (n1 := if connectionSendWindow s <? _ then _ else _). set (n0 := if sendWindow x <? n1 then _ else _).
  assert (n0 = sendable s x src0) as En by (unfold n0, n1, sendable; repeat case_match; bool_to_prop; lia).
  destruct (Z.leb_spec n0 0); [done|]. destruct (_ && negb _); [done|].
  set (h := frameHeader FrameData _ id). pose proof (core_stream s id x Hok Hx) as (_ & Hid & _ & Hused & _).
  assert (header_typed h) as Hh by (apply frameHeader_typed; [by vm_compute | by destruct (_ && fin) | ids]).
  assert (len (take (Z.to_nat n0) src0) = n0) as Hlen.
  { unfold len at 1. rewrite length_take. assert (n0 <= len src0) by (rewrite En; unfold sendable; lia). unfold len in *. lia. }
  destruct (appendFrame_cases s h (take (Z.to_nat n0) src0) Hh) as [[e ->]| ->]; [done|].
  set (s1 := s <| output := _ |>). set (s2 := s1 <| connectionSendWindow := _ |>). set (f := fun x => _).
  assert (table_ok (updateStream s2 id f)) as Ht.
  { pose proof Hok as (_ & _ & _ & _ & _ & Ht). apply (table_update s2 id f x); [exact Ht | exact Hx | done|].
    destruct (core_windows s id x Hok Hx) as [W1 W2]. split; [|exact W2].
    assert (n0 <= sendWindow x) by (rewrite En; unfold sendable; lia). cbn. unfold MinInt32 in *. lia. }
  assert ((updateStream s2 id f).(streams) !! id = Some (f x)) as Hfx by (cbn; by rewrite lookup_alter_eq, Hx).
  intros Heq. pose proof (f_equal fst Heq) as E1. pose proof (f_equal (fun r => r.2.1) Heq) as E2. cbn [fst snd] in E1, E2.
  subst s' n. clear Heq.
  exists x. split; [done|]. split; [done|]. split; [done|]. split; [done|]. cbv zeta.
  assert (output s1 = output s ++ wire (mkFrameHeader n0 FrameData (if (n0 =? len src0) && fin then FlagEndStream else 0) id,
    take (Z.to_nat n0) src0)) as Eo by (unfold s1, h, sized; cbn [output set setc_output]; cbn; by rewrite Hlen).
  destruct ((n0 =? len src0) && fin).
  - destruct (localEnd_outside (updateStream s2 id f) id Ht) as [-> ->]. destruct (localEnd_status _ id (f x) Ht Hfx ltac:(done)) as [-> Hy].
    split; [exact Eo|]. split; [done|]. split; [done|]. exact Hy.
  - split; [exact Eo|]. split; [done|]. unfold status. rewrite Hfx. split; [done|]. intros y [= <-]. done.
Qed.

(** An error of [SendData] leaves everything as it was. *)
Lemma SendData_refused s s' id src fin n e : core_ok s -> SendData s id src fin = (s', (n, Some e)) -> s' = s /\ n = 0.
Proof.
  intros Hok. unfold SendData. destruct (ready s); [by intros [= <- <- _]|].
  destruct (streams s !! id) as [x|] eqn:Hx; [|by intros [= <- <- _]]. pose proof (core_stream s id x Hok Hx) as (_ & Hid & _).
  do 2 (match goal with |- (if ?b then _ else _) = _ -> _ => destruct b; [by intros [= <- <- _]|] end).
  destruct src as [|b src].
  - do 2 (match goal with |- (if ?b then _ else _) = _ -> _ => destruct b; [by intros [= <- <- _]|] end).
    destruct (appendFrame_cases s (frameHeader FrameData FlagEndStream id) [] ltac:(apply frameHeader_typed; [done | done | ids]))
      as [[e' ->]| ->]; by intros [= <- <- _].
  - unfold sendChunk. cbv zeta.
    do 2 (match goal with |- (if ?b then _ else _) = _ -> _ => destruct b; [by intros [= <- <- _]|] end).
    match goal with |- context [appendFrame s ?h ?p] => destruct (appendFrame_cases s h p) as [[e' ->]| ->] end;
      [|by intros [= <- <- _]..]. apply frameHeader_typed; [by vm_compute | by destruct (_ && fin) | ids].
Qed.

(** Why bytes are not sent, when the output queue has room for them. *)
Definition may_send (x : sessionStream) : bool :=
  x.(sentHeaders) && canSend x.(sstate) && negb x.(sentTrailers) && negb x.(sendNoBody).

(** More than the announced content-length, or its end before it. *)
Definition breaks_length s (x : sessionStream) (src : list Z) (fin : bool) : Prop :=
  x.(sendHasLength) = true /\
  (u64 (x.(sendLength) - x.(sendBody)) < len src \/
   sendable s x src = len src /\ fin = true /\ u64 (x.(sendBody) + len src) <> x.(sendLength)).

Definition refusal s (id : Z) (src : list Z) (fin : bool) (e : SessionError) : Prop :=
  s.(failed) = Some e \/ (s.(streams) !! id = None /\ e = ErrStreamNotFound) \/
  exists x, s.(streams) !! id = Some x /\
    ((may_send x = false /\ e = ErrStreamState) \/ (breaks_length s x src fin /\ e = ErrInvalidHeaders) \/
     (sendable s x src <= 0 /\ e = ErrWouldBlock)).

(** Room for the frame [SendData] would queue. *)
Definition output_room s (id : Z) (src : list Z) : Prop :=
  forall x, s.(streams) !! id = Some x -> len s.(output) + 9 + sendable s x src <= s.(slimits).(MaxQueuedOutputBytes).

Lemma SendData_reason s s' id src fin n e :
  core_ok s -> src <> [] -> output_room s id src -> SendData s id src fin = (s', (n, Some e)) -> refusal s id src fin e.
Proof.
  intros Hok Hne Hroom. pose proof Hok as ((Hc & _) & _ & (_ & _ & _ & _ & Hpm) & _). unfold SendData, ready. rewrite Hc.
  destruct (failed s) as [e0|] eqn:Hf; [intros [= _ _ <-]; by left|]. destruct (streams s !! id) as [x|] eqn:Hx; [|intros [= _ _ <-]; by right; left].
  intros H. right; right. exists x. split; [done|]. specialize (Hroom x Hx). pose proof (core_stream s id x Hok Hx) as (_ & Hid & _).
  destruct (negb (sentHeaders x) || negb (canSend (sstate x)) || sentTrailers x || sendNoBody x) eqn:Hg.
  { injection H as _ _ <-. left. split; [|done]. unfold may_send. by destruct (sentHeaders x), (canSend (sstate x)), (sentTrailers x), (sendNoBody x). }
  destruct (sendHasLength x && _) eqn:Hl; [injection H as _ _ <-; bool_to_prop; right; left; split; [|done]; split; [done | by left]|].
  destruct src as [|b src]; [done|]. set (src0 := b :: src) in *. unfold sendChunk in H. cbv zeta in H. rewrite minInt_eq in H.
  set (n1 := if connectionSendWindow s <? _ then _ else _) in H. set (n0 := if sendWindow x <? n1 then _ else _) in H.
  assert (n0 = sendable s x src0) as En by (unfold n0, n1, sendable; repeat case_match; bool_to_prop; lia).
  clearbody n0. subst n0. destruct (Z.leb_spec (sendable s x src0) 0) as [Hn|Hn]; [injection H as _ _ <-; right; right; by split|].
  destruct (_ && negb _) eqn:Hb; [injection H as _ _ <-|].
  { right; left. split; [|done]. bool_to_prop. split; [done|]. right. split; [done|]. split; [done|]. by replace (len src0) with (sendable s x src0). }
  set (h := frameHeader FrameData _ id) in H. assert (len (take (Z.to_nat (sendable s x src0)) src0) = sendable s x src0) as Hlen.
  { unfold len at 1. rewrite length_take. assert (sendable s x src0 <= len src0) by (unfold sendable; lia). unfold len in *. lia. }
  set (last := (sendable s x src0 =? len src0) && fin) in *.
  assert (validateFrameHeader (sized h (take (Z.to_nat (sendable s x src0)) src0)) = CodeNone) as Hv.
  { unfold validateFrameHeader, sized, h. cbn. destruct (Z.eqb_spec id 0); [ids|]. by destruct last. }
  assert (appendable h (take (Z.to_nat (sendable s x src0)) src0) = true) as Ha.
  { unfold appendable. rewrite Hlen. unfold h. cbn. rewrite (proj2 (Z.leb_le id streamMask)) by ids.
    rewrite (proj2 (Z.leb_le _ maxFrameSize)) by (unfold sendable in *; lia). done. }
  unfold appendFrame, ready in H. rewrite Hc, Hf in H. unfold appendFrameEvenFailed, reserveOutput in H. rewrite Hlen in H.
  rewrite (proj2 (Z.leb_le 0 (9 + _))), (proj2 (Z.leb_le (9 + _) _)) in H by lia. cbn [andb negb] in H.
  rewrite AppendFrame_eq, Ha, Hv in H; [done|]. apply frameHeader_typed; [by vm_compute | by destruct last | ids].
Qed.

(** ** Header blocks *)

Definition promisePart (t promised : Z) : list Z := if t =? FramePushPromise then putUint32 promised else [].

(** The flags of a frame that leaves [rest] of its block. *)
Definition blockFlags (t : Z) (fin first : bool) (rest : list Z) : Z :=
  let flags := match rest with [] => FlagEndHeaders | _ => 0 end in
  if first && fin && (t =? FrameHeaders) then Z.lor flags FlagEndStream else flags.

Lemma len_take_eq {A} (l : list A) n : 0 <= n <= len l -> len (take (Z.to_nat n) l) = n.
Proof. unfold len. rewrite length_take. lia. Qed.

(** A turn cuts off as much as the frame holds. *)
Lemma nextBlockFrame_eq s t id promised (fin first : bool) block :
  core_ok s ->
  exists (c rest : list Z), let pre := if first then promisePart t promised else [] in
    block = c ++ rest /\ (block <> [] -> c <> []) /\ len (pre ++ c) <= s.(peerMaxFrame) /\
    nextBlockFrame s t id promised fin first block =
      ((frameHeader (if first then t else FrameContinuation) (blockFlags t fin first rest) id, pre ++ c), rest).
Proof.
  intros (_ & _ & (_ & _ & _ & _ & F5) & _). change defaultMaxFrameSize with 16384 in F5. unfold nextBlockFrame. cbv zeta.
  set (k := if first && (t =? FramePushPromise) then 4 else 0). rewrite minInt_eq. set (n := Z.min (len block) (peerMaxFrame s - k)).
  pose proof (len_nonneg block). assert (0 <= n <= len block /\ (len block <> 0 -> 0 < n) /\ n + k <= peerMaxFrame s) as (Hn & Hn' & Hk).
  { unfold n, k. destruct (_ && _); lia. }
  exists (take (Z.to_nat n) block), (drop (Z.to_nat n) block). split; [symmetry; apply take_drop|].
  pose proof (len_take_eq block n Hn) as Hc. pose proof (len_drop n block Hn) as Hr. split; [|split].
  - intros Hne E. rewrite E, len_nil in Hc. destruct block; [done|]. rewrite len_cons in *. pose proof (len_nonneg block). lia.
  - rewrite len_app, Hc. enough (len (if first then promisePart t promised else []) = k) by lia.
    unfold k, promisePart. destruct first; [|done]. by destruct (t =? FramePushPromise).
  - f_equal. f_equal.
    + f_equal. unfold blockFlags. assert ((if n =? len block then FlagEndHeaders else 0) =
        match drop (Z.to_nat n) block with [] => FlagEndHeaders | _ => 0 end) as ->; [|done].
      destruct (Z.eqb_spec n (len block)) as [E|E].
      * rewrite E in Hr. assert (len (drop (Z.to_nat n) block) = 0) as H0 by (rewrite E; lia). by apply len_zero in H0 as ->.
      * destruct (drop (Z.to_nat n) block); [rewrite len_nil in Hr; lia | done].
    + unfold promisePart. destruct first; [|done]. by destruct (t =? FramePushPromise).
Qed.

Lemma blockFlags_typed t fin first rest : in_u8 (blockFlags t fin first rest).
Proof. unfold blockFlags. destruct rest, (first && fin && _); by vm_compute. Qed.

Lemma chunks_nil (chunks : list (list Z)) rest :
  concat chunks = rest -> Forall (fun c => c <> []) chunks ->
  match rest with [] => FlagEndHeaders | _ => 0 end = match chunks with [] => FlagEndHeaders | _ => 0 end.
Proof.
  intros <- Hne. destruct chunks as [|c chunks]; [done|]. apply Forall_cons_1 in Hne as [Hc _]. by destruct c.
Qed.

Definition chunk_ok s (c : list Z) : Prop := c <> [] /\ len c <= s.(peerMaxFrame).

(** The frames after the first. *)
Lemma appendBlock_rest fuel s s' t id promised fin block :
  core_ok s -> in_u8 t -> in_u32 id -> (length block <= fuel)%nat ->
  appendBlock fuel s t id promised fin false block = (s', None) ->
  exists chunks, concat chunks = block /\ Forall (chunk_ok s) chunks /\
    s' = s <| output := s.(output) ++ wires (contFrames id chunks) |>.
Proof.
  revert s block. induction fuel as [|fuel IH]; intros s block Hok Ht Hid Hfuel; cbn [appendBlock orb]; destruct block as [|b block];
    cbn [length] in Hfuel; try lia.
  1, 2: cbn; intros [= <-]; exists []; split; [done|]; split; [constructor|]; by rewrite app_nil_r.
  replace (len (b :: block) =? 0) with false by (symmetry; apply Z.eqb_neq; rewrite len_cons; pose proof (len_nonneg block); lia).
  cbn [negb]. destruct (nextBlockFrame_eq s t id promised fin false (b :: block) Hok) as (c & rest & Ecr & Hne & Hl & ->).
  cbn [app] in *. specialize (Hne ltac:(done)). set (h := frameHeader _ _ id).
  assert (header_typed h) as Hh by (apply frameHeader_typed; [by vm_compute | apply blockFlags_typed | exact Hid]).
  pose proof (appendFrame_good (peerMaxFrame s) s h c Hok Hh Hl) as [Hok1 _].
  destruct (appendFrame_cases s h c Hh) as [[e ->]| Eok]; [done|]. rewrite Eok in *. cbn [fst] in Hok1.
  set (s1 := s <| output := _ |>) in *. intros E. destruct (IH s1 rest Hok1 Ht Hid) as (chunks & E1 & E2 & E3); [|exact E|].
  { apply (f_equal (@length Z)) in Ecr. rewrite length_app in Ecr. cbn [length] in Ecr. destruct c; [done|]. cbn in *. lia. }
  exists (c :: chunks). split; [cbn; by rewrite E1, Ecr|]. split; [by constructor|]. rewrite E3. unfold s1, h, sized, frameHeader.
  cbn [Type_ Flags StreamID contFrames]. unfold blockFlags. cbn [andb].
  rewrite (chunks_nil chunks rest E1); [|by eapply Forall_impl; [exact E2 | intros ? []]].
  unfold wires. cbn [map concat]. unfold set, setc_output. cbn. by rewrite <- app_assoc.
Qed.

(** All the frames of a block. *)
Lemma appendBlock_frames s s' t id promised fin block :
  core_ok s -> in_u8 t -> in_u32 id ->
  appendBlock (S (length block)) s t id promised fin true block = (s', None) ->
  exists (c : list Z) chunks, c ++ concat chunks = block /\ len (promisePart t promised ++ c) <= s.(peerMaxFrame) /\ Forall (chunk_ok s) chunks /\
    s' = s <| output := s.(output) ++ wires (blockFrames t id (promisePart t promised) fin (c :: chunks)) |>.
Proof.
  intros Hok Ht Hid. cbn [appendBlock orb].
  destruct (nextBlockFrame_eq s t id promised fin true block Hok) as (c & rest & Ecr & _ & Hl & ->). set (h := frameHeader _ _ id).
  assert (header_typed h) as Hh by (apply frameHeader_typed; [done | apply blockFlags_typed | exact Hid]).
  pose proof (appendFrame_good (peerMaxFrame s) s h _ Hok Hh Hl) as [Hok1 _].
  destruct (appendFrame_cases s h (promisePart t promised ++ c) Hh) as [[e ->]| Eok]; [done|]. rewrite Eok in *. cbn [fst] in Hok1.
  set (s1 := s <| output := _ |>) in *. intros E.
  destruct (appendBlock_rest (length block) s1 s' t id promised fin rest Hok1 Ht Hid) as (chunks & E1 & E2 & E3); [|exact E|].
  { rewrite Ecr, length_app. lia. }
  exists c, chunks. split; [by rewrite E1|]. split; [done|]. split; [done|]. rewrite E3. unfold s1, h, sized, frameHeader.
  cbn [Type_ Flags StreamID blockFrames]. unfold blockFlags. cbn [andb].
  rewrite (chunks_nil chunks rest E1); [|by eapply Forall_impl; [exact E2 | intros ? []]].
  unfold wires. cbn [map concat]. unfold set, setc_output. cbn. by rewrite <- app_assoc.
Qed.

(** What the HPACK encoder writes for a section. *)
Fixpoint encodedBlock (e : Encoder) (headers : list HeaderField) : list Z :=
  match headers with [] => [] | f :: headers => (WriteField e f).2 ++ encodedBlock (WriteField e f).1 headers end.

Lemma encodeFields_block limit s headers s1 :
  encodeFields limit s headers = (s1, None) ->
  s1.(headerBlock) = s.(headerBlock) ++ encodedBlock s.(encoder) headers /\ len s1.(headerBlock) <= Z.max limit (len s.(headerBlock)) /\
  exists e, s1 = with_output s e s1.(headerBlock) s.(output).
Proof.
  revert s. induction headers as [|f headers IH]; intros s; cbn [encodeFields encodedBlock].
  { intros [= <-]. rewrite app_nil_r. split; [done|]. split; [lia | by exists (encoder s)]. }
  destruct (WriteField (encoder s) f) as [e bs]. cbv zeta. destruct (Z.ltb_spec (limit - len (headerBlock (s <| encoder := e |>))) (len bs)) as [|Hl]; [done|].
  intros E. destruct (IH _ E) as (H1 & H2 & e' & H3). split; [rewrite H1; cbn; by rewrite <- app_assoc|]. split.
  - cbn in H2, Hl. rewrite len_app in H2. lia.
  - exists e'. rewrite H3. done.
Qed.

Lemma encodeAndAppend_frames s s' t id promised headers fin :
  core_ok s -> in_u8 t -> in_u32 id -> encodeAndAppendHeaders s t id promised headers fin = (s', None) ->
  exists (c : list Z) chunks, c ++ concat chunks = encodedBlock s.(encoder) headers /\
    s'.(output) = s.(output) ++ wires (blockFrames t id (promisePart t promised) fin (c :: chunks)) /\
    len (promisePart t promised ++ c) <= s.(peerMaxFrame) /\ Forall (chunk_ok s) chunks.
Proof.
  intros Hok Ht Hid. unfold encodeAndAppendHeaders. cbv zeta. destruct (negb _); [done|].
  destruct (encodeFields _ _ headers) as [s1 [e|]] eqn:E; [done|]. apply encodeFields_block in E as (E1 & _ & e' & E3).
  intros Ea. assert (core_ok s1) as Hok1 by (rewrite E3; exact Hok).
  destruct (appendBlock_frames s1 s' t id promised fin (headerBlock s1) Hok1 Ht Hid Ea) as (c & chunks & F1 & F2 & F3 & F4).
  exists c, chunks. rewrite F1, F4, E1. split; [done|]. rewrite E3 in F2, F3 |- *. by split_and!.
Qed.

End Flow.

(** ** Received frames *)

(** Go's [range] visits every entry that is not deleted meanwhile, once. *)
Class RangeComplete `{HP : Hpack} `{RO : !RangeOrder} : Prop := {
  range_nodup s : NoDup (rangeOrder s);
  range_all s id : is_Some (s.(streams) !! id) -> id ∈ rangeOrder s;
}.

Section Received.
Context `{HP : Hpack} `{RO : !RangeOrder} `{HF : !HpackFits}.
Implicit Types s : Core.

(** What queueing leaves alone. *)
Lemma tryEvent_rest s e :
  (tryEvent s e).(streams) = s.(streams) /\ (tryEvent s e).(failed) = s.(failed) /\
  (tryEvent s e).(connectionRecvWindow) = s.(connectionRecvWindow) /\ forall id, status (tryEvent s e) id = status s id.
Proof. unfold tryEvent, queueEvent. by destruct (_ || _). Qed.

Lemma appendFrame_rest s h p :
  header_typed h ->
  (appendFrame s h p).1.(failed) = s.(failed) /\ (appendFrame s h p).1.(connectionRecvWindow) = s.(connectionRecvWindow) /\
  forall id, status (appendFrame s h p).1 id = status s id.
Proof. intros Hh. destruct (appendFrame_output s h p Hh) as [out ->]. done. Qed.

Lemma closeStream_rest s id :
  table_ok s -> (closeStream s id).(failed) = s.(failed) /\ (closeStream s id).(connectionRecvWindow) = s.(connectionRecvWindow).
Proof. intros Ht. by destruct (closeStream_table s id Ht) as [_ (t & cl & al & ap & ->)]. Qed.

Lemma connectionError_failed s c reason :
  s.(failed) = None -> (connectionError s c reason).(failed) = Some (ErrProtocol (mkProtocolError 0 c reason)).
Proof.
  intros Hf. unfold connectionError. rewrite connectionErrorE_failed. unfold connectionErrorE. by rewrite Hf.
Qed.

(** The streams that may receive a body. *)
Definition receiving (x : sessionStream) : bool :=
  canReceive x.(sstate) && x.(receivedHeaders) && negb x.(receivedTrailers) && negb x.(receiveNoBody).

Lemma onFrameBegin_data s h :
  s.(failed) = None -> s.(peerInitialSettings) = true -> h.(Type_) = FrameData ->
  onFrameBegin h s = beginData (s <| currentFrame := h |>) h.
Proof. intros Hf Hp Ht. unfold onFrameBegin, is_failed. rewrite Hf. cbn. by rewrite Hp, Ht. Qed.

(** ** SETTINGS_INITIAL_WINDOW_SIZE *)

Definition shifted (change : Z) (x : sessionStream) : sessionStream :=
  if is_closed x.(sstate) then x else x <| sendWindow := x.(sendWindow) + change |>.

Lemma shiftSendWindows_all order change (t t' : gmap Z sessionStream) :
  NoDup order -> shiftSendWindows order change t = (t', true) ->
  forall id, t' !! id = if decide (id ∈ order) then shifted change <$> t !! id else t !! id.
Proof.
  revert t. induction order as [|k order IH]; intros t Hnd; cbn [shiftSendWindows].
  { intros [= <-] id. rewrite decide_False; [done|]. apply not_elem_of_nil. }
  apply NoDup_cons in Hnd as [Hk Hnd]. intros E id.
  assert (exists u, shiftSendWindows order change u = (t', true) /\ u !! k = shifted change <$> t !! k /\
    forall j, j <> k -> u !! j = t !! j) as (u & Eu & Uk & Uj).
  { destruct (t !! k) as [x|] eqn:Hx; [|by exists t]. unfold shifted. destruct (is_closed (sstate x)) eqn:Hc.
    - exists t. rewrite Hx. cbn. by rewrite Hc.
    - cbv zeta in E. destruct (_ || _); [done|]. eexists. split; [exact E|]. split; [rewrite lookup_insert_eq; cbn; by rewrite Hc|].
      intros j Hj. by rewrite lookup_insert_ne. }
  rewrite (IH u Hnd Eu id). destruct (Z.eq_dec id k) as [->|Hne].
  - rewrite (decide_False (P := k ∈ order)) by done. rewrite decide_True by (apply elem_of_cons; by left). done.
  - rewrite (Uj id Hne). destruct (decide (id ∈ order)) as [Hin|Hin].
    + rewrite decide_True; [done|]. apply elem_of_cons. by right.
    + rewrite decide_False; [done|]. intros [->|?]%elem_of_cons; done.
Qed.

Lemma applyPeerSetting_window s v :
  applyPeerSetting s (mkSetting SettingInitialWindowSize v) =
    let r := shiftSendWindows (rangeOrder s) (v - s.(peerInitialWindow)) s.(streams) in
    if r.2 then (s <| streams := r.1 |> <| peerInitialWindow := v |>, None)
    else (s <| streams := r.1 |>, protocolError 0 ErrCodeFlowControl (str "SETTINGS_INITIAL_WINDOW_SIZE overflow")).
Proof. unfold applyPeerSetting. cbn [Value ID]. cbv zeta. by destruct (shiftSendWindows _ _ _) as [m []]. Qed.

Lemma initial_window_applied `{!RangeComplete} s s' v :
  applyPeerSetting s (mkSetting SettingInitialWindowSize v) = (s', None) ->
  s'.(peerInitialWindow) = v /\ s'.(streams) = shifted (v - s.(peerInitialWindow)) <$> s.(streams).
Proof.
  rewrite applyPeerSetting_window. cbv zeta.
  destruct (shiftSendWindows _ _ _) as [t ok] eqn:E. destruct ok; [|done]. intros [= <-]. split; [done|]. cbn.
  apply map_eq. intros id. rewrite lookup_fmap. rewrite (shiftSendWindows_all _ _ _ _ (range_nodup s) E id).
  destruct (streams s !! id) as [x|] eqn:Hx; [|by destruct (decide _)].
  rewrite decide_True; [done|]. apply range_all. by rewrite Hx.
Qed.

(** ** GOAWAY *)

Lemma rfc_not_idle a : rtc rfc_step a StreamIdle -> a = StreamIdle.
Proof. intros H. apply rtc_inv_r in H as [|(y & _ & Hy)]; [done|]. inversion Hy. Qed.

Lemma closed_stays m s s' id : good m s s' -> status s id = StreamClosed -> status s' id = StreamClosed.
Proof. intros (_ & _ & _ & Hr & _) Hc. apply rfc_closed_final. rewrite <- Hc. apply Hr. Qed.

(** One turn of the loop of [onGoAway]. *)
Definition refuse (last id : Z) s : Core :=
  match s.(streams) !! id with
  | Some x =>
      if x.(slocal) && (last <? x.(sid)) && negb (is_closed x.(sstate))
      then tryEvent (closeStream s id) (event EventStreamReset x.(sid) <| evErrorCode := ErrCodeRefusedStream |>)
      else s
  | None => s
  end.

Lemma refuse_good last id s : core_ok s -> good defaultMaxFrameSize s (refuse last id s).
Proof. intros Hok. exact (refuseAbove_good defaultMaxFrameSize [id] last s Hok). Qed.

(** It closes the stream when it must, and touches no other. *)
Lemma refuse_status last id s j :
  core_ok s -> status (refuse last id s) j =
    if (id =? j) && local_id s.(role) id && (last <? id) && bool_decide (is_Some (s.(streams) !! id)) then StreamClosed else status s j.
Proof.
  intros Hok. pose proof Hok as (_ & _ & _ & _ & _ & Ht). unfold refuse. destruct (streams s !! id) as [x|] eqn:Hx.
  2: { rewrite bool_decide_eq_false_2 by (intros [? ?]; done). by rewrite andb_false_r. }
  rewrite bool_decide_eq_true_2 by done. rewrite andb_true_r. destruct (core_stream s id x Hok Hx) as (-> & _ & -> & _).
  destruct (local_id (role s) id), (last <? id); rewrite ?andb_false_r, ?andb_true_r; cbn [andb]; try done.
  destruct (is_closed (sstate x)) eqn:Hc; cbn [negb].
  - destruct (Z.eqb_spec id j) as [<-|]; [|done]. unfold status. rewrite Hx. by destruct (sstate x).
  - match goal with |- context [tryEvent ?a ?b] => destruct (tryEvent_rest a b) as (_ & _ & _ & ->) end.
    by apply (closeStream_status_eq s id x).
Qed.

Lemma refuse_used last k s id : core_ok s -> used (refuse last k s) id = used s id.
Proof.
  intros (_ & _ & _ & _ & _ & Ht). unfold refuse. destruct (streams s !! k) as [x|]; [|done]. destruct (_ && _); [|done].
  destruct (closeStream_table s k Ht) as [_ (t & cl & al & ap & ->)]. unfold tryEvent, queueEvent. by destruct (_ || _).
Qed.

Lemma refuseAbove_closes order last s id :
  core_ok s -> id ∈ order -> local_id s.(role) id = true -> last < id -> used s id = true ->
  status (refuseAbove order last s) id = StreamClosed.
Proof.
  revert s. induction order as [|k order IH]; intros s Hok Hin Hl Hlast Hs; [by apply not_elem_of_nil in Hin|].
  cbn [refuseAbove]. fold (refuse last k s). destruct (refuse_good last k s Hok) as [Hok1 Hev].
  pose proof (refuse_status last k s id Hok) as Est. pose proof Hev as (Hrole & _).
  destruct (Z.eqb_spec k id) as [->|Hne].
  - eapply closed_stays; [apply (refuseAbove_good defaultMaxFrameSize); exact Hok1|]. rewrite Est, Hl. cbn [andb].
    rewrite (proj2 (Z.ltb_lt _ _)) by lia. cbn [andb]. destruct (bool_decide_reflect (is_Some (streams s !! id))) as [|Hn]; [done|].
    unfold status. destruct (streams s !! id); [by destruct Hn|]. by rewrite Hs.
  - apply IH; [done | | by rewrite Hrole | done | by rewrite refuse_used]. by apply elem_of_cons in Hin as [->|].
Qed.

Lemma refuseAbove_spares order last s id :
  core_ok s -> local_id s.(role) id = false \/ id <= last -> status (refuseAbove order last s) id = status s id.
Proof.
  revert s. induction order as [|k order IH]; intros s Hok Hid; [done|]. cbn [refuseAbove]. fold (refuse last k s).
  destruct (refuse_good last k s Hok) as [Hok1 (Hrole & _)]. rewrite IH by (rewrite ?Hrole; done). rewrite refuse_status by done.
  destruct (Z.eqb_spec k id) as [->|]; [|done]. destruct Hid as [-> | Hid]; [done|].
  rewrite (proj2 (Z.ltb_ge _ _)) by lia. by rewrite andb_false_r.
Qed.

(** GOAWAY gives up the streams above the last one the peer will process. *)
Lemma onGoAway_status `{!RangeComplete} s last c id :
  core_ok s -> s.(goAwayReceived) && (s.(peerLastStream) <? last) = false ->
  is_Some (s.(streams) !! id) ->
  status (onGoAway last c s) id = if local_id s.(role) id && (last <? id) then StreamClosed else status s id.
Proof.
  intros Hok Hg Hsome. unfold onGoAway. rewrite Hg. cbv zeta.
  match goal with |- context [tryEvent ?a ?b] => destruct (tryEvent_rest a b) as (_ & _ & _ & ->) end.
  set (s1 := s <| goAwayReceived := true |> <| peerLastStream := last |>). assert (core_ok s1) as Hok1 by exact Hok.
  change (status s id) with (status s1 id). destruct (local_id (role s) id) eqn:Hl; cbn [andb]; [|apply refuseAbove_spares; auto].
  destruct (Z.ltb_spec last id); [|apply refuseAbove_spares; auto].
  apply refuseAbove_closes; [done | by apply range_all | done | done|].
  destruct Hsome as [x Hx]. by destruct (core_stream s id x Hok Hx) as (_ & _ & _ & Hu & _).
Qed.
End Received.
