(* ===== verification/H2SessionProps.v ===== *)
(** * HTTP/2: the properties of the session

    What a program that owns a session of [src/http2/session.go] relies on,
    stated on its exported operations and proved from the invariant and the
    simulation lemmas of the files before.  The witnesses instantiate the
    HPACK library with [plainHpack], a codec without compression. *)

From stdpp Require Import gmap.
From S2P Require Import Prelude H2Frame H2FrameWf H2FrameSpec H2BlockSpec H2FrameCodec H2Props H2FrameHost H2Hpack H2Headers H2HeadersSpec H2Session H2SessionTable H2SessionWf H2SessionInbound H2SessionOutbound H2SessionLife H2SessionFlow.
Open Scope Z_scope.

(** ** A codec for the witnesses *)

(** A field is the length of its name, the name, the length of its value and
    the value; lengths are single octets. *)
Definition plainWrite (f : HeaderField) : list Z :=
  [len f.(Name)] ++ f.(Name) ++ [len f.(FieldValue)] ++ f.(FieldValue).

Definition takeString (src : list Z) : option (list Z * list Z) :=
  match src with
  | n :: rest =>
      if (n <=? 255) && (n <=? len rest) then Some (take (Z.to_nat n) rest, drop (Z.to_nat n) rest) else None
  | [] => None
  end.

Fixpoint plainRead (fuel : nat) (src : list Z) : list HeaderField * list Z :=
  match fuel with
  | O => ([], src)
  | S fuel =>
      match takeString src with
      | Some (n, rest) =>
          match takeString rest with
          | Some (v, rest) => let (fs, left) := plainRead fuel rest in (mkHeaderField n v false :: fs, left)
          | None => ([], src)
          end
      | None => ([], src)
      end
  end.

Definition plainHpack : Hpack :=
  {| Decoder := list Z;
     Encoder := unit;
     HpackError := unit;
     NewDecoder := fun _ => [];
     SetAllowedMaxDynamicTableSize := fun d _ => d;
     SetMaxStringLength := fun d _ => d;
     DecoderWrite := fun d src =>
       let (fs, left) := plainRead (length d + length src) (d ++ src) in (left, fs, (len src, None));
     DecoderClose := fun d => ([], match d with [] => None | _ => Some tt end);
     NewEncoder := tt;
     SetMaxDynamicTableSizeLimit := fun e _ => e;
     SetMaxDynamicTableSize := fun e _ => e;
     WriteField := fun e f => (e, plainWrite f);
     HpackErrorString := fun _ => str "truncated field" |}.

Lemma takeString_short src n rest : takeString src = Some (n, rest) -> len n <= 255.
Proof.
  destruct src as [|b src]; [done|]. cbn [takeString]. destruct ((b <=? 255) && (b <=? len src)) eqn:E; [|done].
  intros [= <- _]. bool_to_prop. unfold len in *. rewrite length_take. lia.
Qed.

Lemma plainRead_fits fuel src : Forall field_fits (plainRead fuel src).1.
Proof.
  revert src. induction fuel as [|fuel IH]; intros src; cbn [plainRead]; [constructor|].
  destruct (takeString src) as [[n rest]|] eqn:E1; [|constructor]. destruct (takeString rest) as [[v rest']|] eqn:E2; [|constructor].
  specialize (IH rest'). destruct (plainRead fuel rest') as [fs left]. constructor; [|exact IH].
  apply takeString_short in E1, E2. unfold field_fits. cbn. widths. lia.
Qed.

#[export] Instance plain_fits : HpackFits (H := plainHpack).
Proof.
  intros d src. cbn. pose proof (plainRead_fits (length d + length src) (d ++ src)) as H.
  by destruct (plainRead (length d + length src) (d ++ src)) as [fs left].
Qed.

(** Ranging over the streams in the order of the finite map. *)
Definition mapOrder : RangeOrder (H := plainHpack) := fun s => (map_to_list s.(streams)).*1.

(** ** The sessions of the witnesses *)

Definition noLimits : SessionLimits :=
  mkSessionLimits (mkLimits 0 0 0) (mkHeaderLimits 0 0 0 0) 0 0 0 0 0 0 0 0 false false.

Lemma noLimits_typed : session_limits_typed noLimits.
Proof. by vm_compute. Qed.

Definition field (n v : list Z) : HeaderField := mkHeaderField n v false.

Definition demoRequest : list HeaderField :=
  [field (str ":method") (str "POST"); field (str ":scheme") (str "http"); field (str ":path") (str "/")].

Definition demoClient : Session (HP := plainHpack) :=
  match NewSession (HP := plainHpack) RoleClient noLimits with
  | inl s => s
  | inr _ => mkSession (initialCore RoleClient noLimits) (NewParser (mkLimits 0 0 0))
  end.

Definition demoServer : Session (HP := plainHpack) :=
  match NewSession (HP := plainHpack) RoleServer noLimits with
  | inl s => s
  | inr _ => mkSession (initialCore RoleServer noLimits) (NewParser (mkLimits 0 0 0))
  end.

Lemma demoClient_new : NewSession (HP := plainHpack) RoleClient noLimits = inl demoClient.
Proof. by vm_compute. Qed.

Lemma demoServer_new : NewSession (HP := plainHpack) RoleServer noLimits = inl demoServer.
Proof. by vm_compute. Qed.

(** A client that posts three bytes and closes; a server that reads them. *)
Definition demoOps : list Op :=
  [DoOpenStream demoRequest false; DoSendData 1 (str "abc") true; DoNextEvent].

Definition demoTraffic : list Z :=
  match runs (RO := mapOrder) demoOps demoClient with Some s => s.(core).(output) | None => [] end.

(** ** Reachable sessions *)

Section Claims.
Context `{HP : Hpack} `{RO : !RangeOrder} `{HF : !HpackFits}.

Lemma new_state_ok r l ss : session_limits_typed l -> NewSession r l = inl ss -> state_ok (normalizedSession l) ss.
Proof.
  intros Hl Hn. destruct (NewSession_ok r l ss Hl Hn) as (Hok & _ & _ & _ & Es). left. split; [done | by rewrite Es].
Qed.

(** The queues and tables of a session, against the configured limits. *)
Definition within (l : SessionLimits) (s : Core) : Prop :=
  len s.(output) <= l.(MaxQueuedOutputBytes) /\ len s.(events) <= l.(MaxQueuedEvents) /\
  eventSum s.(events) <= l.(MaxQueuedEventBytes) /\ Z.of_nat (size s.(streams)) <= l.(MaxStreams) /\
  Forall (fun e => listSizeOf e.(evHeaders) <= l.(Header).(MaxHeaderListBytes)) s.(events).

Lemma state_within l ss : session_limits_ok l -> state_ok l ss -> within l ss.(core).
Proof.
  intros Hl [[[Hok _] Hfix]|(_ & Es & Ee & Eo)].
  - destruct Hok as (_ & (_ & Q1 & Q2 & Q3 & Q4 & Q5) & _ & _ & _ & (_ & _ & _ & (_ & _ & T & _))).
    unfold fixed in Hfix. injection Hfix as E1 E2 E3 E4 E5 E6 E7. unfold within. rewrite <- E2, <- E3, <- E5, <- E6, <- E7, <- Q3.
    by split_and!.
  - destruct Hl as (_ & _ & _ & H1 & H2 & H3 & H4 & H5 & _). unfold within. rewrite Es, Ee, Eo, map_size_empty. unfold len. cbn.
    split_and!; try lia. constructor.
Qed.
End Claims.

(** ** Claims *)

(** C2. Soundness of reachable sessions: from [NewSession] with any limits,
    any sequence of operations (received bytes of any content included)
    returns and leaves a session that satisfies its invariant: queues within
    their limits, windows within 31 bits, validated settings, a stream table
    whose counters and closed list agree with its entries, a well-formed frame
    parser; or a closed session that holds nothing. *)
Theorem session_sound `{HP : Hpack} `{RO : !RangeOrder} `{HF : !HpackFits} r l ss ops :
  session_limits_typed l -> NewSession r l = inl ss -> Forall op_typed ops ->
  exists ss', runs ops ss = Some ss' /\ state_ok (normalizedSession l) ss'.
Proof.
  intros Hl Hn Ht. destruct (runs_ok _ ops ss (new_state_ok r l ss Hl Hn) Ht) as (ss' & H1 & H2 & _). by exists ss'.
Qed.

Lemma session_sound_witness :
  exists ss', runs (HP := plainHpack) (RO := mapOrder) demoOps demoClient = Some ss' /\ state_ok (normalizedSession noLimits) ss'.
Proof.
  exact (session_sound (HP := plainHpack) (RO := mapOrder) RoleClient noLimits demoClient demoOps noLimits_typed demoClient_new
    ltac:(by repeat constructor)).
Defined.

(** C7. Bounded resources: at every moment of the life of a session, whatever
    the peer sends and whatever its owner does, the queued output, the queued
    events and the bytes they retain, the remembered streams, and the decoded
    size of every field section in an event are within the configured
    limits. *)
Theorem session_bounded `{HP : Hpack} `{RO : !RangeOrder} `{HF : !HpackFits} r l ss ops ss' :
  session_limits_typed l -> NewSession r l = inl ss -> Forall op_typed ops -> runs ops ss = Some ss' ->
  within (normalizedSession l) ss'.(core).
Proof.
  intros Hl Hn Ht E. destruct (runs_ok _ ops ss (new_state_ok r l ss Hl Hn) Ht) as (s2 & H1 & H2 & _). rewrite E in H1.
  injection H1 as <-. apply state_within; [by apply normalizedSession_ok | done].
Qed.

Lemma session_bounded_witness :
  exists ss', runs (HP := plainHpack) (RO := mapOrder) [DoFeed demoTraffic] demoServer = Some ss' /\
    within (normalizedSession noLimits) ss'.(core) /\ len ss'.(core).(events) = 4.
Proof.
  destruct (runs (HP := plainHpack) (RO := mapOrder) [DoFeed demoTraffic] demoServer) as [ss'|] eqn:E; [|by vm_compute in E].
  exists ss'. split; [done|]. split.
  - refine (session_bounded (HP := plainHpack) (RO := mapOrder) RoleServer noLimits demoServer [DoFeed demoTraffic] ss'
      noLimits_typed demoServer_new _ E).
    constructor; [|constructor]. change (bytes demoTraffic).
    let v := eval vm_compute in demoTraffic in change (bytes v). repeat constructor; by vm_compute.
  - revert E. vm_compute. by intros [= <-].
Defined.

(** C4. Stream states: across any sequence of operations, the state of every
    stream identifier (remembered, forgotten or never used) moves only along
    the transitions of RFC 9113, section 5.1; in particular a closed stream is
    never reopened and an identifier is never reused. *)
Theorem session_stream_states `{HP : Hpack} `{RO : !RangeOrder} `{HF : !HpackFits} l ss ops ss' :
  state_ok l ss -> Forall op_typed ops -> runs ops ss = Some ss' ->
  forall id, rtc rfc_step (status ss.(core) id) (status ss'.(core) id) /\
    (status ss.(core) id = StreamClosed -> status ss'.(core) id = StreamClosed).
Proof.
  intros Hss Ht E id. destruct (runs_ok l ops ss Hss Ht) as (s2 & H1 & _ & H2). rewrite E in H1. injection H1 as <-.
  split; [apply H2|]. intros Hc. apply rfc_closed_final. rewrite <- Hc. apply H2.
Qed.

Lemma session_stream_states_witness :
  exists ss', runs (HP := plainHpack) (RO := mapOrder) demoOps demoClient = Some ss' /\
    status demoClient.(core) 1 = StreamIdle /\ status ss'.(core) 1 = StreamHalfClosedLocal /\
    rtc rfc_step (status demoClient.(core) 1) (status ss'.(core) 1).
Proof.
  destruct (runs (HP := plainHpack) (RO := mapOrder) demoOps demoClient) as [ss'|] eqn:E; [|by vm_compute in E].
  exists ss'. split; [done|]. split; [by vm_compute|]. split; [revert E; vm_compute; by intros [= <-]|].
  exact (proj1 (session_stream_states (HP := plainHpack) (RO := mapOrder) (normalizedSession noLimits) demoClient demoOps ss'
    (new_state_ok RoleClient noLimits demoClient noLimits_typed demoClient_new) ltac:(by repeat constructor) E 1)).
Defined.

(** C27. Output: an operation on a sound session (feeding received bytes
    included) appends to the output a sequence of complete frames and nothing
    else, each of them valid on the wire and none longer than the
    SETTINGS_MAX_FRAME_SIZE of the peer; and a session that has failed keeps
    its error. *)
Theorem session_output_frames `{HP : Hpack} `{RO : !RangeOrder} `{HF : !HpackFits} ss op :
  session_ok ss -> op_typed op -> emits op = true ->
  exists ss' frames, run op ss = Some ss' /\ ss'.(core).(output) = ss.(core).(output) ++ wires frames /\
    Forall (sent ss.(core).(peerMaxFrame)) frames /\
    (ss.(core).(failed) <> None -> ss'.(core).(failed) = ss.(core).(failed)).
Proof.
  intros Hss Ht He. destruct (run_good op ss (peerMaxFrame (core ss)) Hss Ht He ltac:(lia)) as (ss' & H1 & _ & (_ & _ & _ & H2 & frames & H3 & H4)).
  by exists ss', frames.
Qed.

Lemma session_output_frames_witness :
  exists ss' frames, run (HP := plainHpack) (RO := mapOrder) (DoOpenStream demoRequest true) demoClient = Some ss' /\
    ss'.(core).(output) = demoClient.(core).(output) ++ wires frames /\ Forall (sent 16384) frames.
Proof.
  destruct (NewSession_ok RoleClient noLimits demoClient noLimits_typed demoClient_new) as (Hok & _).
  destruct (session_output_frames (HP := plainHpack) (RO := mapOrder) demoClient (DoOpenStream demoRequest true) Hok I eq_refl)
    as (ss' & frames & H1 & H2 & H3 & _). by exists ss', frames.
Defined.

(** C28. [Feed] is total: on any bytes it returns; without an error it has
    read them all, and otherwise the session has failed with that error. *)
Theorem feed_returns `{HP : Hpack} `{RO : !RangeOrder} `{HF : !HpackFits} ss src :
  session_ok ss -> bytes src ->
  exists ss' rest err, Feed ss src = Some (ss', rest, err) /\ session_ok ss' /\ (exists pre, src = pre ++ rest) /\
    err = ss'.(core).(failed) /\ (err = None -> rest = []).
Proof.
  intros Hss Hb. destruct (Feed_ok defaultMaxFrameSize ltac:(lia) ss src Hss Hb) as ([[ss' rest] err] & E & (F1 & F2 & _ & F4 & F5 & F6)).
  exists ss', rest, err. split; [done|]. split; [by split | done].
Qed.

Lemma feed_returns_witness :
  exists ss' rest err, Feed (HP := plainHpack) (RO := mapOrder) demoServer (str "GET / HTTP/1.1") = Some (ss', rest, err) /\
    err = ss'.(core).(failed) /\ err <> None.
Proof.
  destruct (NewSession_ok RoleServer noLimits demoServer noLimits_typed demoServer_new) as (Hok & _).
  destruct (feed_returns (HP := plainHpack) (RO := mapOrder) demoServer (str "GET / HTTP/1.1") Hok
    ltac:(repeat constructor; by vm_compute)) as (ss' & rest & err & E & _ & _ & F & _).
  exists ss', rest, err. split; [done|]. split; [done|]. revert E. vm_compute. by intros [= <- <- <-].
Defined.

(** C25. [SendData] of some bytes, when the output queue has room for them:
    a successful call sends the longest prefix that fits the peer's frame size
    and both send windows, as one DATA frame that ends the stream exactly when
    it is the last of the data, charges both windows by its length and moves
    the stream to its next state.  A call that returns an error has changed
    nothing, and the error says why: the session has failed, there is no such
    stream, the stream may not send a body, the body would break the announced
    content-length, or a window is used up. *)
Theorem send_data_result `{HP : Hpack} `{RO : !RangeOrder} s s' id src fin n err :
  core_ok s -> src <> [] -> output_room s id src -> SendData s id src fin = (s', (n, err)) ->
  match err with
  | Some e => s' = s /\ n = 0 /\ refusal s id src fin e
  | None =>
      exists x, s.(streams) !! id = Some x /\ canSend x.(sstate) = true /\ n = sendable s x src /\ 0 < n /\
        let last := (n =? len src) && fin in
        s'.(output) = s.(output) ++ wire (mkFrameHeader n FrameData (if last then FlagEndStream else 0) id, take (Z.to_nat n) src) /\
        s'.(connectionSendWindow) = s.(connectionSendWindow) - n /\
        status s' id = (if last then ended x.(sstate) else x.(sstate)) /\
        forall y, s'.(streams) !! id = Some y ->
          y.(sendWindow) = x.(sendWindow) - n /\ y.(sendBody) = u64 (x.(sendBody) + n)
  end.
Proof.
  intros Hok Hne Hroom E. destruct err as [e|]; [|by apply SendData_sent].
  pose proof (SendData_reason s s' id src fin n e Hok Hne Hroom E). by apply SendData_refused in E as [-> ->].
Qed.

(** A client with an open stream. *)
Definition demoOpen : Session (HP := plainHpack) :=
  match runs (RO := mapOrder) [DoOpenStream demoRequest false] demoClient with Some ss => ss | None => demoClient end.

Lemma demo_ok r ss ss' ops :
  NewSession (HP := plainHpack) r noLimits = inl ss -> Forall op_typed ops -> runs (RO := mapOrder) ops ss = Some ss' ->
  ss'.(core).(closed) = false -> session_ok ss'.
Proof.
  intros Hn Ht E Hc. destruct (runs_ok (RO := mapOrder) _ ops ss (new_state_ok r noLimits ss noLimits_typed Hn) Ht) as (x & E' & H & _).
  rewrite E in E'. injection E' as <-. destruct H as [[H _]|(Hc' & _)]; [done | congruence].
Qed.

Lemma demoOpen_ok : session_ok demoOpen.
Proof.
  apply (demo_ok RoleClient demoClient demoOpen [DoOpenStream demoRequest false] demoClient_new); [by repeat constructor | by vm_compute..].
Qed.

Lemma demoOpen_room : output_room demoOpen.(core) 1 (str "abc").
Proof.
  intros x Hx. assert (sendable (core demoOpen) x (str "abc") <= 3) by (unfold sendable; change (len (str "abc")) with 3; lia).
  assert (len (output (core demoOpen)) + 12 <= MaxQueuedOutputBytes (slimits (core demoOpen))) by by vm_compute. lia.
Qed.

Lemma send_data_result_witness :
  exists s' x, SendData (HP := plainHpack) demoOpen.(core) 1 (str "abc") true = (s', (3, None)) /\
    demoOpen.(core).(streams) !! 1 = Some x /\ 3 = sendable demoOpen.(core) x (str "abc") /\ s'.(connectionSendWindow) = 65532.
Proof.
  destruct (SendData (HP := plainHpack) demoOpen.(core) 1 (str "abc") true) as [s' [n err]] eqn:E.
  assert (n = 3 /\ err = None) as [-> ->] by (revert E; vm_compute; by intros [= <- <- <-]).
  pose proof (send_data_result (RO := mapOrder) demoOpen.(core) s' 1 (str "abc") true 3 None (proj1 demoOpen_ok) ltac:(done) demoOpen_room E)
    as (x & H1 & _ & H2 & _ & _ & H3 & _).
  exists s', x. split; [done|]. split; [done|]. split; [done|]. by rewrite H3.
Defined.

(** C8. Header blocks: when a section has been queued on a stream, the output
    has grown by frames from which the peer's frame decoder (the reference of
    the refinement theorem), for any limits they fit, delivers exactly the
    bytes the HPACK encoder produced, ends the header block once, and reports
    the end of the stream exactly when the sender asked for it. *)
Theorem header_block_roundtrip `{HP : Hpack} `{RO : !RangeOrder} `{HF : !HpackFits} s s' id headers fin :
  core_ok s -> 0 < id <= streamMask -> encodeAndAppendHeaders s FrameHeaders id 0 headers fin = (s', None) ->
  exists frames, s'.(output) = s.(output) ++ wires frames /\
    forall l, s.(peerMaxFrame) <= l.(MaxFrameSize) -> len frames <= l.(MaxContinuationFrames) <= MaxUint32 ->
      len (encodedBlock s.(encoder) headers) <= l.(MaxHeaderBlockBytes) ->
      exists evs, specFrames l noSequence frames = (Some noSequence, evs, CodeNone) /\
        headerBytes evs = encodedBlock s.(encoder) headers /\ blockEnds evs = [(id, fin)].
Proof.
  intros Hok Hid E. destruct (encodeAndAppend_frames s s' FrameHeaders id 0 headers fin Hok ltac:(by vm_compute) ltac:(ids) E)
    as (c & chunks & E1 & E2 & E3 & E4).
  change (promisePart FrameHeaders 0) with (@nil Z) in *. exists (blockFrames FrameHeaders id [] fin (c :: chunks)). split; [done|].
  intros l Hl Hcount Hroom. rewrite <- E1 in *. cbn [app] in E3.
  assert (len chunks <= len (blockFrames FrameHeaders id [] fin (c :: chunks))) as Hn.
  { cbn [blockFrames]. rewrite len_cons. assert (len (contFrames id chunks) = len chunks) as ->; [|lia].
    clear. induction chunks as [|x l IH]; [done|]. cbn [contFrames]. by rewrite !len_cons, IH. }
  apply blockFrames_spec; [lia | lia | | lia | lia | done].
  rewrite Forall_forall in E4 |- *. intros x Hx. destruct (E4 x Hx) as [_ ?]. lia.
Qed.

Lemma header_block_roundtrip_witness :
  exists s' frames, encodeAndAppendHeaders (HP := plainHpack) demoOpen.(core) FrameHeaders 1 0 demoRequest true = (s', None) /\
    s'.(output) = demoOpen.(core).(output) ++ wires frames.
Proof.
  destruct (encodeAndAppendHeaders (HP := plainHpack) demoOpen.(core) FrameHeaders 1 0 demoRequest true) as [s' err] eqn:E.
  assert (err = None) as -> by (revert E; vm_compute; by intros [= <- <-]).
  pose proof (header_block_roundtrip (HP := plainHpack) (RO := mapOrder) demoOpen.(core) s' 1 demoRequest true (proj1 demoOpen_ok) ltac:(by split; vm_compute) E) as (frames & H & _).
  exists s', frames. by split.
Defined.

Lemma startSettings_ok r l :
  session_limits_typed l -> defaultMaxFrameSize <= (normalizedSession l).(Frame).(MaxFrameSize) ->
  Forall setting_typed (startSettings r (normalizedSession l)) /\
  Forall (fun x => validSetting x = true) (startSettings r (normalizedSession l)).
Proof.
  intros Hl Hf. pose proof (normalizedSession_ok l Hl) as ((F1 & _) & (D1 & _ & D3 & _) & _ & _ & _ & _ & _ & _ & HW).
  assert (in_u32 (MaxConcurrentStreams (normalizedSession l))) as HC.
  { destruct Hl as (_ & _ & (S1 & _)). unfold normalizedSession. cbn. destruct (_ =? 0); [by vm_compute | done]. }
  set (l' := normalizedSession l) in *. change defaultMaxFrameSize with 16384 in Hf. rewrite maxFrameSize_eq in F1.
  assert (in_u32 (clampUint64To32 (MaxHeaderListBytes (Header l')))) as Hcl.
  { unfold clampUint64To32, in_u32. destruct (Z.ltb_spec MaxUint32 (MaxHeaderListBytes (Header l'))); unfold MaxUint32 in *; lia. }
  assert (forall i v, in_u16 i -> in_u32 v -> setting_typed (mkSetting i v)) as Hgo by by split.
  assert (in_u32 (boolSetting (EnablePush l')) /\ in_u32 (boolSetting (EnableExtendedConnect l'))) as [B1 B2]
    by (split; [destruct (EnablePush l') | destruct (EnableExtendedConnect l')]; by vm_compute).
  assert (in_u32 (MaxDynamicTableBytes (Header l')) /\ in_u32 (InitialWindowSize l') /\ in_u32 (MaxFrameSize (Frame l')) /\ in_u32 1) as (A1 & A2 & A3 & A4)
    by (unfold in_u32, MaxInt32, MaxUint32 in *; lia).
  split.
  - unfold startSettings. destruct r; cbn [is_server app]; repeat (apply Forall_cons; split; [apply Hgo; [by vm_compute | done]|]); constructor.
  - assert (validSetting (mkSetting SettingInitialWindowSize (InitialWindowSize l')) = true) by (change ((InitialWindowSize l' <=? streamMask) = true); apply Z.leb_le; ids).
    assert (validSetting (mkSetting SettingMaxFrameSize (MaxFrameSize (Frame l'))) = true)
      by (change ((16384 <=? MaxFrameSize (Frame l')) && (MaxFrameSize (Frame l') <=? maxFrameSize) = true);
          rewrite maxFrameSize_eq; apply andb_true_intro; split; apply Z.leb_le; lia).
    unfold startSettings. destruct r; cbn [is_server app];
      repeat (apply Forall_cons; split; [first [done | by destruct (EnablePush l') | by destruct (EnableExtendedConnect l')]|]); constructor.
Qed.

(** The settings of a session with the configured limits [l], by identifier: a
    limit that is 0 stands for its default, and the announced values are cut to
    what the protocol allows. *)
Definition announced (r : Role) (l : SessionLimits) : list Setting :=
  let chosen v default := if v =? 0 then default else v in
  let flag (b : bool) := if b then 1 else 0 in
  [mkSetting 1 (chosen l.(Header).(MaxDynamicTableBytes) 4096)] ++
  match r with RoleClient => [mkSetting 2 (flag l.(EnablePush))] | RoleServer => [] end ++
  [mkSetting 3 (chosen l.(MaxConcurrentStreams) 100);
   mkSetting 4 (Z.min (chosen l.(InitialWindowSize) 65535) (2 ^ 31 - 1));
   mkSetting 5 (Z.min (chosen l.(Frame).(MaxFrameSize) 16384) (2 ^ 24 - 1));
   mkSetting 6 (Z.min (chosen l.(Header).(MaxHeaderListBytes) 65536) (2 ^ 32 - 1));
   mkSetting 8 (flag l.(EnableExtendedConnect));
   mkSetting 9 1].

Lemma min_if a b : (if b <? a then b else a) = Z.min a b.
Proof. destruct (Z.ltb_spec b a); lia. Qed.

Lemma startSettings_announced r l : startSettings r (normalizedSession l) = announced r l.
Proof.
  unfold startSettings, announced, normalizedSession, normalized, normalizedHeader, clampUint64To32. cbv zeta.
  cbn [Frame Header MaxDynamicTableBytes MaxHeaderListBytes MaxConcurrentStreams InitialWindowSize MaxFrameSize EnablePush EnableExtendedConnect].
  rewrite !min_if. by destruct r.
Qed.

(** Connection start: for limits whose frame size is not set or at least
    16384, [NewSession] queues the client preface (for a client) and one
    SETTINGS frame, from which the frame parser of the peer, between frames and
    with room for its 48 bytes, reads exactly the settings of these limits: the
    header table, push (for a client), the concurrent streams, the initial
    window, the frame size, the header list size, extended CONNECT and the
    absence of RFC 7540 priorities, each under its identifier and with its
    default where the limit is 0. *)
Theorem new_session_settings `{HP : Hpack} `{RO : !RangeOrder} `{HF : !HpackFits} r l ss p st :
  session_limits_typed l -> NewSession r l = inl ss -> l.(Frame).(MaxFrameSize) = 0 \/ 16384 <= l.(Frame).(MaxFrameSize) ->
  at_boundary p -> p.(parsing) = false -> seqOf p = noSequence -> 48 <= p.(H2Frame.limits).(MaxFrameSize) ->
  exists h w q,
    ss.(core).(output) = (match r with RoleClient => str "PRI * HTTP/2.0" ++ [13; 10; 13; 10] ++ str "SM" ++ [13; 10; 13; 10] | RoleServer => [] end) ++ w /\
    ParseOne (Some tracer) p st w = Some (mkFOutcome q
      (st ++ EvFrameBegin h :: map EvSetting (announced r l) ++ [EvSettingsEnd false; EvFrameComplete h]) [] CodeNone, true).
Proof.
  intros Hl Hn Hf Hp Hpar Hseq Hlim. destruct (NewSession_ok r l ss Hl Hn) as (_ & Eo & _).
  set (f := settingsFrame r (normalizedSession l)) in *. pose proof (settingsFrame_len r (normalizedSession l)) as H48.
  cbn [settingsFrame snd] in H48. rewrite settings_payload_len in H48.
  assert (defaultMaxFrameSize <= (normalizedSession l).(Frame).(MaxFrameSize)) as Hd.
  { change defaultMaxFrameSize with 16384. unfold normalizedSession, normalized. cbn [Frame MaxFrameSize]. change maxFrameSize with 16777215.
    change defaultMaxFrameSize with 16384. destruct (Z.eqb_spec (MaxFrameSize (Frame l)) 0), (Z.ltb_spec 16777215 (MaxFrameSize (Frame l))); cbn; lia. }
  destruct (startSettings_ok r l Hl Hd) as [H1 H2].
  pose proof (settings_frame_spec p.(H2Frame.limits) (startSettings r (normalizedSession l)) H1 H2 ltac:(lia)) as Hs.
  rewrite <- Hseq in Hs at 1.
  destruct (ParseOne_frame p st f [] noSequence (EvFrameBegin f.1 :: map EvSetting (startSettings r (normalizedSession l)) ++
    [EvSettingsEnd false; EvFrameComplete f.1]) Hp Hpar) as (q & Hq & _); [| constructor | exact Hs |].
  - split; [|split; [done | apply settings_bytes]].
    split; [|split_and!; by vm_compute]. change (Length f.1) with (len (concat (map encodeSetting (startSettings r (normalizedSession l))))).
    rewrite settings_payload_len, maxFrameSize_eq. pose proof (len_nonneg (startSettings r (normalizedSession l))). lia.
  - rewrite app_nil_r, startSettings_announced in Hq. exists f.1, (wire f), q. split; [|exact Hq]. rewrite Eo. by destruct r.
Qed.

Lemma new_session_settings_witness :
  exists h w q, demoServer.(core).(output) = w /\
    ParseOne (Some tracer) demoFrames [] w = Some (mkFOutcome q (EvFrameBegin h :: map EvSetting
      [mkSetting 1 4096; mkSetting 3 100; mkSetting 4 65535; mkSetting 5 16384; mkSetting 6 65536; mkSetting 8 0; mkSetting 9 1] ++
      [EvSettingsEnd false; EvFrameComplete h]) [] CodeNone, true).
Proof.
  destruct (new_session_settings (RO := mapOrder) RoleServer noLimits demoServer demoFrames [] noLimits_typed demoServer_new
    ltac:(by left) (proj1 demo_frames_boundary) eq_refl eq_refl ltac:(by vm_compute)) as (h & w & q & H1 & H2).
  exists h, w, q. split; [exact H1 | exact H2].
Defined.
