(* ===== verification/H2HeaderProps.v ===== *)
(** * HTTP/2: the properties of header sections

    What [validateHeaderSection], [parseSessionContentLength] and the
    [HeaderDecoder] promise to the session, stated against the rules of
    RFC 9113 sections 8.2 and 8.3. *)

From stdpp Require Import gmap.
From S2P Require Import Prelude H2Frame H2Hpack H2Headers H2HeadersSpec H2Session H2SessionProps.
Open Scope Z_scope.

(** ** The content-length fields of a section *)

Definition lengths (headers : list HeaderField) : list (list Z) :=
  omap (fun f => if bytes_eqb f.(Name) (str "content-length") then Some f.(FieldValue) else None) headers.

(** At most one content-length, a decimal number of 64 bits, and none in a
    204 response. *)
Definition length_rules (headers : list HeaderField) : Prop :=
  lengths headers = [] \/
  exists v, lengths headers = [v] /\ v <> [] /\ Forall is_digit v /\ decimal v <= MaxUint64 /\
    valueOf (str ":status") [] headers <> str "204".

(** What one field changes of what [inspectHeaderSection] reports. *)
Lemma inspectField_spec m f :
  let m' := inspectField m f in
  m'.(mstatus) = (if bytes_eqb f.(Name) (str ":status") then f.(FieldValue) else m.(mstatus)) /\
  if bytes_eqb f.(Name) (str "content-length") then
    if m.(hasContentLength) then m'.(invalid) = true
    else match parseSessionContentLength f.(FieldValue) with
         | None => m'.(invalid) = true
         | Some n => m'.(invalid) = m.(invalid) /\ m'.(hasContentLength) = true /\ m'.(contentLength) = n
         end
  else m'.(invalid) = m.(invalid) /\ m'.(hasContentLength) = m.(hasContentLength) /\ m'.(contentLength) = m.(contentLength).
Proof.
  unfold inspectField. destruct (bytes_eqb_spec (Name f) (str ":method")) as [->|]; [by vm_compute|].
  destruct (bytes_eqb_spec (Name f) (str ":status")) as [->|].
  { change (bytes_eqb (str ":status") (str "content-length")) with false. cbv zeta. by destruct (_ && _). }
  destruct (bytes_eqb_spec (Name f) (str "content-length")) as [_|]; [|done].
  destruct (hasContentLength m); [done|]. by destruct (parseSessionContentLength (FieldValue f)).
Qed.

Lemma inspect_invalid m headers : m.(invalid) = true -> (fold_left inspectField headers m).(invalid) = true.
Proof.
  revert m. induction headers as [|f headers IH]; intros m Hm; [done|]. cbn [fold_left]. apply IH.
  destruct (inspectField_spec m f) as [_ H]. destruct (bytes_eqb _ _); [|by destruct H as [-> _]].
  destruct (hasContentLength m); [done|]. destruct (parseSessionContentLength _); [by destruct H as [-> _] | done].
Qed.

Lemma inspect_status m headers : (fold_left inspectField headers m).(mstatus) = valueOf (str ":status") m.(mstatus) headers.
Proof.
  revert m. induction headers as [|f headers IH]; intros m; [done|]. cbn [fold_left]. rewrite IH.
  destruct (inspectField_spec m f) as [-> _]. done.
Qed.

Lemma inspect_lengths m headers :
  m.(invalid) = false ->
  let m' := fold_left inspectField headers m in
  (m'.(invalid) = false <->
    lengths headers = [] \/
    m.(hasContentLength) = false /\ exists v n, lengths headers = [v] /\ parseSessionContentLength v = Some n) /\
  (m'.(invalid) = false -> m'.(hasContentLength) = m.(hasContentLength) || negb (bool_decide (lengths headers = []))).
Proof.
  revert m. induction headers as [|f headers IH]; intros m Hm; cbn [fold_left].
  { split; [split; [by left | done] | intros _; cbn; by rewrite orb_false_r]. }
  destruct (inspectField_spec m f) as [_ H]. unfold lengths. cbn [omap list_omap]. fold (lengths headers).
  destruct (bytes_eqb (Name f) (str "content-length")).
  - destruct (hasContentLength m).
    + rewrite (inspect_invalid _ headers H). split; [|done]. by split; [|intros [|[]]].
    + destruct (parseSessionContentLength (FieldValue f)) as [n|] eqn:En.
      * destruct H as (H1 & H2 & _). destruct (IH (inspectField m f) ltac:(congruence)) as [A B]. rewrite H2 in A, B. split.
        -- rewrite A. split.
           ++ intros [->|[? _]]; [|done]. right. split; [done|]. by exists (FieldValue f), n.
           ++ intros [|(_ & v & k & [= <- ->] & _)]; [done | by left].
        -- intros Hi. rewrite (B Hi). done.
      * rewrite (inspect_invalid _ headers H). split; [|done]. split; [done|].
        intros [|(_ & v & k & [= <- _] & Hk)]; [done | congruence].
  - destruct H as (H1 & H2 & _). destruct (IH (inspectField m f) ltac:(congruence)) as [A B]. by rewrite H2 in A, B.
Qed.

Lemma inspect_length_rules headers : (inspectHeaderSection headers).(invalid) = false <-> length_rules headers.
Proof.
  unfold inspectHeaderSection, length_rules. destruct (inspect_lengths zeroMetadata headers eq_refl) as [A B].
  pose proof (inspect_status zeroMetadata headers) as S. set (m := fold_left inspectField headers zeroMetadata) in *.
  cbn [zeroMetadata hasContentLength mstatus orb] in A, B, S.
  assert ((exists v n, lengths headers = [v] /\ parseSessionContentLength v = Some n) <->
    exists v, lengths headers = [v] /\ v <> [] /\ Forall is_digit v /\ decimal v <= MaxUint64) as E.
  { split; [intros (v & n & Hv & (H1 & H2 & -> & H4)%parseContentLength_spec); by exists v|].
    intros (v & Hv & H1 & H2 & H3). exists v, (decimal v). split; [done|]. by apply parseContentLength_spec. }
  rewrite S. destruct (bytes_eqb_spec (valueOf (str ":status") [] headers) (str "204")) as [E204|N204]; cbn [andb].
  - destruct (invalid m) eqn:Hi.
    + assert (invalid (if hasContentLength m then m <| invalid := true |> else m) = true) as -> by by destruct (hasContentLength m).
      split; [done|]. intros [Hn|(v & _ & _ & _ & _ & ?)]; [|done]. apply A. by left.
    + rewrite (B eq_refl). destruct (decide (lengths headers = [])) as [Hn|Hn].
      * rewrite bool_decide_true by done. cbn. rewrite Hi. by split; [left|].
      * rewrite bool_decide_false by done. cbn. split; [done|]. by intros [|(v & _ & _ & _ & _ & ?)].
  - rewrite A. split; (intros [?|H]; [by left|right]).
    + destruct H as [_ H]. apply E in H as (v & H1 & H2 & H3 & H4). by exists v.
    + split; [done|]. apply E. destruct H as (v & H1 & H2 & H3 & H4 & _). by exists v.
Qed.

(** ** Field names, values and the fields of a connection *)

(** RFC 9110, 5.6.2: the bytes of a token, in lower case. *)
Definition token_byte (b : Z) : Prop := ch "a" <= b <= ch "z" \/ ch "0" <= b <= ch "9" \/ b ∈ str "!#$%&'*+-.^_`|~".

(** The bytes of a value: tab, and everything but the control bytes. *)
Definition value_byte (b : Z) : Prop := b = 9 \/ 32 <= b /\ b <> 127.

Definition blank (b : Z) : Prop := b = 32 \/ b = 9.

(** A value neither starts nor ends with a blank. *)
Definition value_rules (v : list Z) : Prop :=
  Forall value_byte v /\ (forall b, head v = Some b -> ~ blank b) /\ (forall b, last v = Some b -> ~ blank b).

(** RFC 9113, 8.2.2: the fields of a connection. *)
Definition connectionFields : list (list Z) :=
  [str "connection"; str "proxy-connection"; str "keep-alive"; str "transfer-encoding"; str "upgrade"].

Definition pseudo_rules (f : HeaderField) : Prop := f.(Name) ∈ pseudoNames /\ value_rules f.(FieldValue).

Definition field_rules (f : HeaderField) : Prop :=
  f.(Name) <> [] /\ Forall token_byte f.(Name) /\ value_rules f.(FieldValue) /\ (f.(Name) ∉ connectionFields) /\
  (f.(Name) = str "te" -> f.(FieldValue) = str "trailers").

(** Pseudo-header fields first, each once and none in trailers. *)
Definition section_rules (trailer : bool) (headers : list HeaderField) : Prop :=
  exists pseudo regular, headers = pseudo ++ regular /\ Forall pseudo_rules pseudo /\ Forall field_rules regular /\
    NoDup (Name <$> pseudo) /\ (trailer = true -> pseudo = []).

Lemma isFieldNameByte_spec b : isFieldNameByte b = true <-> token_byte b.
Proof.
  unfold isFieldNameByte, token_byte, Prelude.between, one_of. rewrite !orb_true_iff, existsb_exists. split.
  - intros [[H|H]|(x & Hx & E)]; [left; lia | right; left; lia | right; right]. apply Z.eqb_eq in E as ->. by apply list_elem_of_In.
  - intros [H|[H|H]]; [left; left; lia | left; right; lia | right]. exists b. split; [by apply list_elem_of_In | apply Z.eqb_refl].
Qed.

Lemma name_bytes_spec n : forallb isFieldNameByte n = true <-> Forall token_byte n.
Proof. rewrite forallb_forall, Forall_forall. split; intros H b Hb; apply isFieldNameByte_spec, H; by apply list_elem_of_In. Qed.

Lemma isBlank_spec b : reflect (blank b) (isBlank b).
Proof. apply iff_reflect. unfold isBlank, blank. cbn. lia. Qed.

Lemma str_at_last v : v <> [] -> last v = Some (str_at v (len v - 1)).
Proof.
  destruct v as [|x v _] using rev_ind; [done|]. intros _. rewrite last_snoc. unfold str_at, len. rewrite length_app. cbn [length].
  replace (Z.to_nat _) with (length v) by lia. by rewrite nth_middle.
Qed.

Lemma value_spec v : validSessionHeaderValue v = true <-> value_rules v.
Proof.
  unfold validSessionHeaderValue, value_rules. destruct v as [|x v]; [done|].
  rewrite (str_at_last (x :: v)) by done. cbn [head].
  assert (forallb (fun b => negb (negb (b =? 9) && (b <? 32) || (b =? 127))) (x :: v) = true <-> Forall value_byte (x :: v)) as E.
  { rewrite forallb_forall, Forall_forall. unfold value_byte.
    split; intros H b Hb%list_elem_of_In; specialize (H b Hb); lia. }
  change (str_at (x :: v) 0) with x. set (z := str_at _ _). destruct (isBlank_spec x), (isBlank_spec z); cbn [orb]; rewrite ?E;
    (split; [try done; intros H; split_and!; try done; by intros ? [= <-] | intros (H & H1 & H2)]);
    try done; exfalso; first [by apply (H1 x) | by apply (H2 z)].
Qed.

Lemma isConnectionSpecific_spec n v :
  isConnectionSpecific n v = false <-> (n ∉ connectionFields) /\ (n = str "te" -> v = str "trailers").
Proof.
  unfold isConnectionSpecific, connectionFields. rewrite !not_elem_of_cons.
  split_tests; by eapply not_elem_of_nil.
Qed.

Lemma pseudo_spec f : pseudo_ok f <-> pseudo_rules f.
Proof.
  unfold pseudo_ok, pseudo_rules, field_valid. rewrite value_spec. split; [by intros ([_ ?] & _ & ?)|].
  intros [Hn Hv]. enough (validSessionHeaderName (Name f) = true /\ is_pseudo f = true) as [? ?] by done.
  unfold is_pseudo, pseudoNames in *. repeat (apply elem_of_cons in Hn as [->|Hn]; [done|]). by apply not_elem_of_nil in Hn.
Qed.

Lemma regular_spec f : regular_ok f <-> field_rules f.
Proof.
  unfold regular_ok, field_rules, field_valid, is_pseudo. rewrite value_spec, isConnectionSpecific_spec.
  unfold validSessionHeaderName. destruct (Name f) as [|b n]; [by split; [intros [[? _] _] | intros []]|].
  change (str_at (b :: n) 0) with b. destruct (b =? ch ":") eqn:Hb.
  - split; [by intros (_ & ? & _)|]. intros (_ & [H _]%Forall_cons_1 & _). apply isFieldNameByte_spec in H.
    apply Z.eqb_eq in Hb as ->. by vm_compute in H.
  - rewrite name_bytes_spec. pose proof (@nil_cons _ b n). intuition congruence.
Qed.

Lemma shape_spec trailer headers : well_shaped trailer [] headers <-> section_rules trailer headers.
Proof.
  unfold well_shaped, section_rules. split.
  - intros (P & R & E & HP & HR & Hn & _ & Ht). exists P, R. split_and!; try done.
    + eapply Forall_impl; [exact HP | intros; by apply pseudo_spec].
    + eapply Forall_impl; [exact HR | intros; by apply regular_spec].
  - intros (P & R & E & HP & HR & Hn & Ht). exists P, R. split_and!; try done.
    + eapply Forall_impl; [exact HP | intros; by apply pseudo_spec].
    + eapply Forall_impl; [exact HR | intros; by apply regular_spec].
    + apply Forall_forall. intros. apply not_elem_of_nil.
Qed.

(** ** Claims *)

(** C26. [validateHeaderSection] accepts a section if and only if it is not
    empty; its pseudo-header fields are among the six known ones, come first,
    differ and are absent from trailers; its other fields have a non-empty name
    of lower-case token bytes, are none of the five connection fields and have
    the value [trailers] if they are [te] (in either direction); every value is
    free of control bytes and of blanks at its ends; there is at most one
    content-length (64-bit decimal, none in a 204 response); and it meets the
    pseudo-header rules of a request where it travels from client to server and
    those of a response otherwise. *)
Theorem header_section_rules r outbound trailer headers ec :
  validateHeaderSection r outbound trailer headers ec = true <->
    headers <> [] /\ length_rules headers /\ section_rules trailer headers /\
    (trailer = false -> if is_request r outbound then request_rules headers ec else response_rules headers).
Proof. by rewrite validateHeaderSection_spec, inspect_length_rules, shape_spec. Qed.

(** [parseSessionContentLength] returns a number exactly for the non-empty
    strings of decimal digits whose value fits 64 bits, and returns their value:
    the overflow test neither rejects a number that fits nor wraps. *)
Lemma session_content_length v n :
  parseSessionContentLength v = Some n <-> v <> [] /\ Forall is_digit v /\ n = decimal v /\ n <= MaxUint64.
Proof. apply parseContentLength_spec. Qed.

