(* ===== verification/H2ReceiveProps.v ===== *)
(** * HTTP/2: the properties of received frames

    How the session of [src/http2/session.go] accounts for what a peer sends:
    the receive windows DATA is charged to, the send windows a changed
    SETTINGS_INITIAL_WINDOW_SIZE moves, and the streams a GOAWAY gives up. *)

From stdpp Require Import gmap.
From S2P Require Import Prelude H2Frame H2FrameWf H2FrameSpec H2FrameHost H2Hpack H2Headers H2Session H2SessionTable H2SessionWf H2SessionInbound H2SessionLife H2SessionFlow H2SessionProps.
Open Scope Z_scope.

#[export] Instance map_order_complete : RangeComplete (HP := plainHpack) (RO := mapOrder).
Proof.
  split.
  - intros s. apply NoDup_fst_map_to_list.
  - intros s id [x Hx]. apply list_elem_of_fmap. exists (id, x). split; [done|]. by apply elem_of_map_to_list.
Qed.

Section Received.
Context `{HP : Hpack} `{RO : !RangeOrder}.
Implicit Types s : Core.

(** ** DATA *)

(** The RST_STREAM frame and the event of a reset. *)
Definition resetFrame (id c : Z) : FrameHeader * list Z := (mkFrameHeader 4 FrameRSTStream 0 id, putUint32 c).
Definition resetEvent (id c : Z) : Event := event EventStreamReset id <| evErrorCode := c |>.

(** A stream was reset: the peer is sent RST_STREAM and the owner told, as far as
    the two queues have room, a stream that was ever used is closed, and nothing
    is charged. *)
Definition was_reset s (id c : Z) (s' : Core) : Prop :=
  s'.(output) = s.(output) ++ (if len s.(output) + 13 <=? s.(slimits).(MaxQueuedOutputBytes) then wire (resetFrame id c) else []) /\
  s'.(events) = s.(events) ++ (if len s.(events) <? s.(slimits).(MaxQueuedEvents) then [resetEvent id c] else []) /\
  (used s id = true -> status s' id = StreamClosed) /\
  s'.(failed) = None /\ s'.(connectionRecvWindow) = s.(connectionRecvWindow).

(** Every outcome of the frame that opens DATA. *)
Definition data_outcome s (h : FrameHeader) (s' : Core) : Prop :=
  match s.(streams) !! h.(StreamID) with
  | Some x =>
      if negb (receiving x) then was_reset s h.(StreamID) ErrCodeStreamClosed s'
      else if s.(connectionRecvWindow) <? h.(Length) then
        s'.(failed) = Some (ErrProtocol (mkProtocolError 0 ErrCodeFlowControl (str "connection receive window exceeded")))
      else if x.(recvWindow) <? h.(Length) then was_reset s h.(StreamID) ErrCodeFlowControl s'
      else s'.(connectionRecvWindow) = s.(connectionRecvWindow) - h.(Length) /\ s'.(failed) = None /\
        s'.(output) = s.(output) /\ s'.(events) = s.(events) /\
        s'.(streams) = <[h.(StreamID) := x <| recvWindow := x.(recvWindow) - h.(Length) |>]> s.(streams)
  | None => was_reset s h.(StreamID) ErrCodeStreamClosed s'
  end.

Lemma streamError_resets s id c :
  core_ok s -> 0 < id <= streamMask -> s.(failed) = None -> was_reset s id c (streamError s id c).
Proof.
  intros Hok Hid Hf. pose proof Hok as ((Hc & _) & Hq & _ & _ & _ & Ht).
  assert (header_typed (frameHeader FrameRSTStream 0 id)) as Hh by (apply frameHeader_typed; [done | done | unfold in_u32; ids]).
  pose proof (closeStream_closed s id Ht) as Hcl. destruct (closeStream_table s id Ht) as [_ (t & cl & al & ap & E)]. unfold streamError. cbv zeta. rewrite E in *.
  rewrite appendFrame_valid; [| done | done | done | | ].
  2: { unfold appendable. cbn. rewrite (proj2 (Z.leb_le id streamMask)) by lia. by vm_compute. }
  2: { unfold validateFrameHeader. cbn. destruct (Z.eqb_spec id 0); [lia | done]. }
  destruct Hq as ((_ & Hm & _) & _ & He & _). pose proof (len_nonneg (events s)) as Hn.
  assert (forall r, tryEvent r (resetEvent id c) =
    if MaxQueuedEvents (slimits r) <=? u32 (len (events r)) then r
    else r <| events := events r ++ [resetEvent id c] |> <| eventBytes := u32 (eventBytes r + 0) |>) as Etry.
  { intros r. unfold tryEvent, queueEvent. change (eventRetainedBytes (resetEvent id c)) with 0.
    pose proof (u32_range (MaxQueuedEventBytes (slimits r) - eventBytes r)). rewrite (proj2 (Z.ltb_ge _ 0)) by lia. rewrite orb_false_r. by destruct (_ <=? _). }
  fold (resetEvent id c). rewrite Etry. unfold was_reset. rewrite Z.leb_antisym.
  match goal with |- context [u32 (len ?l)] => change l with (events s) end. rewrite u32_small by lia.
  match goal with |- context [negb (len (events s) <? ?l)] => change l with (MaxQueuedEvents (slimits s)) end.
  destruct (_ <? _); cbn [negb]; (split; [done|]); (split; [first [done | by rewrite app_nil_r]|]); by split.
Qed.

Lemma beginData_outcome s h :
  core_ok s -> header_fine h -> h.(Type_) = FrameData -> s.(failed) = None -> data_outcome s h (beginData s h).
Proof.
  intros Hok Hh Hd Hf. unfold data_outcome.
  assert (0 < StreamID h <= streamMask) as Hid.
  { destruct Hh as (Hv & _ & Hid). unfold validateFrameHeader in Hv. rewrite Hd in Hv. cbn in Hv. destruct (Z.eqb_spec (StreamID h) 0); [done | lia]. }
  pose proof (fun c => streamError_resets s (StreamID h) c Hok Hid Hf) as Hreset. unfold beginData.
  destruct (streams s !! StreamID h) as [x|] eqn:Hx; [|apply Hreset].
  assert (negb (canReceive (sstate x)) || negb (receivedHeaders x) || receivedTrailers x || receiveNoBody x = negb (receiving x)) as ->.
  { unfold receiving. by destruct (canReceive (sstate x)), (receivedHeaders x), (receivedTrailers x), (receiveNoBody x). }
  destruct (negb (receiving x)); [apply Hreset|]. destruct (_ <? _); [by apply connectionError_failed|]. destruct (_ <? _); [apply Hreset|].
  split; [done|]. split; [done|]. split; [done|]. split; [done|]. cbn. by rewrite (alter_insert _ _ _ x).
Qed.

(** ** SETTINGS_INITIAL_WINDOW_SIZE *)

(** The send windows of the streams that are not closed stay 32-bit. *)
Definition shift_fits (change : Z) (t : gmap Z sessionStream) : Prop :=
  forall id x, t !! id = Some x -> is_closed x.(sstate) = false -> MinInt32 <= x.(sendWindow) + change <= MaxInt32.

Lemma shiftSendWindows_fits order change (t : gmap Z sessionStream) :
  NoDup order -> (forall id, is_Some (t !! id) -> id ∈ order) ->
  (shiftSendWindows order change t).2 = true <-> shift_fits change t.
Proof.
  intros Hnd Hall. assert ((shiftSendWindows order change t).2 = true <->
    forall id x, id ∈ order -> t !! id = Some x -> is_closed x.(sstate) = false -> MinInt32 <= x.(sendWindow) + change <= MaxInt32) as ->.
  - clear Hall. revert t. induction order as [|k order IH]; intros t; cbn [shiftSendWindows].
    { split; [|done]. intros _ id x Hin. by apply not_elem_of_nil in Hin. }
    apply NoDup_cons in Hnd as [Hk Hnd]. specialize (IH Hnd).
    assert (forall u, (forall id, id <> k -> u !! id = t !! id) ->
      (shiftSendWindows order change u).2 = true <->
      forall id x, id ∈ order -> t !! id = Some x -> is_closed x.(sstate) = false -> MinInt32 <= x.(sendWindow) + change <= MaxInt32) as Hrest.
    { intros u Hu. rewrite IH. split; intros H id x Hin Hx; (assert (id <> k) by (intros ->; done)); apply (H id x Hin);
        [by rewrite Hu | by rewrite <- Hu]. }
    destruct (t !! k) as [x|] eqn:Hx; [destruct (is_closed (sstate x)) eqn:Hc|].
    + rewrite (Hrest t) by done. setoid_rewrite elem_of_cons. split; [|intros H id y ?; apply H; by right].
      intros H id y [->|Hin]; [|by apply H]. rewrite Hx. intros [= <-]. by rewrite Hc.
    + cbv zeta. setoid_rewrite elem_of_cons.
      destruct (Z.ltb_spec MaxInt32 (sendWindow x + change)); cbn [orb].
      { split; [done|]. intros H'. specialize (H' k x (or_introl eq_refl) Hx Hc). lia. }
      destruct (Z.ltb_spec (sendWindow x + change) MinInt32).
      { split; [done|]. intros H'. specialize (H' k x (or_introl eq_refl) Hx Hc). lia. }
      rewrite Hrest by (intros id ?; by rewrite lookup_insert_ne). split; [|intros H' id y ?; apply H'; by right].
      intros H' id y [->|Hin]; [|by apply H']. rewrite Hx. intros [= <-] _. lia.
    + rewrite (Hrest t) by done. setoid_rewrite elem_of_cons. split; [|intros H id y ?; apply H; by right].
      intros H id y [->|Hin]; [|by apply H]. by rewrite Hx.
  - split; [intros H id x Hx; apply (H id x); [apply Hall; by rewrite Hx | done] | intros H id x _; apply (H id x)].
Qed.
End Received.

(** ** Claims *)

(** C24. Inbound flow control: DATA on a stream that may receive a body is
    charged, padding included, to the connection window and to the stream
    window, exactly its length to each and to no other stream; it fails the
    connection with FLOW_CONTROL_ERROR when it exceeds the connection window,
    and resets the stream with that code when it exceeds only the stream
    window; on any other stream, remembered or not, it resets the stream with
    STREAM_CLOSED.  A reset queues RST_STREAM for the peer and the event for
    the owner as far as the queues have room, closes a stream that was used,
    and charges nothing. *)
Theorem data_flow_control `{HP : Hpack} `{RO : !RangeOrder} s h :
  core_ok s -> header_fine h -> s.(failed) = None -> s.(peerInitialSettings) = true -> h.(Type_) = FrameData ->
  data_outcome s h (onFrameBegin h s).
Proof.
  intros Hok Hh Hf Hp Ht. rewrite (onFrameBegin_data s h Hf Hp Ht).
  set (q := s <| currentFrame := h |>). pose proof (beginData_outcome q h Hok Hh Ht Hf) as H. exact H.
Qed.

(** C37. SETTINGS_INITIAL_WINDOW_SIZE: applying it succeeds exactly when no
    send window of a stream that is not closed leaves the 32-bit range, and
    then every such window has moved by the difference to the last value and
    nothing else of any stream has changed, whatever order the streams are
    visited in. *)
Theorem initial_window_shift `{HP : Hpack} `{RO : !RangeOrder} `{!RangeComplete} s v :
  let r := applyPeerSetting s (mkSetting SettingInitialWindowSize v) in
  (r.2 = None <-> shift_fits (v - s.(peerInitialWindow)) s.(streams)) /\
  (r.2 = None -> r.1.(peerInitialWindow) = v /\ r.1.(streams) = shifted (v - s.(peerInitialWindow)) <$> s.(streams)).
Proof.
  cbv zeta. split.
  - rewrite <- (shiftSendWindows_fits (rangeOrder s)) by (apply range_nodup || apply range_all).
    rewrite applyPeerSetting_window. cbv zeta. by destruct (shiftSendWindows _ _ _) as [m []].
  - destruct (applyPeerSetting _ _) as [s' err] eqn:E. cbn. intros ->. by apply initial_window_applied.
Qed.

(** GOAWAY: unless it raises the last stream identifier of an earlier one,
    which is a connection error, the streams this endpoint opened above the
    identifier are closed and every other stream keeps its state. *)
Lemma goaway_gives_up `{HP : Hpack} `{RO : !RangeOrder} `{HF : !HpackFits} `{!RangeComplete} s last c id :
  core_ok s -> s.(failed) = None -> is_Some (s.(streams) !! id) ->
  if s.(goAwayReceived) && (s.(peerLastStream) <? last)
  then (onGoAway last c s).(failed) =
    Some (ErrProtocol (mkProtocolError 0 ErrCodeProtocol (str "GOAWAY last stream identifier increased")))
  else status (onGoAway last c s) id = if local_id s.(role) id && (last <? id) then StreamClosed else status s id.
Proof.
  intros Hok Hf Hid. destruct (_ && _) eqn:E; [|by apply onGoAway_status].
  unfold onGoAway. rewrite E. by apply connectionError_failed.
Qed.

(** ** Witnesses *)

(** A server that has read the head of a POST. *)
Definition demoBody : Session (HP := plainHpack) :=
  match runs (RO := mapOrder) [DoFeed demoOpen.(core).(output)] demoServer with Some ss => ss | None => demoServer end.

Lemma demoBody_ok : session_ok demoBody.
Proof.
  apply (demo_ok RoleServer demoServer demoBody [DoFeed demoOpen.(core).(output)] demoServer_new); [|by vm_compute..].
  constructor; [|constructor]. cbn. vm_compute. repeat constructor; done.
Qed.

Lemma data_flow_control_witness :
  let s := demoBody.(core) in
  (onFrameBegin (mkFrameHeader 3 FrameData 0 1) s).(connectionRecvWindow) = s.(connectionRecvWindow) - 3 /\
  s.(connectionRecvWindow) = 65535.
Proof.
  intros s. split; [|by vm_compute].
  pose proof (data_flow_control (RO := mapOrder) s (mkFrameHeader 3 FrameData 0 1) (proj1 demoBody_ok)
    ltac:(by vm_compute) ltac:(by vm_compute) ltac:(by vm_compute) eq_refl) as H.
  assert (match s.(streams) !! 1 with Some x => receiving x && negb (x.(recvWindow) <? 3) | None => false end = true) as E by by vm_compute.
  assert ((s.(connectionRecvWindow) <? 3) = false) as Ew by by vm_compute.
  unfold data_outcome in H. cbn [StreamID Length] in H. rewrite Ew in H. destruct (s.(streams) !! 1) as [x|]; [|done].
  destruct (receiving x); [|done]. destruct (x.(recvWindow) <? 3); [done | exact (proj1 H)].
Defined.

Lemma initial_window_shift_witness :
  let r := applyPeerSetting (HP := plainHpack) (RO := mapOrder) demoBody.(core) (mkSetting SettingInitialWindowSize 70000) in
  r.2 = None /\ r.1.(streams) = shifted 4465 <$> demoBody.(core).(streams).
Proof.
  intros r. assert (r.2 = None) as H by by vm_compute. split; [exact H|].
  exact (proj2 (proj2 (initial_window_shift (HP := plainHpack) (RO := mapOrder) demoBody.(core) 70000) H)).
Defined.

