(* ===== verification/H2SessionFindings.v ===== *)
(** * HTTP/2: traces the session handles differently from RFC 9113

    Concrete runs of the model, each the witness of a difference between
    [src/http2/session.go] and the protocol it implements. *)

From stdpp Require Import gmap.
From S2P Require Import Prelude H2Frame H2FrameWf H2FrameSpec H2Hpack H2Headers H2Session H2SessionTable H2SessionLife H2SessionProps.
Open Scope Z_scope.

(** ** Traffic *)

Definition frame (t flags id : Z) (payload : list Z) : list Z := wire (mkFrameHeader (len payload) t flags id, payload).

Definition block (hs : list HeaderField) : list Z := concat (map plainWrite hs).

(** A server with these limits that has read the preface, empty SETTINGS and
    then [src]. *)
Definition serverReads (l : SessionLimits) (src : list Z) : option Session :=
  match NewSession (HP := plainHpack) RoleServer l with
  | inl ss => (fun r => r.1.1) <$> Feed (RO := mapOrder) ss (ClientPreface ++ frame FrameSettings 0 0 [] ++ src)
  | inr _ => None
  end.

Definition eventKinds (s : Core (H := plainHpack)) : list (EventType * Z) := map (fun e => (e.(evType), e.(evStreamID))) s.(events).

Definition demoGet : list HeaderField :=
  [field (str ":method") (str "GET"); field (str ":scheme") (str "http"); field (str ":path") (str "/")].

(** DATA on a stream whose peer has ended it: the stream is reset, and the data
    is delivered all the same; the connection window is not charged. *)
Lemma refused_data_delivered :
  exists ss, serverReads noLimits (frame FrameHeaders 5 1 (block demoGet) ++ frame FrameData 0 1 (str "abc")) = Some ss /\
    eventKinds ss.(core) = [(EventSettings, 0); (EventHeaders, 1); (EventStreamEnd, 1); (EventStreamReset, 1); (EventData, 1)] /\
    status ss.(core) 1 = StreamClosed /\ ss.(core).(connectionRecvWindow) = defaultInitialWindowSize.
Proof. eexists. by vm_compute. Qed.

(** A header block that does not decode is a COMPRESSION_ERROR on a stream that
    is accepted and goes unnoticed on one that is refused: the HPACK decoder
    never sees the blocks of refused streams. *)
Lemma refused_headers_not_decoded :
  let l := noLimits <| MaxConcurrentStreams := 1 |> in
  let bad := [7; 58] in
  (exists ss, serverReads l (frame FrameHeaders 4 1 (block demoGet) ++ frame FrameHeaders 4 3 bad) = Some ss /\
     ss.(core).(failed) = None /\ status ss.(core) 3 = StreamIdle) /\
  (exists ss e, serverReads l (frame FrameHeaders 4 1 bad) = Some ss /\ ss.(core).(failed) = Some (ErrProtocol e) /\ e.(peCode) = ErrCodeCompression).
Proof. split; [eexists; by vm_compute | do 2 eexists; by vm_compute]. Qed.

Definition demoLength : list HeaderField := demoRequest ++ [field (str "content-length") (str "5")].

(** A body shorter than its content-length resets the stream when DATA ends it,
    and passes when trailers do: they overwrite the expected length. *)
Lemma trailers_hide_short_body :
  (exists ss, serverReads noLimits (frame FrameHeaders 4 1 (block demoLength) ++ frame FrameData 1 1 (str "abc")) = Some ss /\
     status ss.(core) 1 = StreamClosed) /\
  (exists ss, serverReads noLimits (frame FrameHeaders 4 1 (block demoLength) ++ frame FrameData 0 1 (str "abc") ++
       frame FrameHeaders 5 1 (block [field (str "x") (str "y")])) = Some ss /\
     eventKinds ss.(core) = [(EventSettings, 0); (EventHeaders, 1); (EventData, 1); (EventHeaders, 1); (EventStreamEnd, 1)] /\
     status ss.(core) 1 = StreamHalfClosedRemote).
Proof. split; eexists; by vm_compute. Qed.

(** A client that has read one response records its own stream as the last
    stream of the peer it has processed, which is what its GOAWAY names. *)
Lemma goaway_names_own_stream :
  exists ss, runs (RO := mapOrder) [DoOpenStream demoGet true;
      DoFeed (frame FrameSettings 0 0 [] ++ frame FrameHeaders 5 1 (block [field (str ":status") (str "200")]))] demoClient = Some ss /\
    ss.(core).(lastProcessedPeerStream) = 1 /\ ss.(core).(lastPeerStream) = 0 /\ local_id ss.(core).(role) 1 = true.
Proof. eexists. by vm_compute. Qed.

(** A WINDOW_UPDATE that does not fit the output queue is dropped, and the
    window is credited all the same: the peer stays blocked. *)
Lemma dropped_window_update :
  let l := noLimits <| InitialWindowSize := 4 |> in
  let l := mkSessionLimits l.(Frame) l.(Header) 0 0 0 60 0 0 4 0 false false in
  exists ss, serverReads l (frame FrameHeaders 4 1 (block demoRequest) ++ frame FrameData 0 1 (str "abc")) = Some ss /\
    ss.(core).(failed) = None /\ len ss.(core).(output) = 60 /\ ss.(core).(connectionRecvWindow) = 4.
Proof. eexists. by vm_compute. Qed.

(** A configured frame size below 16384 is announced as it is: the peer, here
    the same code, rejects the SETTINGS. *)
Lemma small_frame_size_rejected :
  let l := mkSessionLimits (mkLimits 100 0 0) (mkHeaderLimits 0 0 0 0) 0 0 0 0 0 0 0 0 false false in
  exists c ss e, NewSession (HP := plainHpack) RoleClient l = inl c /\
    (fun r => r.1.1) <$> Feed (RO := mapOrder) demoServer c.(core).(output) = Some ss /\
    ss.(core).(failed) = Some (ErrProtocol e) /\ e.(peReason) = codeString CodeInvalidSetting.
Proof. do 3 eexists. split; [by vm_compute|]. by vm_compute. Qed.

(** A client with an open stream and an output queue with room for 67 more
    bytes of data. *)
Definition shortQueue : option (Session (HP := plainHpack)) :=
  match NewSession (HP := plainHpack) RoleClient
    (mkSessionLimits (mkLimits 0 0 0) (mkHeaderLimits 0 0 90 0) 0 0 0 200 0 0 0 0 false false) with
  | inl c => runs (RO := mapOrder) [DoOpenStream demoRequest false] c
  | inr _ => None
  end.

(** [SendData] sends nothing when the output queue has room for a part of the
    data only, here for 67 of 68 bytes, although a call with 67 bytes sends them. *)
Lemma short_queue_sends_nothing :
  let sends n := (fun s => (SendData (HP := plainHpack) s.(core) 1 (replicate n 97) false).2) <$> shortQueue in
  sends 68%nat = Some (0, Some ErrOutputLimit) /\ sends 67%nat = Some (67, None).
Proof. split; by vm_compute. Qed.

(** A response section with a [te] field is accepted, although RFC 9113, 8.2.2
    allows it in requests only. *)
Lemma te_in_response_accepted :
  validateHeaderSection RoleClient false false [field (str ":status") (str "200"); field (str "te") (str "trailers")] false = true.
Proof. by vm_compute. Qed.
