(* ===== verification/Http1Request.v ===== *)
(** * HTTP/1 requests: the writer and the synchronous client

    A translation of [src/http/request/request.go].  A request is validated by
    running the parser of [Http1Parser] over its parts, then encoded into a
    buffer or written to a connection; [DoBuffer] also reads the response with
    the same parser.

    The connection is the caller's: the class [Stream] of [Transport].  A [nil] writer or stream is [None].  The closures
    [DoBuffer] installs record the last completed message in two variables;
    the trace of callbacks already holds it, and [lastMessage] reads it
    there. *)

From S2P Require Import Prelude Transport Http1Types Http1Fields Http1Parser.

Definition DefaultReadBufferBytes : Z := Z.shiftl 16 10.

Record Header := mkHeader {
  hdrName : list Z;
  hdrValue : list Z;
}.

(** The struct [Request]. *)
Record HTTPRequest := mkRequest {
  reqMethod : list Z;
  reqTarget : list Z;
  reqHost : list Z;
  reqHeaders : list Header;
  reqBody : list Z;
  reqContentLength : bool;
}.

(** The errors of the package, and those of [io] and the transport. *)
Inductive RequestError `{Stream} :=
  | ErrInvalidRequest
  | ErrInvalidStream
  | ErrReservedHeader
  | ErrShortBuffer
  | ErrEmptyReadBuffer
  | ValidationError (c : Code)
  | ParseError (c : Code)
  | Io (e : IoFailure).

Record ClientResponse := mkResponse {
  respMessage : Message;
  respBuffered : list Z;
  respUpgraded : bool;
}.

Record Client := mkClient {
  RequestLimits : Limits;
  ResponseLimits : Limits;
  ReadBufferBytes : Z; (* uint32 *)
}.

(** ** The parts of a request *)

Definition space : list Z := [ch " "].
Definition crlf : list Z := [CR; LF].
Definition colonSpace : list Z := str ": ".
Definition http11HostPrefix : list Z := str " HTTP/1.1" ++ [CR; LF] ++ str "Host: ".
Definition contentLengthPrefix : list Z := str "Content-Length: ".
Definition digitData : list Z := str "0123456789".

(** [request.Body] announces itself. *)
Definition hasLength (r : HTTPRequest) : bool := negb (len r.(reqBody) =? 0) || r.(reqContentLength).

Definition validToken (value : list Z) : bool :=
  match value with
  | [] => false
  | _ =>
      forallb (fun b =>
        between (ch "0") b (ch "9") || between (ch "A") b (ch "Z") || between (ch "a") b (ch "z")
        || one_of b (str "!#$%&'*+-.^_`|~")) value
  end.

Definition validFieldValue (value : list Z) : bool :=
  forallb (fun b => negb (negb (b =? 9) && ((b <? 32) || (b =? 127)))) value.

(** [if b >= 'A' && b <= 'Z' { b += 'a' - 'A' }] *)
Definition lowered (b : Z) : Z := if between (ch "A") b (ch "Z") then u8 (b + (ch "a" - ch "A")) else b.

Fixpoint equalFoldBytes (x y : list Z) : bool :=
  match x, y with
  | b :: x, other :: y => (lowered b =? lowered other) && equalFoldBytes x y
  | _, _ => true
  end.

Definition equalFold (x y : list Z) : bool :=
  if negb (len x =? len y) then false else equalFoldBytes x y.

Definition reservedHeader (name : list Z) : bool :=
  equalFold name (str "host") || equalFold name (str "content-length") || equalFold name (str "transfer-encoding").

(** [for quotient := value / 10; quotient != 0; quotient /= 10 { divisor *= 10 }]:
    a [uint64] has at most twenty digits. *)
Fixpoint divisorLoop (fuel : nat) (quotient divisor : Z) : Z :=
  match fuel with
  | O => divisor
  | S fuel => if quotient =? 0 then divisor else divisorLoop fuel (quotient / 10) (u64 (divisor * 10))
  end.

(** The slices of [digitData] that the loop of [parseDecimal] and [writeDecimal]
    visits. *)
Fixpoint digitLoop (fuel : nat) (value divisor : Z) : list (list Z) :=
  match fuel with
  | O => []
  | S fuel =>
      let digit := value / divisor in
      take 1 (drop (Z.to_nat digit) digitData) ::
      (if divisor =? 1 then [] else digitLoop fuel (value mod divisor) (divisor / 10))
  end.

Definition decimalParts (value : Z) : list (list Z) := digitLoop 20 value (divisorLoop 20 (value / 10) 1).

Fixpoint decimalLenLoop (fuel : nat) (value length : Z) : Z :=
  match fuel with
  | O => length
  | S fuel => if 10 <=? value then decimalLenLoop fuel (value / 10) (length + 1) else length
  end.

Definition decimalLen (value : Z) : Z := decimalLenLoop 20 value 1.

(** ** Encoding *)

Definition headerLen (h : Header) : Z := len h.(hdrName) + len colonSpace + len h.(hdrValue) + len crlf.

Definition encodedLen (r : HTTPRequest) : Z :=
  let size := len r.(reqMethod) + 1 + len r.(reqTarget) + len http11HostPrefix + len r.(reqHost) + len crlf in
  let size := fold_left (fun size h => size + headerLen h) r.(reqHeaders) size in
  let size := if hasLength r then size + (len contentLengthPrefix + decimalLen (u64 (len r.(reqBody))) + len crlf) else size in
  size + len crlf + len r.(reqBody).

Definition appendRequest (dst : list Z) (r : HTTPRequest) : list Z :=
  let dst := dst ++ r.(reqMethod) ++ [ch " "] ++ r.(reqTarget) ++ http11HostPrefix ++ r.(reqHost) ++ crlf in
  let dst := fold_left (fun dst h => dst ++ h.(hdrName) ++ colonSpace ++ h.(hdrValue) ++ crlf) r.(reqHeaders) dst in
  let dst := if hasLength r then dst ++ contentLengthPrefix ++ formatUint (u64 (len r.(reqBody))) ++ crlf else dst in
  dst ++ crlf ++ r.(reqBody).

Section Client.
Context `{ST : Stream}.

(** ** Validation *)

(** The parser with its callback trace, and the error; [None] is running out of
    the parser's fuel. *)
Definition Checked : Type := option ((Parser * Trace) * option RequestError).

Definition parsePart (s : Parser * Trace) (part : list Z) : Checked :=
  match Parse s.1 s.2 part with
  | None => None
  | Some o =>
      let consumed := len part - len o.(outRest) in
      let err :=
        if negb (is_none o.(outCode)) || negb (consumed =? len part) then
          if is_none o.(outCode) then Some ErrInvalidRequest else Some (ValidationError o.(outCode))
        else None in
      Some ((o.(outParser), o.(outTrace)), err)
  end.

(** [c1; if err != nil { return err }; c2] *)
Definition andThenCheck (c : Checked) (k : Parser * Trace -> Checked) : Checked :=
  match c with
  | Some (s, None) => k s
  | r => r
  end.

(** Consecutive calls of [parsePart], each followed by [if err != nil { return err }]. *)
Fixpoint parseParts (s : Parser * Trace) (parts : list (list Z)) : Checked :=
  match parts with
  | [] => Some (s, None)
  | part :: parts => andThenCheck (parsePart s part) (fun s => parseParts s parts)
  end.

Definition parseDecimal (s : Parser * Trace) (value : Z) : Checked := parseParts s (decimalParts value).

Fixpoint parseHeaders (s : Parser * Trace) (headers : list Header) : Checked :=
  match headers with
  | [] => Some (s, None)
  | h :: headers =>
      andThenCheck (parseParts s [h.(hdrName); colonSpace; h.(hdrValue); crlf]) (fun s => parseHeaders s headers)
  end.

(** The loop over the headers that precedes the parser. *)
Fixpoint checkHeaders (headers : list Header) : option RequestError :=
  match headers with
  | [] => None
  | h :: headers =>
      if negb (validToken h.(hdrName)) || negb (validFieldValue h.(hdrValue)) then Some ErrInvalidRequest
      else if reservedHeader h.(hdrName) then Some ErrReservedHeader
      else checkHeaders headers
  end.

(** The generated head, read by a parser. *)
Definition parseHead (s : Parser * Trace) (r : HTTPRequest) : Checked :=
  andThenCheck (parseParts s [r.(reqMethod); space; r.(reqTarget); http11HostPrefix; r.(reqHost); crlf]) (fun s =>
  andThenCheck (parseHeaders s r.(reqHeaders)) (fun s =>
  andThenCheck
    (if hasLength r then
       andThenCheck (parsePart s contentLengthPrefix) (fun s =>
       andThenCheck (parseDecimal s (u64 (len r.(reqBody)))) (fun s =>
       parsePart s crlf))
     else Some (s, None)) (fun s =>
  parsePart s crlf))).

Definition Validate (r : HTTPRequest) (limits : Limits) : option (option RequestError) :=
  if negb (validToken r.(reqMethod)) || (len r.(reqTarget) =? 0) || (len r.(reqHost) =? 0) || negb (validFieldValue r.(reqHost))
  then Some (Some ErrInvalidRequest)
  else
    match checkHeaders r.(reqHeaders) with
    | Some err => Some (Some err)
    | None => snd <$> parseHead (NewParser Request None limits, []) r
    end.

Definition EncodedLen (r : HTTPRequest) (limits : Limits) : option (Z * option RequestError) :=
  match Validate r limits with
  | None => None
  | Some (Some err) => Some (0, Some err)
  | Some None => Some (encodedLen r, None)
  end.

(** The destination afterwards, the count and the error: [append(dst[:0], ...)]
    writes over the front of a destination that is long enough. *)
Definition Encode (dst : list Z) (r : HTTPRequest) (limits : Limits) : option (list Z * (Z * option RequestError)) :=
  match Validate r limits with
  | None => None
  | Some (Some err) => Some (dst, (0, Some err))
  | Some None =>
      let size := encodedLen r in
      if len dst <? size then Some (dst, (0, Some ErrShortBuffer))
      else
        let encoded := appendRequest [] r in
        Some (encoded ++ drop (length encoded) dst, (len encoded, None))
  end.

Definition Append (dst : list Z) (r : HTTPRequest) (limits : Limits) : option (list Z * option RequestError) :=
  match Validate r limits with
  | None => None
  | Some (Some err) => Some (dst, Some err)
  | Some None => Some (appendRequest dst r, None)
  end.

(** ** Writing *)

Definition writeAll (w : Conn) (data : list Z) : option (Conn * option RequestError) := writeData Io w data.

(** Consecutive calls of [writeAll], each followed by [if err != nil { return err }]. *)
Fixpoint writeParts (w : Conn) (parts : list (list Z)) : option (Conn * option RequestError) :=
  match parts with
  | [] => Some (w, None)
  | part :: parts => andThenWrite (writeAll w part) (fun w => writeParts w parts)
  end.

Definition writeDecimal (w : Conn) (value : Z) : option (Conn * option RequestError) := writeParts w (decimalParts value).

Fixpoint writeHeaders (w : Conn) (headers : list Header) : option (Conn * option RequestError) :=
  match headers with
  | [] => Some (w, None)
  | h :: headers =>
      andThenWrite (writeParts w [h.(hdrName); colonSpace; h.(hdrValue); crlf]) (fun w => writeHeaders w headers)
  end.

Definition writeRequest (w : Conn) (r : HTTPRequest) : option (Conn * option RequestError) :=
  andThenWrite (writeParts w [r.(reqMethod); space; r.(reqTarget); http11HostPrefix; r.(reqHost); crlf]) (fun w =>
  andThenWrite (writeHeaders w r.(reqHeaders)) (fun w =>
  andThenWrite
    (if hasLength r then
       andThenWrite (writeAll w contentLengthPrefix) (fun w =>
       andThenWrite (writeDecimal w (u64 (len r.(reqBody)))) (fun w =>
       writeAll w crlf))
     else Some (w, None)) (fun w =>
  andThenWrite (writeAll w crlf) (fun w => writeAll w r.(reqBody))))).

Definition Write (writer : option Conn) (r : HTTPRequest) (limits : Limits) : option (option Conn * option RequestError) :=
  match writer with
  | None => Some (None, Some ErrInvalidRequest)
  | Some w =>
      match Validate r limits with
      | None => None
      | Some (Some err) => Some (Some w, Some err)
      | Some None => (fun '(w, err) => (Some w, err)) <$> writeRequest w r
      end
  end.

(** ** The exchange *)

Definition finalResponse (status : Z) : bool := (status =? 101) || (200 <=? status).

(** [completed] and [sawMessage]: the trace is newest first. *)
Fixpoint lastMessage (tr : Trace) : option Message :=
  match tr with
  | [] => None
  | EvMessageComplete m :: _ => Some m
  | _ :: tr => lastMessage tr
  end.

Definition noCallbacks : Callbacks :=
  mkCallbacks None None None None None None None None None None None None None None.

(** The callbacks [DoBuffer] installs: the caller's, with its own context query
    and a [MessageComplete] that also calls the caller's. *)
Definition wrapCallbacks (cb : option Callbacks) (r : HTTPRequest) : Callbacks :=
  let c := match cb with Some c => c | None => noCallbacks end in
  let head := equalFold r.(reqMethod) (str "HEAD") in
  let connect := equalFold r.(reqMethod) (str "CONNECT") in
  {| cbResponseContext := Some (fun _ _ => ((head, connect), false));
     cbMessageBegin := c.(cbMessageBegin);
     cbMethod := c.(cbMethod);
     cbTarget := c.(cbTarget);
     cbReason := c.(cbReason);
     cbStartLine := c.(cbStartLine);
     cbHeaderName := c.(cbHeaderName);
     cbHeaderValue := c.(cbHeaderValue);
     cbHeaderEnd := c.(cbHeaderEnd);
     cbHeadersComplete := c.(cbHeadersComplete);
     cbChunkHeader := c.(cbChunkHeader);
     cbBody := c.(cbBody);
     cbChunkComplete := c.(cbChunkComplete);
     cbMessageComplete := Some (fun tr m => match c.(cbMessageComplete) with Some f => f tr m | None => false end) |}.

Definition is_upgrade (c : Code) : bool := match c with CodeUpgrade => true | _ => false end.

(** What [completed], [sawMessage] and the status say of the response. *)
Definition finalMessage (tr : Trace) : option Message :=
  match lastMessage tr with
  | Some m => if finalResponse m.(msgStatus) then Some m else None
  | None => None
  end.

(** The inner loop over the bytes of one read: go on reading, or return.
    [None] is running out of fuel. *)
Fixpoint messageLoop (fuel : nat) (p : Parser) (tr : Trace) (src : list Z)
  : option ((Parser * Trace) + (ClientResponse + RequestError)) :=
  match src with
  | [] => Some (inl (p, tr))
  | _ =>
      match fuel with
      | O => None
      | S fuel =>
          match ParseOne p tr src with
          | None => None
          | Some (o, complete) =>
              let c := o.(outCode) in
              if negb (is_none c) && negb (is_upgrade c) then Some (inr (inr (ParseError c)))
              else
                match if complete then finalMessage o.(outTrace) else None with
                | Some m => Some (inr (inl (mkResponse m o.(outRest) (is_upgrade c))))
                | None =>
                    if is_upgrade c then Some (inr (inr (ParseError c)))
                    else if (len o.(outRest) =? len src) && negb complete then Some (inr (inr (Io IoNoProgress)))
                    else messageLoop fuel o.(outParser) o.(outTrace) o.(outRest)
                end
          end
      end
  end.

(** The end of the stream. *)
Definition finishExchange (p : Parser) (tr : Trace) : ClientResponse + RequestError :=
  let '(_, tr, c) := Finish p tr in
  if negb (is_none c) && negb (is_upgrade c) then inr (ParseError c)
  else
    match finalMessage tr with
    | Some m => inl (mkResponse m [] (is_upgrade c))
    | None => inr (Io IoUnexpectedEOF)
    end.

(** The outer loop: the connection, the buffer, and the result.  It ends when
    the stream does; [None] is running out of fuel. *)
Fixpoint readLoop (fuel : nat) (w : Conn) (buffer : list Z) (p : Parser) (tr : Trace)
  : option (Conn * (ClientResponse + RequestError)) :=
  match fuel with
  | O => None
  | S fuel =>
      let '((w, filled), (read, err)) := SRead w buffer in
      if (read <? 0) || (len buffer <? read) then Some (w, inr (Io IoShortBuffer))
      else
        match messageLoop (Z.to_nat read) p tr (take (Z.to_nat read) filled) with
        | None => None
        | Some (inr r) => Some (w, r)
        | Some (inl (p, tr)) =>
            match err with
            | Some e => Some (w, if is_EOF e then finishExchange p tr else inr (Io (IoError e)))
            | None => if read =? 0 then Some (w, inr (Io IoNoProgress)) else readLoop fuel w filled p tr
            end
        end
  end.

Definition DoBuffer (fuel : nat) (c : Client) (stream : option Conn) (r : HTTPRequest) (cb : option Callbacks) (buffer : list Z)
  : option (option Conn * (ClientResponse + RequestError)) :=
  match stream with
  | None => Some (None, inr ErrInvalidStream)
  | Some _ =>
      if len buffer =? 0 then Some (stream, inr ErrEmptyReadBuffer)
      else
        match Write stream r c.(RequestLimits) with
        | Some (Some w, None) =>
            let p := NewParser Response (Some (wrapCallbacks cb r)) c.(ResponseLimits) in
            (fun '(w, result) => (Some w, result)) <$> readLoop fuel w buffer p []
        | Some (w, Some err) => Some (w, inr err)
        | _ => None
        end
  end.

Definition Do (fuel : nat) (c : Client) (stream : option Conn) (r : HTTPRequest) (cb : option Callbacks)
  : option (option Conn * (ClientResponse + RequestError)) :=
  let size := if c.(ReadBufferBytes) =? 0 then DefaultReadBufferBytes else c.(ReadBufferBytes) in
  DoBuffer fuel c stream r cb (replicate (Z.to_nat size) 0).
End Client.
