(* ===== verification/Http1RequestWire.v ===== *)
(** * HTTP/1 requests: the bytes of a request

    The encoder, the writer and the validator of [Http1Request] go over the
    same bytes: the parts of the request, concatenated. *)

From S2P Require Import Prelude Transport Http1Types Http1Fields Http1Parser Http1Wf Http1Stream Http1Request.

(** ** The parts *)

Definition startParts (r : HTTPRequest) : list (list Z) :=
  [r.(reqMethod); space; r.(reqTarget); http11HostPrefix; r.(reqHost); crlf].

Definition headerParts (h : Header) : list (list Z) := [h.(hdrName); colonSpace; h.(hdrValue); crlf].

Definition lengthParts (r : HTTPRequest) : list (list Z) :=
  if hasLength r then [contentLengthPrefix] ++ decimalParts (u64 (len r.(reqBody))) ++ [crlf] else [].

(** The head of a request, up to and with its empty line. *)
Definition headParts (r : HTTPRequest) : list (list Z) :=
  startParts r ++ concat (map headerParts r.(reqHeaders)) ++ lengthParts r ++ [crlf].

Definition encoding (r : HTTPRequest) : list Z := concat (headParts r) ++ r.(reqBody).

(** ** Decimal numbers *)

(** The [k + 1] low digits of a number. *)
Fixpoint fixedDigits (k : nat) (v : Z) : list Z :=
  match k with
  | O => [ch "0" + v mod 10]
  | S k => fixedDigits k (v / 10) ++ [ch "0" + v mod 10]
  end.

Lemma fixedDigits_length k v : length (fixedDigits k v) = S k.
Proof. revert v. induction k as [|k IH]; intros v; cbn [fixedDigits]; [done|]. rewrite length_app, IH. cbn. lia. Qed.

Lemma pow10_pos k : 0 < 10 ^ Z.of_nat k.
Proof. apply Z.pow_pos_nonneg; lia. Qed.

Lemma pow10_S k : 10 ^ Z.of_nat (S k) = 10 * 10 ^ Z.of_nat k.
Proof. rewrite Nat2Z.inj_succ. apply Z.pow_succ_r. lia. Qed.

(** The first digit split off. *)
Lemma fixedDigits_cons k v :
  0 <= v < 10 ^ Z.of_nat (S (S k)) ->
  fixedDigits (S k) v = [ch "0" + v / 10 ^ Z.of_nat (S k)] ++ fixedDigits k (v mod 10 ^ Z.of_nat (S k)).
Proof.
  revert v. induction k as [|k IH]; intros v Hv.
  - cbn [fixedDigits]. change (10 ^ Z.of_nat 1) with 10. change (10 ^ Z.of_nat 2) with 100 in Hv. rewrite Z.mod_mod by lia.
    rewrite (Z.mod_small (v / 10)) by (split; [apply Z.div_pos | apply Z.div_lt_upper_bound]; lia). done.
  - cbn [fixedDigits] in *. rewrite (pow10_S (S (S k))) in Hv. rewrite (pow10_S (S k)). set (Q := 10 ^ Z.of_nat (S k)) in *.
    assert (0 < Q) as HQ by apply pow10_pos.
    rewrite (IH (v / 10)) by (split; [apply Z.div_pos | apply Z.div_lt_upper_bound]; lia). fold Q.
    assert ((v mod (10 * Q)) / 10 = (v / 10) mod Q) as ->.
    { rewrite (Z.rem_mul_r v 10 Q), Z.mul_comm, Z.div_add by lia.
      rewrite (Z.div_small (v mod 10)) by (apply Z.mod_pos_bound; lia). lia. }
    assert ((v mod (10 * Q)) mod 10 = v mod 10) as ->.
    { rewrite (Z.rem_mul_r v 10 Q), Z.mul_comm, Z.mod_add, Z.mod_mod by lia. done. }
    by rewrite Z.div_div by lia.
Qed.

Lemma digitData_at d : 0 <= d < 10 -> take 1 (drop (Z.to_nat d) digitData) = [ch "0" + d].
Proof.
  intros Hd. assert (d = 0 \/ d = 1 \/ d = 2 \/ d = 3 \/ d = 4 \/ d = 5 \/ d = 6 \/ d = 7 \/ d = 8 \/ d = 9) as H by lia.
  by repeat (destruct H as [->|H]; [done|]); subst.
Qed.

Lemma digitLoop_fixed k fuel v :
  0 <= v < 10 ^ Z.of_nat (S k) -> (k < fuel)%nat -> concat (digitLoop fuel v (10 ^ Z.of_nat k)) = fixedDigits k v.
Proof.
  revert fuel v. induction k as [|k IH]; intros [|fuel] v Hv Hf; try lia; cbn [digitLoop concat].
  - change (10 ^ Z.of_nat 0) with 1. rewrite Z.div_1_r, digitData_at by (cbn in Hv; lia). cbn. by rewrite Z.mod_small by (cbn in Hv; lia).
  - pose proof (pow10_pos k). pose proof (Z.mod_pos_bound v (10 ^ Z.of_nat (S k)) (pow10_pos (S k))).
    rewrite fixedDigits_cons by done. rewrite digitData_at.
    2: { rewrite pow10_S in Hv. split; [apply Z.div_pos | apply Z.div_lt_upper_bound]; pose proof (pow10_pos (S k)); lia. }
    destruct (Z.eqb_spec (10 ^ Z.of_nat (S k)) 1) as [E|_]; [rewrite pow10_S in E; lia|]. f_equal.
    assert (10 ^ Z.of_nat (S k) / 10 = 10 ^ Z.of_nat k) as -> by (rewrite pow10_S, Z.mul_comm; apply Z.div_mul; lia). apply IH; [done | lia].
Qed.

(** The number of digits of [v], less one. *)
Fixpoint digitsLess (fuel : nat) (v : Z) : nat :=
  match fuel with
  | O => O
  | S fuel => if v <? 10 then O else S (digitsLess fuel (v / 10))
  end.

Lemma digitsLess_bounds fuel v : 0 <= v < 10 ^ Z.of_nat (S fuel) ->
  v < 10 ^ Z.of_nat (S (digitsLess fuel v)) /\ (digitsLess fuel v <= fuel)%nat.
Proof.
  revert v. induction fuel as [|fuel IH]; intros v Hv; cbn [digitsLess]; [cbn in *; lia|].
  destruct (Z.ltb_spec v 10); [cbn; lia|]. rewrite pow10_S in Hv.
  destruct (IH (v / 10)) as [H1 H2]; [split; [apply Z.div_pos | apply Z.div_lt_upper_bound]; lia|].
  split; [|lia]. rewrite pow10_S. pose proof (Z.div_mod v 10). pose proof (Z.mod_pos_bound v 10). lia.
Qed.

Lemma digitsLess_more fuel v : 0 <= v < 10 ^ Z.of_nat (S fuel) -> digitsLess (S fuel) v = digitsLess fuel v.
Proof.
  revert v. induction fuel as [|fuel IH]; intros v Hv; [cbn in *; destruct (Z.ltb_spec v 10); lia|].
  change (digitsLess (S (S fuel)) v) with (if v <? 10 then O else S (digitsLess (S fuel) (v / 10))).
  change (digitsLess (S fuel) v) with (if v <? 10 then O else S (digitsLess fuel (v / 10))).
  destruct (v <? 10); [done|]. rewrite IH; [done|].
  rewrite pow10_S in Hv. split; [apply Z.div_pos | apply Z.div_lt_upper_bound]; lia.
Qed.

Lemma decimalDigits_fixed fuel v : 0 <= v < 10 ^ Z.of_nat (S fuel) -> decimalDigits (S fuel) v = fixedDigits (digitsLess fuel v) v.
Proof.
  revert v. induction fuel as [|fuel IH]; intros v Hv.
  - cbn. destruct (v <? 10); done.
  - change (decimalDigits (S (S fuel)) v) with ((if v <? 10 then [] else decimalDigits (S fuel) (v / 10)) ++ [ch "0" + v mod 10]).
    cbn [digitsLess]. destruct (Z.ltb_spec v 10); [done|]. cbn [fixedDigits]. rewrite IH; [done|].
    rewrite pow10_S in Hv. split; [apply Z.div_pos | apply Z.div_lt_upper_bound]; lia.
Qed.

Lemma divisorLoop_power fuel v k :
  0 <= v < 10 ^ Z.of_nat (S fuel) -> Z.of_nat (k + digitsLess fuel v) <= 19 ->
  divisorLoop fuel (v / 10) (10 ^ Z.of_nat k) = 10 ^ Z.of_nat (k + digitsLess fuel v).
Proof.
  revert v k. induction fuel as [|fuel IH]; intros v k Hv Hk; cbn [divisorLoop digitsLess] in *; [by rewrite Nat.add_0_r|].
  destruct (Z.ltb_spec v 10); [rewrite Z.div_small by lia; cbn; by rewrite Nat.add_0_r|].
  destruct (Z.eqb_spec (v / 10) 0) as [E|_]; [pose proof (Z.div_str_pos v 10); lia|].
  rewrite u64_small.
  2: { rewrite Z.mul_comm, <- pow10_S. split; [pose proof (pow10_pos (S k)); lia|].
       etrans; [apply (Z.pow_le_mono_r 10 _ 19); lia|]. by vm_compute. }
  rewrite Z.mul_comm, <- pow10_S. rewrite IH.
  - f_equal. lia.
  - rewrite pow10_S in Hv. split; [apply Z.div_pos | apply Z.div_lt_upper_bound]; lia.
  - lia.
Qed.

Lemma uint64_digits v : 0 <= v <= MaxUint64 -> 0 <= v < 10 ^ Z.of_nat 20 /\ (digitsLess 19 v <= 19)%nat.
Proof.
  intros Hv. assert (0 <= v < 10 ^ Z.of_nat 20) as H by (unfold MaxUint64 in Hv; change (10 ^ Z.of_nat 20) with 100000000000000000000; lia).
  split; [done | by apply digitsLess_bounds].
Qed.

(** The digit loop writes what [strconv] formats. *)
Lemma decimalParts_format v : 0 <= v <= MaxUint64 -> concat (decimalParts v) = formatUint v.
Proof.
  intros Hv. destruct (uint64_digits v Hv) as [H1 H2]. unfold formatUint. rewrite decimalDigits_fixed by done.
  unfold decimalParts. change 1 with (10 ^ Z.of_nat 0).
  assert (divisorLoop 20 (v / 10) (10 ^ Z.of_nat 0) = 10 ^ Z.of_nat (digitsLess 19 v)) as ->.
  { pose proof (digitsLess_more 19 v H1) as E.
    rewrite divisorLoop_power; [by rewrite Nat.add_0_l, E | | rewrite E; lia]. rewrite pow10_S. lia. }
  apply digitLoop_fixed; [|lia]. split; [lia | by apply digitsLess_bounds].
Qed.

Lemma decimalLenLoop_digits fuel v n : decimalLenLoop fuel v n = n + Z.of_nat (digitsLess fuel v).
Proof.
  revert v n. induction fuel as [|fuel IH]; intros v n; cbn [decimalLenLoop digitsLess]; [lia|].
  destruct (Z.leb_spec 10 v); [rewrite (proj2 (Z.ltb_ge v 10)) by lia; rewrite IH; lia|].
  rewrite (proj2 (Z.ltb_lt v 10)) by lia. lia.
Qed.

Lemma decimalLen_format v : 0 <= v <= MaxUint64 -> decimalLen v = len (formatUint v).
Proof.
  intros Hv. destruct (uint64_digits v Hv) as [H1 _]. unfold decimalLen, formatUint. rewrite decimalLenLoop_digits.
  rewrite (digitsLess_more 19) by done. rewrite decimalDigits_fixed by done. unfold len. rewrite fixedDigits_length. lia.
Qed.

(** ** Encoding *)

Lemma appendHeaders_eq headers dst :
  fold_left (fun dst h => dst ++ h.(hdrName) ++ colonSpace ++ h.(hdrValue) ++ crlf) headers dst =
  dst ++ concat (concat (map headerParts headers)).
Proof.
  revert dst. induction headers as [|h headers IH]; intros dst; cbn [fold_left map concat]; [by rewrite app_nil_r|].
  rewrite IH, concat_app. cbn [headerParts concat]. by rewrite app_nil_r, <- !app_assoc.
Qed.

Lemma appendRequest_eq dst r : appendRequest dst r = dst ++ encoding r.
Proof.
  unfold appendRequest, encoding, headParts. cbv zeta. rewrite appendHeaders_eq, !concat_app. unfold lengthParts.
  destruct (hasLength r).
  - rewrite !concat_app, decimalParts_format by apply u64_range. cbn [startParts concat]. rewrite !app_nil_r, <- !app_assoc. done.
  - cbn [startParts concat]. rewrite !app_nil_r, <- !app_assoc. done.
Qed.

Lemma headersLen_eq headers size :
  fold_left (fun size h => size + headerLen h) headers size = size + len (concat (concat (map headerParts headers))).
Proof.
  revert size. induction headers as [|h headers IH]; intros size; cbn [fold_left map concat]; [rewrite len_nil; lia|].
  rewrite IH, concat_app. cbn [headerParts concat]. rewrite !len_app, len_nil. unfold headerLen. lia.
Qed.

Lemma encodedLen_eq r : encodedLen r = len (encoding r).
Proof.
  unfold encodedLen, encoding, headParts. cbv zeta. rewrite headersLen_eq, !concat_app. unfold lengthParts.
  destruct (hasLength r).
  - rewrite !concat_app, decimalParts_format, decimalLen_format by apply u64_range. cbn [startParts concat].
    rewrite !len_app. change (len space) with 1. change (len (@nil Z)) with 0. lia.
  - cbn [startParts concat]. rewrite !len_app. change (len space) with 1. change (len (@nil Z)) with 0. lia.
Qed.

(** The bytes of a request on the wire, as the protocol writes them. *)
Definition requestBytes (r : HTTPRequest) : list Z :=
  r.(reqMethod) ++ str " " ++ r.(reqTarget) ++ str " HTTP/1.1" ++ [CR; LF] ++
  str "Host: " ++ r.(reqHost) ++ [CR; LF] ++
  concat (map (fun h => h.(hdrName) ++ str ": " ++ h.(hdrValue) ++ [CR; LF]) r.(reqHeaders)) ++
  (if hasLength r then str "Content-Length: " ++ formatUint (len r.(reqBody)) ++ [CR; LF] else []) ++
  [CR; LF] ++ r.(reqBody).

Lemma headerParts_bytes headers :
  concat (concat (map headerParts headers)) =
  concat (map (fun h => h.(hdrName) ++ str ": " ++ h.(hdrValue) ++ [CR; LF]) headers).
Proof.
  induction headers as [|h headers IH]; [done|]. cbn [map concat]. rewrite concat_app, IH. by f_equal.
Qed.

Lemma encoding_bytes r : len r.(reqBody) <= MaxUint64 -> encoding r = requestBytes r.
Proof.
  intros Hb. pose proof (len_nonneg (reqBody r)). unfold encoding, requestBytes, headParts.
  rewrite !concat_app, headerParts_bytes. unfold lengthParts. rewrite u64_small by lia. destruct (hasLength r).
  - rewrite !concat_app, decimalParts_format by lia. cbn [startParts concat]. rewrite !app_nil_r, <- !app_assoc. done.
  - cbn [startParts concat]. rewrite !app_nil_r, <- !app_assoc. done.
Qed.

(** ** Writing *)

Section Writing.
Context `{ST : Stream} `{WR : !Writer}.
Implicit Types w : Conn.

Lemma writeAll_wrote w data : wrote w data (writeAll w data).
Proof. apply writeData_wrote. Qed.

Lemma writeParts_wrote w parts : wrote w (concat parts) (writeParts w parts).
Proof.
  revert w. induction parts as [|x parts IH]; intros w; [apply wrote_nil|].
  cbn [writeParts concat]. apply wrote_app; [apply writeAll_wrote | intros w1 _; apply IH].
Qed.

Lemma writeHeaders_wrote w headers : wrote w (concat (concat (map headerParts headers))) (writeHeaders w headers).
Proof.
  revert w. induction headers as [|h headers IH]; intros w; cbn [map concat]; [apply wrote_nil|]. rewrite concat_app.
  cbn [writeHeaders]. apply wrote_app; [apply writeParts_wrote | intros w1 _; apply IH].
Qed.

Lemma writeRequest_wrote w r : wrote w (encoding r) (writeRequest w r).
Proof.
  unfold encoding, headParts. rewrite !concat_app, <- !app_assoc. unfold writeRequest.
  apply wrote_app; [apply writeParts_wrote|]. intros w1 _. apply wrote_app; [apply writeHeaders_wrote|]. intros w2 _.
  apply wrote_app.
  - unfold lengthParts. destruct (hasLength r); [|apply wrote_nil]. rewrite !concat_app. cbn [concat]. rewrite !app_nil_r.
    apply wrote_app; [apply writeAll_wrote|]. intros w3 _. apply wrote_app; [apply writeParts_wrote|].
    intros w4 _. apply writeAll_wrote.
  - intros w3 _. cbn [concat]. rewrite app_nil_r. apply wrote_app; [apply writeAll_wrote|]. intros w4 _. apply writeAll_wrote.
Qed.
End Writing.
