(* ===== verification/Http1RequestSteps.v ===== *)
(** * HTTP/1 requests: what the validator reads

    [Validate] feeds the parts of a request to the parser one by one; by the
    fragmentation lemmas of [Http1Stream] that is one call on their
    concatenation.  A run of the parser that succeeds is followed here token by
    token: start line, field lines, empty line. *)

From S2P Require Import Prelude Transport Http1Types Http1Fields Http1Parser Http1Wf Http1Stream Http1Names Http1Numbers Http1Props Http1Request Http1RequestWire.

(** ** Successful runs *)

(** The parser takes all of the bytes and ends in [q]. *)
Definition takes (p : Parser) (src : list Z) (q : Parser) : Prop :=
  exists tr tr', runs p tr src (mkOutcome q tr' [] CodeNone).

(** A turn of the parse loop that goes on. *)
Definition turns (p : Parser) (src : list Z) (q : Parser) (rest : list Z) : Prop :=
  exists b src' tr tr', src = b :: src' /\ parseSwitch p tr b src' = Next q tr' rest.

Lemma takes_nil p q : takes p [] q -> q = p.
Proof. intros (tr & tr' & H). apply runs_nil in H. by injection H. Qed.

Lemma takes_turn p src q :
  running p -> src <> [] -> takes p src q -> exists p' rest, turns p src p' rest /\ running p' /\ takes p' rest q.
Proof.
  intros Hrun Hne (tr & tr' & H). destruct src as [|b src]; [done|]. pose proof Hrun as (_ & _ & Hp & _). rewrite runs_cons in H by done.
  pose proof (running_step p tr b src Hrun) as Hs. destruct (parseSwitch p tr b src) as [p' u r|p' u r c] eqn:E; cbn in H.
  - exists p', r. split_and!; [by exists b, src, tr, u | done | by exists u, tr'].
  - injection H as <- _ _ <-. done.
Qed.

Lemma andThen_next r tr rest k q u s : andThen r tr rest k = Next q u s -> exists p, r = (p, true) /\ k p = Next q u s.
Proof. destruct r as [p []]; cbn; [by exists p | done]. Qed.

Lemma afterLoop_next r tr k q u s :
  afterLoop r tr k = Next q u s -> exists p rest, r = ((p, rest), true) /\ k p rest = Next q u s.
Proof. destruct r as [[p rest] []]; cbn; [by exists p, rest | done]. Qed.

(** A callback that does not fail the parser leaves it alone. *)
Lemma invoke_next {A} (F : Callbacks -> Callback A) mk a p tr rest k q u s :
  p.(code) = CodeNone -> afterCallback (invoke F mk a p tr) rest k = Next q u s -> exists tr', k p tr' = Next q u s.
Proof.
  intros Hc. unfold afterCallback, invoke. destruct (getCallback F p) as [f|]; [|rewrite Hc; cbn; eauto].
  destruct (f tr a); [unfold fail; rewrite Hc; done|]. rewrite Hc. cbn. eauto.
Qed.

Lemma invokeSpan_next F k0 bytes p tr rest k q u s :
  p.(code) = CodeNone -> afterCallback (invokeSpan F k0 bytes p tr) rest k = Next q u s -> exists tr', k p tr' = Next q u s.
Proof.
  intros Hc. destruct bytes as [|b bytes]; cbn [invokeSpan]; [unfold afterCallback; rewrite Hc; cbn; eauto|].
  by apply invoke_next.
Qed.

(** ** What a token leaves unchanged *)

(** The fields that frame a message. *)
Definition framing (p : Parser) :=
  (p.(kind), p.(limits), p.(code), p.(messageActive), p.(messageNum), p.(trailers), p.(hasTransferEncoding),
   p.(hasContentLength), p.(bodyBytes)).

(** An operation on a parser that keeps its framing and what is left of the
    body. *)
Definition keeps (f : Parser -> Parser * bool) : Prop :=
  forall p q, f p = (q, true) -> framing q = framing p /\ q.(remaining) = p.(remaining).

Ltac solve_keeps :=
  intros p q; cbv zeta; repeat (case_match; try done); intros [= <-]; done.

Lemma takeStartByte_keeps : keeps takeStartByte.
Proof. unfold keeps, takeStartByte, reject. solve_keeps. Qed.

Lemma takeHeaderByte_keeps : keeps takeHeaderByte.
Proof. unfold keeps, takeHeaderByte, reject. solve_keeps. Qed.

Lemma matchMethod_keeps p b : framing (matchMethod p b) = framing p /\ remaining (matchMethod p b) = remaining p.
Proof. unfold matchMethod. cbv zeta. by repeat case_match. Qed.

Lemma methodByte_keeps b : keeps (fun p => methodByte p b).
Proof.
  intros p q. unfold methodByte. destruct (takeStartByte p) as [p1 []] eqn:E; [|done]. intros [= <-].
  apply takeStartByte_keeps in E as [<- <-]. apply matchMethod_keeps.
Qed.

Lemma appendIPLiteral_keeps b : keeps (fun p => appendIPLiteral p b).
Proof. unfold keeps, appendIPLiteral. solve_keeps. Qed.

Lemma consumeTargetForm_keeps b : keeps (fun p => consumeTargetForm p b).
Proof.
  intros p q. unfold consumeTargetForm, startTargetForm, consumeTargetAuthority, reject.
  destruct (appendIPLiteral p b) as [p1 []] eqn:E; [apply appendIPLiteral_keeps in E as H|].
  all: repeat (case_match; try done); intros [= <-]; first [done | exact H].
Qed.

Lemma targetByte_keeps b : keeps (fun p => targetByte p b).
Proof.
  intros p q. unfold targetByte. destruct (consumeTargetForm p b) as [p1 []] eqn:E1; [|done]. cbn [negb].
  apply consumeTargetForm_keeps in E1 as [<- <-].
  match goal with |- context [let (_, _) := ?x in _] => destruct x as [p2 []] eqn:E2 end; [|done]. cbn [negb].
  assert (framing p2 = framing p1 /\ remaining p2 = remaining p1) as [<- <-].
  { revert E2. unfold reject. repeat (case_match; try done); intros [= <-]; done. }
  destruct (takeStartByte p2) as [p3 []] eqn:E3; [|done]. apply takeStartByte_keeps in E3 as [<- <-]. cbn [negb]. by intros [= <-].
Qed.

Lemma finishTarget_keeps : keeps finishTarget.
Proof. unfold keeps, finishTarget, reject. solve_keeps. Qed.

Lemma literalByte_keeps b : keeps (fun p => literalByte p b).
Proof.
  intros p q. unfold literalByte, reject. destruct (negb _); [done|]. destruct (takeStartByte p) as [p1 []] eqn:E; [|done].
  apply takeStartByte_keeps in E as [<- <-]. by intros [= <-].
Qed.

Lemma matchField_keeps p b : framing (matchField p b) = framing p /\ remaining (matchField p b) = remaining p.
Proof. unfold matchField. cbv zeta. by repeat case_match. Qed.

Lemma headerNameByte_keeps b : keeps (fun p => headerNameByte p b).
Proof.
  intros p q. unfold headerNameByte, reject. destruct (takeHeaderByte p) as [p1 []] eqn:E; [|done]. cbn [negb].
  apply takeHeaderByte_keeps in E as [<- <-]. destruct (_ =? _); [done|]. intros [= <-].
  destruct (matchField_keeps (p1 <| headerNameBytes := u16 (headerNameBytes p1 + 1) |>) b) as [-> ->]. done.
Qed.

(** The fields whose values do not frame the message. *)
Definition unframed (f : fieldKind) : bool :=
  match f with fieldContentLength | fieldTransferEncoding => false | _ => true end.

Lemma consumeFieldValue_keeps p b q :
  unframed p.(field) = true -> consumeFieldValue p b = (q, true) -> framing q = framing p /\ q.(remaining) = p.(remaining).
Proof.
  intros Hf. unfold consumeFieldValue. destruct (field p); try done; try (by intros [= <-]);
    unfold consumeConnectionValue, consumeConnectionToken, finishConnectionToken, consumeHostValue, consumeUpgradeValue, reject; cbv zeta.
  - repeat (case_match; try done); intros [= <-]; done.
  - repeat (case_match; try done); intros [= <-]; done.
  - destruct (appendIPLiteral p b) as [p1 []] eqn:E; [apply appendIPLiteral_keeps in E as H|].
    all: repeat (case_match; try done); intros [= <-]; first [done | exact H].
Qed.

Lemma headerValueByte_keeps v p b q :
  unframed p.(field) = true -> headerValueByte v p b = (q, true) -> framing q = framing p /\ q.(remaining) = p.(remaining).
Proof.
  intros Hf. unfold headerValueByte, reject. destruct (negb _); [done|]. destruct (takeHeaderByte p) as [p1 []] eqn:E; [|done].
  cbn [negb]. assert (field p1 = field p) as Ef by (revert E; unfold takeHeaderByte, reject; case_match; [done|]; by intros [= <-]).
  apply takeHeaderByte_keeps in E as [<- <-]. destruct v; [|by intros [= <-]]. apply consumeFieldValue_keeps. by rewrite Ef.
Qed.

Lemma finishFieldValue_keeps : keeps finishFieldValue.
Proof.
  unfold keeps, finishFieldValue, finishTransferValue, finishTransferToken, finishConnectionValue, finishConnectionToken, finishHostValue, finishUpgradeValue, reject, fail.
  intros p q. destruct (field p); cbv zeta; repeat (case_match; try done); intros [= <-]; done.
Qed.

(** ** Loops over a token *)

Lemma forBytes_keeps g f p src q rest :
  (forall b, keeps (fun p => f p b)) -> forBytes g f p src = ((q, rest), true) ->
  framing q = framing p /\ q.(remaining) = p.(remaining).
Proof.
  intros Hf. revert p. induction src as [|b src IH]; intros p; cbn [forBytes]; [by intros [= <- _]|].
  destruct (g p b); [|by intros [= <- _]]. destruct (f p b) as [p1 []] eqn:E; [|done]. intros H.
  apply IH in H as [-> ->]. by apply (Hf b p p1).
Qed.

(** A loop whose guard does not look at the parser stops at the first byte the
    guard rejects. *)
Lemma forBytes_token (g : Z -> bool) f p token b src q rest :
  Forall (fun b => g b = true) token -> g b = false ->
  forBytes (fun _ => g) f p (token ++ b :: src) = ((q, rest), true) -> rest = b :: src.
Proof.
  intros Ht Hb. revert p. induction Ht as [|x token Hx Ht IH]; intros p; cbn [app forBytes]; [rewrite Hb; by intros [= _ <-]|].
  rewrite Hx. destruct (f p x) as [p1 []]; [apply IH | done].
Qed.

(** ** The start line *)

Lemma turns_switch p b src q rest : turns p (b :: src) q rest -> exists tr tr', parseSwitch p tr b src = Next q tr' rest.
Proof. intros (b' & src' & tr & tr' & [= <- <-] & H). by exists tr, tr'. Qed.

Lemma turns_case p src q rest (F : Parser -> Trace -> list Z -> Iter) :
  turns p src q rest -> (forall tr b src, parseSwitch p tr b src = F p tr (b :: src)) -> exists tr tr', F p tr src = Next q tr' rest.
Proof. intros (b & src' & tr & tr' & -> & H) HF. rewrite HF in H. by exists tr, tr'. Qed.

Ltac on_case H F tr :=
  let tr' := fresh "tr" in
  apply (turns_case _ _ _ _ F) in H as (tr & tr' & H);
    [unfold F in H | by intros; unfold parseSwitch; match goal with E : state _ = _ |- _ => rewrite E end].

(** The same framing, in another state. *)
Definition moved (p q : Parser) (s : parserState) : Prop :=
  q.(state) = s /\ framing q = framing p /\ q.(remaining) = p.(remaining).

Lemma moved_trans p q r s s' : moved p q s -> moved q r s' -> moved p r s'.
Proof. intros (_ & H1 & H2) (H3 & H4 & H5). split_and!; congruence. Qed.

(** A message that has just begun. *)
Definition begun (p q : Parser) : Prop :=
  framing q = (p.(kind), p.(limits), p.(code), true, p.(messageNum), false, false, false, 0) /\ q.(remaining) = 0.

Lemma turn_start p b src q rest :
  running p -> p.(state) = stateStart -> p.(kind) = Request -> b <> CR -> turns p (b :: src) q rest ->
  rest = b :: src /\ q.(state) = stateReqMethod /\ begun p q.
Proof.
  intros (_ & Hc & _) Hs Hk Hb (tr & tr' & H)%turns_switch. unfold parseSwitch in H. rewrite Hs in H.
  unfold caseStart in H. rewrite Hk, (proj2 (Z.eqb_neq b CR)) in H by done. cbn [is_Request andb] in H.
  unfold beginMessage, queryResponseContext in H. rewrite Hk in H. cbn [is_Response] in H. rewrite Hc in H. cbn [is_none negb] in H.
  apply invoke_next in H as [tr1 H]; [|done]. change (kind (resetMessage p)) with (kind p) in H. rewrite Hk in H. cbn [is_Request] in H.
  injection H as <- _ <-. split; [done|]. split; [done|]. by split.
Qed.

Lemma turn_method p token src q rest :
  running p -> p.(state) = stateReqMethod -> Forall (fun b => isTChar b = true) token -> token <> [] ->
  turns p (token ++ ch " " :: src) q rest -> rest = src /\ moved p q stateReqTarget.
Proof.
  intros (_ & Hc & _) Hs Ht Hne H. on_case H caseReqMethod tr.
  apply afterLoop_next in H as (p1 & r & Hl & H).
  apply forBytes_keeps in Hl as Hk; [|apply methodByte_keeps]. apply forBytes_token in Hl; [|done | done]. subst r.
  assert (code p1 = CodeNone) as Hc1 by (destruct Hk as [Hk _]; unfold framing in Hk; congruence).
  apply invokeSpan_next in H as [tr1 H]; [|done]. destruct (_ || _); [done|].
  apply andThen_next in H as (p2 & H2 & H). injection H as <- _ <-. apply takeStartByte_keeps in H2 as [H2 H3].
  destruct Hk as [Hk1 Hk2]. split; [done|]. split_and!; [done | etrans; [exact H2 | exact Hk1] | etrans; [exact H3 | exact Hk2]].
Qed.

Lemma turn_target p token src q rest :
  running p -> p.(state) = stateReqTarget -> Forall (fun b => validTargetByte b = true) token -> token <> [] ->
  turns p (token ++ ch " " :: src) q rest -> rest = src /\ moved p q stateReqHTTP /\ q.(literalPos) = 0.
Proof.
  intros (_ & Hc & _) Hs Ht Hne H. on_case H caseReqTarget tr.
  apply afterLoop_next in H as (p1 & r & Hl & H).
  apply forBytes_keeps in Hl as Hk; [|apply targetByte_keeps]. apply forBytes_token in Hl; [|done | done]. subst r.
  assert (code p1 = CodeNone) as Hc1 by (destruct Hk as [Hk _]; unfold framing in Hk; congruence).
  apply invokeSpan_next in H as [tr1 H]; [|done]. destruct (finishTarget p1) as [p2 []] eqn:E2; [|done].
  apply finishTarget_keeps in E2 as [E2 E3]. cbn [negb orb] in H. change (ch " " =? ch " ") with true in H. cbn [negb] in H.
  apply andThen_next in H as (p3 & H3 & H). injection H as <- _ <-. apply takeStartByte_keeps in H3 as [H3 H4].
  destruct Hk as [Hk1 Hk2]. split; [done|]. split; [|done].
  split_and!; [done | etrans; [exact H3 | etrans; [exact E2 | exact Hk1]] | etrans; [exact H4 | etrans; [exact E3 | exact Hk2]]].
Qed.

Lemma literalByte_pos p b q : literalByte p b = (q, true) -> q.(literalPos) = u8 (p.(literalPos) + 1).
Proof.
  unfold literalByte, reject. destruct (negb _); [done|]. unfold takeStartByte, reject. destruct (_ =? _); [done|]. by intros [= <-].
Qed.

Lemma turn_http p src q rest :
  running p -> p.(state) = stateReqHTTP -> p.(literalPos) = 0 -> turns p (str "HTTP/" ++ src) q rest ->
  rest = src /\ moved p q stateVersionMajor.
Proof.
  intros (_ & Hc & _) Hs Hp H. on_case H caseHTTP tr.
  apply afterLoop_next in H as (p1 & r & Hl & H). apply forBytes_keeps in Hl as Hk; [|apply literalByte_keeps]. destruct Hk as [Hk1 Hk2].
  assert (literalPos p1 = 5 /\ r = src) as [Hpos ->].
  { revert Hl. clear H Hk1 Hk2 Hs.
    assert (forall i rest p, literalPos p = i -> 0 <= i < 5 ->
      forBytes (fun p _ => literalPos p <? 5) literalByte p rest = (p1, r, true) ->
      match rest with [] => True | b :: rest => exists p', literalPos p' = i + 1 /\
        forBytes (fun p _ => literalPos p <? 5) literalByte p' rest = (p1, r, true) end) as Hstep.
    { intros i [|b rest0] p0 Hp0 Hi; [done|]. cbn [forBytes]. rewrite Hp0, (proj2 (Z.ltb_lt i 5)) by lia.
      destruct (literalByte p0 b) as [p' []] eqn:E; [|done]. intros Hl. exists p'. split; [|done].
      apply literalByte_pos in E. rewrite E, Hp0. apply u8_small. unfold MaxUint8. lia. }
    cbn [app]. intros Hl.
    apply (Hstep 0 _ p Hp ltac:(lia)) in Hl as (p2 & Hp2 & Hl). apply (Hstep 1 _ p2 Hp2 ltac:(lia)) in Hl as (p3 & Hp3 & Hl).
    apply (Hstep 2 _ p3 Hp3 ltac:(lia)) in Hl as (p4 & Hp4 & Hl). apply (Hstep 3 _ p4 Hp4 ltac:(lia)) in Hl as (p5 & Hp5 & Hl).
    apply (Hstep 4 _ p5 Hp5 ltac:(lia)) in Hl as (p6 & Hp6 & Hl).
    destruct src as [|b src]; cbn [forBytes] in Hl; [injection Hl as <- <-; by split|].
    rewrite Hp6 in Hl. cbn in Hl. injection Hl as <- <-. by split. }
  rewrite Hpos in H. cbn in H. injection H as <- _ <-. split; [done|]. by split_and!.
Qed.

(** Single bytes of the start line. *)
Ltac on_byte H Hs :=
  let tr := fresh "tr" in let tr' := fresh "tr" in
  apply turns_switch in H as (tr & tr' & H); unfold parseSwitch in H; rewrite Hs in H.

Ltac take_byte H keeps :=
  let p := fresh "p" in let E := fresh "E" in let E1 := fresh "E" in let E2 := fresh "E" in
  apply andThen_next in H as (p & E & H); apply keeps in E as [E1 E2].

Lemma turn_version_major p src q rest :
  p.(state) = stateVersionMajor -> turns p (ch "1" :: src) q rest -> rest = src /\ moved p q stateVersionDot.
Proof. intros Hs H. on_byte H Hs. take_byte H takeStartByte_keeps. by injection H as <- _ <-. Qed.

Lemma turn_version_dot p src q rest :
  p.(state) = stateVersionDot -> turns p (ch "." :: src) q rest -> rest = src /\ moved p q stateVersionMinor.
Proof. intros Hs H. on_byte H Hs. take_byte H takeStartByte_keeps. by injection H as <- _ <-. Qed.

Lemma turn_version_minor p src q rest :
  p.(state) = stateVersionMinor -> p.(kind) = Request -> turns p (ch "1" :: src) q rest -> rest = src /\ moved p q stateReqLineCR.
Proof.
  intros Hs Hk H. on_byte H Hs. take_byte H takeStartByte_keeps. cbn in H.
  assert (kind p0 = Request) as Hk0 by (unfold framing in E0; congruence). rewrite Hk0 in H. cbn in H. by injection H as <- _ <-.
Qed.

Lemma turn_line_cr p src q rest :
  p.(state) = stateReqLineCR -> turns p (CR :: src) q rest -> rest = src /\ moved p q stateReqLineLF.
Proof.
  intros Hs H. on_byte H Hs. unfold caseReqLineCR in H. change (CR =? CR) with true in H. cbn [negb] in H.
  destruct (negb _); [done|]. take_byte H takeStartByte_keeps. by injection H as <- _ <-.
Qed.

Lemma turn_line_lf p src q rest :
  running p -> p.(state) = stateReqLineLF -> turns p (LF :: src) q rest -> rest = src /\ moved p q stateHeaderStart.
Proof.
  intros (_ & Hc & _) Hs H. on_byte H Hs. unfold caseLineLF in H. change (LF =? LF) with true in H. cbn [negb] in H.
  take_byte H takeStartByte_keeps. assert (code p0 = CodeNone) as Hc0 by (unfold framing in E0; congruence).
  unfold startLineComplete in H. revert H. unfold invoke. destruct (getCallback cbStartLine p0) as [f|].
  - destruct (f _ _); cbn; [unfold fail; rewrite Hc0; cbn; done|]. rewrite Hc0. cbn. rewrite Hc0. cbn. by intros [= <- _ <-].
  - rewrite Hc0. cbn. rewrite Hc0. cbn. by intros [= <- _ <-].
Qed.

Lemma running_code p : running p -> p.(code) = CodeNone.
Proof. by intros (_ & H & _). Qed.

Lemma framing_kind p q : framing q = framing p -> q.(kind) = p.(kind).
Proof. unfold framing. congruence. Qed.

(** Follow a run one turn further, with the lemma for it. *)
Ltac next_turn H p Hrun T :=
  let r := fresh "r" in apply takes_turn in H as (p & r & T & Hrun & H); [|done | done].

Lemma start_line p method target src q :
  running p -> p.(state) = stateStart -> p.(kind) = Request -> Forall (fun b => isTChar b = true) method -> method <> [] ->
  Forall (fun b => validTargetByte b = true) target -> target <> [] ->
  takes p (method ++ ch " " :: target ++ ch " " :: str "HTTP/" ++ str "1.1" ++ CR :: LF :: src) q ->
  exists p', running p' /\ p'.(state) = stateHeaderStart /\ begun p p' /\ takes p' src q.
Proof.
  intros Hrun Hs Hk Hm Hmn Ht Htn H.
  assert (exists b m, method = b :: m /\ b <> CR) as (b & m & -> & Hb).
  { destruct Hm as [|b m Hb Hm]; [done|]. exists b, m. split; [done|]. by intros ->. }
  next_turn H p1 Hrun1 T1. apply turn_start in T1 as (-> & Hs1 & Hbegun); [|done..].
  next_turn H p2 Hrun2 T2. apply (turn_method p1 (b :: m)) in T2 as (-> & M2); [|done..].
  assert (forall x : list Z, target ++ x <> []) as Htx by by destruct target.
  apply takes_turn in H as (p3 & r3 & T3 & Hrun3 & H); [|done | apply Htx].
  apply turn_target in T3 as (-> & M3 & Hpos); [|done | by destruct M2 | done..].
  next_turn H p4 Hrun4 T4. apply turn_http in T4 as (-> & M4); [|done | by destruct M3 | done]. cbn [app] in H.
  next_turn H p5 Hrun5 T5. apply turn_version_major in T5 as (-> & M5); [|by destruct M4].
  next_turn H p6 Hrun6 T6. apply turn_version_dot in T6 as (-> & M6); [|by destruct M5].
  assert (moved p1 p6 stateVersionMinor) as M by eauto using moved_trans.
  assert (kind p6 = Request) as Hk6.
  { destruct M as (_ & ->%framing_kind & _). destruct Hbegun as [E _]. unfold framing in E. congruence. }
  next_turn H p7 Hrun7 T7. apply turn_version_minor in T7 as (-> & M7); [|by destruct M6 | done].
  next_turn H p8 Hrun8 T8. apply turn_line_cr in T8 as (-> & M8); [|by destruct M7].
  next_turn H p9 Hrun9 T9. apply turn_line_lf in T9 as (-> & M9); [|done | by destruct M8].
  exists p9. destruct (moved_trans _ _ _ _ _ M (moved_trans _ _ _ _ _ M7 (moved_trans _ _ _ _ _ M8 M9))) as (S1 & S2 & S3).
  destruct Hbegun as [B1 B2]. split_and!; [done | done | | done]. split; congruence.
Qed.

(** ** Field lines *)

Lemma turn_header_start p b src q rest :
  running p -> p.(state) = stateHeaderStart -> isTChar b = true -> turns p (b :: src) q rest ->
  rest = b :: src /\ moved p q stateHeaderName /\ q.(fieldPos) = 0 /\ q.(headerNameBytes) = 0.
Proof.
  intros Hrun Hs Hb H. on_byte H Hs. unfold caseHeaderStart in H.
  destruct (Z.eqb_spec b CR) as [->|_]; [done|]. destruct (isOWS b) eqn:Eo.
  { unfold isOWS in Eo. apply orb_true_iff in Eo as [->%Z.eqb_eq| ->%Z.eqb_eq]; done. }
  unfold beginHeader in H. destruct (_ <=? _).
  - unfold fail in H. rewrite (running_code p Hrun) in H. done.
  - change (code (p <| headerCount := u16 (headerCount p + 1) |> <| headerNameBytes := 0 |> <| fieldPos := 0 |>
      <| fieldMask := Z.shiftl 1 6 - 1 |> <| field := fieldOther |>)) with (code p) in H.
    rewrite (running_code p Hrun) in H. cbn [is_none negb] in H. injection H as <- _ <-. by split_and!.
Qed.

Lemma matchField_view p p' b :
  p.(fieldMask) = p'.(fieldMask) -> p.(fieldPos) = p'.(fieldPos) ->
  (matchField p b).(fieldMask) = (matchField p' b).(fieldMask) /\ (matchField p b).(fieldPos) = (matchField p' b).(fieldPos).
Proof. intros H1 H2. unfold matchField. cbv zeta. rewrite H1, H2. destruct (fieldPos p' =? 0); cbn; by rewrite H2. Qed.

Lemma matchFields_view bs p p' :
  p.(fieldMask) = p'.(fieldMask) -> p.(fieldPos) = p'.(fieldPos) ->
  (matchFields p bs).(fieldMask) = (matchFields p' bs).(fieldMask) /\ (matchFields p bs).(fieldPos) = (matchFields p' bs).(fieldPos).
Proof.
  revert p p'. induction bs as [|b bs IH]; intros p p' H1 H2; [done|]. cbn.
  destruct (matchField_view p p' b H1 H2) as [H3 H4]. by apply IH.
Qed.

Lemma headerNameByte_view p b q :
  headerNameByte p b = (q, true) -> limits_ok p.(limits) -> 0 <= p.(headerNameBytes) <= p.(limits).(MaxHeaderNameBytes) ->
  q.(fieldMask) = (matchField p b).(fieldMask) /\ q.(fieldPos) = (matchField p b).(fieldPos) /\
  q.(headerNameBytes) = p.(headerNameBytes) + 1 /\ q.(headerNameBytes) <= p.(limits).(MaxHeaderNameBytes) /\ q.(limits) = p.(limits).
Proof.
  intros H Hl Hn. unfold headerNameByte, takeHeaderByte, reject in H. destruct (_ =? _); [done|]. cbn [negb] in H.
  set (p1 := p <| headerBytes := u32 (headerBytes p + 1) |>) in *. change (headerNameBytes p1) with (headerNameBytes p) in H.
  change (limits p1) with (limits p) in H. destruct (Z.eqb_spec (headerNameBytes p) (MaxHeaderNameBytes (limits p))) as [|Hne]; [done|].
  injection H as <-. set (p2 := p1 <| headerNameBytes := u16 (headerNameBytes p + 1) |>).
  assert (MaxHeaderNameBytes (limits p) <= MaxUint16) as Hm by apply Hl.
  assert (headerNameBytes (matchField p2 b) = headerNameBytes p2 /\ limits (matchField p2 b) = limits p) as [-> ->]
    by (unfold matchField; cbv zeta; by destruct (_ =? _)).
  destruct (matchField_view p2 p b eq_refl eq_refl) as [-> ->]. change (headerNameBytes p2) with (u16 (headerNameBytes p + 1)).
  rewrite u16_small by lia. split_and!; [done | done | done | lia | done].
Qed.

Lemma nameLoop_view name c src p q rest :
  Forall (fun b => isTChar b = true) name -> isTChar c = false -> limits_ok p.(limits) ->
  0 <= p.(headerNameBytes) <= p.(limits).(MaxHeaderNameBytes) ->
  forBytes (fun _ => isTChar) headerNameByte p (name ++ c :: src) = ((q, rest), true) ->
  q.(fieldMask) = (matchFields p name).(fieldMask) /\ q.(fieldPos) = (matchFields p name).(fieldPos) /\
  p.(headerNameBytes) + len name <= MaxUint16.
Proof.
  intros Hn Hc Hl Hb H. revert p Hl Hb H. induction Hn as [|b name Hb Hn IH]; intros p Hl Hr H; cbn [app forBytes] in H.
  - rewrite Hc in H. injection H as <- _. rewrite len_nil. split_and!; [done | done|]. destruct Hl. lia.
  - rewrite Hb in H. destruct (headerNameByte p b) as [p1 []] eqn:E; [|done].
    destruct (headerNameByte_view p b p1 E Hl Hr) as (V1 & V2 & V3 & V4 & V5).
    destruct (IH p1) as (W1 & W2 & W3); [by rewrite V5 | rewrite V5; lia | done|].
    destruct (matchFields_view name p1 (matchField p b) V1 V2) as [X1 X2]. rewrite len_cons.
    split_and!; [by rewrite W1, X1 | by rewrite W2, X2 | lia].
Qed.

(** The field a name selects. *)
Definition fieldOf (name : list Z) : fieldKind :=
  match recognise fieldNames namedFields (asciiLower <$> name) with Some f => f | None => fieldOther end.

(** The name of a field has been read, and its value starts. *)
Definition named (p q : Parser) (f : fieldKind) : Prop :=
  q.(state) = stateHeaderValueStart /\ q.(field) = f /\
  match f with
  | fieldContentLength =>
      p.(hasContentLength) = false /\ p.(hasTransferEncoding) = false /\
      framing q = framing (p <| hasContentLength := true |>) /\ q.(remaining) = 0 /\
      q.(contentLengthDigits) = false /\ q.(contentLengthTrailing) = false
  | fieldTransferEncoding => True
  | _ => framing q = framing p /\ q.(remaining) = p.(remaining)
  end.

Lemma startFieldValue_named p :
  p.(code) = CodeNone -> (startFieldValue p).(code) = CodeNone ->
  let q := startFieldValue p in q.(field) = p.(field) /\
  match p.(field) with
  | fieldContentLength =>
      p.(hasContentLength) = false /\ p.(hasTransferEncoding) = false /\
      framing q = framing (p <| hasContentLength := true |>) /\ q.(remaining) = 0 /\
      q.(contentLengthDigits) = false /\ q.(contentLengthTrailing) = false
  | fieldTransferEncoding => True
  | _ => framing q = framing p /\ q.(remaining) = p.(remaining)
  end.
Proof.
  intros Hc H. cbv zeta. unfold startFieldValue in *. destruct (field p) eqn:E; unfold fail in *; rewrite ?Hc in *; try done;
    repeat (case_match; try done); by split_and!.
Qed.

Lemma turn_name p name src q rest :
  running p -> p.(state) = stateHeaderName -> p.(fieldPos) = 0 -> p.(headerNameBytes) = 0 -> p.(kind) = Request ->
  p.(trailers) = false -> Forall (fun b => isTChar b = true) name -> name <> [] ->
  turns p (name ++ ch ":" :: src) q rest -> rest = src /\ named p q (fieldOf name).
Proof.
  intros Hrun Hs Hpos Hnb Hk Htr Hn Hne H. on_case H caseHeaderName tr. apply afterLoop_next in H as (p1 & r & Hl & H).
  apply forBytes_keeps in Hl as Hkeep; [|apply headerNameByte_keeps]. destruct Hkeep as [Hk1 Hk2].
  assert (limits_ok p.(limits)) as Hlim by (destruct Hrun as ((Hw & _) & _); apply Hw).
  apply (nameLoop_view name) in Hl as Hv; [|done | done | done | rewrite Hnb; destruct Hlim; lia]. destruct Hv as (V1 & V2 & V3).
  apply forBytes_token in Hl; [|done | done]. subst r.
  assert (code p1 = CodeNone /\ kind p1 = Request /\ trailers p1 = false) as (Hc1 & Hk1' & Ht1).
  { pose proof (running_code p Hrun). unfold framing in Hk1. split_and!; congruence. }
  apply invokeSpan_next in H as [tr1 H]; [|done]. destruct (_ || _); [done|].
  apply andThen_next in H as (p2 & H2 & H). pose proof H2 as H2'. apply takeHeaderByte_keeps in H2 as [K1 K2].
  assert (fieldMask p2 = fieldMask p1 /\ fieldPos p2 = fieldPos p1) as [F1 F2].
  { revert H2'. unfold takeHeaderByte, reject. destruct (_ =? _); [done|]. by intros [= <-]. }
  assert (lookupField p2 = fieldOf name) as Hlook.
  { destruct name as [|b name]; [done|]. unfold fieldOf. rewrite <- (lookupField_recognises p b name Hpos ltac:(lia)).
    unfold lookupField. by rewrite F1, F2, V1, V2. }
  assert (code p2 = CodeNone /\ kind p2 = Request /\ trailers p2 = false) as (Hc2 & Hk2' & Ht2) by (unfold framing in K1; split_and!; congruence).
  unfold finishFieldName in H. cbv zeta in H. rewrite Hlook in H. set (p3 := p2 <| field := fieldOf name |>) in *.
  assert (kind p3 = Request /\ trailers p3 = false) as [Hk3 Ht3] by done. rewrite Hk3 in H. cbn [is_Response andb] in H.
  rewrite Ht3 in H. cbn [andb] in H.
  destruct (is_none_spec (code (startFieldValue p3))) as [Hc3|]; [|done]. cbn [negb] in H. injection H as <- _ <-. split; [done|].
  pose proof (startFieldValue_named p3 Hc2 Hc3) as (S1 & S2). change (field p3) with (fieldOf name) in S1, S2.
  assert (framing p2 = framing p /\ remaining p2 = remaining p) as [G1 G2] by (split; congruence).
  split; [done|]. split; [done|].
  destruct (fieldOf name); try exact I; try (destruct S2 as [S2 S3]; split; [etrans; [exact S2 | exact G1] | etrans; [exact S3 | exact G2]]).
  destruct S2 as (S2 & S3 & S4 & S5 & S6 & S7). clear H2' F1 F2. unfold framing in *. cbn in *. split_and!; congruence.
Qed.

(** Where a loop that only looks at the byte stops. *)
Lemma forBytes_split (g : Z -> bool) f p v c src q rest :
  g c = false -> forBytes (fun _ => g) f p (v ++ c :: src) = ((q, rest), true) ->
  exists v1 v2, v = v1 ++ v2 /\ rest = v2 ++ c :: src /\ Forall (fun b => g b = true) v1 /\
    match v2 with [] => True | b :: _ => g b = false end.
Proof.
  intros Hc. revert p. induction v as [|b v IH]; intros p; cbn [app forBytes].
  - rewrite Hc. intros [= _ <-]. by exists [], [].
  - destruct (g b) eqn:Eb; [|intros [= _ <-]; by exists [], (b :: v)].
    destruct (f p b) as [p1 []]; [|done]. intros H. destruct (IH p1 H) as (v1 & v2 & -> & -> & H1 & H2).
    exists (b :: v1), v2. split_and!; [done | done | by constructor | done].
Qed.

(** What the value of a field needs of the parser. *)
Definition value_view (p : Parser) := (p.(field), p.(contentLengthDigits), p.(contentLengthTrailing)).

Lemma owsLoop_view p src q rest :
  forBytes (fun _ => isOWS) (fun p _ => takeHeaderByte p) p src = ((q, rest), true) ->
  value_view q = value_view p /\ framing q = framing p /\ q.(remaining) = p.(remaining).
Proof.
  intros H. apply forBytes_keeps in H as Hk; [|intros b; apply takeHeaderByte_keeps]. split; [|done]. clear Hk.
  revert p H. induction src as [|b src IH]; intros p; cbn [forBytes]; [by intros [= <- _]|].
  destruct (isOWS b); [|by intros [= <- _]]. unfold takeHeaderByte at 1, reject. destruct (_ =? _); [done|].
  intros H. apply IH in H. exact H.
Qed.

Lemma turn_value_start p v src q rest :
  p.(state) = stateHeaderValueStart -> turns p (v ++ CR :: src) q rest ->
  exists v1 v2, v = v1 ++ v2 /\ rest = v2 ++ CR :: src /\ Forall (fun b => isOWS b = true) v1 /\
    match v2 with [] => True | b :: _ => isOWS b = false end /\ moved p q stateHeaderValue /\ value_view q = value_view p.
Proof.
  intros Hs H. on_case H caseHeaderValueStart tr. apply afterLoop_next in H as (p1 & r & Hl & H).
  apply owsLoop_view in Hl as Hv. destruct Hv as (V1 & V2 & V3).
  apply forBytes_split in Hl as (v1 & v2 & -> & -> & H1 & H2); [|done].
  exists v1, v2. split_and!; try done. all: destruct (v2 ++ CR :: src) as [|x y] eqn:E; [by destruct v2|]; injection H as <- _ <-; done.
Qed.

Lemma turn_value p v src q rest :
  running p -> p.(state) = stateHeaderValue -> unframed p.(field) = true -> Forall (fun b => b <> CR) v ->
  turns p (v ++ CR :: src) q rest -> rest = src /\ moved p q stateHeaderValueLF.
Proof.
  intros Hrun Hs Hf Hv H. on_case H caseHeaderValue tr. apply afterLoop_next in H as (p1 & r & Hl & H).
  assert (framing p1 = framing p /\ remaining p1 = remaining p) as [K1 K2].
  { revert Hl. generalize (parsesValue p) as pv, (v ++ CR :: src) as bytes. intros pv bytes. clear Hrun Hs H. revert p Hf.
    induction bytes as [|b bytes IH]; intros p Hf; cbn [forBytes]; [by intros [= <- _]|].
    destruct (negb _); [|by intros [= <- _]]. destruct (headerValueByte pv p b) as [p2 []] eqn:E; [|done].
    intros Hl. pose proof (headerValueByte_field pv p b) as Ef. rewrite E in Ef. cbn in Ef.
    apply headerValueByte_keeps in E as [<- <-]; [|done]. apply IH; [by rewrite Ef | done]. }
  apply (forBytes_token (fun b => negb (b =? CR))) in Hl; [| |done].
  2: { rewrite Forall_forall in Hv |- *. intros b Hb%Hv. by rewrite (proj2 (Z.eqb_neq b CR)). }
  subst r. assert (code p1 = CodeNone) as Hc1 by (pose proof (running_code p Hrun); unfold framing in K1; congruence).
  apply invokeSpan_next in H as [tr1 H]; [|done].
  apply andThen_next in H as (p2 & H2 & H). apply finishFieldValue_keeps in H2 as [F1 F2].
  apply andThen_next in H as (p3 & H3 & H). apply takeHeaderByte_keeps in H3 as [G1 G2]. injection H as <- _ <-.
  split; [done|]. split_and!; [done | etrans; [exact G1 | etrans; [exact F1 | exact K1]] | etrans; [exact G2 | etrans; [exact F2 | exact K2]]].
Qed.

Lemma turn_value_lf p src q rest :
  running p -> p.(state) = stateHeaderValueLF -> turns p (LF :: src) q rest -> rest = src /\ moved p q stateHeaderStart.
Proof.
  intros Hrun Hs H. on_byte H Hs. unfold caseHeaderValueLF in H. change (LF =? LF) with true in H. cbn [negb] in H.
  take_byte H takeHeaderByte_keeps. assert (code p0 = CodeNone) as Hc0 by (pose proof (running_code p Hrun); unfold framing in E0; congruence).
  apply invoke_next in H as [tr1 H]; [|done]. by injection H as <- _ <-.
Qed.

(** A field line that does not frame the message. *)
Lemma header_line p name v src q :
  running p -> p.(state) = stateHeaderStart -> p.(kind) = Request -> p.(trailers) = false ->
  Forall (fun b => isTChar b = true) name -> name <> [] -> unframed (fieldOf name) = true -> Forall (fun b => b <> CR) v ->
  takes p (name ++ ch ":" :: v ++ CR :: LF :: src) q ->
  exists p', running p' /\ moved p p' stateHeaderStart /\ takes p' src q.
Proof.
  intros Hrun Hs Hk Ht Hn Hne Hf Hv H.
  assert (exists b m, name = b :: m /\ isTChar b = true) as (b & m & -> & Hb) by (destruct Hn as [|b m Hb Hn]; [done | by exists b, m]).
  next_turn H p1 Hrun1 T1. apply turn_header_start in T1 as (-> & M1 & P1 & P2); [|done..]. pose proof M1 as (S1 & F1 & _).
  next_turn H p2 Hrun2 T2. apply (turn_name p1 (b :: m)) in T2 as (-> & N2); try done.
  2: { by rewrite (framing_kind _ _ F1). }
  2: { unfold framing in F1. congruence. }
  assert (moved p1 p2 stateHeaderValueStart /\ field p2 = fieldOf (b :: m)) as [M2 Ef2].
  { destruct N2 as (N1 & N2 & N3). split; [|done]. destruct (fieldOf (b :: m)); try done; destruct N3; by split_and!. }
  assert (forall x : list Z, v ++ CR :: x <> []) as Hvx by by destruct v.
  apply takes_turn in H as (p3 & r3 & T3 & Hrun3 & H); [|done | apply Hvx].
  apply turn_value_start in T3 as (v1 & v2 & -> & -> & _ & _ & M3 & V3); [|by destruct M2].
  apply takes_turn in H as (p4 & r4 & T4 & Hrun4 & H); [|done | by destruct v2].
  apply turn_value in T4 as (-> & M4); [|done | by destruct M3 | | by apply Forall_app in Hv as [_ ?]].
  2: { unfold value_view in V3. injection V3 as -> _ _. by rewrite Ef2. }
  next_turn H p5 Hrun5 T5. apply turn_value_lf in T5 as (-> & M5); [|done | by destruct M4].
  exists p5. split_and!; [done | | done]. eauto using moved_trans.
Qed.

(** ** Content-Length *)

Lemma lengthByte_digit p b q :
  p.(field) = fieldContentLength -> p.(contentLengthTrailing) = false -> 0 <= p.(remaining) <= MaxUint64 ->
  isDigit b = true -> headerValueByte true p b = (q, true) ->
  q.(field) = fieldContentLength /\ q.(contentLengthTrailing) = false /\ framing q = framing p /\
  q.(remaining) = p.(remaining) * 10 + digitOf b /\ q.(remaining) <= MaxUint64.
Proof.
  intros Hf Ht Hr Hb H. destruct (isDigit_range b Hb) as [Hd Ho]. unfold headerValueByte, takeHeaderByte, reject in H.
  destruct (negb _); [done|]. destruct (_ =? _); [done|]. cbn [negb] in H. set (p1 := p <| headerBytes := u32 (headerBytes p + 1) |>) in *.
  unfold consumeFieldValue in H. change (field p1) with (field p) in H. rewrite Hf in H. unfold consumeContentLength, reject in H.
  rewrite Ho, Hb in H. change (contentLengthTrailing p1) with (contentLengthTrailing p) in H. rewrite Ht in H. cbn [negb orb] in H.
  change (b - ch "0") with (digitOf b) in H. cbv zeta in H.
  change (remaining (p1 <| contentLengthDigits := true |>)) with (remaining p) in H.
  pose proof (overflow_test 10 (remaining p) (digitOf b) ltac:(lia) ltac:(lia)) as Hov.
  destruct (_ <? _); [done|]. injection H as <-.
  assert (remaining p * 10 + digitOf b <= MaxUint64) by (destruct (Z.le_gt_cases (remaining p * 10 + digitOf b) MaxUint64); [done|]; pose proof (proj2 Hov ltac:(lia)); done).
  cbn. rewrite u64_small by lia. by split_and!.
Qed.

Lemma lengthLoop_digits ds p src q rest :
  p.(field) = fieldContentLength -> p.(contentLengthTrailing) = false -> 0 <= p.(remaining) <= MaxUint64 ->
  Forall (fun b => isDigit b = true) ds ->
  forBytes (fun _ b => negb (b =? CR)) (headerValueByte true) p (ds ++ CR :: src) = ((q, rest), true) ->
  framing q = framing p /\ q.(remaining) = digits_value 10 (digitOf <$> ds) p.(remaining).
Proof.
  intros Hf Ht Hr Hds. revert p Hf Ht Hr. induction Hds as [|b ds Hb Hds IH]; intros p Hf Ht Hr; cbn [app forBytes].
  - change (CR =? CR) with true. cbn. by intros [= <- _].
  - destruct (Z.eqb_spec b CR) as [->|_]; [done|]. cbn [negb]. destruct (headerValueByte true p b) as [p1 []] eqn:E; [|done]. intros H.
    destruct (isDigit_range b Hb) as [Hd _].
    destruct (lengthByte_digit p b p1 Hf Ht Hr Hb E) as (F1 & F2 & F3 & F4 & F5).
    destruct (IH p1 F1 F2 ltac:(lia) H) as [G1 G2]. split; [by rewrite G1|]. rewrite G2, F4. done.
Qed.

Lemma turn_length_value p ds src q rest :
  running p -> p.(state) = stateHeaderValue -> p.(field) = fieldContentLength -> p.(contentLengthTrailing) = false ->
  p.(remaining) = 0 -> Forall (fun b => isDigit b = true) ds ->
  turns p (ds ++ CR :: src) q rest -> rest = src /\ q.(state) = stateHeaderValueLF /\ framing q = framing p /\ q.(remaining) = decimal ds.
Proof.
  intros Hrun Hs Hf Ht Hr Hds H. on_case H caseHeaderValue tr. assert (parsesValue p = true) as Hpv by (unfold parsesValue; by rewrite Hf).
  rewrite Hpv in H. apply afterLoop_next in H as (p1 & r & Hl & H).
  apply lengthLoop_digits in Hl as Hk; [|done | done | rewrite Hr; unfold MaxUint64; lia | done]. destruct Hk as [K1 K2].
  apply (forBytes_token (fun b => negb (b =? CR))) in Hl; [| |done].
  2: { rewrite Forall_forall in Hds |- *. intros b Hb%Hds. by destruct (Z.eqb_spec b CR) as [->|]. }
  subst r. assert (code p1 = CodeNone) as Hc1 by (pose proof (running_code p Hrun); unfold framing in K1; congruence).
  apply invokeSpan_next in H as [tr1 H]; [|done].
  apply andThen_next in H as (p2 & H2 & H). apply finishFieldValue_keeps in H2 as [F1 F2].
  apply andThen_next in H as (p3 & H3 & H). apply takeHeaderByte_keeps in H3 as [G1 G2]. injection H as <- _ <-.
  split; [done|]. split; [done|]. split; [etrans; [exact G1 | etrans; [exact F1 | exact K1]]|].
  etrans; [exact G2|]. rewrite F2, K2, Hr. done.
Qed.

(** The Content-Length line the writer generates. *)
Lemma length_line p ds src q :
  running p -> p.(state) = stateHeaderStart -> p.(kind) = Request -> p.(trailers) = false ->
  Forall (fun b => isDigit b = true) ds -> ds <> [] ->
  takes p (str "Content-Length" ++ ch ":" :: (ch " " :: ds) ++ CR :: LF :: src) q ->
  exists p', running p' /\ p'.(state) = stateHeaderStart /\ framing p' = framing (p <| hasContentLength := true |>) /\
    p'.(remaining) = decimal ds /\ takes p' src q.
Proof.
  intros Hrun Hs Hk Ht Hds Hne H.
  next_turn H p1 Hrun1 T1. apply turn_header_start in T1 as (-> & M1 & P1 & P2); [|done..]. pose proof M1 as (S1 & F1 & R1).
  next_turn H p2 Hrun2 T2. apply (turn_name p1 (str "Content-Length")) in T2 as (-> & N2); try done.
  2: { by rewrite (framing_kind _ _ F1). }
  2: { unfold framing in F1. congruence. }
  2: { by repeat constructor. }
  change (fieldOf (str "Content-Length")) with fieldContentLength in N2. destruct N2 as (S2 & Ef2 & _ & _ & F2 & R2 & D2 & T2).
  next_turn H p3 Hrun3 T3. apply turn_value_start in T3 as (v1 & v2 & E & -> & O1 & O2 & M3 & V3); [|done].
  assert (v2 = ds) as ->.
  { destruct ds as [|d ds]; [done|]. destruct v1 as [|x v1]; [destruct v2; [done|]; by injection E as <- _|].
    injection E as <- E. destruct v1 as [|y v1]; [done|]. injection E as <- _. apply Forall_cons_1 in Hds as [Hd _].
    apply Forall_cons_1 in O1 as [_ [O1 _]%Forall_cons_1]. destruct (isDigit_range d Hd). congruence. }
  apply takes_turn in H as (p4 & r4 & T4 & Hrun4 & H); [|done | by destruct ds].
  unfold value_view in V3. injection V3 as V3 V4 V5. destruct M3 as (S3 & F3 & R3).
  apply turn_length_value in T4 as (-> & S4 & F4 & R4); try done; try congruence.
  next_turn H p5 Hrun5 T5. apply turn_value_lf in T5 as (-> & M5); [|done | done]. destruct M5 as (S5 & F5 & R5).
  exists p5. split_and!; [done | done | | congruence | done]. rewrite F5, F4, F3, F2. unfold framing in *. cbn. congruence.
Qed.

(** ** The empty line *)

Lemma turn_end_cr p src q rest :
  p.(state) = stateHeaderStart -> turns p (CR :: src) q rest -> rest = src /\ moved p q stateHeadersLF.
Proof. intros Hs H. on_byte H Hs. take_byte H takeHeaderByte_keeps. by injection H as <- _ <-. Qed.

(** A message has been completed and no other begun. *)
Definition finished (p q : Parser) : Prop :=
  q.(state) = stateStart /\ q.(messageActive) = false /\ q.(messageNum) = u64 (p.(messageNum) + 1) /\ q.(code) = CodeNone.

Lemma completeMessage_finished p tr q tr' :
  p.(code) = CodeNone -> p.(kind) = Request -> completeMessage p tr = (q, tr') -> q.(code) = CodeNone -> finished p q.
Proof.
  intros Hc Hk E Hq. revert E. unfold completeMessage, invoke. destruct (getCallback cbMessageComplete p) as [f|].
  - destruct (f tr (message p)).
    + assert (code (fail p CodeReentrantCall) <> CodeNone) as Hx by (unfold fail; by rewrite Hc).
      destruct (is_none_spec (code (fail p CodeReentrantCall))); [done|]. cbn [negb]. intros [= <- _]. done.
    + rewrite Hc. cbn. rewrite Hk. cbn. intros [= <- _]. by split_and!.
  - rewrite Hc. cbn. rewrite Hk. cbn. intros [= <- _]. by split_and!.
Qed.

(** The head of a request that is not chunked is complete: either so is the
    message, or its body follows. *)
Lemma turn_end_lf p q rest :
  running p -> p.(state) = stateHeadersLF -> p.(kind) = Request -> p.(trailers) = false -> p.(hasTransferEncoding) = false ->
  turns p [LF] q rest ->
  rest = [] /\ if p.(hasContentLength) && negb (p.(remaining) =? 0) then moved p q stateFixedBody else finished p q.
Proof.
  intros Hrun Hs Hk Ht He H. on_byte H Hs. unfold caseHeadersLF in H. change (LF =? LF) with true in H. cbn [negb] in H.
  take_byte H takeHeaderByte_keeps. pose proof (running_code p Hrun) as Hc.
  assert (trailers p0 = false /\ kind p0 = Request /\ code p0 = CodeNone /\ hasTransferEncoding p0 = false /\
    hasContentLength p0 = hasContentLength p /\ messageNum p0 = messageNum p) as (Ht0 & Hk0 & Hc0 & He0 & Hl0 & Hn0)
    by (unfold framing in E0; split_and!; congruence).
  rewrite Ht0 in H. destruct (headersComplete p0 _) as [[q1 tr2] ok] eqn:Eh. destruct ok; [|done]. cbn [negb] in H.
  apply headersComplete_selects in Eh as (_ & tr3 & Hsel); [|done]. unfold selectBody in Hsel. rewrite Hk0, He0, Hl0, E1 in Hsel.
  cbn [is_Response is_Request andb] in Hsel.
  assert (forall tr r, (let (p, tr) := completeMessage p0 tr in if negb (is_none (code p)) then (p, tr, false) else (p, tr, true)) = (r, true) ->
    finished p0 r.1) as Hcomplete.
  { intros tr4 r. destruct (completeMessage p0 tr4) as [x y] eqn:Ex. destruct (is_none_spec (code x)); [|done]. cbn.
    intros [= <-]. by apply (completeMessage_finished p0 tr4 x y). }
  assert (forall x, finished p0 x -> finished p x) as Hfin by (intros x; unfold finished; by rewrite Hn0).
  destruct (is_stateUpgrade (state q1)) eqn:Eu; [done|]. injection H as <- _ <-. split; [done|].
  destruct (hasContentLength p); cbn [andb].
  - destruct (_ <? _); [done|]. destruct (remaining p =? 0); cbn [negb].
    + apply Hfin. by apply (Hcomplete _ (q1, tr2)) in Hsel.
    + injection Hsel as <- _. by split_and!.
  - apply Hfin. by apply (Hcomplete _ (q1, tr2)) in Hsel.
Qed.
