(* ===== verification/Http1RequestHead.v ===== *)
(** * HTTP/1 requests: a validated request is one message

    The pieces of [Http1RequestSteps] put together: what [Validate] reads is the
    head of the encoding, in one call; after it the parser waits for exactly the
    bytes of the body. *)

From S2P Require Import Prelude Transport Http1Types Http1Fields Http1Parser Http1Wf Http1Stream Http1Names Http1Numbers Http1Props Http1Request Http1RequestWire Http1RequestSteps.

(** ** Validation reads the head *)

Section Checking.
Context `{ST : Stream}.

Lemma andThenCheck_assoc c (k k' : Parser * Trace -> Checked) :
  andThenCheck (andThenCheck c k) k' = andThenCheck c (fun s => andThenCheck (k s) k').
Proof. by destruct c as [[s [e|]]|]. Qed.

Lemma andThenCheck_ext c (k k' : Parser * Trace -> Checked) :
  (forall s, k s = k' s) -> andThenCheck c k = andThenCheck c k'.
Proof. intros H. destruct c as [[s [e|]]|]; cbn; done. Qed.

Lemma andThenCheck_ret c : andThenCheck c (fun s => Some (s, None)) = c.
Proof. by destruct c as [[s [e|]]|]. Qed.

Lemma parseParts_app s x y : parseParts s (x ++ y) = andThenCheck (parseParts s x) (fun s => parseParts s y).
Proof.
  revert s. induction x as [|part x IH]; intros s; cbn [app parseParts]; [done|].
  rewrite andThenCheck_assoc. apply andThenCheck_ext, IH.
Qed.

Lemma parsePart_single s part : parseParts s [part] = parsePart s part.
Proof. apply andThenCheck_ret. Qed.

Lemma parseHeaders_parts s headers : parseHeaders s headers = parseParts s (concat (map headerParts headers)).
Proof.
  revert s. induction headers as [|h headers IH]; intros s; cbn [parseHeaders map concat]; [done|].
  rewrite parseParts_app. apply andThenCheck_ext, IH.
Qed.

Lemma parseHead_parts s r : parseHead s r = parseParts s (headParts r).
Proof.
  unfold parseHead, headParts. rewrite parseParts_app. apply andThenCheck_ext. intros s1.
  rewrite parseParts_app, <- parseHeaders_parts. apply andThenCheck_ext. intros s2.
  rewrite parseParts_app. rewrite (andThenCheck_ext _ (fun s => parsePart s crlf) (fun s => parseParts s [crlf]))
    by (intros; by rewrite parsePart_single).
  f_equal. unfold lengthParts, parseDecimal. destruct (hasLength r); [|done].
  rewrite parseParts_app, parsePart_single. apply andThenCheck_ext. intros s3. rewrite parseParts_app.
  apply andThenCheck_ext. intros s4. by rewrite parsePart_single.
Qed.

Lemma parsePart_ok p tr part s :
  parsePart (p, tr) part = Some (s, None) -> Parse p tr part = Some (mkOutcome s.1 s.2 [] CodeNone).
Proof.
  unfold parsePart. cbn [fst snd]. destruct (Parse p tr part) as [[q u rest c]|]; [|done]. cbn [outCode outRest outParser outTrace].
  destruct (is_none_spec c) as [->|]; [|done]. cbn [negb orb].
  destruct (Z.eqb_spec (len part - len rest) (len part)) as [E|]; [|done]. intros [= <-].
  destruct rest as [|b rest]; [done|]. rewrite len_cons in E. pose proof (len_nonneg rest). lia.
Qed.

(** Consecutive parts are read as one. *)
Lemma parseParts_Parse p tr x parts s :
  wf p -> idle p -> quiet p.(callbacks) -> parseParts (p, tr) (x :: parts) = Some (s, None) ->
  exists tr', Parse p tr (concat (x :: parts)) = Some (mkOutcome s.1 tr' [] CodeNone).
Proof.
  revert p tr x. induction parts as [|y parts IH]; intros p tr x Hw Hid Hq H.
  - rewrite parsePart_single in H. apply parsePart_ok in H. cbn [concat]. rewrite app_nil_r. eauto.
  - cbn [parseParts] in H. destruct (parsePart (p, tr) x) as [[[p1 tr1] [e|]]|] eqn:E1; try done.
    apply parsePart_ok in E1. cbn [fst snd] in E1.
    destruct (Parse_keeps p tr x _ Hw Hid E1) as (Hw1 & Hid1 & Hc1). cbn in Hw1, Hid1, Hc1.
    destruct (IH p1 tr1 y Hw1 Hid1 ltac:(by rewrite Hc1) H) as [tr2 H2].
    destruct (Parse_cut p tr x (concat (y :: parts)) _ Hw Hid Hq E1) as (o2 & o & Ho2 & Ho & (R1 & R2 & R3 & _)).
    cbn [outParser outTrace outRest app] in Ho2. rewrite H2 in Ho2. injection Ho2 as <-.
    change (concat (x :: y :: parts)) with (x ++ concat (y :: parts)). rewrite Ho. destruct o as [q u rest c]. cbn in R1, R2, R3.
    subst. eauto.
Qed.

Lemma NewParser_ready limits :
  limits_typed limits ->
  let p := NewParser Request None limits in
  wf p /\ idle p /\ quiet p.(callbacks) /\ p.(code) = CodeNone /\ p.(state) = stateStart /\ p.(kind) = Request /\
  p.(messageNum) = 0.
Proof. intros Hl. cbv zeta. destruct (reachable_ok _ (reach_new Request None limits Hl)) as [Hw Hi]. by split_and!. Qed.

Lemma parse_takes p tr src q tr' :
  wf p -> idle p -> p.(code) = CodeNone -> p.(state) <> stateUpgrade -> Parse p tr src = Some (mkOutcome q tr' [] CodeNone) ->
  exists q', q = stopped q' /\ takes (started p false) src q'.
Proof.
  intros Hw Hid Hc Hs H. apply Parse_runs in H as ([q' u rest c] & Hr & E); [|done..]. cbn in E. injection E as -> _ <- <-.
  exists q'. split; [done|]. by exists tr, u.
Qed.

(** The whole head, read by the parser that validates it. *)
Lemma Validate_takes r limits :
  limits_typed limits -> Validate r limits = Some None ->
  validToken r.(reqMethod) = true /\ r.(reqTarget) <> [] /\ validFieldValue r.(reqHost) = true /\ checkHeaders r.(reqHeaders) = None /\
  exists q tr, takes (started (NewParser Request None limits) false) (concat (headParts r)) q /\
    Parse (NewParser Request None limits) [] (concat (headParts r)) = Some (mkOutcome (stopped q) tr [] CodeNone).
Proof.
  intros Hl. unfold Validate. destruct (validToken (reqMethod r)); [|done]. destruct (Z.eqb_spec (len (reqTarget r)) 0) as [|Ht]; [done|].
  destruct (_ =? 0); [done|]. destruct (validFieldValue (reqHost r)); [|done]. cbn [negb orb].
  destruct (checkHeaders (reqHeaders r)); [done|]. rewrite parseHead_parts.
  destruct (parseParts _ (headParts r)) as [[s err]|] eqn:E; [|done]. intros [= ->].
  split_and!; [done | by intros E1; rewrite E1 in Ht | done | done|].
  destruct (NewParser_ready limits Hl) as (Hw & Hid & Hq & Hc & Hs & _).
  destruct (headParts r) as [|x parts] eqn:Eparts; [done|].
  apply parseParts_Parse in E as [tr E]; [|done..]. pose proof E as E'.
  apply parse_takes in E as (q & Eq & Htakes); [|done | done | done | by rewrite Hs].
  rewrite Eq in E'. by exists q, tr.
Qed.
End Checking.

(** ** The checks on the parts *)

Lemma validToken_spec name : validToken name = true -> name <> [] /\ Forall (fun b => isTChar b = true) name.
Proof.
  intros H. split; [by destruct name|]. assert (forallb isTChar name = true) as H'.
  { destruct name as [|b name]; [done|]. unfold validToken in H. rewrite forallb_forall in H |- *. intros x Hx%H.
    unfold isTChar. destruct (isDigit x || isUpper x || isLower x) eqn:E; [done|].
    unfold isDigit, isUpper, isLower in E. by rewrite E in Hx. }
  rewrite forallb_forall in H'. apply Forall_forall. intros x Hx. by apply H'.
Qed.

Lemma validFieldValue_no_cr value : validFieldValue value = true -> Forall (fun b => b <> CR) value.
Proof.
  intros H. unfold validFieldValue in H. rewrite forallb_forall in H. apply Forall_forall. intros x Hx ->.
  by apply H in Hx.
Qed.

Lemma equalFold_spec x y : equalFold x y = true <-> asciiLower <$> x = asciiLower <$> y.
Proof.
  unfold equalFold. destruct (Z.eqb_spec (len x) (len y)) as [E|E]; cbn [negb].
  - revert y E. induction x as [|b x IH]; intros [|c y] E; rewrite ?len_cons, ?len_nil in E;
      try (pose proof (len_nonneg x)); try (pose proof (len_nonneg y)); try lia; [done|].
    cbn [equalFoldBytes]. change (lowered b) with (asciiLower b). change (lowered c) with (asciiLower c).
    rewrite andb_true_iff, Z.eqb_eq, IH by lia. cbn. split; [by intros [-> ->] | by intros [= -> ->]].
  - split; [done|]. intros H%(f_equal (@length Z)). rewrite !length_fmap in H. unfold len in E. lia.
Qed.

Lemma fieldOf_spec name f : f <> fieldOther -> fieldOf name = f -> asciiLower <$> name = fieldNames f.
Proof.
  intros Hf. unfold fieldOf, recognise. destruct (find _ namedFields) as [g|] eqn:E; [|by intros <-]. intros ->.
  apply List.find_some in E as [_ E]. by apply eqb_bytes_spec in E.
Qed.

(** A name that is not reserved does not frame the message. *)
Lemma reserved_unframed name : reservedHeader name = false -> unframed (fieldOf name) = true.
Proof.
  unfold reservedHeader. rewrite !orb_false_iff. intros [[_ Hl] Ht].
  destruct (fieldOf name) eqn:E; try done; apply fieldOf_spec in E; try done; exfalso.
  - apply not_true_iff_false in Hl. apply Hl, equalFold_spec. rewrite E. by vm_compute.
  - apply not_true_iff_false in Ht. apply Ht, equalFold_spec. rewrite E. by vm_compute.
Qed.

(** A header of the caller. *)
Definition plain_header (h : Header) : Prop :=
  Forall (fun b => isTChar b = true) h.(hdrName) /\ h.(hdrName) <> [] /\ unframed (fieldOf h.(hdrName)) = true /\
  Forall (fun b => b <> CR) h.(hdrValue).

Lemma checkHeaders_plain `{ST : Stream} headers : checkHeaders headers = None -> Forall plain_header headers.
Proof.
  induction headers as [|h headers IH]; cbn [checkHeaders]; [done|].
  destruct (validToken (hdrName h)) eqn:E1, (validFieldValue (hdrValue h)) eqn:E2; cbn [negb orb]; try done.
  destruct (reservedHeader (hdrName h)) eqn:E3; [done|]. intros H. constructor; [|by apply IH].
  apply validToken_spec in E1 as [? ?]. split_and!; [done | done | by apply reserved_unframed | by apply validFieldValue_no_cr].
Qed.

(** ** The head, line by line *)

Lemma header_lines headers p src q :
  Forall plain_header headers -> running p -> p.(state) = stateHeaderStart -> p.(kind) = Request -> p.(trailers) = false ->
  takes p (concat (concat (map headerParts headers)) ++ src) q ->
  exists p', running p' /\ moved p p' stateHeaderStart /\ takes p' src q.
Proof.
  intros Hh. revert p. induction Hh as [|h headers (H1 & H2 & H3 & H4) Hh IH]; intros p Hrun Hs Hk Ht H.
  { exists p. by split_and!. }
  cbn [map concat] in H. rewrite concat_app in H. cbn [headerParts concat] in H. rewrite app_nil_r, <- !app_assoc in H.
  apply (header_line p (hdrName h) (ch " " :: hdrValue h)) in H as (p1 & R1 & M1 & T1); try done; [|by constructor].
  pose proof M1 as (S1 & F1 & _).
  destruct (IH p1 R1 S1 ltac:(by rewrite (framing_kind _ _ F1)) ltac:(unfold framing in F1; congruence) T1) as (p2 & R2 & M2 & T2).
  exists p2. split_and!; eauto using moved_trans.
Qed.

(** The announced length, if any, and the number of body bytes. *)
Lemma length_lines r p src q :
  len r.(reqBody) <= MaxUint64 -> running p -> p.(state) = stateHeaderStart -> p.(kind) = Request -> p.(trailers) = false ->
  takes p (concat (lengthParts r) ++ src) q ->
  exists p', running p' /\ p'.(state) = stateHeaderStart /\ takes p' src q /\
    (if hasLength r then framing p' = framing (p <| hasContentLength := true |>) /\ p'.(remaining) = len r.(reqBody)
     else framing p' = framing p /\ p'.(remaining) = p.(remaining)).
Proof.
  intros Hb Hrun Hs Hk Ht. unfold lengthParts. destruct (hasLength r); [|by exists p].
  pose proof (len_nonneg (reqBody r)) as Hb0. rewrite u64_small by done.
  rewrite !concat_app, decimalParts_format by lia. cbn [concat]. rewrite !app_nil_r, <- !app_assoc. intros H.
  destruct (formatUint_value (len (reqBody r)) ltac:(lia)) as [Hv Hd].
  apply (length_line p (formatUint (len (reqBody r)))) in H as (p1 & R1 & S1 & F1 & V1 & T1); [|done..| |].
  - exists p1. by rewrite <- Hv.
  - rewrite Forall_forall in Hd |- *. intros b Hb'%Hd. unfold is_digit in Hb'. unfold isDigit, between. lia.
  - unfold formatUint. cbn [decimalDigits]. by intros [_ ?]%app_eq_nil.
Qed.

(** After the head: the body follows, or the message is complete. *)
Lemma head_taken r p q :
  running p -> p.(state) = stateStart -> p.(kind) = Request ->
  validToken r.(reqMethod) = true -> r.(reqTarget) <> [] -> Forall (fun b => validTargetByte b = true) r.(reqTarget) ->
  validFieldValue r.(reqHost) = true -> Forall plain_header r.(reqHeaders) -> len r.(reqBody) <= MaxUint64 ->
  takes p (concat (headParts r)) q ->
  if len r.(reqBody) =? 0 then finished p q
  else running q /\ q.(state) = stateFixedBody /\ q.(remaining) = len r.(reqBody) /\ q.(messageNum) = p.(messageNum) /\ q.(kind) = Request.
Proof.
  intros Hrun Hs Hk [Hm1 Hm2]%validToken_spec Ht1 Ht2 Hhost Hh Hb H.
  unfold headParts in H. rewrite !concat_app in H. unfold startParts in H. cbn [concat] in H. rewrite !app_nil_r, <- !app_assoc in H.
  apply start_line in H as (p1 & R1 & S1 & [B1 B2] & H); [|done..].
  assert (kind p1 = Request /\ trailers p1 = false /\ hasTransferEncoding p1 = false /\ hasContentLength p1 = false /\ messageNum p1 = messageNum p)
    as (K1 & L1 & E1 & C1 & N1) by (unfold framing in B1; split_and!; congruence).
  apply (header_line p1 (str "Host") (ch " " :: reqHost r)) in H as (p2 & R2 & M2 & H); try done.
  2: by repeat constructor.
  2: { constructor; [done | by apply validFieldValue_no_cr]. }
  destruct M2 as (S2 & F2 & V2).
  apply header_lines in H as (p3 & R3 & (S3 & F3 & V3) & H); [|done | done | done | unfold framing in *; congruence..].
  apply length_lines in H as (p4 & R4 & S4 & H & F4); [|done | done | done | unfold framing in *; congruence..].
  assert (kind p4 = Request /\ trailers p4 = false /\ hasTransferEncoding p4 = false /\ messageNum p4 = messageNum p /\
    hasContentLength p4 = hasLength r /\ (hasLength r = true -> remaining p4 = len (reqBody r))) as (K4 & L4 & E4 & N4 & C4 & V4).
  { destruct (hasLength r); destruct F4 as [F4 F5]; unfold framing in *; cbn in F4; split_and!; (done || congruence). }
  next_turn H p5 R5 T5. apply turn_end_cr in T5 as (-> & S5 & F5 & V5); [|done].
  next_turn H p6 R6 T6. apply turn_end_lf in T6 as (-> & Hend); [|done | done | unfold framing in *; congruence..].
  apply takes_nil in H as ->.
  assert (hasContentLength p5 = hasLength r /\ messageNum p5 = messageNum p /\ kind p5 = Request) as (C5 & N5 & K5)
    by (unfold framing in F5; split_and!; congruence).
  rewrite C5, V5 in Hend. unfold hasLength in *. destruct (Z.eqb_spec (len (reqBody r)) 0) as [E|E].
  - assert (finished p5 p6) as Hfin.
    { cbn [negb orb] in *. destruct (reqContentLength r); [|exact Hend]. rewrite V4, E in Hend by done. exact Hend. }
    unfold finished in *. by rewrite N5 in Hfin.
  - cbn [negb orb] in *. rewrite V4 in Hend by done. rewrite (proj2 (Z.eqb_neq _ _) E) in Hend. destruct Hend as (G1 & G2 & G3).
    split_and!; [done | done | rewrite G3, V5; by apply V4 | unfold framing in G2; congruence..].
Qed.

(** ** The body *)

Lemma body_taken q tr body :
  running q -> q.(parsing) = true -> q.(state) = stateFixedBody -> len body = q.(remaining) ->
  exists tr', Parse (stopped q) tr body = Some (mkOutcome (stopped (bodyDone q)) tr' [] CodeNone).
Proof.
  intros (Hw & Hc & Hp & Ha & Hq) Hpar Hs Hlen. pose proof (started_stopped q Hpar Ha Hp) as Hss.
  assert (wf (stopped q)) as Hw' by (apply wf_idle; auto).
  destruct body as [|b body].
  { destruct Hw as (_ & Hws & _). unfold wfs in Hws. rewrite Hs in Hws. rewrite len_nil in Hlen. lia. }
  pose proof (fixed_body_turn (stopped q) tr false (b :: body) [] b body Hw' Hq Hs Hc Hlen ltac:(by rewrite app_nil_r)) as Hturn.
  rewrite Hss in Hturn. eexists. apply Parse_runs; [done | done | done | by change (state (stopped q)) with (state q); rewrite Hs|].
  rewrite Hss. eexists. split; [rewrite runs_cons, Hturn by done; apply runs_nil; reflexivity | done].
Qed.

Section Message.
Context `{ST : Stream}.

(** A request that passes validation, its target within the target alphabet, is
    read as one message. *)
Lemma Validate_message r limits :
  limits_typed limits -> Validate r limits = Some None -> Forall (fun b => validTargetByte b = true) r.(reqTarget) ->
  len r.(reqBody) <= MaxUint64 ->
  exists o, Parse (NewParser Request None limits) [] (encoding r) = Some o /\ o.(outRest) = [] /\ o.(outCode) = CodeNone /\
    o.(outParser).(state) = stateStart /\ o.(outParser).(messageActive) = false /\ o.(outParser).(messageNum) = 1.
Proof.
  intros Hl HV Ht Hb. destruct (Validate_takes r limits Hl HV) as (Hm & Htn & Hhost & Hh & q & tr & Htakes & HP).
  destruct (NewParser_ready limits Hl) as (Hw & Hid & Hq & Hc & Hs & Hk & Hn). set (p := NewParser Request None limits) in *.
  apply head_taken in Htakes as Hend; [|by apply running_started | done | done | done | done | done | done | by apply checkHeaders_plain | done].
  unfold encoding. destruct (Z.eqb_spec (len (reqBody r)) 0) as [E|E].
  - assert (reqBody r = []) as -> by (destruct (reqBody r); [done | rewrite len_cons in E; pose proof (len_nonneg l); lia]).
    rewrite app_nil_r, HP. eexists. split; [done|]. destruct Hend as (E1 & E2 & E3 & _). cbn.
    split_and!; [done | done | done | done|]. etrans; [exact E3|]. change (messageNum (started p false)) with (messageNum p). by rewrite Hn.
  - destruct Hend as (R & S1 & V1 & N1 & K1).
    destruct (Parse_cut p [] (concat (headParts r)) (reqBody r) _ Hw Hid Hq HP) as (o2 & o & Ho2 & Ho & (R1 & R2 & R3 & _)).
    assert (parsing q = true) as Hpar.
    { destruct Htakes as (t & t' & Hr). apply runs_outcome in Hr as (_ & (_ & _ & _ & _ & Hr & _) & _); [exact Hr | by apply started_wf | done|].
      change (state (started p false)) with (state p). by rewrite Hs. }
    destruct (body_taken q tr (reqBody r) R Hpar S1 ltac:(by rewrite V1)) as [tr' Hbody].
    cbn [outParser outTrace outRest app] in Ho2. rewrite Hbody in Ho2. injection Ho2 as <-. cbn [outParser outRest outCode] in R1, R2, R3.
    exists o. rewrite R1, R2, R3. split_and!; try done.
    change (u64 (messageNum q + 1) = 1). rewrite N1. change (messageNum (started p false)) with (messageNum p). by rewrite Hn.
Qed.

(** Validation always ends. *)
Lemma parsePart_total s part :
  wf s.1 -> idle s.1 -> exists s' err, parsePart s part = Some (s', err) /\ wf s'.1 /\ idle s'.1.
Proof.
  intros Hw Hid. destruct (runParse_ok s.1 s.2 part false Hw (proj1 Hid)) as (o & Ho & _). fold (Parse s.1 s.2 part) in Ho.
  unfold parsePart. rewrite Ho. do 2 eexists. split; [done|]. destruct (Parse_keeps _ _ _ _ Hw Hid Ho) as (? & ? & _). done.
Qed.

Lemma parseParts_total s parts : wf s.1 -> idle s.1 -> exists s' err, parseParts s parts = Some (s', err).
Proof.
  revert s. induction parts as [|x parts IH]; intros s Hw Hid; cbn [parseParts]; [by do 2 eexists|].
  destruct (parsePart_total s x Hw Hid) as (s1 & [e|] & -> & Hw1 & Hid1); cbn; [by do 2 eexists | by apply IH].
Qed.

Lemma Validate_total r limits : limits_typed limits -> exists err, Validate r limits = Some err.
Proof.
  intros Hl. unfold Validate. destruct (_ || _); [by eexists|]. destruct (checkHeaders _); [by eexists|]. rewrite parseHead_parts.
  destruct (NewParser_ready limits Hl) as (Hw & Hid & _).
  destruct (parseParts_total (NewParser Request None limits, []) (headParts r) Hw Hid) as (s & err & ->). by eexists.
Qed.
End Message.
