(* ===== verification/Http1RequestExchange.v ===== *)
(** * HTTP/1 requests: the exchange

    The loops of [DoBuffer] return: every call of [ParseOne] that goes on
    consumes a byte, every read that goes on consumes a byte of what the peer
    sends, and no byte behind the response is lost. *)

From S2P Require Import Prelude Transport Http1Types Http1Fields Http1Parser Http1Wf Http1Stream Http1Names Http1Numbers Http1Props Http1Request Http1RequestWire.

(** ** Progress of [ParseOne] *)

(** A parser that stops at a message boundary is at the start. *)
Lemma paused_start p : wf p -> p.(paused) = true -> p.(code) = CodeNone -> p.(state) <> stateUpgrade -> p.(state) = stateStart.
Proof.
  intros ((_ & _ & _ & _ & _ & _ & Hpause) & Hws & Hph) Hp Hc Hs. unfold pause_ok in Hpause. rewrite Hp in Hpause. cbn in Hpause.
  unfold phase_ok in Hph. unfold wfs in Hws. destruct (state p); try done; exfalso; destruct_and?; congruence.
Qed.

Lemma parseLoop_progress fuel p tr src o :
  wf p -> p.(code) = CodeNone -> p.(state) <> stateUpgrade -> p.(paused) = false -> src <> [] ->
  parseLoop fuel p tr src = Some o -> o.(outCode) = CodeNone -> (length o.(outRest) < length src)%nat.
Proof.
  revert p tr src. induction fuel as [|fuel IH]; intros p tr [|b rest] Hw Hc Hs Hp Hne; cbn [parseLoop]; try done; rewrite Hp; [done|].
  pose proof (parseSwitch_ok p tr b rest Hw Hc Hp) as Hi. destruct (parseSwitch p tr b rest) as [q u r|q u r c].
  - destruct Hi as (Hwq & Hcq & Hsq & _ & [pre Hpre] & Hlt). intros H Ho.
    assert (length r <= length (b :: rest))%nat as Hle by (rewrite Hpre, length_app; lia).
    destruct (paused q) eqn:Hpq.
    + assert (o = mkOutcome q u r CodeNone) as -> by (destruct fuel, r; cbn in H; rewrite ?Hpq in H; by injection H as <-).
      rewrite (paused_start q Hwq Hpq Hcq Hsq) in Hlt. cbn [outRest]. cbn [rank] in Hlt.
      assert (rank (state p) <= 1)%nat by (destruct (state p); cbn; lia). lia.
    + destruct r as [|b' r]; [destruct fuel; injection H as <-; cbn; lia|].
      pose proof (IH q u (b' :: r) Hwq Hcq Hsq Hpq ltac:(done) H Ho). lia.
  - destruct Hi as (_ & _ & _ & [[? ->]|(_ & _ & ->)]); intros [= <-]; done.
Qed.

Lemma ParseOne_ok p tr src :
  wf p -> idle p -> exists o complete, ParseOne p tr src = Some (o, complete) /\ wf o.(outParser) /\ idle o.(outParser) /\
    (exists pre, src = pre ++ o.(outRest)) /\ (src <> [] -> o.(outCode) = CodeNone -> (length o.(outRest) < length src)%nat).
Proof.
  intros Hw [Hp Ha]. destruct (runParse_ok p tr src true Hw Hp) as (o & Ho & Hwo & Hpo & _ & _ & _ & Hsuf & _).
  exists o, (paused (outParser o)). unfold ParseOne. rewrite Ho. split_and!; try done.
  - by apply runParse_idle in Ho as [_ ?].
  - intros Hne Hc. unfold runParse in Ho. rewrite Hp in Ho. fold (started p true) in Ho.
    destruct (parse (started p true) tr src) as [o'|] eqn:E; [|done]. injection Ho as <-. cbn in Hc |- *. unfold parse in E.
    destruct (is_none_spec (code (started p true))) as [Hn|Hn]; [|injection E as <-; by cbn in Hc]. cbn [negb] in E.
    destruct (is_stateUpgrade (state (started p true))) eqn:Hu; [injection E as <-; by cbn in Hc|].
    apply parseLoop_progress in E; try done; [by apply started_wf|]. by destruct (state (started p true)).
Qed.

(** ** Reading a response *)

(** 101 and everything from 200: not an interim response. *)
Definition final_status (status : Z) : Prop := status = 101 \/ 200 <= status.

Definition proceeds (c : Code) : Prop := c = CodeNone \/ c = CodeUpgrade.

(** The message told complete last; the newest event of a trace is its first. *)
Definition newest (tr : Trace) (m : Message) : Prop :=
  exists later earlier, tr = later ++ EvMessageComplete m :: earlier /\ forall m', EvMessageComplete m' ∉ later.

(** [reads p tr pre m up]: called in turn on reads that hold the bytes [pre],
    the parser takes all of them and no more; interim messages and unfinished
    ones make it go on, and the last of the bytes completes the final message
    [m], or the end of the stream does.  [up] is the switch of protocols. *)
Inductive reads : Parser -> Trace -> list Z -> Message -> bool -> Prop :=
  | reads_last p tr x rest o m :
      ParseOne p tr (x ++ rest) = Some (o, true) -> o.(outRest) = rest -> proceeds o.(outCode) ->
      newest o.(outTrace) m -> final_status m.(msgStatus) -> reads p tr x m (is_upgrade o.(outCode))
  | reads_on p tr x rest o complete y m up :
      ParseOne p tr (x ++ rest) = Some (o, complete) -> o.(outRest) = rest -> x <> [] -> o.(outCode) = CodeNone ->
      (complete = true -> forall m', newest o.(outTrace) m' -> ~ final_status m'.(msgStatus)) ->
      reads o.(outParser) o.(outTrace) y m up -> reads p tr (x ++ y) m up
  | reads_end p tr q u c m :
      Finish p tr = (q, u, c) -> proceeds c -> newest u m -> final_status m.(msgStatus) -> reads p tr [] m (is_upgrade c).

Lemma newest_lastMessage tr m : newest tr m <-> lastMessage tr = Some m.
Proof.
  split.
  - intros (later & earlier & -> & Hno). induction later as [|e later IH]; [done|]. cbn.
    destruct e; try (apply IH; intros m' Hin; apply (Hno m'); by apply list_elem_of_further).
    exfalso. eapply Hno, list_elem_of_here.
  - induction tr as [|e tr IH]; [done|]. cbn.
    destruct e eqn:Ee;
      try (intros (later & earlier & -> & Hno)%IH; exists (e :: later), earlier; subst e; split; [done|];
           intros m' [?|?]%elem_of_cons; [done | by apply (Hno m')]).
    intros [= ->]. exists [], tr. split; [done|]. intros m' H. by apply not_elem_of_nil in H.
Qed.

Lemma finalResponse_spec status : finalResponse status = true <-> final_status status.
Proof. unfold finalResponse, final_status. lia. Qed.

Lemma finalMessage_spec tr m : finalMessage tr = Some m <-> newest tr m /\ final_status m.(msgStatus).
Proof.
  rewrite newest_lastMessage, <- finalResponse_spec. unfold finalMessage. destruct (lastMessage tr) as [m'|]; [|by split; [|intros []]].
  destruct (finalResponse (msgStatus m')) eqn:E; split; try done; [by intros [= ->] | by intros [[= ->] _] |].
  intros [[= ->] ?]. congruence.
Qed.

Lemma proceeds_spec c : negb (is_none c) && negb (is_upgrade c) = false <-> proceeds c.
Proof. unfold proceeds. by destruct c; cbn; intuition. Qed.

Lemma reads_final p tr x m up : reads p tr x m up -> final_status m.(msgStatus).
Proof. by induction 1. Qed.

(** ** The loop over one read *)

Section Exchange.
Context `{ST : Stream}.

Lemma messageLoop_ok fuel p tr src :
  wf p -> idle p -> (length src <= fuel)%nat ->
  exists res, messageLoop fuel p tr src = Some res /\
    match res with
    | inl (q, u) => wf q /\ idle q /\ forall y m up, reads q u y m up -> reads p tr (src ++ y) m up
    | inr (inl resp) => exists pre, src = pre ++ resp.(respBuffered) /\ reads p tr pre resp.(respMessage) resp.(respUpgraded)
    | inr (inr e) => (exists c, e = ParseError c /\ c <> CodeNone)
    end.
Proof.
  revert p tr src. induction fuel as [|fuel IH]; intros p tr [|b src] Hw Hid Hf; cbn [messageLoop length] in *;
    try lia; try (by exists (inl (p, tr))).
  destruct (ParseOne_ok p tr (b :: src) Hw Hid) as (o & complete & Eo & Hwo & Hio & [pre Hpre] & Hprog). rewrite Eo.
  destruct (negb (is_none (outCode o)) && negb (is_upgrade (outCode o))) eqn:Ec.
  { eexists. split; [done|]. exists (outCode o). split; [done|]. by intros E; rewrite E in Ec. }
  apply proceeds_spec in Ec. rewrite Hpre in Eo. destruct (if complete then finalMessage (outTrace o) else None) as [m|] eqn:Em.
  { eexists. split; [done|]. exists pre. split; [done|]. destruct complete; [|done]. apply finalMessage_spec in Em as [Hn Hs].
    by eapply reads_last. }
  destruct (is_upgrade (outCode o)) eqn:Eu.
  { eexists. split; [done|]. exists (outCode o). split; [done|]. by intros E; rewrite E in Eu. }
  assert (outCode o = CodeNone) as Hc by (destruct Ec as [?|Ec]; [done | by rewrite Ec in Eu]).
  specialize (Hprog ltac:(done) Hc). cbn [length] in Hprog.
  assert ((len (outRest o) =? len (b :: src)) = false) as -> by (apply Z.eqb_neq; unfold len; cbn [length]; lia). cbn [andb].
  assert (forall y m up, reads (outParser o) (outTrace o) y m up -> reads p tr (pre ++ y) m up) as Hon.
  { intros y m up Hy. eapply reads_on; [exact Eo | done | | done | | exact Hy].
    - intros ->. cbn in Hpre. rewrite <- Hpre in Hprog. cbn in Hprog. lia.
    - intros -> m' Hn Hs. by rewrite (proj2 (finalMessage_spec _ m')) in Em. }
  destruct (IH (outParser o) (outTrace o) (outRest o) Hwo Hio ltac:(lia)) as (res & -> & Hres). exists res. split; [done|].
  destruct res as [[q u]|[resp|e]]; [| | done].
  - destruct Hres as (? & ? & Hres). split_and!; [done..|]. intros y m up Hy. rewrite Hpre, <- app_assoc. by apply Hon, Hres.
  - destruct Hres as (pre' & Hpre' & Hr). exists (pre ++ pre'). split; [by rewrite Hpre, Hpre', app_assoc | by apply Hon].
Qed.

(** ** The loop over the reads *)

Context `{RD : !Reader}.

(** How an exchange of a parser that reads the bytes [input] ends. *)
Definition exchanged (p : Parser) (tr : Trace) (input : list Z) (w : Conn) (res : ClientResponse + RequestError) : Prop :=
  match res with
  | inl resp => exists pre, input = pre ++ resp.(respBuffered) ++ pending w /\ reads p tr pre resp.(respMessage) resp.(respUpgraded)
  | inr e => e <> Io IoShortBuffer /\ exists pre, input = pre ++ pending w
  end.

Lemma finishExchange_ok p tr w : exchanged p tr (pending w) w (finishExchange p tr).
Proof.
  unfold finishExchange. destruct (Finish p tr) as [[q u] c] eqn:Ef.
  destruct (negb (is_none c) && negb (is_upgrade c)) eqn:Ec; cbn; [split; [done | by exists []]|]. apply proceeds_spec in Ec.
  destruct (finalMessage u) as [m|] eqn:E; cbn; [|split; [done | by exists []]].
  apply finalMessage_spec in E as [Hn Hs]. exists []. split; [done|]. by eapply reads_end.
Qed.

Lemma exchanged_app p tr q u x input w res :
  (forall y m up, reads q u y m up -> reads p tr (x ++ y) m up) -> exchanged q u input w res -> exchanged p tr (x ++ input) w res.
Proof.
  intros Hon. destruct res as [resp|e]; cbn.
  - intros (pre & -> & Hr). exists (x ++ pre). split; [by rewrite app_assoc | by apply Hon].
  - intros [H [pre ->]]. split; [done|]. exists (x ++ pre). by rewrite app_assoc.
Qed.

Lemma readLoop_ok fuel w buffer p tr :
  wf p -> idle p -> (length (pending w) < fuel)%nat ->
  exists w' res, readLoop fuel w buffer p tr = Some (w', res) /\ exchanged p tr (pending w) w' res.
Proof.
  revert w buffer p tr. induction fuel as [|fuel IH]; intros w buffer p tr Hw Hid Hf; [lia|]. cbn [readLoop].
  destruct (SRead w buffer) as [[w1 filled] [n err]] eqn:E. destruct (read_law _ _ _ _ _ _ E) as (Hn & Hlen & Hpend).
  rewrite (proj2 (Z.ltb_ge n 0)), (proj2 (Z.ltb_ge _ n)) by lia. cbn [orb].
  set (got := take (Z.to_nat n) filled) in *.
  assert (length got = Z.to_nat n) as Hgot by (unfold got; rewrite length_take; unfold len in *; lia).
  destruct (messageLoop_ok (Z.to_nat n) p tr got Hw Hid ltac:(lia)) as (res & -> & Hres).
  destruct res as [[q u]|[resp|e]].
  - destruct Hres as (Hwq & Hiq & Hon). destruct err as [e|].
    + do 2 eexists. split; [done|]. rewrite Hpend. apply (exchanged_app p tr q u); [done|].
      destruct (is_EOF e); [apply finishExchange_ok|]. split; [done | by exists []].
    + destruct (Z.eqb_spec n 0) as [->|Hne]; [do 2 eexists; split; [done|]; rewrite Hpend; by split; [|exists got]|].
      assert (length (pending w) = length got + length (pending w1))%nat as Hl by (by rewrite Hpend, length_app).
      destruct (IH w1 filled q u Hwq Hiq ltac:(lia)) as (w' & res & -> & Hx). exists w', res. split; [done|].
      rewrite Hpend. by apply (exchanged_app p tr q u).
  - destruct Hres as (pre & Hpre & Hr). do 2 eexists. split; [done|]. exists pre. split; [by rewrite Hpend, Hpre, <- app_assoc | done].
  - destruct Hres as (c & -> & _). do 2 eexists. split; [done|]. split; [done | by exists got].
Qed.
End Exchange.
