(* ===== verification/Http1RequestProps.v ===== *)
(** * HTTP/1 requests: the properties of the package

    What a caller of [src/http/request/request.go] relies on: the bytes a valid
    request becomes, what a failed write leaves, that a validated request is one
    message of the protocol, and that an exchange ends with a final response or
    an error. *)

From S2P Require Import Prelude Transport Http1Types Http1Fields Http1Parser Http1Wf Http1Stream Http1Names Http1Numbers Http1Props Http1Request Http1RequestWire Http1RequestSteps Http1RequestHead Http1RequestExchange.

(** ** Examples *)

Definition demoLimits : Limits := mkLimits 0 0 0 0 0 0 0 0.

(** A request with a header of its own and a body. *)
Definition demoPut : HTTPRequest :=
  mkRequest (str "PUT") (str "/x") (str "h") [mkHeader (str "X-A") (str "1, 2")] (str "hi") false.

(** Its transport, with the response already on the way. *)
Definition demoPipe : @Conn pipe :=
  ([], str "HTTP/1.1 100 " ++ [13; 10; 13; 10] ++ str "HTTP/1.1 204 " ++ [13; 10; 13; 10] ++ str "HT").

Lemma demoPut_valid : Validate (ST := pipe) demoPut demoLimits = Some None.
Proof. vm_compute. reflexivity. Qed.

Lemma Write_total `{ST : Stream} `{WR : !Writer} w r limits :
  limits_typed limits -> len r.(reqBody) <= MaxUint64 ->
  exists w' err, Write (Some w) r limits = Some (Some w', err) /\
    match Validate r limits with
    | Some None => exists pre, sent w' = sent w ++ pre /\ pre `prefix_of` requestBytes r /\ (err = None -> pre = requestBytes r)
    | verdict => w' = w /\ verdict = Some err /\ err <> None
    end.
Proof.
  intros Hl Hb. destruct (Validate_total r limits Hl) as [verdict HV]. unfold Write. rewrite HV.
  destruct verdict as [e|]; [by exists w, (Some e)|].
  destruct (writeRequest_wrote w r) as (w' & err & pre & -> & H1 & H2 & H3). rewrite encoding_bytes in H2, H3 by done.
  exists w', err. split; [done | by exists pre].
Qed.

(** ** Claims *)

(** C9. A request that passes [Validate], whose target holds only bytes of the
    target alphabet, is one message of the protocol: a request parser with
    the same limits reads its whole encoding without an error, completes
    exactly one message and stands at the start of the next. *)
Theorem validated_request_is_one_message `{ST : Stream} r limits :
  limits_typed limits -> Validate r limits = Some None -> Forall (fun b => validTargetByte b = true) r.(reqTarget) ->
  len r.(reqBody) <= MaxUint64 ->
  exists o, Parse (NewParser Request None limits) [] (appendRequest [] r) = Some o /\ o.(outRest) = [] /\ o.(outCode) = CodeNone /\
    o.(outParser).(state) = stateStart /\ o.(outParser).(messageActive) = false /\ o.(outParser).(messageNum) = 1.
Proof. rewrite appendRequest_eq. apply Validate_message. Qed.

Lemma validated_request_is_one_message_witness :
  exists o, Parse (NewParser Request None demoLimits) [] (appendRequest [] demoPut) = Some o /\
    o.(outParser).(messageNum) = 1.
Proof.
  destruct (validated_request_is_one_message (ST := pipe) demoPut demoLimits limits_zero_typed
    demoPut_valid ltac:(by repeat constructor) ltac:(by vm_compute)) as (o & H1 & _ & _ & _ & _ & H2).
  exists o. by split.
Defined.

(** C33. Encoding: [Encode], [Append] and [EncodedLen] agree with the bytes of the
    protocol.  An invalid request changes no destination; a destination that
    is too short is left alone; otherwise the bytes are written at its front,
    the rest and its length stay, and the count is their exact number. *)
Theorem encoded_bytes `{ST : Stream} dst r limits :
  limits_typed limits -> len r.(reqBody) <= MaxUint64 ->
  exists err, Validate r limits = Some err /\
  match err with
  | Some e =>
      Encode dst r limits = Some (dst, (0, Some e)) /\ Append dst r limits = Some (dst, Some e) /\
      EncodedLen r limits = Some (0, Some e)
  | None =>
      EncodedLen r limits = Some (len (requestBytes r), None) /\
      Append dst r limits = Some (dst ++ requestBytes r, None) /\
      if len dst <? len (requestBytes r) then Encode dst r limits = Some (dst, (0, Some ErrShortBuffer))
      else exists tail, Encode dst r limits = Some (requestBytes r ++ tail, (len (requestBytes r), None)) /\
             tail = drop (length (requestBytes r)) dst /\ len (requestBytes r ++ tail) = len dst
  end.
Proof.
  intros Hl Hb. destruct (Validate_total r limits Hl) as [err HV]. exists err. split; [done|].
  unfold Encode, Append, EncodedLen. rewrite HV. destruct err as [e|]; [done|].
  rewrite encodedLen_eq, !appendRequest_eq, encoding_bytes by done. cbn [app]. split; [done|]. split; [done|]. cbv zeta.
  destruct (Z.ltb_spec (len dst) (len (requestBytes r))) as [|Hle]; [done|].
  eexists. split; [done|]. split; [done|]. unfold len in *. rewrite length_app, length_drop. lia.
Qed.

Lemma encoded_bytes_witness :
  exists tail, Encode (ST := pipe) (replicate 100 7) demoPut demoLimits = Some (requestBytes demoPut ++ tail, (len (requestBytes demoPut), None)).
Proof.
  destruct (encoded_bytes (ST := pipe) (replicate 100 7) demoPut demoLimits limits_zero_typed ltac:(by vm_compute)) as (err & HV & H).
  pose proof demoPut_valid as HV'. rewrite HV in HV'. injection HV' as ->. destruct H as (_ & _ & H).
  assert ((len (replicate 100 7) <? len (requestBytes demoPut)) = false) as E by (vm_compute; reflexivity).
  rewrite E in H. destruct H as (tail & H & _). by exists tail.
Defined.

(** C32. Writing: [Write] returns on every writer that keeps the promises of
    [io.Writer], however few bytes it takes at a time.  It sends nothing for an
    invalid request, exactly the bytes of the protocol when it succeeds, and a
    prefix of them when the transport fails. *)
Theorem written_bytes `{ST : Stream} `{WR : !Writer} w r limits :
  limits_typed limits -> len r.(reqBody) <= MaxUint64 ->
  exists w' err, Write (Some w) r limits = Some (Some w', err) /\
  match Validate r limits with
  | Some None => exists pre, sent w' = sent w ++ pre /\ pre `prefix_of` requestBytes r /\ (err = None -> pre = requestBytes r)
  | verdict => w' = w /\ verdict = Some err /\ err <> None
  end.
Proof. apply Write_total. Qed.

Lemma written_bytes_witness :
  exists w, Write (Some demoPipe) demoPut demoLimits = Some (Some w, None) /\ sent w = sent demoPipe ++ requestBytes demoPut.
Proof.
  pose proof (written_bytes demoPipe demoPut demoLimits limits_zero_typed ltac:(by vm_compute)) as H.
  rewrite demoPut_valid in H. destruct H as (w & err & HW & pre & H1 & _ & H2). exists w.
  assert (is_Some err \/ err = None) as [[e ->]|E] by (destruct err; eauto).
  - assert (match Write (ST := pipe) (Some demoPipe) demoPut demoLimits with Some (_, None) => true | _ => false end = true) as E
      by (vm_compute; reflexivity).
    rewrite HW in E. discriminate E.
  - rewrite <- (H2 E). split; [rewrite <- E; exact HW | exact H1].
Defined.

(** C10. An exchange ends: on a transport that keeps the promises of [io.Writer]
    and [io.Reader], [DoBuffer] returns after finitely many reads, whatever
    the peer sends.  Only a request that was written completely is answered.
    A response it returns is final (status 101, or 200 and above), and the
    bytes the peer sent split into those the response parser took, read by
    read, to tell this message complete (skipping interim ones, none of them
    unread and none taken beyond its end), the bytes it returns as buffered,
    and those still in the transport. *)
Theorem exchange_returns `{ST : Stream} `{WR : !Writer} `{RD : !Reader} c w r cb buffer :
  limits_typed c.(RequestLimits) -> limits_typed c.(ResponseLimits) -> len r.(reqBody) <= MaxUint64 ->
  exists fuel w' res, DoBuffer fuel c (Some w) r cb buffer = Some (Some w', res) /\
  forall resp, res = inl resp ->
    final_status resp.(respMessage).(msgStatus) /\
    exists w1 pre, Write (Some w) r c.(RequestLimits) = Some (Some w1, None) /\ sent w1 = sent w ++ requestBytes r /\
      pending w1 = pre ++ resp.(respBuffered) ++ pending w' /\
      reads (NewParser Response (Some (wrapCallbacks cb r)) c.(ResponseLimits)) [] pre resp.(respMessage) resp.(respUpgraded).
Proof.
  intros Hl1 Hl2 Hb. unfold DoBuffer. destruct (len buffer =? 0); [by exists O, w, (inr ErrEmptyReadBuffer)|].
  destruct (Write_total w r (RequestLimits c) Hl1 Hb) as (w1 & err & HW & Hsent).
  destruct err as [e|]; [exists O, w1, (inr e); by rewrite HW|]. rewrite HW.
  set (p := NewParser Response (Some (wrapCallbacks cb r)) (ResponseLimits c)).
  destruct (reachable_ok p (reach_new _ _ _ Hl2)) as [Hw Hid].
  destruct (readLoop_ok (S (length (pending w1))) w1 buffer p [] Hw Hid ltac:(lia)) as (w' & res & E & Hres).
  exists (S (length (pending w1))), w', res. rewrite E. split; [done|]. intros resp ->. destruct Hres as (pre & Hpre & Hr).
  split; [by eapply reads_final|]. exists w1, pre. split_and!; try done.
  destruct (Validate r (RequestLimits c)) as [[e|]|]; [by destruct Hsent as (_ & _ & ?) | | by destruct Hsent as (_ & _ & ?)].
  destruct Hsent as (sentBytes & -> & _ & Hall). by rewrite Hall.
Qed.

Lemma exchange_returns_witness :
  exists fuel w' res, DoBuffer fuel (mkClient demoLimits demoLimits 0) (Some demoPipe) demoPut None (replicate 7 0) = Some (Some w', res) /\
  forall resp, res = inl resp -> final_status resp.(respMessage).(msgStatus).
Proof.
  destruct (exchange_returns (mkClient demoLimits demoLimits 0) demoPipe demoPut None (replicate 7 0)
    limits_zero_typed limits_zero_typed ltac:(by vm_compute)) as (fuel & w' & res & H1 & H2).
  exists fuel, w', res. split; [exact H1|]. intros resp E. exact (proj1 (H2 resp E)).
Defined.

(** An exchange run through: the interim response is skipped, the final one
    returned, and the two bytes behind it are kept. *)
Example exchange_example :
  match DoBuffer (ST := pipe) 20 (mkClient demoLimits demoLimits 0) (Some demoPipe) demoPut None (replicate 7 0) with
  | Some (Some w, inl resp) => Some (resp.(respMessage).(msgStatus), resp.(respBuffered) ++ w.2, resp.(respUpgraded))
  | _ => None
  end = Some (204, str "HT", false).
Proof. vm_compute. reflexivity. Qed.

(** ** What validation lets through *)

(** A target that holds a whole request. *)
Definition splitTarget : HTTPRequest :=
  mkRequest (str "GET") (str "/ HTTP/1.1" ++ [CR; LF] ++ str "Host: a" ++ [CR; LF; CR; LF] ++ str "GET /b") (str "h") [] [] false.

(** The target is not checked for bytes outside its alphabet: the parser that
    validates the request reads a space and a line end in it as the protocol's
    own, so one call of [Write] sends two requests. *)
Lemma target_splits_request :
  Validate (ST := pipe) splitTarget demoLimits = Some None /\
  match Parse (NewParser Request None demoLimits) [] (appendRequest [] splitTarget) with
  | Some o => (o.(outRest), o.(outCode), o.(outParser).(messageNum))
  | None => ([], CodeNone, 0)
  end = ([], CodeNone, 2).
Proof. split; vm_compute; reflexivity. Qed.
