(* ===== verification/H2Request.v ===== *)
(** * HTTP/2 requests: the one-shot client

    A translation of [src/http2/request/request.go]: a request is validated and
    encoded as the connection preface, SETTINGS, one header block and DATA on
    stream 1; [DoBuffer] writes it and reads frames with the parser of
    [H2Frame] until the response on stream 1 is complete.

    [responseState] is the host of the frame parser.  It holds the connection,
    because the callbacks acknowledge SETTINGS and PING and replenish windows on
    it.  The caller's [Callbacks] only observe the exchange: they are the calls
    recorded in [delivered], newest first.  Interfaces and functions of a
    [Request] that the client only compares with [nil] are booleans. *)

From S2P Require Import Prelude Transport H2Frame H2Hpack.

Definition DefaultReadBufferBytes : Z := Z.shiftl 16 10.
Definition defaultMaxRequestBody : Z := 65535.
Definition defaultMaxResponseBody : Z := Z.shiftl 64 20.

Record Header := mkHeader {
  hdrName : list Z;
  hdrValue : list Z;
  hdrSensitive : bool;
}.

Record Request := mkRequest {
  reqMethod : list Z;
  reqScheme : list Z;
  reqAuthority : list Z;
  reqPath : list Z;
  reqProtocol : list Z;
  reqHeaders : list Header;
  reqBody : list Z;
  reqBodyReader : bool; (* not nil *)
  reqBodyLength : Z; (* int64 *)
  reqHasBodyLength : bool;
  reqReplayBody : bool; (* not nil *)
  reqTrailers : list Header;
}.

Record Response := mkResponse {
  respStatus : Z; (* uint16 *)
  respContentLength : Z; (* uint64 *)
  respHasContentLength : bool;
  respBodyBytes : Z; (* uint64 *)
  respBuffered : list Z;
}.

Definition zeroResponse : Response := mkResponse 0 0 false 0 [].

(** The struct [Callbacks]: which functions are set. *)
Record Hooks := mkHooks {
  hookHeader : bool;
  hookHeadersComplete : bool;
  hookBody : bool;
  hookTrailersComplete : bool;
  hookResponseComplete : bool;
}.

(** A call of one of them. *)
Inductive Delivery :=
  | OnHeader (field : HeaderField) (trailer : bool)
  | OnHeadersComplete (response : Response) (informational : bool)
  | OnBody (data : list Z)
  | OnTrailersComplete
  | OnResponseComplete (response : Response).

Inductive ClientError `{Stream} `{Hpack} :=
  | ValidationError (reason : list Z)
  | ErrInvalidResponse
  | ErrInvalidStream
  | ErrEmptyReadBuffer
  | ErrReadBufferTooLarge
  | ErrShortBuffer
  | ErrRequestBodyTooLarge
  | ErrResponseBodyTooLarge
  | ErrMissingSettings
  | ErrStreamReset
  | ErrGoAway
  | ErrPushPromise
  | FrameError (c : Code)
  | CompressionError (e : DecoderError)
  | CompressionShortWrite (* CompressionError{io.ErrShortWrite} *)
  | Io (e : IoFailure).

Record Client := mkClient {
  FrameLimits : Limits;
  ClientHeaderLimits : HeaderLimits;
  ReadBufferBytes : Z; (* uint32 *)
  MaxRequestBodyBytes : Z; (* uint64 *)
  MaxResponseBodyBytes : Z; (* uint64 *)
}.

(** ** Syntax *)

Definition isAlpha (b : Z) : bool := between (ch "A") b (ch "Z") || between (ch "a") b (ch "z").

(** The separators [validMethod] lists, the double quote (34) among them. *)
Definition isSeparator (b : Z) : bool := one_of b (str "()<>@,;:\/[]?={}") || (b =? 34).

Definition validMethod (value : list Z) : bool :=
  match value with
  | [] => false
  | _ => forallb (fun b => negb ((b <=? 32) || (127 <=? b)) && negb (isSeparator b)) value
  end.

Definition validScheme (value : list Z) : bool :=
  match value with
  | [] => false
  | b :: rest =>
      isAlpha b &&
      forallb (fun b => negb (negb (isAlpha b) && ((b <? ch "0") || (ch "9" <? b)) && negb (b =? ch "+")
                              && negb (b =? ch "-") && negb (b =? ch "."))) rest
  end.

Definition isLowerNameByte (b : Z) : bool :=
  between (ch "a") b (ch "z") || between (ch "0") b (ch "9") || one_of b (str "!#$%&'*+-.^_`|~").

Definition validLowerName (value : list Z) : bool :=
  match value with
  | [] => false
  | _ => forallb isLowerNameByte value
  end.

Definition isBlank (b : Z) : bool := (b =? ch " ") || (b =? 9).

Definition validValue (value : list Z) : bool :=
  if negb (len value =? 0) && (isBlank (str_at value 0) || isBlank (str_at value (len value - 1))) then false
  else forallb (fun b => negb (negb (b =? 9) && (b <? 32) || (b =? 127))) value.

Definition validPseudoValue (value : list Z) : bool := forallb (fun b => negb ((b <=? 32) || (b =? 127))) value.

Definition forbiddenRequestHeader (name value : list Z) : bool :=
  if existsb (bytes_eqb name) [str "host"; str "content-length"; str "connection"; str "proxy-connection"; str "keep-alive";
       str "transfer-encoding"; str "upgrade"]
  then true
  else if bytes_eqb name (str "te") then negb (bytes_eqb value (str "trailers"))
  else false.

Definition forbiddenResponseHeader (name : list Z) : bool :=
  existsb (bytes_eqb name) [str "connection"; str "proxy-connection"; str "keep-alive"; str "transfer-encoding"; str "upgrade"; str "te"].

Definition validDecodedName (name : list Z) : bool :=
  match name with
  | [] => false
  | b :: rest =>
      if b =? ch ":" then match rest with [] => false | _ => forallb isLowerNameByte rest end
      else forallb isLowerNameByte name
  end.

Definition validDecodedValue (value : list Z) : bool := validValue value.

Definition parseStatus (value : list Z) : Z * bool :=
  if negb (len value =? 3) || (str_at value 0 <? ch "1") || (ch "9" <? str_at value 0)
     || (str_at value 1 <? ch "0") || (ch "9" <? str_at value 1) || (str_at value 2 <? ch "0") || (ch "9" <? str_at value 2)
  then (0, false)
  else
    let status := u16 (u16 (u16 (u8 (str_at value 0 - ch "0") * 100) + u16 (u8 (str_at value 1 - ch "0") * 10))
                       + u8 (str_at value 2 - ch "0")) in
    (status, (100 <=? status) && (status <=? 599)).

(** The loop of [parseContentLength]. *)
Fixpoint parseLength (result : Z) (value : list Z) : Z * bool :=
  match value with
  | [] => (result, true)
  | b :: value =>
      if (b <? ch "0") || (ch "9" <? b) then (0, false)
      else
        let digit := b - ch "0" in
        if (MaxUint64 - digit) / 10 <? result then (0, false)
        else parseLength (u64 (u64 (result * 10) + digit)) value
  end.

Definition parseContentLength (value : list Z) : Z * bool :=
  match value with [] => (0, false) | _ => parseLength 0 value end.

(** [if b >= 'A' && b <= 'Z' { b += 'a' - 'A' }] *)
Definition lowered (b : Z) : Z := if between (ch "A") b (ch "Z") then u8 (b + (ch "a" - ch "A")) else b.

Fixpoint equalASCIIBytes (x y : list Z) : bool :=
  match x, y with
  | b :: x, other :: y => (lowered b =? lowered other) && equalASCIIBytes x y
  | _, _ => true
  end.

Definition equalASCII (x y : list Z) : bool :=
  if negb (len x =? len y) then false else equalASCIIBytes x y.

(** ** Limits *)

(** [maxField, maxList, maxHeaders] *)
Definition requestHeaderLimits (l : HeaderLimits) : Z * Z * Z :=
  (if l.(MaxFieldBytes) =? 0 then Z.shiftl 16 10 else l.(MaxFieldBytes),
   if l.(MaxHeaderListBytes) =? 0 then Z.shiftl 64 10 else l.(MaxHeaderListBytes),
   if l.(MaxHeaders) =? 0 then 256 else l.(MaxHeaders)).

Definition headerListEntrySize (nameBytes valueBytes : Z) : Z := u64 (u64 (u64 nameBytes + u64 valueBytes) + 32).

Fixpoint decimalLengthLoop (fuel : nat) (value length : Z) : Z :=
  match fuel with
  | O => length
  | S fuel => if 10 <=? value then decimalLengthLoop fuel (value / 10) (length + 1) else length
  end.

(** A [uint64] has at most twenty digits. *)
Definition decimalLength (value : Z) : Z := decimalLengthLoop 20 value 1.

Definition headerDynamicTableLimit (l : HeaderLimits) : Z :=
  if l.(MaxDynamicTableBytes) =? 0 then Z.shiftl 4 10 else l.(MaxDynamicTableBytes).

Definition headerListLimit (l : HeaderLimits) : Z :=
  if l.(MaxHeaderListBytes) =? 0 then Z.shiftl 64 10
  else if MaxUint32 <? l.(MaxHeaderListBytes) then MaxUint32
  else u32 l.(MaxHeaderListBytes).

Definition putSetting (id value : Z) : list Z := putUint16 id ++ putUint32 value.

Section Client.
Context `{ST : Stream} `{HP : Hpack}.

(** ** Validation *)

(** The loop over the headers: [fieldCount] and [listSize], or the error. *)
Fixpoint validateHeaders (maxField fieldCount listSize : Z) (headers : list Header) : (Z * Z) + ClientError :=
  match headers with
  | [] => inl (fieldCount, listSize)
  | h :: headers =>
      if negb (validLowerName h.(hdrName)) || negb (validValue h.(hdrValue)) || (str_at h.(hdrName) 0 =? ch ":")
      then inr (ValidationError (str "invalid header field"))
      else if forbiddenRequestHeader h.(hdrName) h.(hdrValue)
      then inr (ValidationError (str "reserved or connection-specific header"))
      else if (maxField <? len h.(hdrName)) || (maxField <? len h.(hdrValue))
      then inr (ValidationError (str "header field too large"))
      else
        validateHeaders maxField (u32 (fieldCount + 1))
          (u64 (listSize + headerListEntrySize (len h.(hdrName)) (len h.(hdrValue)))) headers
  end.

(** [MaxRequestBodyBytes] within the initial window. *)
Definition requestBodyLimit (c : Client) : Z :=
  if (c.(MaxRequestBodyBytes) =? 0) || (defaultMaxRequestBody <? c.(MaxRequestBodyBytes))
  then defaultMaxRequestBody else c.(MaxRequestBodyBytes).

Definition pseudoListSize (r : Request) : Z :=
  u64 (u64 (u64 (headerListEntrySize (len (str ":method")) (len r.(reqMethod))
    + headerListEntrySize (len (str ":scheme")) (len r.(reqScheme)))
    + headerListEntrySize (len (str ":authority")) (len r.(reqAuthority)))
    + headerListEntrySize (len (str ":path")) (len r.(reqPath))).

Definition Validate (c : Client) (r : Request) : option ClientError :=
  if r.(reqBodyReader) || r.(reqHasBodyLength) || r.(reqReplayBody) || negb (len r.(reqTrailers) =? 0) || negb (len r.(reqProtocol) =? 0)
  then Some (ValidationError (str "streaming bodies, trailers, and extended CONNECT require Transport"))
  else if negb (validMethod r.(reqMethod)) then Some (ValidationError (str "invalid :method"))
  else if negb (validScheme r.(reqScheme)) then Some (ValidationError (str "invalid :scheme"))
  else if (len r.(reqAuthority) =? 0) || negb (validPseudoValue r.(reqAuthority))
  then Some (ValidationError (str "invalid :authority"))
  else if (len r.(reqPath) =? 0) || negb (validPseudoValue r.(reqPath))
  then Some (ValidationError (str "invalid :path"))
  else
    let '(maxField, maxList, maxHeaders) := requestHeaderLimits c.(ClientHeaderLimits) in
    if (maxField <? len r.(reqMethod)) || (maxField <? len r.(reqScheme)) || (maxField <? len r.(reqAuthority))
       || (maxField <? len r.(reqPath))
    then Some (ValidationError (str "pseudo-header field too large"))
    else
      match validateHeaders maxField 4 (pseudoListSize r) r.(reqHeaders) with
      | inr e => Some e
      | inl (fieldCount, listSize) =>
          let '(fieldCount, listSize) :=
            if negb (len r.(reqBody) =? 0)
            then (u32 (fieldCount + 1),
                  u64 (listSize + headerListEntrySize (len (str "content-length")) (decimalLength (u64 (len r.(reqBody))))))
            else (fieldCount, listSize) in
          if (maxHeaders <? fieldCount) || (maxList <? listSize) then Some (ValidationError (str "header list too large"))
          else if requestBodyLimit c <? len r.(reqBody) then Some ErrRequestBodyTooLarge
          else None
      end.

(** ** Encoding *)

Definition requestFields (r : Request) : list HeaderField :=
  [mkHeaderField (str ":method") r.(reqMethod) false; mkHeaderField (str ":scheme") r.(reqScheme) false;
   mkHeaderField (str ":authority") r.(reqAuthority) false; mkHeaderField (str ":path") r.(reqPath) false]
  ++ map (fun h => mkHeaderField h.(hdrName) h.(hdrValue) h.(hdrSensitive)) r.(reqHeaders)
  ++ (if negb (len r.(reqBody) =? 0) then [mkHeaderField (str "content-length") (formatUint (len r.(reqBody))) false] else []).

(** Successive calls of [encoder.WriteField] on a [bytes.Buffer], which never
    fails. *)
Fixpoint encodeBlock (e : Encoder) (fields : list HeaderField) : list Z :=
  match fields with
  | [] => []
  | f :: fields => let (e, bytes) := WriteField e f in bytes ++ encodeBlock e fields
  end.

(** The loop over the header block; [None] is running out of fuel. *)
Fixpoint appendHeaderBlock (fuel : nat) (dst : list Z) (first noBody : bool) (headerBlock : list Z)
  : option (list Z * option ClientError) :=
  if first || negb (len headerBlock =? 0) then
    match fuel with
    | O => None
    | S fuel =>
        let count := if Z.shiftl 16 10 <? len headerBlock then Z.shiftl 16 10 else len headerBlock in
        let flags := if count =? len headerBlock then FlagEndHeaders else 0 in
        let flags := if first && noBody then Z.lor flags FlagEndStream else flags in
        let typ := if first then FrameHeaders else FrameContinuation in
        let (dst, code) := AppendFrame dst (mkFrameHeader 0 typ flags 1) (take (Z.to_nat count) headerBlock) in
        if negb (is_none code) then Some (dst, Some (FrameError code))
        else appendHeaderBlock fuel dst false noBody (drop (Z.to_nat count) headerBlock)
    end
  else Some (dst, None).

Fixpoint appendBody (fuel : nat) (dst body : list Z) : option (list Z * option ClientError) :=
  if negb (len body =? 0) then
    match fuel with
    | O => None
    | S fuel =>
        let count := if Z.shiftl 16 10 <? len body then Z.shiftl 16 10 else len body in
        let flags := if count =? len body then FlagEndStream else 0 in
        let (dst, code) := AppendFrame dst (mkFrameHeader 0 FrameData flags 1) (take (Z.to_nat count) body) in
        if negb (is_none code) then Some (dst, Some (FrameError code))
        else appendBody fuel dst (drop (Z.to_nat count) body)
    end
  else Some (dst, None).

Definition initialSettings (c : Client) : list Z :=
  putSetting SettingEnablePush 0
  ++ putSetting SettingHeaderTableSize (headerDynamicTableLimit c.(ClientHeaderLimits))
  ++ putSetting SettingMaxHeaderListSize (headerListLimit c.(ClientHeaderLimits)).

Definition Append (c : Client) (dst : list Z) (r : Request) : option (list Z * option ClientError) :=
  match Validate c r with
  | Some err => Some (dst, Some err)
  | None =>
      let headerBlock := encodeBlock NewEncoder (requestFields r) in
      let dst := dst ++ ClientPreface in
      let (dst, code) := AppendFrame dst (mkFrameHeader 0 FrameSettings 0 0) (initialSettings c) in
      if negb (is_none code) then Some (dst, Some (FrameError code))
      else
        match appendHeaderBlock (S (length headerBlock)) dst true (len r.(reqBody) =? 0) headerBlock with
        | Some (dst, None) => appendBody (length r.(reqBody)) dst r.(reqBody)
        | res => res
        end
  end.

(** The destination afterwards, the count and the error. *)
Definition Encode (c : Client) (dst : list Z) (r : Request) : option (list Z * (Z * option ClientError)) :=
  match Append c [] r with
  | None => None
  | Some (_, Some err) => Some (dst, (0, Some err))
  | Some (wire, None) =>
      if len dst <? len wire then Some (dst, (0, Some ErrShortBuffer))
      else Some (wire ++ drop (length wire) dst, (len wire, None))
  end.

Definition writeAll (w : Conn) (data : list Z) : option (Conn * option ClientError) := writeData Io w data.

Definition Write (c : Client) (writer : option Conn) (r : Request) : option (option Conn * option ClientError) :=
  match writer with
  | None => Some (None, Some ErrInvalidStream)
  | Some w =>
      match Append c [] r with
      | None => None
      | Some (_, Some err) => Some (Some w, Some err)
      | Some (wire, None) => match writeAll w wire with Some (w, err) => Some (Some w, err) | None => None end
      end
  end.

Definition writeFrame (w : Conn) (h : FrameHeader) (payload : list Z) : option (Conn * option ClientError) :=
  let (wire, code) := AppendFrame [] h payload in
  if negb (is_none code) then Some (w, Some (FrameError code)) else writeAll w wire.

Definition writeWindowUpdate (w : Conn) (streamID increment : Z) : option (Conn * option ClientError) :=
  writeFrame w (mkFrameHeader 0 FrameWindowUpdate 0 streamID) (putUint32 (Z.land increment streamMask)).
End Client.
