(* ===== verification/H2Response.v ===== *)
(** * HTTP/2 requests: reading the response

    The second half of [src/http2/request/request.go]: [responseState], the host
    of the frame parser, and the loops of [DoBuffer].  A callback is a function
    on the state; none of them calls back into the parser. *)

From S2P Require Import Prelude Transport H2Frame H2Hpack H2Request.

(** The struct [responseState], without [client] and [callbacks], which never
    change and are parameters. *)
Record responseState `{Stream} `{Hpack} := mkResponseState {
  rstream : Conn;
  rdecoder : HeaderDecoder;
  rresponse : Response;
  rerr : option ClientError;
  firstFrame : bool;
  finalHeaders : bool;
  blockActive : bool;
  blockTrailer : bool;
  blockPseudoDone : bool;
  blockStatus : Z; (* uint16 *)
  blockSawStatus : bool;
  blockContentLen : Z; (* uint64 *)
  blockSawContent : bool;
  dataInFrame : Z; (* uint64 *)
  noBody : bool;
  complete : bool;
  delivered : list Delivery;
}.

#[export] Instance eta_responseState `{S : Stream} `{H : Hpack} : Eta responseState := fun s =>
  mkResponseState S H s.(rstream) s.(rdecoder) s.(rresponse) s.(rerr) s.(firstFrame) s.(finalHeaders) s.(blockActive) s.(blockTrailer) s.(blockPseudoDone) s.(blockStatus) s.(blockSawStatus) s.(blockContentLen) s.(blockSawContent) s.(dataInFrame) s.(noBody) s.(complete) s.(delivered).
#[export] Instance setr_rstream `{S : Stream} `{H : Hpack} : Setter (@rstream S H) := ltac:(mk_setter (@rstream S H)).
#[export] Instance setr_rdecoder `{S : Stream} `{H : Hpack} : Setter (@rdecoder S H) := ltac:(mk_setter (@rdecoder S H)).
#[export] Instance setr_rresponse `{S : Stream} `{H : Hpack} : Setter (@rresponse S H) := ltac:(mk_setter (@rresponse S H)).
#[export] Instance setr_rerr `{S : Stream} `{H : Hpack} : Setter (@rerr S H) := ltac:(mk_setter (@rerr S H)).
#[export] Instance setr_firstFrame `{S : Stream} `{H : Hpack} : Setter (@firstFrame S H) := ltac:(mk_setter (@firstFrame S H)).
#[export] Instance setr_finalHeaders `{S : Stream} `{H : Hpack} : Setter (@finalHeaders S H) := ltac:(mk_setter (@finalHeaders S H)).
#[export] Instance setr_blockActive `{S : Stream} `{H : Hpack} : Setter (@blockActive S H) := ltac:(mk_setter (@blockActive S H)).
#[export] Instance setr_blockTrailer `{S : Stream} `{H : Hpack} : Setter (@blockTrailer S H) := ltac:(mk_setter (@blockTrailer S H)).
#[export] Instance setr_blockPseudoDone `{S : Stream} `{H : Hpack} : Setter (@blockPseudoDone S H) := ltac:(mk_setter (@blockPseudoDone S H)).
#[export] Instance setr_blockStatus `{S : Stream} `{H : Hpack} : Setter (@blockStatus S H) := ltac:(mk_setter (@blockStatus S H)).
#[export] Instance setr_blockSawStatus `{S : Stream} `{H : Hpack} : Setter (@blockSawStatus S H) := ltac:(mk_setter (@blockSawStatus S H)).
#[export] Instance setr_blockContentLen `{S : Stream} `{H : Hpack} : Setter (@blockContentLen S H) := ltac:(mk_setter (@blockContentLen S H)).
#[export] Instance setr_blockSawContent `{S : Stream} `{H : Hpack} : Setter (@blockSawContent S H) := ltac:(mk_setter (@blockSawContent S H)).
#[export] Instance setr_dataInFrame `{S : Stream} `{H : Hpack} : Setter (@dataInFrame S H) := ltac:(mk_setter (@dataInFrame S H)).
#[export] Instance setr_noBody `{S : Stream} `{H : Hpack} : Setter (@noBody S H) := ltac:(mk_setter (@noBody S H)).
#[export] Instance setr_complete `{S : Stream} `{H : Hpack} : Setter (@complete S H) := ltac:(mk_setter (@complete S H)).
#[export] Instance setr_delivered `{S : Stream} `{H : Hpack} : Setter (@delivered S H) := ltac:(mk_setter (@delivered S H)).

Section Response.
Context `{ST : Stream} `{HP : Hpack} (client : Client) (hooks : option Hooks).
Implicit Types s : responseState.

(** [if state.callbacks != nil && state.callbacks.F != nil { state.callbacks.F(...) }] *)
Definition deliver (F : Hooks -> bool) (d : Delivery) s : responseState :=
  match hooks with
  | Some h => if F h then s <| delivered := d :: s.(delivered) |> else s
  | None => s
  end.

(** [state.err = err] *)
Definition setErr (err : ClientError) s : responseState := s <| rerr := Some err |>.

(** Store the result of a write on the connection, where [writeData] never runs
    out of fuel: [Transport.writeData_total]. *)
Definition storeWrite (res : option (Conn * option ClientError)) s : responseState :=
  match res with
  | Some (w, err) => s <| rstream := w |> <| rerr := err |>
  | None => s
  end.

Definition finishResponse s : responseState :=
  match s.(rerr) with
  | Some _ => s
  | None =>
      if s.(complete) then s
      else if s.(rresponse).(respHasContentLength) && negb (s.(rresponse).(respContentLength) =? s.(rresponse).(respBodyBytes))
      then setErr ErrInvalidResponse s
      else
        let s := s <| complete := true |> in
        deliver hookResponseComplete (OnResponseComplete s.(rresponse)) s
  end.

(** The HEADERS branch of [onFrameBegin] past its guard. *)
Definition beginBlock s : responseState :=
  let s := s <| blockActive := true |> <| blockTrailer := s.(finalHeaders) |> <| blockPseudoDone := false |>
             <| blockStatus := 0 |> <| blockSawStatus := false |> <| blockContentLen := 0 |> <| blockSawContent := false |> in
  let (d, err) := BeginBlock s.(rdecoder) in
  let s := s <| rdecoder := d |> in
  match err with Some e => setErr (CompressionError e) s | None => s end.

Definition onFrameBegin (h : FrameHeader) s : responseState :=
  match s.(rerr) with
  | Some _ => s
  | None =>
      let missing := s.(firstFrame) && (negb (h.(Type_) =? FrameSettings) || Has h.(Flags) FlagACK) in
      let s := if s.(firstFrame) then s <| firstFrame := false |> else s in
      if missing then setErr ErrMissingSettings s
      else if (h.(Type_) =? FrameHeaders) && (negb (h.(StreamID) =? 1) || s.(blockActive) || s.(complete))
      then setErr ErrInvalidResponse s
      else
        let s := if h.(Type_) =? FrameHeaders then beginBlock s else s in
        if h.(Type_) =? FrameData then
          let s := s <| dataInFrame := 0 |> in
          if negb (h.(StreamID) =? 1) || negb s.(finalHeaders) || s.(complete) || s.(noBody)
          then setErr ErrInvalidResponse s else s
        else s
  end.

Definition onHeader (field : HeaderField) s : responseState :=
  match s.(rerr) with
  | Some _ => s
  | None =>
      if negb (validDecodedName field.(Name)) || negb (validDecodedValue field.(FieldValue)) then setErr ErrInvalidResponse s
      else
        let pseudo := negb (len field.(Name) =? 0) && (str_at field.(Name) 0 =? ch ":") in
        let header s := deliver hookHeader (OnHeader field s.(blockTrailer)) s in
        if pseudo then
          if s.(blockTrailer) || s.(blockPseudoDone) || negb (bytes_eqb field.(Name) (str ":status")) || s.(blockSawStatus)
          then setErr ErrInvalidResponse s
          else
            let (status, ok) := parseStatus field.(FieldValue) in
            if negb ok then setErr ErrInvalidResponse s
            else header (s <| blockStatus := status |> <| blockSawStatus := true |>)
        else
          let s := s <| blockPseudoDone := true |> in
          if forbiddenResponseHeader field.(Name) then setErr ErrInvalidResponse s
          else if bytes_eqb field.(Name) (str "content-length") then
            let (value, ok) := parseContentLength field.(FieldValue) in
            if negb ok || s.(blockSawContent) then setErr ErrInvalidResponse s
            else header (s <| blockSawContent := true |> <| blockContentLen := value |>)
          else header s
  end.

(** The decoder emits the fields of a fragment in order, and [onHeader] does not
    touch it. *)
Definition onHeaderBlock (streamID : Z) (fragment : list Z) s : responseState :=
  match s.(rerr) with
  | Some _ => s
  | None =>
      if negb (streamID =? 1) || negb s.(blockActive) then setErr ErrInvalidResponse s
      else
        let '(d, fields, (written, err)) := DWrite s.(rdecoder) fragment in
        let s := fold_left (fun s f => onHeader f s) fields (s <| rdecoder := d |>) in
        match err with
        | Some e => setErr (CompressionError e) s
        | None => if negb (written =? len fragment) then setErr CompressionShortWrite s else s
        end
  end.

(** The final response headers. *)
Definition acceptHeaders (endStream : bool) s : responseState :=
  let s := s <| finalHeaders := true |>
             <| noBody := s.(noBody) || (s.(blockStatus) =? 204) || (s.(blockStatus) =? 304) |> in
  if (s.(blockStatus) =? 204) && s.(blockSawContent) then setErr ErrInvalidResponse s
  else
    let r := s.(rresponse) in
    let r := mkResponse s.(blockStatus) s.(blockContentLen) s.(blockSawContent) r.(respBodyBytes) r.(respBuffered) in
    let s := s <| rresponse := r |> in
    let s := deliver hookHeadersComplete (OnHeadersComplete r false) s in
    if endStream then finishResponse s else s.

Definition onHeaderBlockEnd (streamID : Z) (endStream : bool) s : responseState :=
  match s.(rerr) with
  | Some _ => s
  | None =>
      if negb (streamID =? 1) || negb s.(blockActive) then setErr ErrInvalidResponse s
      else
        let (d, err) := EndBlock s.(rdecoder) in
        let s := s <| rdecoder := d |> in
        match err with
        | Some e => setErr (CompressionError e) s
        | None =>
            let s := s <| blockActive := false |> in
            if s.(blockTrailer) then
              if s.(blockSawStatus) || s.(blockSawContent) || negb endStream then setErr ErrInvalidResponse s
              else finishResponse (deliver hookTrailersComplete OnTrailersComplete s)
            else if negb s.(blockSawStatus) then setErr ErrInvalidResponse s
            else if (100 <=? s.(blockStatus)) && (s.(blockStatus) <? 200) then
              if s.(blockStatus) =? 101 then setErr ErrInvalidResponse s
              else if endStream || s.(blockSawContent) then setErr ErrInvalidResponse s
              else deliver hookHeadersComplete (OnHeadersComplete (mkResponse s.(blockStatus) 0 false 0 []) true) s
            else acceptHeaders endStream s
        end
  end.

Definition responseBodyLimit : Z :=
  if client.(MaxResponseBodyBytes) =? 0 then defaultMaxResponseBody else client.(MaxResponseBodyBytes).

Definition onData (streamID : Z) (data : list Z) (_ : bool) s : responseState :=
  match s.(rerr) with
  | Some _ => s
  | None =>
      if negb (streamID =? 1) || negb s.(finalHeaders) || s.(complete) then setErr ErrInvalidResponse s
      else if u64 (responseBodyLimit - s.(rresponse).(respBodyBytes)) <? u64 (len data) then setErr ErrResponseBodyTooLarge s
      else
        let r := s.(rresponse) in
        let r := mkResponse r.(respStatus) r.(respContentLength) r.(respHasContentLength)
                   (u64 (r.(respBodyBytes) + u64 (len data))) r.(respBuffered) in
        let s := s <| rresponse := r |> <| dataInFrame := u64 (s.(dataInFrame) + u64 (len data)) |> in
        deliver hookBody (OnBody data) s
  end.

(** Credit the bytes of a DATA frame to the connection and to the stream. *)
Definition replenish (length : Z) s : responseState :=
  if length =? 0 then s
  else
    let s := storeWrite (writeWindowUpdate s.(rstream) 0 length) s in
    match s.(rerr) with
    | Some _ => s
    | None => storeWrite (writeWindowUpdate s.(rstream) 1 length) s
    end.

Definition onFrameComplete (h : FrameHeader) s : responseState :=
  match s.(rerr) with
  | Some _ => s
  | None =>
      if (h.(Type_) =? FrameData) && (h.(StreamID) =? 1) then
        let s := replenish h.(Length) s in
        match s.(rerr) with
        | Some _ => s
        | None => if Has h.(Flags) FlagEndStream then finishResponse s else s
        end
      else s
  end.

Definition onSettingsEnd (ack : bool) s : responseState :=
  match s.(rerr) with
  | Some _ => s
  | None => if ack then s else storeWrite (writeFrame s.(rstream) (mkFrameHeader 0 FrameSettings FlagACK 0) []) s
  end.

Definition onPing (data : list Z) (ack : bool) s : responseState :=
  match s.(rerr) with
  | Some _ => s
  | None => if ack then s else storeWrite (writeFrame s.(rstream) (mkFrameHeader 0 FramePing FlagACK 0) data) s
  end.

Definition onRSTStream (streamID _ : Z) s : responseState :=
  match s.(rerr) with
  | Some _ => s
  | None => if streamID =? 1 then setErr ErrStreamReset s else s
  end.

Definition onPushPromise (_ _ : Z) s : responseState :=
  match s.(rerr) with Some _ => s | None => setErr ErrPushPromise s end.

Definition onGoAway (lastStreamID _ : Z) s : responseState :=
  match s.(rerr) with
  | Some _ => s
  | None => if negb s.(complete) || (lastStreamID <? 1) then setErr ErrGoAway s else s
  end.

Definition quietly (f : responseState -> responseState) : Reaction responseState := fun s => (f s, false).

(** The callbacks [DoBuffer] installs. *)
Definition parserCallbacks : Callbacks responseState := {|
  cbFrameBegin := Some (fun h => quietly (onFrameBegin h));
  cbData := Some (fun id data fin => quietly (onData id data fin));
  cbHeaderBlock := Some (fun id fragment => quietly (onHeaderBlock id fragment));
  cbHeaderBlockEnd := Some (fun id fin => quietly (onHeaderBlockEnd id fin));
  cbPriority := None;
  cbRSTStream := Some (fun id c => quietly (onRSTStream id c));
  cbSetting := None;
  cbSettingsEnd := Some (fun ack => quietly (onSettingsEnd ack));
  cbPushPromise := Some (fun id promised => quietly (onPushPromise id promised));
  cbPing := Some (fun data ack => quietly (onPing data ack));
  cbGoAway := Some (fun last c => quietly (onGoAway last c));
  cbGoAwayDebug := None;
  cbWindowUpdate := None;
  cbUnknown := None;
  cbFrameComplete := Some (fun h => quietly (onFrameComplete h)) |}.

Definition initialState (w : Conn) (r : Request) : responseState := {|
  rstream := w;
  rdecoder := NewHeaderDecoder client.(ClientHeaderLimits) true;
  rresponse := zeroResponse;
  rerr := None;
  firstFrame := true;
  finalHeaders := false;
  blockActive := false;
  blockTrailer := false;
  blockPseudoDone := false;
  blockStatus := 0;
  blockSawStatus := false;
  blockContentLen := 0;
  blockSawContent := false;
  dataInFrame := 0;
  noBody := equalASCII r.(reqMethod) (str "HEAD");
  complete := false;
  delivered := [] |}.

(** ** The exchange *)

Definition withBuffered (r : Response) (bytes : list Z) : Response :=
  mkResponse r.(respStatus) r.(respContentLength) r.(respHasContentLength) r.(respBodyBytes) bytes.

(** The inner loop over the bytes of one read: go on reading, or return.
    [None] is running out of fuel. *)
Fixpoint frameMessages (fuel : nat) (p : Parser) s (src : list Z)
  : option ((Parser * responseState) + (responseState * (Response + ClientError))) :=
  match src with
  | [] => Some (inl (p, s))
  | _ =>
      match fuel with
      | O => None
      | S fuel =>
          match ParseOne (Some parserCallbacks) p s src with
          | None => None
          | Some (o, boundary) =>
              let s := o.(outHost) in
              if negb (is_none o.(outCode)) then Some (inr (s, inr (FrameError o.(outCode))))
              else
                match s.(rerr) with
                | Some err => Some (inr (s, inr err))
                | None =>
                    if s.(complete) then
                      let r := withBuffered s.(rresponse) o.(outRest) in
                      Some (inr (s <| rresponse := r |>, inl r))
                    else if (len o.(outRest) =? len src) && negb boundary then Some (inr (s, inr (Io IoNoProgress)))
                    else frameMessages fuel o.(outParser) s o.(outRest)
                end
          end
      end
  end.

(** The end of the stream. *)
Definition finishExchange (p : Parser) s : Response + ClientError :=
  let (_, c) := Finish p in
  if negb (is_none c) then inr (FrameError c)
  else if s.(complete) then inl s.(rresponse)
  else inr (Io IoUnexpectedEOF).

(** The outer loop: the state with its connection, the buffer, and the result.
    It ends when the stream does; [None] is running out of fuel. *)
Fixpoint readLoop (fuel : nat) (buffer : list Z) (p : Parser) s : option (responseState * (Response + ClientError)) :=
  match fuel with
  | O => None
  | S fuel =>
      let '((w, filled), (read, err)) := SRead s.(rstream) buffer in
      let s := s <| rstream := w |> in
      if (read <? 0) || (len buffer <? read) then Some (s, inr (Io IoShortBuffer))
      else
        match frameMessages (Z.to_nat read) p s (take (Z.to_nat read) filled) with
        | None => None
        | Some (inr r) => Some r
        | Some (inl (p, s)) =>
            match err with
            | Some e => Some (s, if is_EOF e then finishExchange p s else inr (Io (IoError e)))
            | None => if read =? 0 then Some (s, inr (Io IoNoProgress)) else readLoop fuel filled p s
            end
        end
  end.
End Response.

Section Exchange.
Context `{ST : Stream} `{HP : Hpack}.

(** The connection, the caller's callbacks in order, and the result. *)
Definition DoBuffer (fuel : nat) (c : Client) (stream : option Conn) (r : Request) (hooks : option Hooks) (buffer : list Z)
  : option (option Conn * list Delivery * (Response + ClientError)) :=
  match stream with
  | None => Some (None, [], inr ErrInvalidStream)
  | Some _ =>
      if len buffer =? 0 then Some (stream, [], inr ErrEmptyReadBuffer)
      else
        match Write c stream r with
        | Some (Some w, None) =>
            match readLoop c hooks fuel buffer (NewParser c.(FrameLimits)) (initialState c w r) with
            | Some (s, result) => Some (Some s.(rstream), rev s.(delivered), result)
            | None => None
            end
        | Some (w, Some err) => Some (w, [], inr err)
        | _ => None
        end
  end.

Definition Do (fuel : nat) (c : Client) (stream : option Conn) (r : Request) (hooks : option Hooks)
  : option (option Conn * list Delivery * (Response + ClientError)) :=
  let size := if c.(ReadBufferBytes) =? 0 then DefaultReadBufferBytes else c.(ReadBufferBytes) in
  if MaxInt <? size then Some (stream, [], inr ErrReadBufferTooLarge)
  else DoBuffer fuel c stream r hooks (replicate (Z.to_nat size) 0).
End Exchange.
