(* ===== verification/H2ResponseInv.v ===== *)
(** * HTTP/2 requests: the invariant of a response

    What every callback of [responseState] keeps while no error is recorded, so
    that by [H2FrameHost] every run of the frame parser keeps it: the body stays
    within its limit, the final status is one, the announced length is the
    number of bytes received, the caller is told exactly what is counted, and
    all that goes back to the peer is control frames. *)

From S2P Require Import Prelude Transport H2Frame H2FrameWf H2FrameSpec H2FrameHost H2Hpack H2Request H2Response.

Section Invariant.
Context `{ST : Stream} `{HP : Hpack} `{WR : !Writer} `{RD : !Reader} `{DX : !Duplex}.
Context (client : Client) (hooks : option Hooks) (head : bool).
Implicit Types s : responseState.

Definition hooked (F : Hooks -> bool) : bool := match hooks with Some h => F h | None => false end.

Lemma deliver_eq F d s : deliver hooks F d s = if hooked F then s <| delivered := d :: s.(delivered) |> else s.
Proof. unfold deliver, hooked. by destruct hooks. Qed.

(** ** What the caller has been told *)

(** The bytes of the body. *)
Definition bodyTold (ds : list Delivery) : list Z :=
  concat (rev (map (fun d => match d with OnBody data => data | _ => [] end) ds)).

(** The completed responses. *)
Definition completions (ds : list Delivery) : list Response :=
  concat (map (fun d => match d with OnResponseComplete r => [r] | _ => [] end) ds).

#[local] Arguments bodyTold : simpl never.

Lemma bodyTold_cons d ds : bodyTold (d :: ds) = bodyTold ds ++ match d with OnBody data => data | _ => [] end.
Proof. unfold bodyTold. cbn [map rev]. rewrite concat_app. cbn [concat]. by rewrite app_nil_r. Qed.

(** ** What goes back to the peer *)

(** SETTINGS and PING acknowledgements and window updates. *)
Definition reply (f : FrameHeader * list Z) : Prop :=
  f = (mkFrameHeader 0 FrameSettings FlagACK 0, []) \/
  (f.1 = mkFrameHeader 8 FramePing FlagACK 0 /\ length f.2 = 8%nat) \/
  (exists id n, (id = 0 \/ id = 1) /\ 0 < n <= maxFrameSize /\ f = (mkFrameHeader 4 FrameWindowUpdate 0 id, putUint32 n)).

Definition replied (base : list Z) (w : Conn) : Prop :=
  exists frames, sent w = base ++ wires frames /\ Forall reply frames.

Lemma replied_refl w : replied (sent w) w.
Proof. exists []. split; [by rewrite app_nil_r | done]. Qed.

(** A control frame written without an error. *)
Lemma writeFrame_replied base w h payload w' :
  header_typed h -> h.(Length) = 0 -> validateFrameHeader (sized h payload) = CodeNone -> len payload <= maxFrameSize ->
  h.(StreamID) <= streamMask -> reply (sized h payload, payload) -> replied base w ->
  writeFrame w h payload = Some (w', None) -> replied base w' /\ pending w' = pending w.
Proof.
  intros Hh Hl Hv Hlen Hid Hr (frames & Hs & Hf). unfold writeFrame. rewrite AppendFrame_eq by done.
  assert (appendable h payload = true) as ->.
  { unfold appendable. rewrite Hl. change (0 =? 0) with true. rewrite orb_true_l, andb_true_r. apply andb_true_intro.
    split; apply Z.leb_le; lia. }
  rewrite Hv. cbn [is_none negb]. unfold writeAll. intros E.
  destruct (writeData_wrote Io w ([] ++ wire (sized h payload, payload))) as (w1 & err & pre & E1 & E2 & _ & E3).
  pose proof (writeData_pending _ _ _ _ _ E) as Hp. rewrite E in E1. injection E1 as <- <-. rewrite (E3 eq_refl) in E2.
  split; [|done]. exists (frames ++ [(sized h payload, payload)]). split; [|by apply Forall_app; split; [|constructor]].
  rewrite E2, Hs. unfold wires. rewrite map_app, concat_app. cbn [map concat app]. by rewrite app_nil_r, app_assoc.
Qed.

(** ** The invariant *)

Record good (base : list Z) (input : list Z) s : Prop := {
  good_body : 0 <= s.(rresponse).(respBodyBytes) <= responseBodyLimit client;
  good_status : s.(blockSawStatus) = true -> 100 <= s.(blockStatus) <= 599;
  good_trailer : s.(blockActive) = true -> s.(blockTrailer) = s.(finalHeaders);
  good_headers : if s.(finalHeaders) then 200 <= s.(rresponse).(respStatus) <= 599
                 else s.(rresponse) = zeroResponse /\ s.(complete) = false;
  good_length : s.(complete) = true -> s.(rresponse).(respHasContentLength) = true ->
    s.(rresponse).(respContentLength) = s.(rresponse).(respBodyBytes);
  good_told : hooked hookBody = true -> u64 (len (bodyTold s.(delivered))) = s.(rresponse).(respBodyBytes);
  good_completed : completions s.(delivered) = if s.(complete) && hooked hookResponseComplete then [s.(rresponse)] else [];
  good_empty : s.(noBody) = true -> s.(rresponse).(respBodyBytes) = 0;
  good_head : head = true -> s.(noBody) = true;
  good_bodiless : s.(finalHeaders) = true -> s.(rresponse).(respStatus) = 204 \/ s.(rresponse).(respStatus) = 304 -> s.(noBody) = true;
  good_replies : replied base s.(rstream);
  good_pending : pending s.(rstream) = input;
}.

(** Nothing is promised of a state with an error. *)
Definition sound (base input : list Z) s : Prop := s.(rerr) = None -> good base input s.

(** The calls of the caller's that do not count. *)
Definition silent (d : Delivery) : Prop :=
  match d with OnBody _ | OnResponseComplete _ => False | _ => True end.

Lemma deliver_good base input F d s : silent d -> good base input s -> good base input (deliver hooks F d s).
Proof.
  intros Hd Hs. rewrite deliver_eq. destruct (hooked F); [|done].
  destruct Hs as [H1 H2 H3 H4 H5 H6 H7 H10 H11 H12 H8 H9]. split; try done.
  - intros Hk. change (delivered (s <| delivered := d :: delivered s |>)) with (d :: delivered s). rewrite bodyTold_cons.
    rewrite len_app. destruct d; try done; rewrite len_nil, Z.add_0_r; by apply H6.
  - change (delivered (s <| delivered := d :: delivered s |>)) with (d :: delivered s). cbn.
    by destruct d.
Qed.

Lemma deliver_fields F d s :
  let q := deliver hooks F d s in q.(rerr) = s.(rerr) /\ q.(complete) = s.(complete) /\ q.(rresponse) = s.(rresponse) /\
  q.(finalHeaders) = s.(finalHeaders).
Proof. cbv zeta. rewrite deliver_eq. by destruct (hooked F). Qed.

Lemma setErr_sound base input e s : sound base input (setErr e s).
Proof. intros H. done. Qed.

Lemma finishResponse_sound base input s : s.(finalHeaders) = true -> sound base input s -> sound base input (finishResponse hooks s).
Proof.
  intros Hfh Hs. unfold finishResponse. destruct (rerr s) eqn:He; [done|]. specialize (Hs He).
  destruct (complete s) eqn:Hc; [by intros _|]. destruct (_ && _) eqn:Eb; [apply setErr_sound|].
  intros _. destruct Hs as [H1 H2 H3 H4 H5 H6 H7 H10 H11 H12 H8 H9]. rewrite Hc in H7. cbn [andb] in H7.
  assert (respHasContentLength (rresponse s) = true -> respContentLength (rresponse s) = respBodyBytes (rresponse s)) as Hlen.
  { intros E. rewrite E in Eb. cbn [andb] in Eb. by apply negb_false_iff, Z.eqb_eq in Eb. }
  rewrite Hfh in H3, H4. specialize (H12 Hfh). rewrite deliver_eq. destruct (hooked hookResponseComplete) eqn:Ek; split; cbn; rewrite ?Hfh, ?Ek; try done; try (by intros _).
  - intros Hb. rewrite bodyTold_cons, app_nil_r. by apply H6.
  - fold (completions (delivered s)). by rewrite H7.
Qed.

(** ** The callbacks keep the invariant *)

Context (base input : list Z) (Hlimit : 0 <= client.(MaxResponseBodyBytes) <= MaxUint64).

Lemma limit_typed : 0 <= responseBodyLimit client <= MaxUint64.
Proof. unfold responseBodyLimit. destruct (_ =? 0); [by vm_compute | done]. Qed.

Ltac keep_good H := destruct H as [H1 H2 H3 H4 H5 H6 H7 H10 H11 H12 H8 H9]; split; cbn; try done.

(** An operation that does nothing once an error is recorded. *)
Ltac by_error He :=
  intros Hs; destruct (rerr _) eqn:He; [done|]; specialize (Hs He).

Lemma onFrameBegin_sound h s : sound base input s -> sound base input (onFrameBegin h s).
Proof.
  unfold onFrameBegin. by_error He.
  assert (good base input (if firstFrame s then s <| firstFrame := false |> else s)) as Hs1 by (destruct (firstFrame s); [keep_good Hs | done]).
  destruct (firstFrame s && _); [apply setErr_sound|]. set (s1 := if firstFrame s then _ else s) in *. clearbody s1.
  destruct ((Type_ h =? FrameHeaders) && _) eqn:Eg; [apply setErr_sound|].
  assert (sound base input (if Type_ h =? FrameHeaders then beginBlock s1 else s1)) as Hs2.
  { destruct (Type_ h =? FrameHeaders); [|by intros _]. unfold beginBlock. destruct (BeginBlock _) as [d [e|]]; [apply setErr_sound|].
    intros _. keep_good Hs1. }
  destruct (Type_ h =? FrameData); [|exact Hs2]. set (s2 := if Type_ h =? FrameHeaders then _ else s1) in *. clearbody s2.
  destruct (_ || _ || _ || _); [apply setErr_sound|]. intros H. specialize (Hs2 H). keep_good Hs2.
Qed.

Lemma parseStatus_range v status : parseStatus v = (status, true) -> 100 <= status <= 599.
Proof.
  unfold parseStatus. destruct (_ || _); [done|]. intros [= <- H]. apply andb_prop in H as [H1 H2]. lia.
Qed.

Lemma onHeader_sound f s : sound base input s -> sound base input (onHeader hooks f s).
Proof.
  unfold onHeader. by_error He. destruct (_ || _); [apply setErr_sound|]. destruct (_ && _).
  - destruct (_ || _ || _ || _) eqn:Eg; [apply setErr_sound|]. destruct (parseStatus (FieldValue f)) as [status ok] eqn:E.
    destruct ok; [|apply setErr_sound]. intros _. apply deliver_good; [done|]. apply parseStatus_range in E. keep_good Hs.
  - destruct (forbiddenResponseHeader _); [apply setErr_sound|]. destruct (bytes_eqb _ _).
    + destruct (parseContentLength (FieldValue f)) as [v ok]. destruct (_ || _); [apply setErr_sound|].
      intros _. apply deliver_good; [done|]. keep_good Hs.
    + intros _. apply deliver_good; [done|]. keep_good Hs.
Qed.

Lemma onHeaders_sound fs s : sound base input s -> sound base input (fold_left (fun s f => onHeader hooks f s) fs s).
Proof. revert s. induction fs as [|f fs IH]; intros s Hs; [done|]. cbn. by apply IH, onHeader_sound. Qed.

Lemma onHeaderBlock_sound id fragment s : sound base input s -> sound base input (onHeaderBlock hooks id fragment s).
Proof.
  unfold onHeaderBlock. by_error He. destruct (_ || _); [apply setErr_sound|].
  destruct (DWrite (rdecoder s) fragment) as [[d fs] [written err]]. cbv zeta.
  assert (sound base input (s <| rdecoder := d |>)) as Hd by (intros _; keep_good Hs).
  apply (onHeaders_sound fs) in Hd. destruct err as [e|]; [apply setErr_sound|]. by destruct (negb _); [apply setErr_sound|].
Qed.

Lemma acceptHeaders_sound fin s :
  s.(rerr) = None -> s.(finalHeaders) = false -> s.(blockActive) = false -> 200 <= s.(blockStatus) <= 599 ->
  good base input s -> sound base input (acceptHeaders hooks fin s).
Proof.
  intros He Hf Ha Hst Hs. unfold acceptHeaders. cbv zeta. destruct (_ && _); [apply setErr_sound|].
  set (r := mkResponse _ _ _ _ _). set (s1 := _ <| rresponse := r |>).
  assert (good base input s1) as Hs1.
  { destruct Hs as [H1 H2 H3 H4 H5 H6 H7 H10 H11 H12 H8 H9]. rewrite Hf in *. destruct H4 as [H4 H4']. split; cbn; rewrite ?H4' in *; try done.
    - by rewrite Ha.
    - intros _. by rewrite H4.
    - intros Hh. by rewrite (H11 Hh).
    - intros _ [-> | ->]; by rewrite ?orb_true_r. }
  pose proof (deliver_good base input hookHeadersComplete (OnHeadersComplete r false) s1 I Hs1) as Hs2.
  destruct (deliver_fields hookHeadersComplete (OnHeadersComplete r false) s1) as (_ & _ & _ & D4).
  destruct fin; [apply finishResponse_sound|]; [by rewrite D4 | by intros _ | by intros _].
Qed.

Lemma onHeaderBlockEnd_sound id fin s : sound base input s -> sound base input (onHeaderBlockEnd hooks id fin s).
Proof.
  unfold onHeaderBlockEnd. by_error He. destruct (negb (id =? 1) || negb (blockActive s)) eqn:Eg; [apply setErr_sound|].
  apply orb_false_elim in Eg as [_ Ha%negb_false_iff]. destruct (EndBlock (rdecoder s)) as [d [e|]]; [apply setErr_sound|]. cbv zeta.
  set (s1 := s <| rdecoder := d |> <| blockActive := false |>).
  assert (good base input s1) as Hs1 by keep_good Hs. assert (blockTrailer s1 = finalHeaders s1) as Ht by (by apply Hs).
  destruct (blockTrailer s1) eqn:Et.
  - destruct (_ || _ || _); [apply setErr_sound|]. apply finishResponse_sound.
    + destruct (deliver_fields hookTrailersComplete OnTrailersComplete s1) as (_ & _ & _ & ->). done.
    + intros _. by apply deliver_good.
  - destruct (blockSawStatus s1) eqn:Ess; [|apply setErr_sound]. cbn [negb].
    destruct ((100 <=? blockStatus s1) && (blockStatus s1 <? 200)) eqn:Ei.
    + destruct (_ =? 101); [apply setErr_sound|]. destruct (_ || _); [apply setErr_sound|]. intros _. by apply deliver_good.
    + apply acceptHeaders_sound; try done. pose proof (good_status _ _ _ Hs1 Ess). lia.
Qed.

Lemma onData_sound id data fin s :
  (s.(rerr) = None -> s.(noBody) = false) -> sound base input s -> sound base input (onData client hooks id data fin s).
Proof.
  intros Hnb. unfold onData. by_error He. specialize (Hnb eq_refl). destruct (negb (id =? 1) || negb (finalHeaders s) || complete s) eqn:Eg; [apply setErr_sound|].
  apply orb_false_elim in Eg as [[_ Hf%negb_false_iff]%orb_false_elim Hc].
  destruct Hs as [H1 H2 H3 H4 H5 H6 H7 H10 H11 H12 H8 H9]. pose proof limit_typed as HL. rewrite u64_small by lia.
  pose proof (u64_range (len data)) as Hlen.
  destruct (Z.ltb_spec (responseBodyLimit client - respBodyBytes (rresponse s)) (u64 (len data))) as [|Hle]; [apply setErr_sound|].
  intros _. rewrite (u64_small (respBodyBytes (rresponse s) + u64 (len data))) by lia. set (r := mkResponse _ _ _ _ _).
  set (s1 := s <| rresponse := r |> <| dataInFrame := _ |>). rewrite deliver_eq. rewrite Hc in H7. cbn [andb] in H7.
  destruct (hooked hookBody) eqn:Ek; split; cbn; rewrite ?Hf, ?Hc, ?Ek, ?Hnb in *; try done; try lia.
  intros _. rewrite bodyTold_cons, len_app. specialize (H6 eq_refl). rewrite <- H6 in *.
  rewrite <- (u64_small (u64 (len (bodyTold (delivered s))) + u64 (len data))) by lia.
  by rewrite u64_add_l, (Z.add_comm _ (u64 (len data))), u64_add_l, Z.add_comm.
Qed.

(** A write on the connection keeps the rest. *)
Lemma storeWrite_sound res s :
  s.(rerr) = None -> good base input s ->
  (forall w, res = Some (w, None) -> replied base w /\ pending w = pending s.(rstream)) -> sound base input (storeWrite res s).
Proof.
  intros He Hs Hw. unfold storeWrite. destruct res as [[w [e|]]|]; [done | | by intros _]. intros _.
  destruct (Hw w eq_refl) as [Hr Hp]. destruct Hs as [H1 H2 H3 H4 H5 H6 H7 H10 H11 H12 H8 H9]. split; cbn; try done. by rewrite Hp.
Qed.

Lemma control_typed t fl id : in_u8 t -> in_u8 fl -> 0 <= id <= 1 -> header_typed (mkFrameHeader 0 t fl id).
Proof. intros. unfold header_typed, in_u32, in_u8 in *. cbn. widths. lia. Qed.

Lemma windowUpdate_sound id n s :
  s.(rerr) = None -> good base input s -> id = 0 \/ id = 1 -> 0 < n <= maxFrameSize ->
  sound base input (storeWrite (writeWindowUpdate s.(rstream) id n) s).
Proof.
  intros He Hs Hid Hn. apply storeWrite_sound; [done | done|]. intros w E.
  assert (Z.land n streamMask = n) as Hland.
  { change streamMask with (Z.ones 31). rewrite Z.land_ones by lia. apply Z.mod_small. rewrite maxFrameSize_eq in Hn. lia. }
  unfold writeWindowUpdate in E. rewrite Hland in E.
  apply writeFrame_replied with (base := base) in E; [done | | done | | done | | | apply Hs].
  - apply control_typed; [by vm_compute | by vm_compute | lia].
  - by destruct Hid as [-> | ->].
  - cbn. destruct Hid as [-> | ->]; by vm_compute.
  - right. right. exists id, n. by split; [|split].
Qed.

(** Inside a DATA frame: the frame is on the response's stream, after its
    headers, and a body is allowed. *)
Definition in_frame (h : FrameHeader) s : Prop :=
  sound base input s /\
  (s.(rerr) = None -> h.(Type_) = FrameData -> h.(StreamID) = 1 /\ s.(finalHeaders) = true /\ s.(noBody) = false).

Lemma onFrameBegin_frame h s : sound base input s -> in_frame h (onFrameBegin h s).
Proof.
  intros Hs. split; [by apply onFrameBegin_sound|]. unfold onFrameBegin. intros He Ht. destruct (rerr s) eqn:Hn; [congruence|].
  rewrite Ht in He |- *. change (FrameData =? FrameHeaders) with false in *. change (FrameData =? FrameData) with true in *. cbn [andb] in *.
  set (s1 := if firstFrame s then _ else s) in *. destruct (firstFrame s && _); [done|]. cbv iota in *.
  destruct (Z.eqb_spec (StreamID h) 1) as [Hid|]; [|done]. cbn [negb orb] in *.
  destruct (finalHeaders (s1 <| dataInFrame := 0 |>)) eqn:Ef; [|done]. destruct (complete _); [done|]. cbn [negb orb] in *.
  destruct (noBody (s1 <| dataInFrame := 0 |>)) eqn:Enb; [done|]. done.
Qed.

Lemma replenish_sound n s :
  s.(rerr) = None -> good base input s -> 0 <= n <= maxFrameSize ->
  sound base input (replenish n s) /\ (replenish n s).(finalHeaders) = s.(finalHeaders).
Proof.
  intros He Hs Hn. unfold replenish. destruct (Z.eqb_spec n 0); [by split; [intros _|]|]. cbv zeta.
  pose proof (windowUpdate_sound 0 n s He Hs ltac:(by left) ltac:(lia)) as H0.
  assert (forall r q, finalHeaders (storeWrite r q) = finalHeaders q) as Hf by (intros [[w e]|] q; done).
  set (s1 := storeWrite (writeWindowUpdate (rstream s) 0 n) s) in *. destruct (rerr s1) eqn:E1; [by split; [|apply Hf]|].
  split; [apply windowUpdate_sound; [done | by apply H0 | by right | lia]|]. rewrite Hf. apply Hf.
Qed.

Lemma onFrameComplete_sound h s :
  0 <= h.(Length) <= maxFrameSize -> in_frame h s -> sound base input (onFrameComplete hooks h s).
Proof.
  intros HL [Hs Hd]. unfold onFrameComplete. destruct (rerr s) eqn:He; [done|]. specialize (Hs He).
  destruct ((Type_ h =? FrameData) && _) eqn:Eg; [|by intros _].
  apply andb_prop in Eg as [Ht%Z.eqb_eq _]. destruct (Hd eq_refl Ht) as (_ & Hf & _).
  destruct (replenish_sound (Length h) s He Hs HL) as [H1 H2]. cbv zeta. destruct (rerr (replenish (Length h) s)) eqn:E1; [done|].
  destruct (Has _ _); [|done]. apply finishResponse_sound; [by rewrite H2 | done].
Qed.

Lemma onSettingsEnd_sound ack s : sound base input s -> sound base input (onSettingsEnd ack s).
Proof.
  unfold onSettingsEnd. by_error He. destruct ack; [by intros _|]. apply storeWrite_sound; [done | done|]. intros w E.
  apply writeFrame_replied with (base := base) in E; [done | by vm_compute | done | done | done | done | by left | apply Hs].
Qed.

Lemma onPing_sound data ack s : length data = 8%nat -> sound base input s -> sound base input (onPing data ack s).
Proof.
  intros Hl. unfold onPing. by_error He. destruct ack; [by intros _|]. apply storeWrite_sound; [done | done|]. intros w E.
  assert (len data = 8) as Hlen by (unfold len; lia).
  apply writeFrame_replied with (base := base) in E; [done | by vm_compute | done | | | done | | apply Hs].
  - unfold sized. by rewrite Hlen.
  - rewrite Hlen. by vm_compute.
  - right. left. unfold sized. cbn. by rewrite Hlen.
Qed.

(** ** The host of the frame parser *)

(** What only the end of a header block changes. *)
Definition kept_view s := (s.(finalHeaders), s.(noBody)).

Lemma deliver_view F d s : kept_view (deliver hooks F d s) = kept_view s.
Proof. rewrite deliver_eq. by destruct (hooked F). Qed.

Lemma onHeader_view f s : kept_view (onHeader hooks f s) = kept_view s.
Proof.
  unfold onHeader. cbv zeta. destruct (rerr s); [done|]. destruct (_ || _); [done|]. destruct (_ && _).
  - destruct (_ || _ || _ || _); [done|]. destruct (parseStatus _) as [v []]; [|done]. cbn [negb]. by rewrite deliver_view.
  - destruct (forbiddenResponseHeader _); [done|]. destruct (bytes_eqb _ _); [|by rewrite deliver_view].
    destruct (parseContentLength _) as [v ok]. destruct (_ || _); [done|]. by rewrite deliver_view.
Qed.

Lemma onHeaders_view fs s : kept_view (fold_left (fun s f => onHeader hooks f s) fs s) = kept_view s.
Proof. revert s. induction fs as [|f fs IH]; intros s; [done|]. cbn. by rewrite IH, onHeader_view. Qed.

Lemma onHeaderBlock_view id fragment s : kept_view (onHeaderBlock hooks id fragment s) = kept_view s.
Proof.
  unfold onHeaderBlock. destruct (rerr s); [done|]. destruct (_ || _); [done|].
  destruct (DWrite (rdecoder s) fragment) as [[d fs] [n err]]. cbv zeta. pose proof (onHeaders_view fs (s <| rdecoder := d |>)) as H.
  destruct err; [exact H|]. destruct (negb _); exact H.
Qed.

Lemma onData_view id data fin s : kept_view (onData client hooks id data fin s) = kept_view s.
Proof.
  unfold onData. destruct (rerr s); [done|]. destruct (_ || _ || _); [done|]. destruct (_ <? _); [done|]. cbv zeta. by rewrite deliver_view.
Qed.

Lemma storeWrite_view res s : kept_view (storeWrite res s) = kept_view s.
Proof. by destruct res as [[w e]|]. Qed.

(** A callback that keeps the invariant and the view, and no error goes away. *)
Lemma in_frame_keeps (f : responseState -> responseState) h s :
  in_frame h s -> (sound base input s -> sound base input (f s)) -> kept_view (f s) = kept_view s ->
  (s.(rerr) <> None -> f s = s) -> in_frame h (f s).
Proof.
  intros [Hs Hd] H1 H2 H3. split; [by apply H1|]. intros He Ht. destruct (rerr s) as [e|] eqn:E.
  - rewrite (H3 ltac:(done)) in He. congruence.
  - destruct (Hd eq_refl Ht) as (? & ? & ?). unfold kept_view in H2. injection H2 as -> ->. done.
Qed.

#[export] Instance response_payload h : header_fine h -> PayloadInvariant (parserCallbacks client hooks) h (in_frame h).
Proof.
  intros Hh. constructor; intros f; intros; try done; match goal with H : _ = Some f |- _ => injection H as <- end; cbn [fst quietly].
  - apply (in_frame_keeps (onData client hooks id s fin)); [done | | apply onData_view | unfold onData; by destruct (rerr st)].
    apply onData_sound. intros He. match goal with H : in_frame h st, Ht : Type_ h = FrameData |- _ => by destruct (proj2 H He Ht) as (_ & _ & ?) end.
  - apply (in_frame_keeps (onHeaderBlock hooks id s)); [done | apply onHeaderBlock_sound | apply onHeaderBlock_view
      | unfold onHeaderBlock; by destruct (rerr st)].
  - match goal with H : in_frame h st |- _ => destruct H as [Hs _] end. split; [by apply onHeaderBlockEnd_sound|].
    intros _ Ht. by rewrite Ht in *.
  - apply (in_frame_keeps (onRSTStream id e)); [done | | | by unfold onRSTStream; destruct (rerr st)];
      unfold onRSTStream; destruct (rerr st); try done; by destruct (id =? 1).
  - apply (in_frame_keeps (onSettingsEnd ack)); [done | apply onSettingsEnd_sound | | unfold onSettingsEnd; by destruct (rerr st)].
    unfold onSettingsEnd. destruct (rerr st); [done|]. destruct ack; [done | apply storeWrite_view].
  - apply (in_frame_keeps (onPushPromise id promised)); [done | | | by unfold onPushPromise; destruct (rerr st)];
      unfold onPushPromise; by destruct (rerr st).
  - apply (in_frame_keeps (onPing data ack)); [done | by apply onPing_sound | | unfold onPing; by destruct (rerr st)].
    unfold onPing. destruct (rerr st); [done|]. destruct ack; [done | apply storeWrite_view].
  - apply (in_frame_keeps (onGoAway last e)); [done | | | by unfold onGoAway; destruct (rerr st)];
      unfold onGoAway; destruct (rerr st); try done; by destruct (_ || _).
Qed.

#[export] Instance response_host : FrameInvariant (parserCallbacks client hooks) (sound base input) in_frame.
Proof.
  split; cbn [cbFrameBegin cbFrameComplete parserCallbacks quietly fst].
  - intros h s _ Hs. by apply onFrameBegin_frame.
  - intros h Hh. by apply response_payload.
  - intros h s (_ & HL & _) Hs. by apply onFrameComplete_sound.
Qed.
End Invariant.
