(* ===== verification/H2Exchange.v ===== *)
(** * HTTP/2 requests: the exchange

    The loops of [DoBuffer] of [H2Response] return and keep the invariant of
    [H2ResponseInv]: every call of [ParseOne] that goes on consumes a byte, and so
    does every read. *)

From S2P Require Import Prelude Transport H2Frame H2FrameWf H2FrameSpec H2FrameHost H2Hpack H2Request H2Response H2ResponseInv.

Section Exchange.
Context `{ST : Stream} `{HP : Hpack} `{WR : !Writer} `{RD : !Reader} `{DX : !Duplex}.
Context (client : Client) (hooks : option Hooks) (head : bool) (base : list Z).
Context (Hlimit : 0 <= client.(MaxResponseBodyBytes) <= MaxUint64).
Implicit Types s : responseState.

Abbreviation sound := (sound client hooks head base).
Abbreviation in_frame := (in_frame client hooks head base).
Abbreviation good := (good client hooks head base).

(** The parser and the state between two calls, with nothing wrong. *)
Definition reading (input : list Z) (p : Parser) s : Prop :=
  frame_wf p /\ host_fine p /\ p.(parsing) = false /\ p.(code) = CodeNone /\ host_at (sound input) (in_frame input) p s /\ s.(rerr) = None.

Lemma reading_good input p s : reading input p s -> good input s.
Proof.
  intros (_ & _ & _ & Hc & Hat & He). unfold host_at in Hat. rewrite Hc in Hat. cbn [is_none] in Hat.
  destruct (_ <? 9); [by apply Hat | by apply (proj1 Hat)].
Qed.

(** [takes p s pre s']: called in turn on reads of the transport that hold the
    bytes [pre], the parser takes all of them and no more; the response is
    complete in [s'], after the last of the calls, and not before. *)
Inductive takes : Parser -> responseState -> list Z -> responseState -> Prop :=
  | takes_last p s x rest o boundary :
      s.(complete) = false ->
      ParseOne (Some (parserCallbacks client hooks)) p s (x ++ rest) = Some (o, boundary) -> o.(outRest) = rest ->
      o.(outCode) = CodeNone -> o.(outHost).(rerr) = None -> o.(outHost).(complete) = true -> takes p s x o.(outHost)
  | takes_on p s x rest o boundary y s' :
      s.(complete) = false ->
      ParseOne (Some (parserCallbacks client hooks)) p s (x ++ rest) = Some (o, boundary) -> o.(outRest) = rest -> x <> [] ->
      o.(outCode) = CodeNone -> o.(outHost).(rerr) = None -> takes o.(outParser) o.(outHost) y s' -> takes p s (x ++ y) s'
  | takes_read p s buffer w filled r y s' :
      SRead s.(rstream) buffer = ((w, filled), r) -> takes p (s <| rstream := w |>) y s' -> takes p s y s'.

(** A response with the state it was completed in, the bytes behind it apart. *)
Definition answered (input : list Z) s (resp : Response) (s0 : responseState) : Prop :=
  good input s0 /\ s0.(complete) = true /\ resp = withBuffered s0.(rresponse) resp.(respBuffered) /\
  s.(delivered) = s0.(delivered) /\ s.(rstream) = s0.(rstream).

Lemma ParseOne_reading input p s src :
  reading input p s -> bytes src -> src <> [] ->
  exists o boundary, ParseOne (Some (parserCallbacks client hooks)) p s src = Some (o, boundary) /\
    (exists pre, src = pre ++ o.(outRest)) /\
    (o.(outCode) = CodeNone -> (length o.(outRest) < length src)%nat /\
       (o.(outHost).(rerr) = None -> reading input o.(outParser) o.(outHost))).
Proof.
  intros (Hw & Hh & Hp & Hc & Hat & He) Hb Hne. pose proof (response_host client hooks head base input Hlimit) as FI.
  destruct (frame_runParse_ok (Some (parserCallbacks client hooks)) p s src true Hw Hp Hb) as (o & Ho & Hwo & Hpo & _ & Hsuf & Hres & _).
  unfold ParseOne. rewrite Ho. exists o, (paused (outParser o)). split; [done|]. split; [done|]. intros Hcode.
  pose proof (runParse_progress _ p s src true o Hw Hp Hb Hne Ho Hcode) as Hprog. split; [unfold len in Hprog; lia|]. intros Hnone.
  apply (runParse_at _ (sound input) (in_frame input)) in Ho as (Hat' & Hh' & _); [|done..].
  assert (code (outParser o) = CodeNone) as Hco by (by destruct Hres as [(_ & ? & _)|[? _]]).
  repeat (apply conj; [done|]). done.
Qed.

Lemma frameMessages_ok fuel input p s src :
  reading input p s -> s.(complete) = false -> bytes src -> (length src <= fuel)%nat ->
  exists res, frameMessages client hooks fuel p s src = Some res /\
    match res with
    | inl (q, s') => reading input q s' /\ s'.(complete) = false /\ forall y z, takes q s' y z -> takes p s (src ++ y) z
    | inr (s', inl resp) => exists pre s0, answered input s' resp s0 /\ src = pre ++ resp.(respBuffered) /\ takes p s pre s0
    | inr (_, inr _) => True
    end.
Proof.
  revert p s src. induction fuel as [|fuel IH]; intros p s [|b src] Hr Hcomp Hb Hf; cbn [frameMessages length] in *; try lia;
    try (by exists (inl (p, s))).
  destruct (ParseOne_reading input p s (b :: src) Hr Hb ltac:(done)) as (o & boundary & Eo & [pre Hpre] & Hok). rewrite Eo.
  destruct (frame_is_none_spec (outCode o)) as [Hc|Hc]; cbn [negb]; [|by eexists].
  destruct (Hok Hc) as [Hlt Hread]. cbn [length] in Hlt. rewrite Hpre in Eo.
  destruct (rerr (outHost o)) as [e|] eqn:He; [by eexists|]. specialize (Hread eq_refl).
  destruct (complete (outHost o)) eqn:Ecomp.
  { eexists. split; [done|]. exists pre, (outHost o). split; [|split; [done | by eapply takes_last]].
    split; [by eapply reading_good|]. by split_and!. }
  assert ((len (outRest o) =? len (b :: src)) = false) as -> by (apply Z.eqb_neq; unfold len; cbn [length]; lia). cbn [andb].
  assert (forall y z, takes (outParser o) (outHost o) y z -> takes p s (pre ++ y) z) as Hon.
  { intros y z Hy. eapply takes_on; [done | exact Eo | done | | done | done | exact Hy].
    intros ->. cbn in Hpre. rewrite <- Hpre in Hlt. cbn in Hlt. lia. }
  destruct (IH (outParser o) (outHost o) (outRest o) Hread Ecomp) as (res & -> & Hres).
  { rewrite Hpre in Hb. by apply Forall_app in Hb as [_ ?]. }
  { lia. }
  exists res. split; [done|]. destruct res as [[q s']|[s' [resp|e]]]; [| | done].
  - destruct Hres as (? & ? & Ht). split_and!; [done..|]. intros y z Hy. rewrite Hpre, <- app_assoc. by apply Hon, Ht.
  - destruct Hres as (pre' & s0 & Ha & Hpre' & Ht). exists (pre ++ pre'), s0. split; [done|].
    split; [by rewrite Hpre, Hpre', app_assoc | by apply Hon].
Qed.

(** ** Reads *)

(** A read moves bytes from the peer to the buffer and nothing else. *)
Lemma good_read input s buffer w filled r :
  good input s -> SRead s.(rstream) buffer = ((w, filled), r) -> good (pending w) (s <| rstream := w |>).
Proof.
  intros [H1 H2 H3 H4 H5 H6 H7 H8 H9 H10 [frames [Hs Hf]] H12] E. split; cbn; try done.
  exists frames. by rewrite (read_keeps _ _ _ _ _ E).
Qed.

Lemma reading_read input p s buffer w filled r :
  reading input p s -> SRead s.(rstream) buffer = ((w, filled), r) -> reading (pending w) p (s <| rstream := w |>).
Proof.
  intros (Hw & Hh & Hp & Hc & Hat & He) E. repeat (apply conj; [done|]). split; [|done]. unfold host_at in *. rewrite Hc in *.
  cbn [is_none] in *. destruct (_ <? 9).
  - intros _. eapply good_read; [by apply Hat | done].
  - destruct Hat as [H1 H2]. split; [intros _; eapply good_read; [by apply H1 | done] | exact H2].
Qed.

(** How an exchange ends that starts in [s0] and was left the bytes [input]. *)
Definition exchanged (p : Parser) (s0 : responseState) (input : list Z) s (res : Response + ClientError) : Prop :=
  match res with
  | inl resp => exists pre s1, input = pre ++ resp.(respBuffered) ++ pending s.(rstream) /\
      answered (pending s.(rstream)) s resp s1 /\ takes p s0 pre s1
  | inr _ => True
  end.

Lemma client_readLoop_ok fuel buffer p s :
  reading (pending s.(rstream)) p s -> s.(complete) = false -> bytes (pending s.(rstream)) ->
  (length (pending s.(rstream)) < fuel)%nat ->
  exists s' res, readLoop client hooks fuel buffer p s = Some (s', res) /\ exchanged p s (pending s.(rstream)) s' res.
Proof.
  revert buffer p s. induction fuel as [|fuel IH]; intros buffer p s Hr Hcomp Hb Hf; [lia|]. cbn [readLoop].
  destruct (SRead (rstream s) buffer) as [[w filled] [n err]] eqn:E. destruct (read_law _ _ _ _ _ _ E) as (Hn & Hlen & Hpend).
  rewrite (proj2 (Z.ltb_ge n 0)), (proj2 (Z.ltb_ge _ n)) by lia. cbn [orb].
  set (got := take (Z.to_nat n) filled) in *. set (s1 := s <| rstream := w |>).
  assert (length got = Z.to_nat n) as Hgot by (unfold got; rewrite length_take; unfold len in *; lia).
  rewrite Hpend in Hb. apply Forall_app in Hb as [Hb1 Hb2].
  pose proof (reading_read _ _ _ _ _ _ _ Hr E) as Hr1.
  destruct (frameMessages_ok (Z.to_nat n) (pending w) p s1 got Hr1 Hcomp Hb1 ltac:(lia)) as (res & Em & Hres).
  cbv zeta. fold s1. rewrite Em. destruct res as [[q s2]|[s2 [resp|e]]].
  - destruct Hres as (Hr2 & Hc2 & Hon). destruct err as [e|].
    + do 2 eexists. split; [done|]. destruct (is_EOF e); [|done]. unfold finishExchange. destruct (Finish q) as [? c].
      destruct (negb _); [done|]. by rewrite Hc2.
    + destruct (Z.eqb_spec n 0) as [->|Hne]; [by do 2 eexists|].
      pose proof (reading_good _ _ _ Hr2) as Hg2. pose proof (good_pending _ _ _ _ _ _ Hg2) as Hp2.
      assert (length (pending (rstream s)) = length got + length (pending w))%nat as Hl by (by rewrite Hpend, length_app).
      destruct (IH filled q s2) as (s3 & res & -> & Hx); [by rewrite Hp2 | done | by rewrite Hp2 | rewrite Hp2; lia|].
      exists s3, res. split; [done|]. destruct res as [resp|e]; [|done]. destruct Hx as (pre & s0 & Hx & Ha & Ht).
      exists (got ++ pre), s0. split; [by rewrite Hpend, <- Hp2, Hx, app_assoc|]. split; [done|]. eapply takes_read; [exact E | by apply Hon].
  - destruct Hres as (pre & s0 & Ha & Hpre & Ht). do 2 eexists. split; [done|]. pose proof Ha as (Hg & _ & _ & _ & Es).
    pose proof (good_pending _ _ _ _ _ _ Hg) as Hp0. rewrite <- Es in Hp0. exists pre, s0. rewrite Hp0. split; [|split; [done|]].
    + by rewrite Hpend, Hpre, <- app_assoc.
    + by eapply takes_read.
  - by do 2 eexists.
Qed.
End Exchange.
