(* ===== verification/H2RequestWire.v ===== *)
(** * HTTP/2 requests: the bytes of a request

    [Append] writes the preface, one SETTINGS frame, the header block cut at
    16384 bytes and the body in DATA frames; the reference decoder of
    [H2FrameSpec] reads back the settings, the block and the body. *)

From S2P Require Import Prelude Transport H2Frame H2FrameWf H2FrameSpec H2BlockSpec H2Hpack H2Request.

Definition chunkBytes : Z := 16384.

(** ** Frames of the body *)

Fixpoint dataFrames (chunks : list (list Z)) : list (FrameHeader * list Z) :=
  match chunks with
  | [] => []
  | c :: rest =>
      (mkFrameHeader (len c) FrameData (match rest with [] => FlagEndStream | _ => 0 end) 1, c) :: dataFrames rest
  end.

Definition settingsOf (c : Client) : list Setting :=
  [mkSetting SettingEnablePush 0;
   mkSetting SettingHeaderTableSize (headerDynamicTableLimit c.(ClientHeaderLimits));
   mkSetting SettingMaxHeaderListSize (headerListLimit c.(ClientHeaderLimits))].

Definition settingsFrame (c : Client) : FrameHeader * list Z :=
  (mkFrameHeader 18 FrameSettings 0 0, concat (map encodeSetting (settingsOf c))).

(** A piece of a block or a body. *)
Definition piece (c : list Z) : Prop := 0 < len c <= chunkBytes.

Section Wire.
Context `{ST : Stream} `{HP : Hpack}.

Lemma append_frame dst t fl payload :
  in_u8 t -> in_u8 fl -> len payload <= chunkBytes -> validateFrameHeader (mkFrameHeader (len payload) t fl 1) = CodeNone ->
  AppendFrame dst (mkFrameHeader 0 t fl 1) payload = (dst ++ wire (mkFrameHeader (len payload) t fl 1, payload), CodeNone).
Proof.
  intros Ht Hf Hl Hv. rewrite AppendFrame_eq.
  2: { unfold header_typed, in_u32, in_u8 in *. cbn. widths. lia. }
  assert (appendable (mkFrameHeader 0 t fl 1) payload = true) as ->.
  { unfold appendable. cbn [Length StreamID]. change (0 =? 0) with true. change (1 <=? streamMask) with true. cbn [orb].
    rewrite !andb_true_r. apply Z.leb_le. unfold chunkBytes in Hl. rewrite maxFrameSize_eq. lia. }
  change (sized (mkFrameHeader 0 t fl 1) payload) with (mkFrameHeader (len payload) t fl 1). by rewrite Hv.
Qed.

Lemma data_header_valid n fl : 0 <= n -> Has fl FlagPadded = false -> validateFrameHeader (mkFrameHeader n FrameData fl 1) = CodeNone.
Proof. intros Hn Hp. unfold validateFrameHeader. cbn. rewrite Hp. cbn. by destruct (n <? 0). Qed.

(** Where the loops cut. *)
Lemma cut_spec (data : list Z) :
  let count := if Z.shiftl 16 10 <? len data then Z.shiftl 16 10 else len data in
  let c := take (Z.to_nat count) data in let rest := drop (Z.to_nat count) data in
  c ++ rest = data /\ len c = count /\ len c <= chunkBytes /\ (data <> [] -> piece c) /\
  (count =? len data) = (match rest with [] => true | _ => false end) /\ (data <> [] -> (length rest < length data)%nat) /\
  (rest <> [] -> len c = chunkBytes).
Proof.
  cbv zeta. change (Z.shiftl 16 10) with chunkBytes. unfold chunkBytes, piece. pose proof (len_nonneg data) as H0.
  set (count := if 16384 <? len data then 16384 else len data).
  assert (count <= len data /\ 0 <= count <= 16384 /\ (count = len data \/ count = 16384 /\ count < len data)) as (Hc1 & Hc2 & Hc3)
    by (unfold count; destruct (Z.ltb_spec 16384 (len data)); lia).
  assert (len (take (Z.to_nat count) data) = count) as Hl by (unfold len in *; rewrite length_take; lia).
  assert (len (drop (Z.to_nat count) data) = len data - count) as Hr by (unfold len in *; rewrite length_drop; lia).
  assert (data <> [] -> 0 < len data) as Hpos by (destruct data; [done|]; intros _; rewrite len_cons; pose proof (len_nonneg data); lia).
  rewrite take_drop, Hl. split_and!; [done | done | lia | intros H%Hpos; unfold chunkBytes; lia | | |].
  - destruct (drop (Z.to_nat count) data) as [|b rest] eqn:E.
    + rewrite len_nil in Hr. apply Z.eqb_eq. lia.
    + rewrite len_cons in Hr. pose proof (len_nonneg rest). apply Z.eqb_neq. lia.
  - intros H%Hpos. unfold len in *. lia.
  - intros Hn. destruct Hc3 as [E|[? _]]; [|done]. destruct Hn. apply length_zero_iff_nil. unfold len in *. lia.
Qed.

(** The last piece is the one nothing is left behind. *)
Lemma last_piece {A} rest chunks (x y : A) :
  concat chunks = rest -> Forall piece chunks ->
  match chunks with [] => x | _ => y end = if match rest with [] => true | _ => false end then x else y.
Proof.
  intros <- Hp. destruct Hp as [|c chunks [Hc _] _]; [done|]. destruct c; [unfold len in Hc; cbn in Hc; lia | done].
Qed.

Lemma appendBody_frames fuel dst body :
  (length body <= fuel)%nat ->
  exists chunks, concat chunks = body /\ Forall piece chunks /\ (body <> [] -> chunks <> []) /\
    appendBody fuel dst body = Some (dst ++ wires (dataFrames chunks), None).
Proof.
  revert dst body. induction fuel as [|fuel IH]; intros dst body Hf; destruct body as [|b body]; cbn [length] in Hf; try lia;
    try (exists []; cbn; by rewrite app_nil_r).
  cbn [appendBody]. assert ((len (b :: body) =? 0) = false) as -> by (rewrite len_cons; pose proof (len_nonneg body); lia). cbn [negb].
  destruct (cut_spec (b :: body)) as (C1 & C2 & C3 & C4 & C5 & C6 & C7). cbv zeta in *.
  set (count := if Z.shiftl 16 10 <? len (b :: body) then _ else _) in *.
  set (c := take (Z.to_nat count) (b :: body)) in *. set (rest := drop (Z.to_nat count) (b :: body)) in *.
  specialize (C4 ltac:(done)). specialize (C6 ltac:(done)). cbn [length] in C6.
  rewrite append_frame; [| by vm_compute | by destruct (_ =? _) | done | apply data_header_valid; [apply len_nonneg | by destruct (_ =? _)]].
  cbn [is_none negb]. destruct (IH (dst ++ wire (mkFrameHeader (len c) FrameData (if count =? len (b :: body) then FlagEndStream else 0) 1, c)) rest)
    as (chunks & H1 & H2 & H3 & H4); [lia|].
  exists (c :: chunks). split; [cbn; by rewrite H1|]. split; [by constructor|]. split; [done|]. rewrite H4. do 2 f_equal.
  rewrite <- app_assoc. f_equal. unfold wires. cbn [dataFrames map concat]. do 4 f_equal. rewrite C5.
  by rewrite (last_piece rest chunks).
Qed.

(** ** Frames of the header block *)

(** The cuts are as few as there can be. *)
Lemma pieces_count (c rest block : list Z) chunks :
  c ++ rest = block -> block <> [] -> concat chunks = rest -> (rest <> [] -> len c = chunkBytes) -> chunkBytes * (len chunks - 1) < len rest ->
  chunkBytes * (len (c :: chunks) - 1) < len block.
Proof.
  intros <- Hne <- Hc Hlt. rewrite len_cons, len_app in *. pose proof (len_nonneg c) as H0. unfold chunkBytes in *.
  destruct (concat chunks) as [|b l] eqn:E.
  - rewrite len_nil in *. rewrite app_nil_r in Hne. destruct c as [|x c]; [done|]. rewrite len_cons in *. pose proof (len_nonneg c). lia.
  - rewrite Hc by done. lia.
Qed.

Lemma appendContinuations fuel dst nb block :
  (length block <= fuel)%nat ->
  exists chunks, concat chunks = block /\ Forall piece chunks /\ chunkBytes * (len chunks - 1) < len block /\
    appendHeaderBlock fuel dst false nb block = Some (dst ++ wires (contFrames 1 chunks), None).
Proof.
  revert dst block. induction fuel as [|fuel IH]; intros dst block Hf; destruct block as [|b block]; cbn [length] in Hf; try lia;
    try (exists []; cbn; by rewrite app_nil_r).
  cbn [appendHeaderBlock]. assert ((len (b :: block) =? 0) = false) as -> by (rewrite len_cons; pose proof (len_nonneg block); lia). cbn [negb orb andb].
  destruct (cut_spec (b :: block)) as (C1 & C2 & C3 & C4 & C5 & C6 & C7). cbv zeta in *.
  set (count := if Z.shiftl 16 10 <? len (b :: block) then _ else _) in *.
  set (c := take (Z.to_nat count) (b :: block)) in *. set (rest := drop (Z.to_nat count) (b :: block)) in *.
  specialize (C4 ltac:(done)). specialize (C6 ltac:(done)). cbn [length] in C6.
  rewrite append_frame; [| by vm_compute | by destruct (_ =? _) | done | by apply cont_header_valid].
  cbn [is_none negb]. destruct (IH (dst ++ wire (mkFrameHeader (len c) FrameContinuation (if count =? len (b :: block) then FlagEndHeaders else 0) 1, c)) rest)
    as (chunks & H1 & H2 & H3 & H4); [lia|].
  exists (c :: chunks). split; [cbn; by rewrite H1|]. split; [by constructor|].
  split; [by apply (pieces_count c rest)|]. rewrite H4. do 2 f_equal.
  rewrite <- app_assoc. f_equal. unfold wires. cbn [contFrames map concat]. do 4 f_equal. rewrite C5.
  by rewrite (last_piece rest chunks).
Qed.

Lemma first_count (c rest block : list Z) chunks :
  c ++ rest = block -> concat chunks = rest -> Forall piece chunks -> (rest <> [] -> len c = chunkBytes) ->
  chunkBytes * (len chunks - 1) < len rest -> chunkBytes * len chunks <= len block.
Proof.
  intros <- <- Hp Hc Hlt. rewrite len_app. pose proof (len_nonneg c) as H0. pose proof (len_nonneg (concat chunks)) as H1. unfold chunkBytes in *.
  destruct Hp as [|x l [Hx _] _]; [change (len (@nil (list Z))) with 0; lia|]. rewrite Hc; [lia|]. by destruct x.
Qed.

Lemma appendHeaderBlock_frames dst nb block :
  exists c chunks, c ++ concat chunks = block /\ len c <= chunkBytes /\ Forall piece chunks /\ chunkBytes * len chunks <= len block /\
    appendHeaderBlock (S (length block)) dst true nb block = Some (dst ++ wires (blockFrames FrameHeaders 1 [] nb (c :: chunks)), None).
Proof.
  cbn [appendHeaderBlock orb]. destruct (cut_spec block) as (C1 & C2 & C3 & C4 & C5 & C6 & C7). cbv zeta in *.
  set (count := if Z.shiftl 16 10 <? len block then _ else _) in *.
  set (c := take (Z.to_nat count) block) in *. set (rest := drop (Z.to_nat count) block) in *. cbn [andb].
  set (fl := if nb then Z.lor (if count =? len block then FlagEndHeaders else 0) FlagEndStream else if count =? len block then FlagEndHeaders else 0).
  rewrite append_frame; [| by vm_compute | unfold fl; by destruct nb, (_ =? _) | done
    | apply headers_header_valid; [done | apply len_nonneg | unfold fl; by destruct nb, (_ =? _)..]].
  cbn [is_none negb]. destruct (appendContinuations (length block) (dst ++ wire (mkFrameHeader (len c) FrameHeaders fl 1, c)) nb rest)
    as (chunks & H1 & H2 & H3 & H4).
  { destruct block as [|b block]; [|specialize (C6 ltac:(done)); lia]. unfold rest. by rewrite drop_nil. }
  exists c, chunks. split; [by rewrite H1|]. split; [done|]. split; [done|]. split; [by apply (first_count c rest)|]. rewrite H4. do 2 f_equal.
  rewrite <- app_assoc. f_equal. unfold wires. cbn [blockFrames map concat app]. do 4 f_equal. unfold fl. rewrite C5.
  change (FrameHeaders =? FrameHeaders) with true. rewrite andb_true_r. by rewrite (last_piece rest chunks).
Qed.

(** ** The whole request *)

Definition requestFrames (c : Client) (noBody : bool) (blockChunks bodyChunks : list (list Z)) : list (FrameHeader * list Z) :=
  settingsFrame c :: blockFrames FrameHeaders 1 [] noBody blockChunks ++ dataFrames bodyChunks.

Lemma Append_frames c dst r :
  Validate c r = None ->
  exists c0 chunks body, c0 ++ concat chunks = encodeBlock NewEncoder (requestFields r) /\ len c0 <= chunkBytes /\ Forall piece chunks /\
    chunkBytes * len chunks <= len (encodeBlock NewEncoder (requestFields r)) /\
    concat body = r.(reqBody) /\ Forall piece body /\
    Append c dst r = Some (dst ++ ClientPreface ++ wires (requestFrames c (len r.(reqBody) =? 0) (c0 :: chunks) body), None).
Proof.
  intros HV. unfold Append. rewrite HV. cbv zeta.
  assert (AppendFrame (dst ++ ClientPreface) (mkFrameHeader 0 FrameSettings 0 0) (initialSettings c) =
    ((dst ++ ClientPreface) ++ wire (settingsFrame c), CodeNone)) as ->.
  { rewrite AppendFrame_eq by (by vm_compute). done. }
  cbn [is_none negb].
  destruct (appendHeaderBlock_frames ((dst ++ ClientPreface) ++ wire (settingsFrame c)) (len (reqBody r) =? 0) (encodeBlock NewEncoder (requestFields r)))
    as (c0 & chunks & H1 & H2 & H3 & H4 & ->).
  match goal with |- context [appendBody _ ?d _] =>
    destruct (appendBody_frames (length (reqBody r)) d (reqBody r) ltac:(lia)) as (body & B1 & B2 & _ & ->) end.
  exists c0, chunks, body. split_and!; [done..|]. do 2 f_equal. unfold requestFrames.
  change (settingsFrame c :: ?x) with ([settingsFrame c] ++ x). rewrite !wires_app. unfold wires at 3. cbn [map concat].
  by rewrite app_nil_r, <- !app_assoc.
Qed.
End Wire.

(** ** Reading it back *)

(** The bytes of DATA frames a host is told, and their end marks. *)
Definition dataTold (evs : list FrameEvent) : list Z :=
  concat (map (fun e => match e with EvData _ s _ => s | _ => [] end) evs).

Definition dataEnds (evs : list FrameEvent) : list bool :=
  concat (map (fun e => match e with EvData _ _ fin => [fin] | _ => [] end) evs).

Lemma specFrames_app l s x y s1 e1 :
  specFrames l s x = (Some s1, e1, CodeNone) ->
  specFrames l s (x ++ y) = (let '(s2, e2, c) := specFrames l s1 y in (s2, e1 ++ e2, c)).
Proof.
  revert s s1 e1. induction x as [|f x IH]; intros s s1 e1; cbn [app specFrames].
  - intros [= -> <-]. by destruct (specFrames l s1 y) as [[s2 e2] c].
  - destruct (specFrame l s f.1 f.2) as [[[s'|] evs] c]; [|done]. destruct (specFrames l s' x) as [[s2 e2] c2] eqn:E. intros [= -> <- ->].
    rewrite (IH _ _ _ E). destruct (specFrames l s1 y) as [[s3 e3] c3]. by rewrite app_assoc.
Qed.

Lemma dataFrames_spec l chunks :
  Forall piece chunks -> chunkBytes <= l.(MaxFrameSize) ->
  exists evs, specFrames l noSequence (dataFrames chunks) = (Some noSequence, evs, CodeNone) /\ dataTold evs = concat chunks /\
    dataEnds evs = match chunks with [] => [] | _ :: rest => map (fun _ => false) rest ++ [true] end.
Proof.
  intros Hp Hl. induction Hp as [|c chunks [Hc1 Hc2] Hp IH]; [by eexists|]. cbn [dataFrames specFrames fst snd].
  set (fl := match chunks with [] => _ | _ => _ end). set (h := mkFrameHeader (len c) FrameData fl 1).
  assert (Has fl FlagPadded = false /\ Has fl FlagEndStream = match chunks with [] => true | _ => false end) as [F1 F2]
    by (unfold fl; by destruct chunks).
  assert (specBegin l noSequence h = inl noSequence) as Hb.
  { assert (validateFrameHeader h = CodeNone) as Hv by (apply data_header_valid; [lia | done]). unfold specBegin. rewrite Hv. cbn. by destruct (Z.ltb_spec (MaxFrameSize l) (len c)); [lia|]. }
  assert (specFrame l noSequence h c = (Some noSequence, [EvFrameBegin h; EvData 1 c (Has fl FlagEndStream); EvFrameComplete h], CodeNone)) as ->.
  { unfold specFrame. rewrite Hb. unfold decodeBody, unpad. cbn. rewrite F1. cbn. unfold told.
    destruct c; [unfold len in Hc1; cbn in Hc1; lia | done]. }
  destruct IH as (evs & -> & E1 & E2). eexists. split; [done|].
  unfold dataTold, dataEnds in *. cbn [app map concat]. rewrite E1, E2, F2. split; [done|]. by destruct chunks.
Qed.

Lemma settingsOf_ok c :
  0 <= c.(ClientHeaderLimits).(MaxDynamicTableBytes) <= MaxUint32 ->
  Forall setting_typed (settingsOf c) /\ Forall (fun x => validSetting x = true) (settingsOf c).
Proof.
  intros Hd. split; [|by repeat constructor].
  assert (in_u32 (headerDynamicTableLimit (ClientHeaderLimits c))) as H1.
  { unfold headerDynamicTableLimit. destruct (_ =? 0); [by vm_compute | done]. }
  assert (in_u32 (headerListLimit (ClientHeaderLimits c))) as H2.
  { unfold headerListLimit. destruct (_ =? 0); [by vm_compute|]. destruct (_ <? _); [by vm_compute | apply u32_range]. }
  apply Forall_cons_2; [by vm_compute|]. apply Forall_cons_2; [split; [by vm_compute | exact H1]|].
  apply Forall_cons_2; [split; [by vm_compute | exact H2]|]. constructor.
Qed.

Lemma contFrames_count id chunks : len (contFrames id chunks) = len chunks.
Proof. induction chunks as [|x l IH]; [done|]. cbn [contFrames]. by rewrite !len_cons, IH. Qed.

(** A peer whose limits admit the frames reads the settings, the block and the
    body. *)
Lemma requestFrames_spec c l noBody c0 chunks body :
  0 <= c.(ClientHeaderLimits).(MaxDynamicTableBytes) <= MaxUint32 ->
  len c0 <= chunkBytes -> Forall piece chunks -> Forall piece body -> chunkBytes <= l.(MaxFrameSize) ->
  len chunks <= l.(MaxContinuationFrames) <= MaxUint32 -> len (c0 ++ concat chunks) <= l.(MaxHeaderBlockBytes) ->
  exists e1 e2 e3, specFrames l noSequence (requestFrames c noBody (c0 :: chunks) body) = (Some noSequence, e1 ++ e2 ++ e3, CodeNone) /\
    e1 = EvFrameBegin (settingsFrame c).1 :: map EvSetting (settingsOf c) ++ [EvSettingsEnd false; EvFrameComplete (settingsFrame c).1] /\
    headerBytes e2 = c0 ++ concat chunks /\ blockEnds e2 = [(1, noBody)] /\
    dataTold e3 = concat body /\ dataEnds e3 = match body with [] => [] | _ :: rest => map (fun _ => false) rest ++ [true] end.
Proof.
  intros Hd H0 Hc Hb Hl Hcount Hroom. destruct (settingsOf_ok c Hd) as [S1 S2].
  pose proof (settings_frame_spec l (settingsOf c) S1 S2 ltac:(unfold chunkBytes in Hl; change (len (settingsOf c)) with 3; lia)) as HS.
  cbv zeta in HS. rewrite settings_payload_len in HS. change (len (settingsOf c) * 6) with 18 in HS.
  destruct (blockFrames_spec l 1 noBody c0 chunks) as (e2 & E2 & F1 & F2); [lia | lia | | lia | lia | done|].
  { rewrite Forall_forall in Hc |- *. intros x Hx. destruct (Hc x Hx). lia. }
  destruct (dataFrames_spec l body Hb Hl) as (e3 & E3 & G1 & G2).
  unfold requestFrames. cbn [specFrames]. cbn [settingsFrame fst snd]. rewrite HS, (specFrames_app l noSequence _ _ _ _ E2), E3.
  do 3 eexists. split; [done|]. by split_and!.
Qed.
