(* ===== verification/H2RequestSection.v ===== *)
(** * HTTP/2 requests: the field section of a request

    The rules of [Client.Validate] imply those the session of the other side
    checks on what it decodes: the section of a validated request is one a
    server session accepts, except for the method CONNECT, which the client
    sends with [:scheme] and [:path]. *)

From S2P Require Import Prelude Transport H2Frame H2Hpack H2Headers H2HeadersSpec H2HeaderProps H2Request.

(** ** Values *)

(** Every byte is printable, blanks excluded. *)
Definition visible (v : list Z) : Prop := Forall (fun b => 32 < b /\ b <> 127) v.

Lemma forallb_visible f v : (forall b, f b = true -> 32 < b /\ b <> 127) -> forallb f v = true -> visible v.
Proof. intros Hf. rewrite forallb_forall. intros H. apply Forall_forall. intros b Hb. by apply Hf, H. Qed.

Lemma visible_at v i : visible v -> 0 <= i < len v -> 32 < str_at v i.
Proof.
  intros Hv Hi. unfold str_at. unfold visible in Hv. rewrite Forall_forall in Hv.
  apply (Hv (nth (Z.to_nat i) v (-1))), nth_In. unfold len in Hi. lia.
Qed.

Lemma visible_value v : visible v -> validSessionHeaderValue v = true.
Proof.
  intros Hv. unfold validSessionHeaderValue. destruct v as [|b v]; [done|]. set (l := b :: v) in *.
  assert (0 < len l) as Hl by (unfold l; rewrite len_cons; pose proof (len_nonneg v); lia).
  pose proof (visible_at l 0 Hv ltac:(lia)). pose proof (visible_at l (len l - 1) Hv ltac:(lia)).
  assert (forall x, 32 < x -> H2Headers.isBlank x = false) as Hb by (intros x Hx; unfold H2Headers.isBlank; lia).
  rewrite !Hb by done. apply forallb_forall. intros x Hx. unfold visible in Hv. rewrite Forall_forall in Hv. specialize (Hv x Hx). lia.
Qed.

Lemma validMethod_visible v : validMethod v = true -> v <> [] /\ visible v.
Proof.
  unfold validMethod. destruct v as [|b v]; [done|]. intros H. split; [done|]. eapply forallb_visible; [|exact H].
  intros x Hx. cbv beta in Hx. bool_to_prop. lia.
Qed.

Lemma validScheme_visible v : validScheme v = true -> v <> [] /\ visible v.
Proof.
  unfold validScheme. destruct v as [|b v]; [done|]. intros H. apply andb_prop in H as [Hb Hv]. split; [done|]. constructor.
  - unfold isAlpha, between in Hb. lia.
  - eapply forallb_visible; [|exact Hv]. intros x Hx. cbv beta in Hx. unfold isAlpha, between in Hx. lia.
Qed.

Lemma validPseudoValue_visible v : validPseudoValue v = true -> visible v.
Proof. apply forallb_visible. intros x Hx. cbv beta in Hx. bool_to_prop. lia. Qed.

Lemma digits_visible v : Forall is_digit v -> visible v.
Proof. apply Forall_impl. intros b Hb. unfold is_digit in Hb. lia. Qed.

(** ** Header fields *)

Definition fieldOf (h : Header) : HeaderField := mkHeaderField h.(hdrName) h.(hdrValue) h.(hdrSensitive).

(** A header field the client sends is a regular field, and not one of those
    the client writes itself. *)
Definition sendable (h : Header) : Prop := regular_ok (fieldOf h) /\ h.(hdrName) <> str "content-length".

Lemma sendable_header h :
  validLowerName h.(hdrName) = true -> validValue h.(hdrValue) = true -> str_at h.(hdrName) 0 <> ch ":" ->
  forbiddenRequestHeader h.(hdrName) h.(hdrValue) = false -> sendable h.
Proof.
  intros Hn Hv Hc Hf. unfold sendable, regular_ok, field_valid, is_pseudo. cbn [fieldOf Name FieldValue].
  unfold forbiddenRequestHeader in Hf. destruct (existsb _ _) eqn:E; [done|].
  split; [|intros Ex; rewrite Ex in E; vm_compute in E; done]. split; [split|split].
  - unfold validLowerName in Hn. unfold validSessionHeaderName. destruct (hdrName h) as [|b n]; [done|]. unfold str_at in Hc. cbn in Hc.
    destruct (Z.eqb_spec b (ch ":")); [done|]. exact Hn.
  - unfold validValue in Hv. unfold validSessionHeaderValue. destruct (hdrValue h) as [|b v]; [done|].
    assert ((len (b :: v) =? 0) = false) as E0 by (rewrite len_cons; pose proof (len_nonneg v); lia).
    rewrite E0 in Hv. cbn [negb andb] in Hv. exact Hv.
  - by apply Z.eqb_neq.
  - cbn [existsb] in E. repeat (apply orb_false_elim in E as [? E]). unfold isConnectionSpecific.
    by repeat match goal with H : bytes_eqb (hdrName h) _ = false |- _ => rewrite H; clear H end.
Qed.

Section Section_.
Context `{ST : Stream} `{HP : Hpack}.

Lemma validateHeaders_sendable maxField count size headers res :
  validateHeaders maxField count size headers = inl res -> Forall sendable headers.
Proof.
  revert count size. induction headers as [|h headers IH]; intros count size; [constructor|]. cbn [validateHeaders].
  destruct (negb (validLowerName _) || _ || _) eqn:E1; [done|]. destruct (forbiddenRequestHeader _ _) eqn:E2; [done|].
  destruct (_ || _) in |- *; [done|]. intros E.
  bool_to_prop. constructor; [by apply sendable_header | by eapply IH].
Qed.

(** What a request that passes has. *)
Lemma Validate_facts c r :
  Validate c r = None ->
  (r.(reqMethod) <> [] /\ visible r.(reqMethod)) /\ (r.(reqScheme) <> [] /\ visible r.(reqScheme)) /\
  (r.(reqAuthority) <> [] /\ visible r.(reqAuthority)) /\ (r.(reqPath) <> [] /\ visible r.(reqPath)) /\
  Forall sendable r.(reqHeaders) /\ len r.(reqBody) <= defaultMaxRequestBody.
Proof.
  assert (forall v, (len v =? 0) || negb (validPseudoValue v) = false -> v <> [] /\ visible v) as Hpv.
  { intros v H. bool_to_prop. split; [by intros -> | by apply validPseudoValue_visible]. }
  unfold Validate. destruct (_ || _); [done|]. destruct (validMethod _) eqn:E1; [|done]. destruct (validScheme _) eqn:E2; [|done].
  cbn [negb]. destruct (_ || _) eqn:E3; [done|]. destruct (_ || _) eqn:E4 in |- *; [done|].
  destruct (requestHeaderLimits _) as [[maxField maxList] maxHeaders]. destruct (_ || _) in |- *; [done|].
  destruct (validateHeaders _ _ _ _) as [[count size]|e] eqn:E5; [|done].
  destruct (if negb (len (reqBody r) =? 0) then _ else _) as [count' size']. destruct (_ || _) in |- *; [done|].
  destruct (Z.ltb_spec (requestBodyLimit c) (len (reqBody r))) as [|Hle]; [done|]. intros _.
  apply validateHeaders_sendable in E5. split_and!; try by apply Hpv. 
  - by apply validMethod_visible.
  - by apply validMethod_visible.
  - by apply validScheme_visible.
  - by apply validScheme_visible.
  - done.
  - unfold requestBodyLimit in Hle. clear -Hle. destruct (_ || _) eqn:E; [done|]. bool_to_prop. lia.
Qed.

(** ** The section *)

Definition pseudoFields (r : Request) : list HeaderField :=
  [mkHeaderField (str ":method") r.(reqMethod) false; mkHeaderField (str ":scheme") r.(reqScheme) false;
   mkHeaderField (str ":authority") r.(reqAuthority) false; mkHeaderField (str ":path") r.(reqPath) false].

Definition lengthField (r : Request) : list HeaderField :=
  if negb (len r.(reqBody) =? 0) then [mkHeaderField (str "content-length") (formatUint (len r.(reqBody))) false] else [].

Lemma requestFields_parts r : requestFields r = pseudoFields r ++ map fieldOf r.(reqHeaders) ++ lengthField r.
Proof. done. Qed.

Lemma body_length c r : Validate c r = None -> 0 <= len r.(reqBody) <= MaxUint64.
Proof.
  intros (_ & _ & _ & _ & _ & H)%Validate_facts. pose proof (len_nonneg (reqBody r)).
  unfold defaultMaxRequestBody in H. unfold MaxUint64. lia.
Qed.

Lemma regular_part c r : Validate c r = None -> Forall regular_ok (map fieldOf r.(reqHeaders) ++ lengthField r).
Proof.
  intros HV. pose proof (body_length c r HV) as Hb. apply Validate_facts in HV as (_ & _ & _ & _ & Hh & _). apply Forall_app. split.
  - apply Forall_fmap. revert Hh. apply Forall_impl. by intros h [? _].
  - unfold lengthField. destruct (negb _); [|constructor]. constructor; [|constructor].
    split; [|by vm_compute]. split; [by vm_compute|]. apply visible_value, digits_visible. by apply formatUint_value.
Qed.

(** The values of the pseudo-header fields. *)
Lemma section_value c r n : Validate c r = None -> n ∈ pseudoNames -> valueOf n [] (requestFields r) = valueOf n [] (pseudoFields r).
Proof.
  intros HV Hn. rewrite requestFields_parts. unfold valueOf at 1. rewrite fold_left_app.
  apply (regular_value n); [done | by eapply regular_part].
Qed.

Lemma section_lengths c r :
  Validate c r = None -> lengths (requestFields r) = map FieldValue (lengthField r).
Proof.
  intros HV. apply Validate_facts in HV as (_ & _ & _ & _ & Hh & _). rewrite requestFields_parts. unfold lengths.
  rewrite !omap_app. change (omap _ (pseudoFields r)) with (@nil (list Z)). cbn [app].
  assert (omap (fun f => if bytes_eqb f.(Name) (str "content-length") then Some f.(FieldValue) else None) (map fieldOf (reqHeaders r)) = []) as ->.
  { induction Hh as [|h l [_ Hn] Hh IH]; [done|]. cbn [map omap list_omap]. cbn [fieldOf Name].
    destruct (bytes_eqb_spec (hdrName h) (str "content-length")); [done|]. exact IH. }
  unfold lengthField. by destruct (negb _).
Qed.

Lemma section_shape c r : Validate c r = None -> well_shaped false [] (requestFields r).
Proof.
  intros HV. exists (pseudoFields r), (map fieldOf (reqHeaders r) ++ lengthField r).
  pose proof (regular_part c r HV) as Hreg. apply Validate_facts in HV as ((_ & V1) & (_ & V2) & (_ & V3) & (_ & V4) & _).
  split; [apply requestFields_parts|]. split_and!; [| done | | | done].
  - assert (forall n v, n ∈ pseudoNames -> validSessionHeaderName n = true -> str_at n 0 = ch ":" -> visible v ->
      pseudo_ok (mkHeaderField n v false)) as H.
    { intros n v Hn Hs Hc Hv. split; [split; [done | by apply visible_value]|]. split; [by apply Z.eqb_eq | done]. }
    repeat (apply Forall_cons_2; [apply H; [repeat first [apply list_elem_of_here | apply list_elem_of_further] | done..]|]). constructor.
  - apply (bool_decide_unpack _). by vm_compute.
  - apply Forall_forall. intros x _. apply not_elem_of_nil.
Qed.

Lemma section_accepted c r ec :
  Validate c r = None ->
  validateHeaderSection RoleServer false false (requestFields r) ec = negb (bytes_eqb r.(reqMethod) (str "CONNECT")).
Proof.
  intros HV. pose proof (section_shape c r HV) as Hsh. pose proof (section_lengths c r HV) as Hlen. pose proof (body_length c r HV) as Hb.
  assert (forall n, n ∈ pseudoNames -> valueOf n [] (requestFields r) = valueOf n [] (pseudoFields r)) as Hval by (intros; by eapply section_value).
  apply Validate_facts in HV as ((N1 & _) & (N2 & _) & (N3 & _) & (N4 & _) & _).
  assert (length_rules (requestFields r)) as Hrules.
  { unfold length_rules. rewrite Hlen. unfold lengthField. destruct (Z.eqb_spec (len (reqBody r)) 0) as [|Hne]; [by left|]. right.
    destruct (formatUint_value (len (reqBody r)) Hb) as [E F]. cbn [negb map FieldValue].
    exists (formatUint (len (reqBody r))). split; [done|]. split; [intros Hnil; rewrite Hnil in E; cbn in E; lia|]. split; [done|].
    split; [by rewrite E; apply Hb|]. rewrite Hval by (repeat first [apply list_elem_of_here | apply list_elem_of_further]). by vm_compute. }
  apply eq_true_iff_eq. rewrite validateHeaderSection_spec, inspect_length_rules. cbn [is_request is_client is_server andb orb negb].
  unfold request_rules. cbv zeta. rewrite !Hval by (repeat first [apply list_elem_of_here | apply list_elem_of_further]).
  change (valueOf (str ":method") [] (pseudoFields r)) with (reqMethod r). change (valueOf (str ":status") [] (pseudoFields r)) with (@nil Z).
  change (valueOf (str ":scheme") [] (pseudoFields r)) with (reqScheme r). change (valueOf (str ":path") [] (pseudoFields r)) with (reqPath r).
  change (valueOf (str ":authority") [] (pseudoFields r)) with (reqAuthority r). change (valueOf (str ":protocol") [] (pseudoFields r)) with (@nil Z).
  change (bytes_eqb [] []) with true. cbv iota.
  destruct (bytes_eqb (reqMethod r) (str "CONNECT")); cbn [negb]; split; try done.
  intros (_ & _ & _ & H). destruct (H eq_refl) as (_ & _ & _ & ? & _). done.
Qed.
End Section_.
