(* ===== verification/H2RequestProps.v ===== *)
(** * HTTP/2 requests: the properties of the client

    What a caller of [src/http2/request/request.go] relies on: a valid request
    is the connection preface and frames a peer reads back, an exchange ends, a
    response that is returned is a complete message within its limits, and
    whatever the client sends after its request is control frames. *)

From S2P Require Import Prelude Transport H2Frame H2FrameWf H2FrameSpec H2BlockSpec H2Props H2FrameHost H2Hpack H2Headers H2HeadersSpec H2SessionProps H2HeaderProps H2SessionFindings H2Request H2Response H2ResponseInv H2Exchange H2RequestWire H2RequestSection.

(** ** The exchange as a whole *)

Section Exchange.
Context `{ST : Stream} `{HP : Hpack} `{WR : !Writer} `{RD : !Reader} `{DX : !Duplex}.
Implicit Types (c : Client) (w : Conn) (r : Request).

(** The configuration as Go stores it. *)
Definition client_typed c : Prop :=
  frame_limits_typed_in c.(FrameLimits) /\ 0 <= c.(MaxResponseBodyBytes) <= MaxUint64.

Lemma client_Write_total c w r :
  exists w' err, Write c (Some w) r = Some (Some w', err) /\ pending w' = pending w /\
    (err = None -> exists request, Append c [] r = Some (request, None) /\ sent w' = sent w ++ request).
Proof.
  unfold Write. destruct (Validate c r) as [e|] eqn:HV.
  - exists w, (Some e). unfold Append. by rewrite HV.
  - destruct (Append_frames c [] r HV) as (c0 & chunks & body & _ & _ & _ & _ & _ & _ & ->). cbn [app].
    set (request := ClientPreface ++ _). destruct (writeData_wrote Io w request) as (w' & err & pre & E & Hs & _ & Hall).
    unfold writeAll. rewrite E. exists w', err. split; [done|]. split; [by eapply writeData_pending|]. intros ->.
    exists request. by rewrite Hs, Hall.
Qed.

(** [reading] holds of a new parser and a new state. *)
Lemma initial_reading c hooks w r :
  client_typed c ->
  reading c hooks (equalASCII r.(reqMethod) (str "HEAD")) (sent w) (pending w) (NewParser c.(FrameLimits)) (initialState c w r).
Proof.
  intros [Hl Hb]. destruct (frame_reachable_ok (Some (parserCallbacks c hooks)) _ (frame_reach_new _ _ Hl)) as [Hw Hp].
  assert (0 <= responseBodyLimit c) as Hpos by (unfold responseBodyLimit, defaultMaxResponseBody; destruct (_ =? 0); [by vm_compute | lia]).
  split; [done|]. split; [|split; [done|split; [done|split; [|done]]]].
  - split; [|intros _; cbn; lia]. repeat split; try done; by repeat constructor.
  - unfold host_at. cbn. intros _. split; cbn; try done. apply replied_refl.
Qed.

Lemma readLoop_more c hooks fuel k buffer p s res :
  readLoop c hooks fuel buffer p s = Some res -> readLoop c hooks (fuel + k) buffer p s = Some res.
Proof.
  revert buffer p s. induction fuel as [|fuel IH]; intros buffer p s; [done|]. cbn [Nat.add readLoop].
  destruct (SRead (rstream s) buffer) as [[w filled] [n err]]. destruct (_ || _); [done|].
  destruct (frameMessages c hooks _ p _ _) as [[[q s1]|x]|]; [|done..]. destruct err; [done|]. destruct (n =? 0); [done | apply IH].
Qed.

(** What an exchange leaves behind. *)
Definition exchange_outcome c w r hooks (w' : Conn) (told : list Delivery) (resp : Response) : Prop :=
  exists pre request replies w1 s0,
    Append c [] r = Some (request, None) /\ sent w' = (sent w ++ request) ++ wires replies /\ Forall reply replies /\
    pending w = pre ++ resp.(respBuffered) ++ pending w' /\
    Write c (Some w) r = Some (Some w1, None) /\ takes c hooks (NewParser c.(FrameLimits)) (initialState c w1 r) pre s0 /\
    good c hooks (equalASCII r.(reqMethod) (str "HEAD")) (sent w ++ request) (pending w') s0 /\ s0.(complete) = true /\
    resp = withBuffered s0.(rresponse) resp.(respBuffered) /\ told = rev s0.(delivered).

Lemma DoBuffer_outcome c w r hooks buffer :
  client_typed c -> bytes (pending w) ->
  exists fuel w' told res, (forall k, DoBuffer (fuel + k) c (Some w) r hooks buffer = Some (Some w', told, res)) /\
    forall resp, res = inl resp -> exchange_outcome c w r hooks w' told resp.
Proof.
  intros Hc Hb. unfold DoBuffer. destruct (len buffer =? 0); [by exists O, w, [], (inr ErrEmptyReadBuffer)|].
  destruct (client_Write_total c w r) as (w1 & err & HW & Hp & Hs). destruct err as [e|]; [exists O, w1, [], (inr e); by rewrite HW|].
  destruct (Hs eq_refl) as (request & HA & Hsent). pose proof (initial_reading c hooks w1 r Hc) as Hr.
  destruct (client_readLoop_ok c hooks _ _ (proj2 Hc) (S (length (pending w1))) buffer (NewParser c.(FrameLimits)) (initialState c w1 r) Hr eq_refl)
    as (s' & res & E & Hx); [cbn; by rewrite Hp | cbn; lia|].
  exists (S (length (pending w1))), (rstream s'), (rev (delivered s')), res.
  split; [intros k; by rewrite HW, (readLoop_more _ _ _ k _ _ _ _ E)|]. intros resp ->.
  destruct Hx as (pre & s0 & Hpre & (Hg & Hcomp & Hresp & Hd & Hst) & Ht). destruct (good_replies _ _ _ _ _ _ Hg) as (replies & R1 & R2).
  exists pre, request, replies, w1, s0. cbn in Hpre. rewrite Hp in Hpre. rewrite Hst, R1, Hsent, Hd in *. by split_and!.
Qed.

(** A run that returned is that run. *)
Lemma DoBuffer_returned c w r hooks buffer fuel w' told resp :
  client_typed c -> bytes (pending w) -> DoBuffer fuel c (Some w) r hooks buffer = Some (Some w', told, inl resp) ->
  exchange_outcome c w r hooks w' told resp.
Proof.
  intros Hc Hb E. destruct (DoBuffer_outcome c w r hooks buffer Hc Hb) as (n & w1 & told1 & res & Hrun & Hres).
  assert (forall k, DoBuffer (fuel + k) c (Some w) r hooks buffer = Some (Some w', told, inl resp)) as Hmore.
  { intros k. revert E. unfold DoBuffer. destruct (len buffer =? 0); [done|]. destruct (Write c (Some w) r) as [[[w2|] [e|]]|]; try done.
    destruct (readLoop c hooks fuel _ _ _) as [x|] eqn:Er; [|done]. by rewrite (readLoop_more _ _ _ k _ _ _ _ Er). }
  specialize (Hmore n). specialize (Hrun fuel). rewrite Nat.add_comm, Hrun in Hmore. injection Hmore as -> -> ->. by apply Hres.
Qed.
End Exchange.

(** ** What the caller was told, in order *)

Definition toldBody (told : list Delivery) : list Z :=
  concat (map (fun d => match d with OnBody data => data | _ => [] end) told).

Lemma bodyTold_rev ds : bodyTold ds = toldBody (rev ds).
Proof. unfold bodyTold, toldBody. by rewrite map_rev. Qed.

Lemma completions_rev ds : completions (rev ds) = rev (completions ds).
Proof.
  induction ds as [|d ds IH]; [done|]. cbn [rev]. unfold completions in *. rewrite map_app, concat_app, IH. cbn [map concat].
  rewrite rev_app_distr. f_equal. by destruct d.
Qed.

(** ** Examples *)

Definition demoClient : Client := mkClient (mkLimits 0 0 0) (mkHeaderLimits 0 0 0 0) 0 0 8.
Definition demoHooks : Hooks := mkHooks true true true true true.

(** A request with a header of its own and a body. *)
Definition demoPost : Request :=
  mkRequest (str "POST") (str "https") (str "h") (str "/x") [] [mkHeader (str "x-a") (str "1 2") false] (str "hi") false 0 false false [].

Definition demoHead : Request :=
  mkRequest (str "HEAD") (str "https") (str "h") (str "/x") [] [] [] false 0 false false [].

(** The peer answers with SETTINGS, a PING, interim and final headers, the body
    in two frames, and sends one more byte. *)
Definition demoAnswer : @Conn pipe :=
  ([], frame FrameSettings 0 0 [] ++ frame FramePing 0 0 [1; 2; 3; 4; 5; 6; 7; 8]
       ++ frame FrameHeaders 4 1 (block [field (str ":status") (str "103")])
       ++ frame FrameHeaders 4 1 (block [field (str ":status") (str "200"); field (str "content-length") (str "5")])
       ++ frame FrameData 0 1 (str "abc") ++ frame FrameData 1 1 (str "de") ++ [7]).

Lemma demoClient_typed : client_typed demoClient.
Proof. by vm_compute. Qed.

Lemma demoAnswer_bytes : bytes (pending demoAnswer).
Proof. apply (bool_decide_unpack _). by vm_compute. Qed.

Definition demoRun : option (option (@Conn pipe) * list Delivery * (Response + ClientError (H0 := plainHpack))) :=
  DoBuffer 100 demoClient (Some demoAnswer) demoPost (Some demoHooks) (replicate 16 0).

(** The exchange run through: two control frames and the credit for both DATA
    frames go back, and the byte behind the response is kept. *)
Example client_exchange_example :
  match demoRun with
  | Some (Some w, told, inl resp) =>
      Some (resp.(respStatus), resp.(respBodyBytes), resp.(respBuffered) ++ w.2, toldBody told, length (completions told))
  | _ => None
  end = Some (200, 5, [7], str "abcde", 1%nat).
Proof. vm_compute. reflexivity. Qed.

(** ** Claims *)

(** C14. A valid request on the wire: [Append] adds the connection preface and
    frames from which the reference decoder of the refinement theorem, for any
    limits the header block fits, reads three settings (push refused, the
    limits of the response headers), exactly the bytes the HPACK encoder
    produced for the fields of the request, ended once, and exactly the body;
    the stream is ended with the header block when there is no body and
    otherwise with the last DATA frame and no other. *)
Theorem client_request_wire `{ST : Stream} `{HP : Hpack} c dst r :
  Validate c r = None -> 0 <= c.(ClientHeaderLimits).(MaxDynamicTableBytes) <= MaxUint32 ->
  let encoded := encodeBlock NewEncoder (requestFields r) in
  exists frames, Append c dst r = Some (dst ++ ClientPreface ++ wires frames, None) /\
  forall l, chunkBytes <= l.(MaxFrameSize) -> l.(MaxContinuationFrames) <= MaxUint32 ->
    len encoded < chunkBytes * (l.(MaxContinuationFrames) + 1) -> len encoded <= l.(MaxHeaderBlockBytes) ->
  exists e1 e2 e3, specFrames l noSequence frames = (Some noSequence, e1 ++ e2 ++ e3, CodeNone) /\
    e1 = EvFrameBegin (settingsFrame c).1 :: map EvSetting (settingsOf c) ++ [EvSettingsEnd false; EvFrameComplete (settingsFrame c).1] /\
    headerBytes e2 = encoded /\ blockEnds e2 = [(1, len r.(reqBody) =? 0)] /\
    dataTold e3 = r.(reqBody) /\ (r.(reqBody) = [] -> dataEnds e3 = []) /\
    (r.(reqBody) <> [] -> exists k, dataEnds e3 = replicate k false ++ [true]).
Proof.
  intros HV Hd encoded. destruct (Append_frames c dst r HV) as (c0 & chunks & body & A1 & A2 & A3 & A4 & A5 & A6 & ->).
  eexists. split; [done|]. intros l L1 L2 L3 L4. fold encoded in A1, A4. pose proof (len_nonneg chunks). unfold chunkBytes in L3, A4.
  destruct (requestFrames_spec c l (len (reqBody r) =? 0) c0 chunks body) as (e1 & e2 & e3 & E & H1 & H2 & H3 & H4 & H5);
    [done.. | lia | by rewrite A1 |].
  exists e1, e2, e3. rewrite H2, H4, A1, A5. split_and!; try done.
  - intros Hb. rewrite H5. destruct A6 as [|x rest [Hx _] _]; [done|]. rewrite Hb in A5. destruct x; [unfold len in Hx; cbn in Hx; lia | done].
  - intros Hb. rewrite H5. destruct body as [|x rest]; [by destruct Hb|]. exists (length rest). f_equal.
    clear. induction rest; [done|]. cbn. by f_equal.
Qed.

Lemma client_request_wire_witness :
  exists frames, Append (ST := pipe) (HP := plainHpack) demoClient [9] demoPost = Some ([9] ++ ClientPreface ++ wires frames, None).
Proof.
  destruct (client_request_wire (ST := pipe) (HP := plainHpack) demoClient [9] demoPost ltac:(by vm_compute) ltac:(by vm_compute)) as (frames & H & _).
  by exists frames.
Defined.

(** C13. The two sides agree on requests: the field section of a request that
    passes the client's [Validate] is accepted by the checks a server session
    makes on a decoded section, whatever the caller's headers and body, except
    that a CONNECT request is rejected. *)
Theorem client_section_accepted `{ST : Stream} `{HP : Hpack} c r extended :
  Validate c r = None ->
  validateHeaderSection RoleServer false false (requestFields r) extended = negb (bytes_eqb r.(reqMethod) (str "CONNECT")).
Proof. apply section_accepted. Qed.

Lemma client_section_accepted_witness :
  validateHeaderSection RoleServer false false (requestFields demoPost) false = true.
Proof. exact (client_section_accepted (ST := pipe) (HP := plainHpack) demoClient demoPost false ltac:(by vm_compute)). Defined.

(** C12. An exchange ends: on a duplex transport that keeps the promises of
    [io.Writer] and [io.Reader], [DoBuffer] returns after finitely many reads
    whatever bytes the peer sends, and more fuel changes nothing.  With a
    response, the client has sent its whole request and after it only
    acknowledgements of SETTINGS and PING and window updates for connection
    and stream; and the bytes of the peer split into those the frame parser
    took, read by read, until the response was complete (none of them unread,
    none taken after the call that completed it), the bytes returned as
    buffered, and those still in the transport. *)
Theorem client_exchange_returns `{ST : Stream} `{HP : Hpack} `{WR : !Writer} `{RD : !Reader} `{DX : !Duplex} c w r hooks buffer :
  client_typed c -> bytes (pending w) ->
  exists fuel w' told res, (forall k, DoBuffer (fuel + k) c (Some w) r hooks buffer = Some (Some w', told, res)) /\
  forall resp, res = inl resp -> exists pre request replies w1 s1,
    Append c [] r = Some (request, None) /\ sent w' = (sent w ++ request) ++ wires replies /\ Forall reply replies /\
    pending w = pre ++ resp.(respBuffered) ++ pending w' /\
    Write c (Some w) r = Some (Some w1, None) /\ takes c hooks (NewParser c.(FrameLimits)) (initialState c w1 r) pre s1 /\
    s1.(complete) = true /\ resp = withBuffered s1.(rresponse) resp.(respBuffered) /\ told = rev s1.(delivered).
Proof.
  intros Hc Hb. destruct (DoBuffer_outcome c w r hooks buffer Hc Hb) as (fuel & w' & told & res & H1 & H2).
  exists fuel, w', told, res. split; [done|]. intros resp E.
  destruct (H2 resp E) as (pre & request & replies & w1 & s0 & A1 & A2 & A3 & A4 & A5 & A6 & _ & A7). by exists pre, request, replies, w1, s0.
Qed.

Lemma client_exchange_returns_witness :
  exists fuel w' told res, DoBuffer (HP := plainHpack) (fuel + 100) demoClient (Some demoAnswer) demoPost (Some demoHooks) (replicate 16 0) = Some (Some w', told, res).
Proof.
  destruct (client_exchange_returns (HP := plainHpack) demoClient demoAnswer demoPost (Some demoHooks) (replicate 16 0) demoClient_typed demoAnswer_bytes)
    as (fuel & w' & told & res & H & _).
  exists fuel, w', told, res. exact (H 100%nat).
Defined.

(** C11. A response that is returned is a complete message: its status is a final
    one, its body is within the configured limit and as long as the announced
    content-length, empty for HEAD, 204 and 304; the caller's body callback was
    told exactly as many bytes, and its completion callback exactly once, with
    this response. *)
Theorem client_response_sound `{ST : Stream} `{HP : Hpack} `{WR : !Writer} `{RD : !Reader} `{DX : !Duplex} fuel c w r hooks buffer w' told resp :
  client_typed c -> bytes (pending w) -> DoBuffer fuel c (Some w) r (Some hooks) buffer = Some (Some w', told, inl resp) ->
  200 <= resp.(respStatus) <= 599 /\ 0 <= resp.(respBodyBytes) <= responseBodyLimit c /\
  (resp.(respHasContentLength) = true -> resp.(respContentLength) = resp.(respBodyBytes)) /\
  (equalASCII r.(reqMethod) (str "HEAD") = true \/ resp.(respStatus) = 204 \/ resp.(respStatus) = 304 -> resp.(respBodyBytes) = 0) /\
  (hooks.(hookBody) = true -> u64 (len (toldBody told)) = resp.(respBodyBytes)) /\
  (hooks.(hookResponseComplete) = true -> exists before, completions told = [withBuffered resp before]).
Proof.
  intros Hc Hb E. destruct (DoBuffer_returned _ _ _ _ _ _ _ _ _ Hc Hb E) as (pre & request & replies & w1 & s0 & _ & _ & _ & _ & _ & _ & Hg & Hcomp & Hresp & Htold).
  destruct Hg as [G1 _ _ G4 G5 G6 G7 G8 G9 G10 _ _]. rewrite Hcomp in *. destruct (finalHeaders s0) eqn:Ef; [|by destruct G4].
  rewrite Hresp. cbn [withBuffered respStatus respBodyBytes respContentLength respHasContentLength]. cbn [hooked] in *.
  split_and!; [apply G4 .. | apply G1 | apply G1 | by apply G5 | | |].
  - intros [Hh|Hst]; apply G8; [by apply G9 | by apply G10].
  - intros Hk. rewrite Htold, <- bodyTold_rev. by apply G6.
  - intros Hk. rewrite Hk in G7. rewrite Htold, completions_rev, G7. exists (respBuffered (rresponse s0)). by destruct (rresponse s0).
Qed.

Lemma client_response_sound_witness :
  exists w' told resp, demoRun = Some (Some w', told, inl resp) /\ u64 (len (toldBody told)) = resp.(respBodyBytes).
Proof.
  destruct demoRun as [[[[w'|] told] [resp|e]]|] eqn:E; try (exfalso; revert E; vm_compute; discriminate).
  exists w', told, resp. split; [reflexivity|].
  destruct (client_response_sound (HP := plainHpack) 100 demoClient demoAnswer demoPost demoHooks (replicate 16 0) w' told resp
    demoClient_typed demoAnswer_bytes E) as (_ & _ & _ & _ & H & _). exact (H eq_refl).
Defined.

(** ** Responses the client refuses *)

(** A response to HEAD announces the length its body would have, and has none:
    [finishResponse] compares the two. *)
Lemma head_length_refused :
  let answer := frame FrameSettings 0 0 [] ++
    frame FrameHeaders 5 1 (block [field (str ":status") (str "200"); field (str "content-length") (str "5")]) in
  match DoBuffer (ST := pipe) (HP := plainHpack) 100 demoClient (Some ([], answer)) demoHead None (replicate 64 0) with
  | Some (_, _, inr e) => e = ErrInvalidResponse
  | _ => False
  end.
Proof. vm_compute. reflexivity. Qed.

(** CONNECT passes [Validate] only with [:scheme] and [:path], which the session
    of the other side refuses. *)
Lemma connect_section_refused :
  let r := mkRequest (str "CONNECT") (str "https") (str "h:443") (str "/") [] [] [] false 0 false false [] in
  Validate (ST := pipe) (HP := plainHpack) demoClient r = None /\
  validateHeaderSection RoleServer false false (requestFields r) false = false.
Proof. split; vm_compute; reflexivity. Qed.
