(* ===== verification/Registration.v ===== *)
(** * Protocol registration

    A translation of [src/internal/plugin/plugin.go] and of the composition in
    [src/http.go], with the stub bindings of [src/internal/stubabi/stub.go] and
    the three scaffold modules that use them.  The runtime
    ([github.com/wago-org/wago]) and the network extension
    ([github.com/wago-org/net]) are the class [Wago], a parameter: what the
    builder chains on a [Registry] contribute is one [Contribution] each.

    [Set.Add] and [Set.Freeze] hold the mutex for their whole body, so calls
    from several goroutines are sequences of these two functions. *)

From S2P Require Import Prelude.

(** ** The runtime *)

Inductive ValType := ValI32 | ValI64.

Class Wago := {
  Registry : Type;
  Network : Type;
  NetError : Type;
  HostModule : Type; (* the calling guest instance *)
  NetRegister : Network -> Registry -> Network * Registry * option NetError;
  TCPRegister : Network -> Network * option NetError;
  UDPRegister : Network -> Network * option NetError;
  (** [registry.Capability(capability, CapabilityDocs(docs))] *)
  AddCapability : Registry -> list Z -> list Z -> Registry;
  (** [registry.ImportModule(module)] *)
  ImportModule : Registry -> list Z -> Registry;
  (** [imports.Func(name, f).Params(...).Results(...).Capability(c).Docs(d)] on
      the imports of a module *)
  AddFunc : Registry -> list Z -> list Z -> (HostModule -> list Z -> list Z -> HostModule * list Z) ->
    list ValType -> list ValType -> list Z -> list Z -> Registry;
}.

(** ** Descriptors *)

Definition KeyHTTP1 : list Z := str "http1".
Definition KeyHTTP2 : list Z := str "http2".
Definition KeyWebSocket : list Z := str "websocket".
Definition KeyHTTP3 : list Z := str "http3".

Definition TransportTCP : Z := 1. (* uint8 *)
Definition TransportUDP : Z := 2.

Definition empty (s : list Z) : bool := match s with [] => true | _ => false end.

(** [x != nil] *)
Definition present {A} (x : option A) : bool := match x with Some _ => true | None => false end.

Inductive RegistrationError `{Wago} :=
  | ErrInvalidModule
  | ErrDuplicateModule
  | ErrFrozen
  | NetworkError (e : NetError).

Section Descriptors.
Context `{WG : Wago}.

(** [wago.HostFunc]: the results after the call. *)
Definition HostFunc : Type := HostModule -> list Z -> list Z -> HostModule * list Z.

Record TransportRegistration := mkTransport {
  transport : Z;
  register : option (Network -> Network * option NetError);
}.

Definition NewTransport (t : Z) (r : option (Network -> Network * option NetError)) : TransportRegistration := mkTransport t r.

Definition transportValid (r : TransportRegistration) : bool :=
  ((r.(transport) =? TransportTCP) || (r.(transport) =? TransportUDP)) && present r.(register).

Record Binding := mkBinding {
  bindName : list Z;
  bindFunc : option HostFunc;
  bindParams : list ValType;
  bindResults : list ValType;
  bindDocs : list Z;
}.

Record Module_ := mkModule {
  key : list Z;
  module : list Z;
  capability : list Z;
  docs : list Z;
  mtransport : TransportRegistration;
  bindings : list Binding;
  configure : option (Registry -> Registry);
}.

Definition NewModule (k m c d : list Z) (t : TransportRegistration) (bs : list Binding) : Module_ := mkModule k m c d t bs None.

Definition WithRegistry (m : Module_) (f : option (Registry -> Registry)) : Module_ :=
  mkModule m.(key) m.(module) m.(capability) m.(docs) m.(mtransport) m.(bindings) f.

Definition valid (m : Module_) : bool :=
  if empty m.(key) || empty m.(module) || empty m.(capability) || negb (transportValid m.(mtransport)) || (len m.(bindings) =? 0)
  then false
  else forallb (fun b => negb (empty b.(bindName) || negb (present b.(bindFunc)))) m.(bindings).

Definition Transports (m : Module_) : Z := m.(mtransport).(transport).

(** The network and [*selected] afterwards, both pointers. *)
Definition RegisterTransport (m : Module_) (network : option Network) (selected : option Z)
  : option Network * option Z * option RegistrationError :=
  match selected, network, m.(mtransport).(register) with
  | Some chosen, Some n, Some reg =>
      if negb (transportValid m.(mtransport)) then (network, selected, Some ErrInvalidModule)
      else if negb (Z.land chosen (Transports m) =? 0) then (network, selected, None)
      else
        let (n, err) := reg n in
        match err with
        | Some e => (Some n, selected, Some (NetworkError e))
        | None => (Some n, Some (Z.lor chosen (Transports m)), None)
        end
  | _, _, _ => (network, selected, Some ErrInvalidModule)
  end.

Definition installBinding (m : Module_) (registry : Registry) (b : Binding) : Registry :=
  match b.(bindFunc) with
  | Some f => AddFunc registry m.(module) b.(bindName) f b.(bindParams) b.(bindResults) m.(capability) b.(bindDocs)
  | None => registry
  end.

Definition Install (m : Module_) (registry : Registry) : Registry :=
  let registry := match m.(configure) with Some f => f registry | None => registry end in
  let registry := AddCapability registry m.(capability) m.(docs) in
  let registry := ImportModule registry m.(module) in
  fold_left (installBinding m) m.(bindings) registry.

(** ** The set *)

Record Set_ := mkSet {
  frozen : bool;
  modules : list Module_;
}.

Definition Add (s : Set_) (m : Module_) : Set_ * option RegistrationError :=
  if negb (valid m) then (s, Some ErrInvalidModule)
  else if s.(frozen) then (s, Some ErrFrozen)
  else if existsb (fun existing => bytes_eqb existing.(key) m.(key)) s.(modules) then (s, Some ErrDuplicateModule)
  else (mkSet s.(frozen) (s.(modules) ++ [m]), None).

Definition Freeze (s : Set_) : Set_ * list Module_ := (mkSet true s.(modules), s.(modules)).

(** ** The extension *)

Definition RootModule : list Z := str "wago_http".
Definition RootABIVersion1 : Z := 65536.
Definition CapInfo : list Z := str "http.info".

(** [results[0] = v] where the call has no parameters and one result. *)
Definition answer (v : Z) : HostFunc := fun m params results =>
  if negb (len params =? 0) || negb (len results =? 1) then (m, results) else (m, [v]).

Definition abiVersion : HostFunc := answer RootABIVersion1.

Record Extension := mkExtension {
  network : option Network; (* nil *)
  selection : Set_;
}.

Definition New (n : Network) : Extension := mkExtension (Some n) (mkSet false []).

(** [e == nil] is [None]. *)
Definition RegisterModule (e : option Extension) (m : Module_) : option Extension * option RegistrationError :=
  match e with
  | Some x =>
      match x.(network) with
      | Some _ => let (s, err) := Add x.(selection) m in (Some (mkExtension x.(network) s), err)
      | None => (e, Some ErrInvalidModule)
      end
  | None => (e, Some ErrInvalidModule)
  end.

(** The loop over the modules in [Register]. *)
Fixpoint registerTransports (ms : list Module_) (n : option Network) (selected : option Z)
  : option Network * option RegistrationError :=
  match ms with
  | [] => (n, None)
  | m :: ms =>
      let '(n, selected, err) := RegisterTransport m n selected in
      match err with
      | Some e => (n, Some e)
      | None => registerTransports ms n selected
      end
  end.

Definition contributeRoot (registry : Registry) : Registry :=
  let registry := AddCapability registry CapInfo (str "inspect the selected Wago HTTP-family ABI") in
  let registry := ImportModule registry RootModule in
  AddFunc registry RootModule (str "abi_version") abiVersion [] [ValI32] CapInfo (str "return the supported shared wago_http ABI version").

Definition Register (e : option Extension) (registry : Registry) : option Extension * Registry * option RegistrationError :=
  match e with
  | None => (e, registry, Some ErrInvalidModule)
  | Some x =>
      match x.(network) with
      | None => (e, registry, Some ErrInvalidModule)
      | Some _ =>
          let (s, ms) := Freeze x.(selection) in
          if len ms =? 0 then (Some (mkExtension x.(network) s), registry, None)
          else
            match registerTransports ms x.(network) (Some 0) with
            | (n, Some err) => (Some (mkExtension n s), registry, Some err)
            | (None, None) => (Some (mkExtension None s), registry, Some ErrInvalidModule) (* the pointer stays *)
            | (Some n, None) =>
                let '(n, registry, err) := NetRegister n registry in
                match err with
                | Some e => (Some (mkExtension (Some n) s), registry, Some (NetworkError e))
                | None =>
                    let registry := contributeRoot registry in
                    (Some (mkExtension (Some n) s), fold_left (fun r m => Install m r) ms registry, None)
                end
            end
      end
  end.

(** ** The scaffold modules *)

Definition StubABIVersion1 : Z := 65536.
Definition FeatureNone : Z := 0.
Definition ABIVersion : HostFunc := answer StubABIVersion1.
Definition FeatureFlags : HostFunc := answer FeatureNone.

Definition http1Module : Module_ :=
  NewModule KeyHTTP1 (str "wago_http1") (str "http.http1")
    (str "inspect the HTTP/1 capability; native bounded parsing is implemented and guest exchanges are pending")
    (NewTransport TransportTCP (Some TCPRegister))
    [mkBinding (str "abi_version") (Some ABIVersion) [] [ValI32] (str "return the HTTP/1 ABI version");
     mkBinding (str "feature_flags") (Some FeatureFlags) [] [ValI64]
       (str "return implemented HTTP/1.1 feature bits; zero means the data path is not implemented")].

Definition http1Register (e : option Extension) : option Extension * option RegistrationError := RegisterModule e http1Module.

Definition websocketModule : Module_ :=
  NewModule KeyWebSocket (str "wago_websocket") (str "http.websocket")
    (str "inspect and, when implemented, use bounded WebSocket connections")
    (NewTransport TransportTCP (Some TCPRegister))
    [mkBinding (str "abi_version") (Some ABIVersion) [] [ValI32] (str "return the WebSocket scaffold ABI version");
     mkBinding (str "feature_flags") (Some FeatureFlags) [] [ValI64]
       (str "return implemented WebSocket feature bits; zero means the data path is not implemented")].

Definition websocketRegister (e : option Extension) : option Extension * option RegistrationError := RegisterModule e websocketModule.

Definition http3Module : Module_ :=
  NewModule KeyHTTP3 (str "wago_http3") (str "http.http3")
    (str "inspect and, when implemented, use bounded HTTP/3 streams")
    (NewTransport TransportUDP (Some UDPRegister))
    [mkBinding (str "abi_version") (Some ABIVersion) [] [ValI32] (str "return the HTTP/3 scaffold ABI version");
     mkBinding (str "feature_flags") (Some FeatureFlags) [] [ValI64]
       (str "return implemented HTTP/3 feature bits; zero means the data path is not implemented")].

Definition http3Register (e : option Extension) : option Extension * option RegistrationError := RegisterModule e http3Module.
End Descriptors.
