(* ===== verification/RegistrationProps.v ===== *)
(** * Protocol registration: its properties

    A selection holds valid descriptors with different keys and is constant
    once frozen; [Register] installs each transport once, contributes nothing
    unless all of them succeed, and contributes the modules in the order they
    were selected. *)

From stdpp Require Import relations.
From S2P Require Import Prelude Registration.
Open Scope Z_scope.

Section Selection.
Context `{WG : Wago}.

(** What the holders of a [Set] can do to it, one critical section each. *)
Inductive set_step (s : Set_) : Set_ -> Prop :=
  | step_add m : set_step s (Add s m).1
  | step_freeze : set_step s (Freeze s).1.

Inductive selected : Set_ -> Prop :=
  | selected_new : selected (mkSet false [])
  | selected_step s s' : selected s -> set_step s s' -> selected s'.

Definition set_ok (s : Set_) : Prop := NoDup (key <$> s.(modules)) /\ Forall (fun m => valid m = true) s.(modules).

Lemma key_taken k (ms : list Module_) : existsb (fun m => bytes_eqb m.(key) k) ms = true <-> k ∈ key <$> ms.
Proof.
  rewrite existsb_exists, list_elem_of_fmap. split; intros (m & H1 & H2).
  - exists m. unfold bytes_eqb in H2. apply bool_decide_eq_true in H2. split; [done | by apply list_elem_of_In].
  - apply list_elem_of_In in H2. exists m. split; [done|]. unfold bytes_eqb. by apply bool_decide_eq_true.
Qed.

(** [Add], branch by branch. *)
Lemma Add_cases s m :
  (exists e, Add s m = (s, Some e)) \/
  (Add s m = (mkSet false (s.(modules) ++ [m]), None) /\ valid m = true /\ s.(frozen) = false /\ m.(key) ∉ key <$> s.(modules)).
Proof.
  unfold Add. destruct (valid m) eqn:Hv; cbn [negb]; [|by left; eexists]. destruct (frozen s) eqn:Hf; [by left; eexists|].
  destruct (existsb _ _) eqn:He; [by left; eexists|]. right. split_and!; [done..|]. rewrite <- key_taken. congruence.
Qed.

Lemma set_step_ok s s' : set_step s s' -> set_ok s -> set_ok s'.
Proof.
  intros [m|] [Hk Hv]; [|done]. destruct (Add_cases s m) as [[e ->]|(-> & Hm & _ & Hn)]; [done|]. split; cbn.
  - rewrite fmap_app. apply list.NoDup_app. split; [done|]. split; [intros k Hin ->%list_elem_of_singleton; done | apply NoDup_singleton].
  - apply Forall_app. by split; [|constructor].
Qed.

Lemma selected_ok s : selected s -> set_ok s.
Proof. induction 1 as [|s s' _ IH Hs]; [by split; [constructor|]|]. by eapply set_step_ok. Qed.

Lemma set_step_grows s s' :
  set_step s s' -> s.(modules) `prefix_of` s'.(modules) /\ (s.(frozen) = true -> s'.(frozen) = true /\ s'.(modules) = s.(modules)).
Proof.
  intros [m|]; [|done]. destruct (Add_cases s m) as [[e ->]|(-> & _ & Hf & _)]; [done|]. cbn. split; [by apply prefix_app_r | congruence].
Qed.

Lemma set_steps_grow s s' :
  rtc set_step s s' -> s.(modules) `prefix_of` s'.(modules) /\ (s.(frozen) = true -> s'.(modules) = s.(modules)).
Proof.
  induction 1 as [|s s1 s' Hs _ [IH1 IH2]]; [done|]. apply set_step_grows in Hs as [H1 H2]. split; [by etrans|].
  intros Hf. destruct (H2 Hf) as [Hf' <-]. by apply IH2.
Qed.

(** ** Transports *)

(** The first module of each transport, the ones already selected apart. *)
Fixpoint firstUses (seen : list Z) (ms : list Module_) : list Module_ :=
  match ms with
  | [] => []
  | m :: ms => if bool_decide (Transports m ∈ seen) then firstUses seen ms else m :: firstUses (Transports m :: seen) ms
  end.

(** Their registrations one after the other, up to the first error. *)
Fixpoint registerEach (ms : list Module_) (n : Network) : Network * option RegistrationError :=
  match ms with
  | [] => (n, None)
  | m :: ms =>
      match m.(mtransport).(register) with
      | Some reg => match reg n with (n, None) => registerEach ms n | (n, Some e) => (n, Some (NetworkError e)) end
      | None => (n, Some ErrInvalidModule)
      end
  end.

Lemma firstUses_once seen ms : NoDup (Transports <$> firstUses seen ms) /\ Forall (fun m => Transports m ∉ seen) (firstUses seen ms).
Proof.
  revert seen. induction ms as [|m ms IH]; intros seen; cbn [firstUses]; [by split; [constructor|]|].
  destruct (bool_decide_reflect (Transports m ∈ seen)) as [|Hn]; [apply IH|]. destruct (IH (Transports m :: seen)) as [H1 H2].
  rewrite Forall_forall in H2. split.
  - cbn. apply list.NoDup_cons. split; [|done]. intros (m' & E & Hm)%list_elem_of_fmap. apply list_elem_of_In in Hm. apply (H2 m' Hm). rewrite <- E. left.
  - constructor; [done|]. apply Forall_forall. intros m' Hm Hs. apply (H2 m' Hm). by right.
Qed.

Lemma firstUses_all seen ms m : m ∈ ms -> Transports m ∉ seen -> exists m', m' ∈ firstUses seen ms /\ Transports m' = Transports m.
Proof.
  revert seen. induction ms as [|x ms IH]; intros seen Hm Hs; [by apply not_elem_of_nil in Hm|]. cbn [firstUses].
  destruct (bool_decide_reflect (Transports x ∈ seen)) as [Hx|Hx].
  - apply elem_of_cons in Hm as [->|Hm]; [done | by apply IH].
  - destruct (decide (Transports m = Transports x)) as [->|Hne]; [exists x; split; [left | done]|].
    apply elem_of_cons in Hm as [->|Hm]; [done|]. destruct (IH (Transports x :: seen) Hm) as (m' & H1 & H2).
    { by intros [?|?]%elem_of_cons. }
    exists m'. split; [by right | done].
Qed.

(** [selected] as a set. *)
Definition bits (seen : list Z) : Z := fold_right Z.lor 0 seen.

Lemma valid_transport m : valid m = true -> transportValid m.(mtransport) = true.
Proof. unfold valid. destruct (_ || _) eqn:E; [done|]. intros _. bool_to_prop. done. Qed.

Lemma bits_land seen t :
  Forall (fun x => x = TransportTCP \/ x = TransportUDP) seen -> t = TransportTCP \/ t = TransportUDP ->
  negb (Z.land (bits seen) t =? 0) = bool_decide (t ∈ seen).
Proof.
  intros Hs Ht. induction Hs as [|x seen Hx Hs IH]; [cbn; by rewrite bool_decide_false by apply not_elem_of_nil|].
  cbn [bits fold_right]. fold (bits seen). rewrite Z.land_lor_distr_l.
  destruct (decide (t = x)) as [->|Hne].
  - rewrite bool_decide_true by left. apply negb_true_iff, Z.eqb_neq. rewrite Z.land_diag, Z.lor_eq_0_iff. unfold TransportTCP, TransportUDP in *. lia.
  - assert (Z.land x t = 0) as -> by (destruct Hx as [-> | ->], Ht as [-> | ->]; done). rewrite Z.lor_0_l, IH.
    apply bool_decide_ext. rewrite elem_of_cons. split; [by right | by intros [|]].
Qed.

Lemma registerTransports_eq ms n seen :
  Forall (fun m => valid m = true) ms -> Forall (fun x => x = TransportTCP \/ x = TransportUDP) seen ->
  registerTransports ms (Some n) (Some (bits seen)) = (Some (registerEach (firstUses seen ms) n).1, (registerEach (firstUses seen ms) n).2).
Proof.
  intros Hv. revert n seen. induction Hv as [|m ms Hm Hv IH]; intros n seen Hs; [done|]. cbn [registerTransports firstUses].
  apply valid_transport in Hm. assert (Transports m = TransportTCP \/ Transports m = TransportUDP) as Ht.
  { unfold transportValid in Hm. apply andb_prop in Hm as [Ht _]. apply orb_prop in Ht as [Ht|Ht]; apply Z.eqb_eq in Ht; auto. }
  unfold RegisterTransport. rewrite Hm. unfold transportValid in Hm. apply andb_prop in Hm as [_ Hr].
  destruct (register (mtransport m)) as [reg|] eqn:Er; [|done]. cbn [negb]. rewrite bits_land by done.
  destruct (bool_decide (Transports m ∈ seen)); [by apply IH|]. cbn [registerEach]. rewrite Er. destruct (reg n) as [n1 [e|]]; [done|].
  rewrite Z.lor_comm. change (Z.lor (Transports m) (bits seen)) with (bits (Transports m :: seen)). apply IH. by constructor.
Qed.
End Selection.

(** ** A runtime for the witnesses *)

(** The registry keeps the names in the order they are contributed, the network
    its transports. *)
Definition demoWago : Wago :=
  {| Registry := list (list Z);
     Network := list Z;
     NetError := unit;
     HostModule := unit;
     NetRegister := fun n r => (n, r ++ [str "net"], None);
     TCPRegister := fun n => (n ++ [TransportTCP], None);
     UDPRegister := fun n => if decide (n = []) then (n, Some tt) else (n ++ [TransportUDP], None);
     AddCapability := fun r c _ => r ++ [c];
     ImportModule := fun r _ => r;
     AddFunc := fun r _ name _ _ _ _ _ => r ++ [name] |}.

Definition demoSet : Set_ (WG := demoWago) := (Add (Add (Add (mkSet false []) http1Module).1 websocketModule).1 http3Module).1.

Lemma demoSet_selected : selected demoSet.
Proof. repeat (eapply selected_step; [|apply step_add]). constructor. Qed.

(** ** Claims *)

(** C35. Selection: whatever sequence of [Add] and [Freeze] a program runs on a
    set, from however many goroutines, its modules are valid descriptors with
    different keys; later steps only add to them, and none does once the set
    is frozen, so the snapshot [Freeze] returned stays what was selected. *)
Theorem selection_sound `{WG : Wago} s :
  selected s ->
  NoDup (key <$> s.(modules)) /\ Forall (fun m => valid m = true) s.(modules) /\
  forall s', rtc set_step s s' -> s.(modules) `prefix_of` s'.(modules) /\
    (s.(frozen) = true -> s'.(modules) = (Freeze s).2).
Proof.
  intros Hs. destruct (selected_ok s Hs) as [H1 H2]. split; [done|]. split; [done|]. intros s' Hr. by apply set_steps_grow.
Qed.

Lemma selection_sound_witness : NoDup (key <$> demoSet.(modules)) /\ Forall (fun m => valid m = true) demoSet.(modules).
Proof. destruct (selection_sound demoSet demoSet_selected) as (H1 & H2 & _). split; [exact H1 | exact H2]. Defined.

(** C34. Composition: [Register] on a selection runs the transport registration
    of the first module of each transport in the order of selection, each
    transport once and none left out; on an error it contributes nothing to
    the registry.  When they and the network succeed, it contributes the
    shared module and then every selected module in order, and either way the
    selection is frozen. *)
Theorem register_composes `{WG : Wago} s n registry :
  selected s -> s.(modules) <> [] ->
  let uses := firstUses [] s.(modules) in
  NoDup (Transports <$> uses) /\ (forall m, m ∈ s.(modules) -> exists m', m' ∈ uses /\ Transports m' = Transports m) /\
  Register (Some (mkExtension (Some n) s)) registry =
    match registerEach uses n with
    | (n1, Some e) => (Some (mkExtension (Some n1) (Freeze s).1), registry, Some e)
    | (n1, None) =>
        match NetRegister n1 registry with
        | (n2, registry1, Some e) => (Some (mkExtension (Some n2) (Freeze s).1), registry1, Some (NetworkError e))
        | (n2, registry1, None) =>
            (Some (mkExtension (Some n2) (Freeze s).1), fold_left (fun r m => Install m r) s.(modules) (contributeRoot registry1), None)
        end
    end.
Proof.
  intros Hs Hne uses. destruct (selected_ok s Hs) as [_ Hv]. split; [apply firstUses_once|].
  split; [intros m Hm; apply firstUses_all; [done | apply not_elem_of_nil]|].
  unfold Register. cbn [network selection Freeze fst].
  assert ((len (modules s) =? 0) = false) as -> by (destruct (modules s); [done|]; rewrite len_cons; pose proof (len_nonneg l); lia).
  change (Some 0) with (Some (bits [])). rewrite registerTransports_eq by done. fold uses.
  destruct (registerEach uses n) as [n1 [e|]]; [done|]. cbn [fst snd]. destruct (NetRegister n1 registry) as [[n2 r1] [e|]]; done.
Qed.

Lemma register_composes_witness :
  Register (WG := demoWago) (Some (mkExtension (WG := demoWago) (Some ([] : list Z)) demoSet)) ([] : list (list Z)) =
    (Some (mkExtension (WG := demoWago) (Some ([TransportTCP; TransportUDP] : list Z)) (Freeze demoSet).1),
     [str "net"; CapInfo; str "abi_version"; str "http.http1"; str "abi_version"; str "feature_flags";
      str "http.websocket"; str "abi_version"; str "feature_flags"; str "http.http3"; str "abi_version"; str "feature_flags"], None).
Proof.
  assert (demoSet.(modules) <> []) as Hne by discriminate.
  destruct (register_composes (WG := demoWago) demoSet ([] : list Z) ([] : list (list Z)) demoSet_selected Hne) as (_ & _ & H).
  refine (eq_trans H _). vm_compute. reflexivity.
Defined.
