(* ===== verification/H2Abi.v ===== *)
(** * HTTP/2: the guest bindings

    A translation of [src/http2/abi.go]: the functions a WebAssembly guest calls
    to drive sessions of [H2Session] by handle, with arguments in its linear
    memory.

    A call is a function on the manager, the guest's memory and the results.
    [None] is a panic of the host: Go's slice expression panics when its bounds
    are not in order.  The memory is one list of bytes that the slices of a call
    share, so writes that overlap happen in the order of the code.  A call and a
    hook run to the end before the next one: a guest instance has one caller at
    a time, and the locks guard what instances share.  The numbers of
    [wagonet.Status] are a parameter, [statusCode]. *)

From stdpp Require Import gmap.
From S2P Require Import Prelude Registration H2Frame H2Hpack H2Headers H2Session.
Open Scope Z_scope.

(** ** Constants *)

Definition FeatureSessionEngine : Z := 1.
Definition FeatureMultiplexedStreams : Z := 2.
Definition FeatureServer : Z := 4.
Definition FeaturePush : Z := 8.
Definition FeatureExtendedConnect : Z := 16.
Definition FeaturePriorityUpdate : Z := 32.

Definition FeatureAll : Z :=
  Z.lor (Z.lor (Z.lor (Z.lor (Z.lor FeatureSessionEngine FeatureMultiplexedStreams) FeatureServer) FeaturePush) FeatureExtendedConnect)
    FeaturePriorityUpdate.

Definition ABIVersion1 : Z := 65536.
Definition ABIHeaderV1Size : Z := 24.
Definition ABIEventV1Size : Z := 32.
Definition ABISettingV1Size : Z := 8.
Definition ABIFlagEndStream : Z := 1.
Definition ABIFlagSensitive : Z := 1.

(** The values of [wagonet.Status] the bindings return. *)
Inductive Status :=
  | StatusOK
  | StatusInvalidState
  | StatusInvalidArgument
  | StatusResourceLimit
  | StatusBadHandle
  | StatusAgain
  | StatusMessageTooLarge
  | StatusIO.

(** ** Memory *)

(** A slice of the memory: its start and its length. *)
Definition Slice : Type := Z * Z.

(** [None] is a panic, [Some None] a range outside the memory. *)
Definition abiMemory (memory : list Z) (pointer length : Z) : option (option Slice) :=
  let end_ := u64 (u64 pointer + u64 length) in
  if len memory <? end_ then Some None
  else if u32 end_ <? pointer then None
  else Some (Some (pointer, u32 end_ - pointer)).

Definition load (memory : list Z) (s : Slice) : list Z := take (Z.to_nat s.2) (drop (Z.to_nat s.1) memory).

(** [copy(dst, data)] and the stores into a slice, which stay within it. *)
Definition copyTo (memory : list Z) (s : Slice) (data : list Z) : list Z :=
  let data := take (Z.to_nat s.2) data in
  take (Z.to_nat s.1) memory ++ data ++ drop (Z.to_nat s.1 + length data) memory.

(** [binary.LittleEndian.PutUint32] and [Uint32]. *)
Definition le32 (v : Z) : list Z := [toByte v; toByte (Z.shiftr v 8); toByte (Z.shiftr v 16); toByte (Z.shiftr v 24)].

Definition getLe32 (b : list Z) : Z :=
  Z.lor (Z.lor (Z.lor (str_at b 0) (Z.shiftl (str_at b 1) 8)) (Z.shiftl (str_at b 2) 16)) (Z.shiftl (str_at b 3) 24).

Definition eventTypeCode (t : EventType) : Z :=
  match t with
  | EventSettings => 1
  | EventSettingsAck => 2
  | EventHeaders => 3
  | EventData => 4
  | EventStreamEnd => 5
  | EventStreamReset => 6
  | EventPing => 7
  | EventPingAck => 8
  | EventGoAway => 9
  | EventPriority => 10
  | EventPriorityUpdate => 11
  | EventPushPromise => 12
  | EventWindowUpdate => 13
  | EventUnknown => 14
  end.

Definition isPing (t : EventType) : bool := match t with EventPing | EventPingAck => true | _ => false end.
Definition isWindowUpdate (t : EventType) : bool := match t with EventWindowUpdate => true | _ => false end.

Definition abiEventDataLength (e : Event) : Z :=
  if isPing e.(evType) then 8 else clampUint64To32 (u64 (len e.(evData))).

(** One entry of a guest's header array. *)
Definition readHeader (memory entry : list Z) (limits : HeaderLimits) (listBytes : Z) : option ((HeaderField * Z) + Status) :=
  name ← abiMemory memory (getLe32 (take 4 entry)) (getLe32 (take 4 (drop 4 entry)));
  value ← abiMemory memory (getLe32 (take 4 (drop 8 entry))) (getLe32 (take 4 (drop 12 entry)));
  match name, value with
  | Some name, Some value =>
      let name := load memory name in
      let value := load memory value in
      if (limits.(MaxFieldBytes) <? len name) || (limits.(MaxFieldBytes) <? len value) then Some (inr StatusInvalidArgument)
      else
        let listBytes := u64 (listBytes + u64 (u64 (u64 (len name) + u64 (len value)) + 32)) in
        if limits.(MaxHeaderListBytes) <? listBytes then Some (inr StatusResourceLimit)
        else
          let sensitive := negb (Z.land (getLe32 (take 4 (drop 16 entry))) ABIFlagSensitive =? 0) in
          Some (inl (mkHeaderField name value sensitive, listBytes))
  | _, _ => Some (inr StatusInvalidArgument)
  end.

(** The loop over the entries. *)
Fixpoint readHeaders (memory : list Z) (limits : HeaderLimits) (count : nat) (encoded : list Z) (listBytes : Z)
  : option (list HeaderField + Status) :=
  match count with
  | O => Some (inl [])
  | S count =>
      first ← readHeader memory (take 24 encoded) limits listBytes;
      match first with
      | inr status => Some (inr status)
      | inl (field, listBytes) =>
          rest ← readHeaders memory limits count (drop 24 encoded) listBytes;
          Some (match rest with inl fields => inl (field :: fields) | inr status => inr status end)
      end
  end.

Definition readABIHeaders (memory : list Z) (pointer count : Z) (limits : HeaderLimits) : option (list HeaderField + Status) :=
  let limits := normalizedHeader limits in
  if (limits.(MaxHeaders) <? count) || (MaxUint32 <? u64 (count * ABIHeaderV1Size)) then Some (inr StatusResourceLimit)
  else
    encoded ← abiMemory memory pointer (u32 (count * ABIHeaderV1Size));
    match encoded with
    | None => Some (inr StatusInvalidArgument)
    | Some encoded => readHeaders memory limits (Z.to_nat count) (load memory encoded) 0
    end.

(** The loop of [sessionSettings]; [SettingID] is a [uint16]. *)
Fixpoint readSettings (count : nat) (encoded : list Z) : list Setting :=
  match count with
  | O => []
  | S count =>
      let entry := take 8 encoded in
      mkSetting (u16 (getLe32 (take 4 entry))) (getLe32 (take 4 (drop 4 entry))) :: readSettings count (drop 8 encoded)
  end.

Section Abi.
Context `{HP : Hpack} `{RO : !RangeOrder} (statusCode : Status -> Z).

(** [errors.Is] through the wrappers: a [ProtocolError] is [ErrSessionFailed],
    and the frame errors are [ErrInvalidHeaders]. *)
Definition statusForError (err : option SessionError) : Status :=
  match err with
  | None => StatusOK
  | Some ErrWouldBlock => StatusAgain
  | Some ErrStreamNotFound => StatusBadHandle
  | Some ErrInvalidRole | Some ErrInvalidHeaders | Some (ErrInvalidFrame _) => StatusInvalidArgument
  | Some ErrStreamState | Some ErrSessionClosed | Some (ErrProtocol _) => StatusInvalidState
  | Some ErrStreamLimit | Some ErrOutputLimit | Some ErrEventLimit | Some ErrStreamIDExhausted => StatusResourceLimit
  | Some ErrShortBuffer | Some (ErrDecoder _) => StatusIO
  end.

(** ** State *)

Record registerConfig := mkRegisterConfig {
  csession : SessionLimits;
  maxSessions : Z; (* uint32 *)
}.

(** [hasCurrent] is whether [current] is there. *)
Record abiSession := mkAbiSession {
  asession : Session;
  current : option Event;
}.

Record abiInstance := mkAbiInstance {
  next : Z; (* uint32 *)
  sessions : gmap Z abiSession;
}.

Record abiManager := mkAbiManager {
  config : registerConfig;
  instances : gmap Z abiInstance;
}.

(** Options are applied in order; nil ones are skipped. *)
Definition Option_ : Type := registerConfig -> registerConfig.

Definition WithSessionLimits (l : SessionLimits) : Option_ := fun c => mkRegisterConfig l c.(maxSessions).
Definition WithMaxSessions (max : Z) : Option_ := fun c => mkRegisterConfig c.(csession) max.

(** The loop of [RegisterWithOptions]. *)
Definition applyOptions (options : list (option Option_)) (c : registerConfig) : registerConfig :=
  fold_left (fun c o => match o with Some f => f c | None => c end) options c.

Definition newABIManager (c : registerConfig) : abiManager :=
  let max := if c.(maxSessions) =? 0 then 8 else c.(maxSessions) in
  mkAbiManager (mkRegisterConfig (normalizedSession c.(csession)) max) ∅.

Definition closeSession (s : abiSession) : abiSession :=
  mkAbiSession (mkSession (Close s.(asession).(core)) s.(asession).(parser)) s.(current).

(** The manager, and the sessions that were closed: nothing refers to them any
    more. *)
Definition closeInstance (m : abiManager) (instance : option Z) : abiManager * list abiSession :=
  match instance with
  | None => (m, [])
  | Some i =>
      (mkAbiManager m.(config) (delete i m.(instances)),
       match m.(instances) !! i with Some state => closeSession <$> (map_to_list state.(sessions)).*2 | None => [] end)
  end.

Definition closeAll (m : abiManager) : abiManager * list abiSession :=
  (mkAbiManager m.(config) ∅,
   concat (map (fun state => closeSession <$> (map_to_list state.(sessions)).*2) (map_to_list m.(instances)).*2)).

(** ** Calls *)

(** The caller: its instance, [None] when it is not identified, and its memory. *)
Record Host := mkHost {
  hostInstance : option Z;
  hostMemory : list Z;
}.

Definition caller (m : abiManager) (host : Host) : abiManager * ((Z * abiInstance) + Status) :=
  match host.(hostInstance) with
  | None => (m, inr StatusInvalidState)
  | Some i =>
      match m.(instances) !! i with
      | Some state => (m, inl (i, state))
      | None =>
          let state := mkAbiInstance 1 ∅ in
          (mkAbiManager m.(config) (<[i := state]> m.(instances)), inl (i, state))
      end
  end.

Definition setInstance (m : abiManager) (i : Z) (state : abiInstance) : abiManager :=
  mkAbiManager m.(config) (<[i := state]> m.(instances)).

(** The manager, the memory and the results after a call. *)
Definition Handler : Type := abiManager -> Host -> list Z -> list Z -> option (abiManager * list Z * list Z).

(** [results[0] = uint64(status); return] *)
Definition answer_ (m : abiManager) (memory : list Z) (status : Status) : option (abiManager * list Z * list Z) :=
  Some (m, memory, [statusCode status]).

Definition param (params : list Z) (i : Z) : Z := u32 (str_at params i).

(** The search for an unused handle: [Some None] is a full circle, [None]
    running out of fuel. *)
Fixpoint findHandle (fuel : nat) (used : gmap Z abiSession) (start handle : Z) : option (option Z) :=
  if (handle =? 0) || bool_decide (is_Some (used !! handle)) then
    match fuel with
    | O => None
    | S fuel =>
        let handle := u32 (handle + 1) in
        if handle =? start then Some None else findHandle fuel used start handle
    end
  else Some (Some handle).

Definition sessionOpen : Handler := fun m host params results =>
  let memory := host.(hostMemory) in
  if negb (len params =? 2) || negb (len results =? 1) then Some (m, memory, results)
  else
    match caller m host with
    | (m, inr status) => answer_ m memory status
    | (m, inl (i, state)) =>
        let role := u8 (param params 0) in
        out ← abiMemory memory (param params 1) 4;
        match out with
        | None => answer_ m memory StatusInvalidArgument
        | Some out =>
            if m.(config).(maxSessions) <=? u32 (Z.of_nat (size state.(sessions))) then answer_ m memory StatusResourceLimit
            else
              match NewSessionRole role m.(config).(csession) with
              | inr err => answer_ m memory (statusForError (Some err))
              | inl session =>
                  found ← findHandle (S (size state.(sessions))) state.(sessions) state.(next) state.(next);
                  match found with
                  | None => answer_ m memory StatusResourceLimit
                  | Some handle =>
                      let state := mkAbiInstance (u32 (handle + 1)) (<[handle := mkAbiSession session None]> state.(sessions)) in
                      answer_ (setInstance m i state) (copyTo memory out (le32 handle)) StatusOK
                  end
              end
        end
    end.

Definition sessionClose : Handler := fun m host params results =>
  let memory := host.(hostMemory) in
  if negb (len params =? 1) || negb (len results =? 1) then Some (m, memory, results)
  else
    match caller m host with
    | (m, inr status) => answer_ m memory status
    | (m, inl (i, state)) =>
        let handle := param params 0 in
        let m := setInstance m i (mkAbiInstance state.(next) (delete handle state.(sessions))) in
        match state.(sessions) !! handle with
        | None => answer_ m memory StatusBadHandle
        | Some _ => answer_ m memory StatusOK (* the session is closed and dropped *)
        end
    end.

Definition lookup_ (m : abiManager) (host : Host) (handle : Z) : abiManager * ((Z * abiInstance * abiSession) + Status) :=
  match caller m host with
  | (m, inr status) => (m, inr status)
  | (m, inl (i, state)) =>
      match state.(sessions) !! handle with
      | None => (m, inr StatusBadHandle)
      | Some s => (m, inl (i, state, s))
      end
  end.

(** The frame of the functions on a session: the arity check, [lookup], and a
    body on the session, the memory and the parameters. *)
Definition Body : Type := abiSession -> list Z -> list Z -> option (abiSession * list Z * Status).

Definition onSession (arity : Z) (body : Body) : Handler := fun m host params results =>
  let memory := host.(hostMemory) in
  if negb (len params =? arity) || negb (len results =? 1) then Some (m, memory, results)
  else
    match lookup_ m host (param params 0) with
    | (m, inr status) => answer_ m memory status
    | (m, inl (i, state, s)) =>
        done ← body s memory params;
        let '(s, memory, status) := done in
        answer_ (setInstance m i (mkAbiInstance state.(next) (<[param params 0 := s]> state.(sessions)))) memory status
    end.

Definition withCore (s : abiSession) (c : Core) : abiSession := mkAbiSession (mkSession c s.(asession).(parser)) s.(current).
Definition withSession (s : abiSession) (ss : Session) : abiSession := mkAbiSession ss s.(current).

Definition endStreamFlag (flags : Z) : bool := negb (Z.land flags ABIFlagEndStream =? 0).

Definition sessionFeed : Handler := onSession 4 (fun s memory params =>
  src ← abiMemory memory (param params 1) (param params 2);
  consumed ← abiMemory memory (param params 3) 4;
  match src, consumed with
  | Some src, Some consumed =>
      let data := load memory src in
      fed ← Feed s.(asession) data;
      let '(ss, rest, err) := fed in
      Some (withSession s ss, copyTo memory consumed (le32 (u32 (len data - len rest))), statusForError err)
  | _, _ => Some (s, memory, StatusInvalidArgument)
  end).

Definition sessionOutput : Handler := onSession 4 (fun s memory params =>
  dst ← abiMemory memory (param params 1) (param params 2);
  written ← abiMemory memory (param params 3) 4;
  match dst, written with
  | Some dst, Some written =>
      let queued := s.(asession).(core).(output) in
      if len queued =? 0 then Some (s, copyTo memory written (le32 0), StatusAgain)
      else
        let n := Z.min dst.2 (len queued) in
        let memory := copyTo memory dst queued in
        let s := withCore s (ConsumeOutput s.(asession).(core) n).1 in
        Some (s, copyTo memory written (le32 (u32 n)), StatusOK)
  | _, _ => Some (s, memory, StatusInvalidArgument)
  end).

Definition headerLimits (s : abiSession) : HeaderLimits := s.(asession).(core).(slimits).(Header).

(** The two functions that return a stream identifier. *)
Definition storeStream (s : abiSession) (memory : list Z) (out : Slice) (res : Core * (Z * option SessionError))
  : option (abiSession * list Z * Status) :=
  let '(c, (id, err)) := res in
  let memory := match err with None => copyTo memory out (le32 id) | Some _ => memory end in
  Some (withCore s c, memory, statusForError err).

Definition streamOpen : Handler := onSession 5 (fun s memory params =>
  headers ← readABIHeaders memory (param params 1) (param params 2) (headerLimits s);
  out ← abiMemory memory (param params 4) 4;
  match headers, out with
  | _, None => Some (s, memory, StatusInvalidArgument)
  | inr status, _ => Some (s, memory, status)
  | inl headers, Some out =>
      storeStream s memory out (OpenStream s.(asession).(core) headers (endStreamFlag (param params 3)))
  end).

Definition streamHeaders : Handler := onSession 5 (fun s memory params =>
  headers ← readABIHeaders memory (param params 2) (param params 3) (headerLimits s);
  match headers with
  | inr status => Some (s, memory, status)
  | inl headers =>
      let (c, err) := SendHeaders s.(asession).(core) (param params 1) headers (endStreamFlag (param params 4)) in
      Some (withCore s c, memory, statusForError err)
  end).

Definition streamData : Handler := onSession 6 (fun s memory params =>
  src ← abiMemory memory (param params 2) (param params 3);
  consumed ← abiMemory memory (param params 5) 4;
  match src, consumed with
  | Some src, Some consumed =>
      let '(c, (n, err)) := SendData s.(asession).(core) (param params 1) (load memory src) (endStreamFlag (param params 4)) in
      Some (withCore s c, copyTo memory consumed (le32 (u32 n)), statusForError err)
  | _, _ => Some (s, memory, StatusInvalidArgument)
  end).

Definition streamPush : Handler := onSession 5 (fun s memory params =>
  headers ← readABIHeaders memory (param params 2) (param params 3) (headerLimits s);
  out ← abiMemory memory (param params 4) 4;
  match headers, out with
  | _, None => Some (s, memory, StatusInvalidArgument)
  | inr status, _ => Some (s, memory, status)
  | inl headers, Some out => storeStream s memory out (PushPromise s.(asession).(core) (param params 1) headers)
  end).

Definition sessionSettings : Handler := onSession 3 (fun s memory params =>
  let count := param params 2 in
  if 64 <? count then Some (s, memory, StatusResourceLimit)
  else
    encoded ← abiMemory memory (param params 1) (u32 (count * ABISettingV1Size));
    match encoded with
    | None => Some (s, memory, StatusInvalidArgument)
    | Some encoded =>
        let (ss, err) := UpdateSettings s.(asession) (readSettings (Z.to_nat count) (load memory encoded)) in
        Some (withSession s ss, memory, statusForError err)
    end).

Definition sessionPing : Handler := onSession 2 (fun s memory params =>
  data ← abiMemory memory (param params 1) 8;
  match data with
  | None => Some (s, memory, StatusInvalidArgument)
  | Some data =>
      let (c, err) := Ping s.(asession).(core) (load memory data) in
      Some (withCore s c, memory, statusForError err)
  end).

Definition sessionGoAway : Handler := onSession 4 (fun s memory params =>
  debug ← abiMemory memory (param params 2) (param params 3);
  match debug with
  | None => Some (s, memory, StatusInvalidArgument)
  | Some debug =>
      let (c, err) := GoAway s.(asession).(core) (param params 1) (load memory debug) in
      Some (withCore s c, memory, statusForError err)
  end).

Definition streamPriorityUpdate : Handler := onSession 4 (fun s memory params =>
  value ← abiMemory memory (param params 2) (param params 3);
  match value with
  | None => Some (s, memory, StatusInvalidArgument)
  | Some value =>
      let (c, err) := PriorityUpdate s.(asession).(core) (param params 1) (load memory value) in
      Some (withCore s c, memory, statusForError err)
  end).

Definition streamReset : Handler := onSession 3 (fun s memory params =>
  let (c, err) := ResetStream s.(asession).(core) (param params 1) (param params 2) in
  Some (withCore s c, memory, statusForError err)).

(** The 32 bytes of an event. *)
Definition encodeEvent (e : Event) : list Z :=
  let flags := if e.(evEndStream) then ABIFlagEndStream else 0 in
  let flags := if e.(evTrailer) then Z.lor flags 2 else flags in
  let value := if isWindowUpdate e.(evType) then e.(evWindowIncrement) else e.(evLastStreamID) in
  le32 (eventTypeCode e.(evType)) ++ le32 e.(evStreamID) ++ le32 flags ++ le32 e.(evErrorCode) ++ le32 value
  ++ le32 (abiEventDataLength e) ++ le32 (u32 (len e.(evHeaders))) ++ le32 (u32 (len e.(evSettings))).

Definition eventNext : Handler := onSession 2 (fun s memory params =>
  dst ← abiMemory memory (param params 1) ABIEventV1Size;
  match dst with
  | None => Some (s, memory, StatusInvalidArgument)
  | Some dst =>
      match NextEvent s.(asession).(core) with
      | (c, None) => Some (withCore s c, memory, StatusAgain)
      | (c, Some e) =>
          Some (mkAbiSession (mkSession c s.(asession).(parser)) (Some e), copyTo memory dst (encodeEvent e), StatusOK)
      end
  end).

Definition eventData : Handler := onSession 4 (fun s memory params =>
  match s.(current) with
  | None => Some (s, memory, StatusInvalidState)
  | Some e =>
      dst ← abiMemory memory (param params 1) (param params 2);
      written ← abiMemory memory (param params 3) 4;
      match dst, written with
      | Some dst, Some written =>
          let data := if isPing e.(evType) then e.(evPing) else e.(evData) in
          let n := Z.min dst.2 (len data) in
          Some (s, copyTo (copyTo memory dst data) written (le32 (u32 n)), StatusOK)
      | _, _ => Some (s, memory, StatusInvalidArgument)
      end
  end).

(** The entry at an index, if the current event has it. *)
Definition entryAt {A} (entries : Event -> list A) (s : abiSession) (index : Z) : option A :=
  match s.(current) with
  | None => None
  | Some e => if u32 (len (entries e)) <=? index then None else nth_error (entries e) (Z.to_nat index)
  end.

Definition eventHeader : Handler := onSession 8 (fun s memory params =>
  match entryAt evHeaders s (param params 1) with
  | None => Some (s, memory, StatusInvalidArgument)
  | Some field =>
      name ← abiMemory memory (param params 2) (param params 3);
      nameLen ← abiMemory memory (param params 4) 4;
      value ← abiMemory memory (param params 5) (param params 6);
      valueLen ← abiMemory memory (param params 7) 4;
      match name, nameLen, value, valueLen with
      | Some name, Some nameLen, Some value, Some valueLen =>
          let memory := copyTo memory name field.(Name) in
          let memory := copyTo memory value field.(FieldValue) in
          let memory := copyTo memory nameLen (le32 (u32 (len field.(Name)))) in
          let memory := copyTo memory valueLen (le32 (u32 (len field.(FieldValue)))) in
          let status := if (name.2 <? len field.(Name)) || (value.2 <? len field.(FieldValue)) then StatusMessageTooLarge else StatusOK in
          Some (s, memory, status)
      | _, _, _, _ => Some (s, memory, StatusInvalidArgument)
      end
  end).

Definition eventSetting : Handler := onSession 3 (fun s memory params =>
  match entryAt evSettings s (param params 1) with
  | None => Some (s, memory, StatusInvalidArgument)
  | Some x =>
      dst ← abiMemory memory (param params 2) ABISettingV1Size;
      match dst with
      | None => Some (s, memory, StatusInvalidArgument)
      | Some dst => Some (s, copyTo memory dst (le32 x.(ID) ++ le32 x.(Value)), StatusOK)
      end
  end).

Definition abiVersion : Handler := fun m host params results =>
  if (len params =? 0) && (len results =? 1) then Some (m, host.(hostMemory), [ABIVersion1]) else Some (m, host.(hostMemory), results).

Definition abiFeatureFlags : Handler := fun m host params results =>
  if (len params =? 0) && (len results =? 1) then Some (m, host.(hostMemory), [FeatureAll]) else Some (m, host.(hostMemory), results).

(** ** The bindings of [RegisterWithOptions] *)

Inductive HostCall :=
  | CallAbiVersion | CallFeatureFlags | CallSessionOpen | CallSessionClose | CallSessionFeed
  | CallSessionOutput | CallStreamOpen | CallStreamHeaders | CallStreamData | CallStreamPush
  | CallStreamReset | CallStreamPriorityUpdate | CallSessionSettings | CallSessionPing
  | CallSessionGoAway | CallEventNext | CallEventData | CallEventHeader | CallEventSetting.

Definition handler (c : HostCall) : Handler :=
  match c with
  | CallAbiVersion => abiVersion
  | CallFeatureFlags => abiFeatureFlags
  | CallSessionOpen => sessionOpen
  | CallSessionClose => sessionClose
  | CallSessionFeed => sessionFeed
  | CallSessionOutput => sessionOutput
  | CallStreamOpen => streamOpen
  | CallStreamHeaders => streamHeaders
  | CallStreamData => streamData
  | CallStreamPush => streamPush
  | CallStreamReset => streamReset
  | CallStreamPriorityUpdate => streamPriorityUpdate
  | CallSessionSettings => sessionSettings
  | CallSessionPing => sessionPing
  | CallSessionGoAway => sessionGoAway
  | CallEventNext => eventNext
  | CallEventData => eventData
  | CallEventHeader => eventHeader
  | CallEventSetting => eventSetting
  end.
End Abi.

(** A binding: its name, function, parameter and result types, and docs. *)
Record GuestBinding := mkGuestBinding {
  guestName : list Z;
  guestCall : HostCall;
  guestParams : list ValType;
  guestResults : list ValType;
  guestDocs : list Z;
}.

Definition http2Bindings : list GuestBinding :=
  [mkGuestBinding (str "abi_version") CallAbiVersion [] [ValI32]
     (str "return the HTTP/2 ABI version");
   mkGuestBinding (str "feature_flags") CallFeatureFlags [] [ValI64]
     (str "return implemented HTTP/2 session feature bits");
   mkGuestBinding (str "session_open") CallSessionOpen [ValI32; ValI32] [ValI32]
     (str "create a bounded client or server HTTP/2 session");
   mkGuestBinding (str "session_close") CallSessionClose [ValI32] [ValI32]
     (str "close an HTTP/2 session handle");
   mkGuestBinding (str "session_feed") CallSessionFeed [ValI32; ValI32; ValI32; ValI32] [ValI32]
     (str "feed received transport bytes into a session");
   mkGuestBinding (str "session_output") CallSessionOutput [ValI32; ValI32; ValI32; ValI32] [ValI32]
     (str "drain queued HTTP/2 wire bytes");
   mkGuestBinding (str "stream_open") CallStreamOpen [ValI32; ValI32; ValI32; ValI32; ValI32] [ValI32]
     (str "open a client stream with initial headers");
   mkGuestBinding (str "stream_headers") CallStreamHeaders [ValI32; ValI32; ValI32; ValI32; ValI32] [ValI32]
     (str "send response headers or trailers");
   mkGuestBinding (str "stream_data") CallStreamData [ValI32; ValI32; ValI32; ValI32; ValI32; ValI32] [ValI32]
     (str "send flow-controlled DATA");
   mkGuestBinding (str "stream_push") CallStreamPush [ValI32; ValI32; ValI32; ValI32; ValI32] [ValI32]
     (str "reserve a server-pushed stream");
   mkGuestBinding (str "stream_reset") CallStreamReset [ValI32; ValI32; ValI32] [ValI32]
     (str "reset one stream");
   mkGuestBinding (str "stream_priority_update") CallStreamPriorityUpdate [ValI32; ValI32; ValI32; ValI32] [ValI32]
     (str "send RFC 9218 priority metadata");
   mkGuestBinding (str "session_settings") CallSessionSettings [ValI32; ValI32; ValI32] [ValI32]
     (str "send a bounded SETTINGS update");
   mkGuestBinding (str "session_ping") CallSessionPing [ValI32; ValI32] [ValI32]
     (str "send a PING");
   mkGuestBinding (str "session_goaway") CallSessionGoAway [ValI32; ValI32; ValI32; ValI32] [ValI32]
     (str "start graceful GOAWAY shutdown");
   mkGuestBinding (str "event_next") CallEventNext [ValI32; ValI32] [ValI32]
     (str "read the next committed session event");
   mkGuestBinding (str "event_data") CallEventData [ValI32; ValI32; ValI32; ValI32] [ValI32]
     (str "copy the current event payload");
   mkGuestBinding (str "event_header") CallEventHeader [ValI32; ValI32; ValI32; ValI32; ValI32; ValI32; ValI32; ValI32] [ValI32]
     (str "copy one current-event header field");
   mkGuestBinding (str "event_setting") CallEventSetting [ValI32; ValI32; ValI32] [ValI32]
     (str "copy one current-event setting")].
