(* ===== verification/H2AbiSound.v ===== *)
(** * HTTP/2: the guest bindings are safe

    Every call of [H2Abi] returns, whatever the guest passes: no slice is out of
    order, the memory keeps its length, nothing outside the ranges the guest
    named is written, other instances are not touched, and every live session
    keeps the invariant of [H2SessionLife]. *)

From stdpp Require Import gmap.
From S2P Require Import Prelude Registration H2Frame H2FrameWf H2FrameSpec H2Hpack H2Headers H2Session H2SessionTable H2SessionWf H2SessionInbound H2SessionOutbound H2SessionLife H2Abi.
Open Scope Z_scope.

(** ** Memory *)

(** A guest's memory, short of the full 4 GiB. *)
Definition memory_ok (memory : list Z) : Prop := bytes memory /\ len memory <= MaxUint32.

Definition inside (memory : list Z) (s : Slice) : Prop := 0 <= s.1 /\ 0 <= s.2 /\ s.1 + s.2 <= len memory.

Lemma abiMemory_eq memory p n :
  len memory <= MaxUint32 -> in_u32 p -> in_u32 n ->
  abiMemory memory p n = Some (if len memory <? p + n then None else Some (p, n)).
Proof.
  intros Hm Hp Hn. unfold in_u32 in *. assert (MaxUint32 + MaxUint32 <= MaxUint64) as HM by by vm_compute.
  unfold abiMemory. rewrite (u64_small p), (u64_small n), (u64_small (p + n)) by lia. cbv zeta.
  destruct (Z.ltb_spec (len memory) (p + n)) as [|Hle]; [done|]. rewrite u32_small by (unfold MaxUint32 in *; lia).
  destruct (Z.ltb_spec (p + n) p); [lia|]. do 3 f_equal. lia.
Qed.

(** The range ends exactly at 4 GiB: its end is 0 as a 32-bit number, and the
    slice expression panics. *)
Lemma abiMemory_wraps memory p n :
  len memory = 2 ^ 32 -> in_u32 p -> in_u32 n -> p + n = 2 ^ 32 -> abiMemory memory p n = None.
Proof.
  intros Hm Hp Hn E. unfold in_u32, MaxUint32 in *. assert (2 ^ 32 <= MaxUint64) as HM by by vm_compute.
  unfold abiMemory. rewrite (u64_small p), (u64_small n), (u64_small (p + n)) by (unfold MaxUint64 in *; lia). cbv zeta.
  rewrite E, Hm. change (2 ^ 32 <? 2 ^ 32) with false. cbv iota. change (u32 (2 ^ 32)) with 0.
  by rewrite (proj2 (Z.ltb_lt 0 p)) by lia.
Qed.

Lemma param_range params i : in_u32 (param params i).
Proof. apply u32_range. Qed.

Lemma load_length memory s : inside memory s -> len (load memory s) = s.2.
Proof. intros (H1 & H2 & H3). unfold load, len in *. rewrite length_take, length_drop. lia. Qed.

Lemma load_bytes memory s : bytes memory -> bytes (load memory s).
Proof. intros H. unfold load. by apply Forall_take, Forall_drop. Qed.

Lemma copyTo_length memory s data : inside memory s -> len (copyTo memory s data) = len memory.
Proof.
  intros (H1 & H2 & H3). unfold copyTo, len in *. rewrite !length_app, length_drop, !length_take. lia.
Qed.

(** Outside a slice nothing changes. *)
Lemma copyTo_outside memory s data (k : nat) :
  inside memory s -> ~ (s.1 <= Z.of_nat k < s.1 + s.2) -> copyTo memory s data !! k = memory !! k.
Proof.
  intros (H1 & H2 & H3) Hk. unfold copyTo, len in *. set (d := take (Z.to_nat s.2) data).
  assert (length d <= Z.to_nat s.2)%nat as Hd by (unfold d; rewrite length_take; lia).
  assert (length (take (Z.to_nat s.1) memory) = Z.to_nat s.1) as Hl by (rewrite length_take; lia).
  destruct (decide (k < Z.to_nat s.1)%nat) as [Hlt|Hge].
  - rewrite lookup_app_l by lia. by apply lookup_take_lt.
  - rewrite lookup_app_r by lia. rewrite lookup_app_r by lia. rewrite lookup_drop. f_equal. lia.
Qed.

(** What a call may change of the memory. *)
Definition touches (regions : list Slice) (memory memory' : list Z) : Prop :=
  len memory' = len memory /\
  forall k : nat, Forall (fun r => ~ (r.1 <= Z.of_nat k < r.1 + r.2)) regions -> memory' !! k = memory !! k.

Lemma touches_refl regions memory : touches regions memory memory.
Proof. done. Qed.

Lemma touches_copy regions memory0 memory s data :
  touches regions memory0 memory -> inside memory s -> s ∈ regions -> touches regions memory0 (copyTo memory s data).
Proof.
  intros [H1 H2] Hs Hin. split; [by rewrite copyTo_length|]. intros k Hk. rewrite copyTo_outside; [by apply H2 | done|].
  rewrite Forall_forall in Hk. by apply Hk.
Qed.

Lemma inside_touched regions memory0 memory s : touches regions memory0 memory -> inside memory0 s -> inside memory s.
Proof. unfold inside. by intros [-> _]. Qed.

(** ** Arguments *)

Lemma getLe32_value a b c d :
  in_u8 a -> in_u8 b -> in_u8 c -> in_u8 d -> getLe32 [a; b; c; d] = ((d * 256 + c) * 256 + b) * 256 + a.
Proof.
  unfold in_u8, MaxUint8. intros. rewrite <- octets4 by lia. change (getLe32 [a; b; c; d]) with
    (Z.lor (Z.lor (Z.lor a (Z.shiftl b 8)) (Z.shiftl c 16)) (Z.shiftl d 24)).
  rewrite (Z.lor_comm a), (Z.lor_comm _ (Z.shiftl c 16)), (Z.lor_comm _ (Z.shiftl d 24)), !Z.lor_assoc. done.
Qed.

Lemma getLe32_range b : bytes b -> length b = 4%nat -> in_u32 (getLe32 b).
Proof.
  intros Hb Hl. destruct b as [|b0 [|b1 [|b2 [|b3 [|]]]]]; try done. repeat (apply Forall_cons_1 in Hb as [? Hb]).
  rewrite getLe32_value by done. unfold in_u8, in_u32, MaxUint32 in *. widths. lia.
Qed.

Lemma getLe32_le32 v : in_u32 v -> getLe32 (le32 v) = v.
Proof.
  intros Hv. unfold le32. rewrite getLe32_value by apply u8_range. rewrite !shiftr_byte, toByte_eq by lia.
  unfold in_u32, MaxUint32 in Hv. change (2 ^ 24) with 16777216. change (2 ^ 16) with 65536. change (2 ^ 8) with 256. divmod.
Qed.

Lemma word_range entry k : bytes entry -> (4 + k <= length entry)%nat -> in_u32 (getLe32 (take 4 (drop k entry))).
Proof. intros Hb Hl. apply getLe32_range; [by apply Forall_take, Forall_drop|]. rewrite length_take, length_drop. lia. Qed.

Lemma readHeader_total memory entry limits size :
  memory_ok memory -> bytes entry -> length entry = 24%nat -> exists r, readHeader memory entry limits size = Some r.
Proof.
  intros [_ Hm] Hb Hl. unfold readHeader. pose proof (word_range entry 0 Hb ltac:(lia)) as H0. rewrite drop_0 in H0.
  rewrite !abiMemory_eq by first [done | apply word_range; [done | lia]]. cbn [mbind option_bind].
  destruct (_ <? _); [|destruct (_ <? _)]; [by eexists..|]. cbv zeta. destruct (_ || _); [by eexists|]. destruct (_ <? _); by eexists.
Qed.

Lemma readHeaders_total memory limits count encoded size :
  memory_ok memory -> bytes encoded -> length encoded = (24 * count)%nat -> exists r, readHeaders memory limits count encoded size = Some r.
Proof.
  intros Hm. revert encoded size. induction count as [|count IH]; intros encoded size Hb Hl; [by eexists|]. cbn [readHeaders].
  destruct (readHeader_total memory (take 24 encoded) limits size Hm) as [r ->]; [by apply Forall_take | rewrite length_take; lia|].
  cbn [mbind option_bind]. destruct r as [[f size']|st]; [|by eexists].
  destruct (IH (drop 24 encoded) size') as [r ->]; [by apply Forall_drop | rewrite length_drop; lia|]. by eexists.
Qed.

Lemma readABIHeaders_total memory p n limits :
  memory_ok memory -> in_u32 p -> in_u32 n -> exists r, readABIHeaders memory p n limits = Some r.
Proof.
  intros Hm Hp Hn. unfold readABIHeaders. cbv zeta. destruct (_ || _) eqn:E; [by eexists|].
  apply orb_false_elim in E as [_ E%Z.ltb_ge]. unfold in_u32, ABIHeaderV1Size in *.
  rewrite u64_small in E by (unfold MaxUint32, MaxUint64 in *; lia). rewrite u32_small by lia.
  rewrite abiMemory_eq by (unfold in_u32; destruct Hm; lia). cbn [mbind option_bind].
  destruct (Z.ltb_spec (len memory) (p + n * 24)) as [|Hle]; [by eexists|]. apply readHeaders_total; [done | apply load_bytes, Hm|].
  pose proof (load_length memory (p, n * 24) ltac:(unfold inside; cbn; lia)) as Hl. unfold len in Hl. cbn in Hl. lia.
Qed.

Lemma readSettings_typed count encoded : bytes encoded -> length encoded = (8 * count)%nat -> Forall value_typed (readSettings count encoded).
Proof.
  revert encoded. induction count as [|count IH]; intros encoded Hb Hl; [constructor|]. cbn [readSettings]. constructor.
  - unfold value_typed. cbn. apply word_range; [by apply Forall_take | rewrite length_take; lia].
  - apply IH; [by apply Forall_drop | rewrite length_drop; lia].
Qed.

(** ** The functions on a session *)

Section Bodies.
Context `{HP : Hpack} `{RO : !RangeOrder} `{HF : !HpackFits} (statusCode : Status -> Z) (L : SessionLimits).

Definition live (s : abiSession) : Prop := state_ok L s.(asession).

(** A body returns, keeps its session sound and writes only to [regions]. *)
Definition body_sound (regions : list Z -> list Slice) (body : Body) : Prop :=
  forall s memory params, memory_ok memory -> live s ->
    exists s' memory' status, body s memory params = Some (s', memory', status) /\ live s' /\ touches (regions params) memory memory'.

(** An operation of the session's owner. *)
Lemma live_run s op ss' : live s -> op_typed op -> run op s.(asession) = Some ss' -> state_ok L ss'.
Proof. intros Hs Ht E. destruct (run_ok L op (asession s) Hs Ht) as (s1 & E1 & H & _). congruence. Qed.

Lemma live_core s op c :
  live s -> op_typed op -> run op s.(asession) = Some (mkSession c s.(asession).(parser)) -> live (withCore s c).
Proof. intros Hs Ht E. exact (live_run s op _ Hs Ht E). Qed.

(** ** The manager *)

Definition instance_ok (max : Z) (state : abiInstance) : Prop :=
  in_u32 state.(next) /\ Z.of_nat (size state.(sessions)) <= max /\
  map_Forall (fun h s => 0 < h <= MaxUint32 /\ live s) state.(sessions).
End Bodies.

Section Manager.
Context `{HP : Hpack} `{RO : !RangeOrder} `{HF : !HpackFits} (statusCode : Status -> Z).
Implicit Types m : abiManager.

Definition sessionBounds (m : abiManager) : SessionLimits := normalizedSession m.(config).(csession).

Definition manager_ok (m : abiManager) : Prop :=
  session_limits_typed m.(config).(csession) /\ 0 < m.(config).(maxSessions) <= MaxUint32 /\
  map_Forall (fun _ state => instance_ok (sessionBounds m) m.(config).(maxSessions) state) m.(instances).

(** A call returns, keeps the manager sound, and leaves the memory outside
    [regions] and the other instances alone. *)
Definition handler_sound (regions : list Z -> list Slice) (h : Handler) : Prop :=
  forall m host params results, manager_ok m -> memory_ok host.(hostMemory) ->
    exists m' memory' results', h m host params results = Some (m', memory', results') /\
      (manager_ok m' /\ m'.(config) = m.(config)) /\ touches (regions params) host.(hostMemory) memory' /\ length results' = length results /\
      forall j, host.(hostInstance) <> Some j -> m'.(instances) !! j = m.(instances) !! j.

Lemma setInstance_ok m i state :
  manager_ok m -> instance_ok (sessionBounds m) m.(config).(maxSessions) state -> manager_ok (setInstance m i state).
Proof.
  intros (H1 & H2 & H3) Hs. split; [done|]. split; [done|]. by apply map_Forall_insert_2.
Qed.

(** The caller's instance exists afterwards, and nothing else changes. *)
Lemma caller_spec m host m' r :
  manager_ok m -> caller m host = (m', r) ->
  (manager_ok m' /\ m'.(config) = m.(config)) /\ (forall j, host.(hostInstance) <> Some j -> m'.(instances) !! j = m.(instances) !! j) /\
  match r with
  | inl (i, state) => host.(hostInstance) = Some i /\ m'.(instances) !! i = Some state /\
      (forall old, m.(instances) !! i = Some old -> old = state) /\ instance_ok (sessionBounds m) m.(config).(maxSessions) state
  | inr _ => host.(hostInstance) = None
  end.
Proof.
  intros Hok. unfold caller. destruct (hostInstance host) as [i|]; [|by intros [= <- <-]].
  pose proof Hok as (_ & HM & Hall). destruct (instances m !! i) as [state|] eqn:E; intros [= <- <-].
  - split; [done|]. split; [done|]. split; [done|]. split; [done|]. split; [congruence | by apply (Hall i)].
  - assert (instance_ok (sessionBounds m) (maxSessions (config m)) (mkAbiInstance 1 ∅)) as Hnew.
    { split; [by vm_compute|]. cbn. rewrite map_size_empty. split; [lia | apply map_Forall_empty]. }
    split; [split; [by apply (setInstance_ok m i) | done]|]. split; [|split; [done|]; split; [apply lookup_insert_eq | by split; [congruence|]]].
    intros j Hj. cbn. rewrite lookup_insert_ne; [done | congruence].
Qed.

(** One session of an instance replaced. *)
Lemma replace_ok max B state h s s' :
  instance_ok B max state -> state.(sessions) !! h = Some s -> live B s' ->
  instance_ok B max (mkAbiInstance state.(next) (<[h := s']> state.(sessions))).
Proof.
  intros (H1 & H2 & H3) Hs Hl. split; [done|]. cbn. split; [by rewrite map_size_insert_Some|].
  apply map_Forall_insert_2; [|done]. split; [by apply (H3 h s) | done].
Qed.

Lemma onSession_sound regions arity body :
  (forall B, body_sound B regions body) -> handler_sound regions (onSession statusCode arity body).
Proof.
  intros Hbody m host params results Hok Hm. unfold onSession. cbv zeta.
  destruct (negb (len params =? arity) || negb (len results =? 1)) eqn:Ea; [by exists m, (hostMemory host), results|].
  apply orb_false_elim in Ea as [_ Hr%negb_false_iff%Z.eqb_eq].
  assert (forall c : Z, length [c] = length results) as Hone by (intros c; unfold len in Hr; cbn; lia).
  unfold lookup_. destruct (caller m host) as [m1 [[i state]|st]] eqn:Ec; apply caller_spec in Ec as ([Hok1 Ecfg] & Hiso & Hr1); try done.
  2: { by eexists _, _, _. }
  destruct Hr1 as (Ei & Em & _ & Hst). destruct (sessions state !! param params 0) as [s|] eqn:Es; [|by eexists _, _, _].
  pose proof Hst as (_ & _ & Hall). destruct (Hall _ _ Es) as [_ Hl].
  destruct (Hbody (sessionBounds m) s (hostMemory host) params Hm Hl) as (s' & memory' & st & -> & Hl' & Ht). cbn [mbind option_bind].
  eexists _, _, _. split; [done|]. split; [split; [|done]|split; [done|split; [done|]]].
  - apply setInstance_ok; [done|]. unfold sessionBounds. rewrite Ecfg. by apply (replace_ok _ _ _ _ s).
  - intros j Hj. cbn. rewrite lookup_insert_ne by congruence. by apply Hiso.
Qed.
End Manager.

(** Decide the ranges of the memory a body names. *)
Ltac slices Hm :=
  rewrite ?abiMemory_eq by first [apply Hm | apply param_range | by vm_compute]; cbn [mbind option_bind];
  repeat match goal with |- context [if len ?m <? ?n then None else Some _] =>
    destruct (Z.ltb_spec (len m) n) end.

(** Bounds of a slice that was accepted. *)
Ltac within :=
  match goal with |- inside ?m ?s => split; [|split]; cbn [fst snd]; first [apply param_range | lia] end.

Section Calls.
Context `{HP : Hpack} `{RO : !RangeOrder} `{HF : !HpackFits} (statusCode : Status -> Z).

Abbreviation p := param.

Lemma sessionFeed_sound : handler_sound (fun ps => [(p ps 3, 4)]) (sessionFeed statusCode).
Proof.
  apply onSession_sound. intros B s memory ps Hm Hs. slices Hm; try by eexists _, _, _.
  set (data := load memory _). assert (bytes data) as Hb by apply load_bytes, Hm.
  destruct (run_ok B (DoFeed data) (asession s) Hs Hb) as (ss' & E & Hok & _). cbn [run] in E.
  destruct (Feed (asession s) data) as [[[ss rest] err]|]; [|done]. injection E as <-. cbn [mbind option_bind].
  eexists _, _, _. split; [done|]. split; [exact Hok|]. apply touches_copy; [apply touches_refl | within | left].
Qed.

Lemma sessionOutput_sound : handler_sound (fun ps => [(p ps 1, p ps 2); (p ps 3, 4)]) (sessionOutput statusCode).
Proof.
  apply onSession_sound. intros B s memory ps Hm Hs. slices Hm; try by eexists _, _, _.
  destruct (len (output _) =? 0).
  - eexists _, _, _. split; [done|]. split; [done|]. apply touches_copy; [apply touches_refl | within | right; left].
  - eexists _, _, _. split; [done|]. split.
    + by apply (live_core B s (DoConsumeOutput (Z.min (p ps 2) (len (output (core (asession s))))))).
    + assert (touches [(p ps 1, p ps 2); (p ps 3, 4)] memory (copyTo memory (p ps 1, p ps 2) (output (core (asession s))))) as Ht.
      { apply touches_copy; [apply touches_refl | within | left]. }
      apply touches_copy; [exact Ht | | right; left]. eapply inside_touched; [exact Ht | within].
Qed.

(** The functions that read headers and then act on the session. *)
Lemma readABI_cases memory ptr n limits :
  memory_ok memory -> in_u32 ptr -> in_u32 n ->
  (exists headers, readABIHeaders memory ptr n limits = Some (inl headers)) \/ (exists st, readABIHeaders memory ptr n limits = Some (inr st)).
Proof. intros Hm Hp Hn. destruct (readABIHeaders_total memory ptr n limits Hm Hp Hn) as [[h|st] E]; eauto. Qed.

Lemma storeStream_sound B regions s memory out c id err :
  live B (withCore s c) -> inside memory out -> out ∈ regions ->
  exists s' memory' status, storeStream s memory out (c, (id, err)) = Some (s', memory', status) /\ live B s' /\ touches regions memory memory'.
Proof.
  intros Hs Ho Hin. unfold storeStream. eexists _, _, _. split; [done|]. split; [done|].
  destruct err; [apply touches_refl | by apply touches_copy; [apply touches_refl|..]].
Qed.

Lemma streamOpen_sound : handler_sound (fun ps => [(p ps 4, 4)]) (streamOpen statusCode).
Proof.
  apply onSession_sound. intros B s memory ps Hm Hs.
  destruct (readABI_cases memory (p ps 1) (p ps 2) (headerLimits s) Hm (param_range _ _) (param_range _ _)) as [[hs ->]|[st ->]];
    cbn [mbind option_bind]; slices Hm; try by eexists _, _, _.
  pose proof (live_core B s (DoOpenStream hs (endStreamFlag (p ps 3))) _ Hs I eq_refl) as Hl.
  destruct (OpenStream _ _ _) as [c [id err]]. apply storeStream_sound; [exact Hl | within | left].
Qed.

Lemma streamPush_sound : handler_sound (fun ps => [(p ps 4, 4)]) (streamPush statusCode).
Proof.
  apply onSession_sound. intros B s memory ps Hm Hs.
  destruct (readABI_cases memory (p ps 2) (p ps 3) (headerLimits s) Hm (param_range _ _) (param_range _ _)) as [[hs ->]|[st ->]];
    cbn [mbind option_bind]; slices Hm; try by eexists _, _, _.
  pose proof (live_core B s (DoPushPromise (p ps 1) hs) _ Hs I eq_refl) as Hl.
  destruct (PushPromise _ _ _) as [c [id err]]. apply storeStream_sound; [exact Hl | within | left].
Qed.

Lemma streamHeaders_sound : handler_sound (fun _ => []) (streamHeaders statusCode).
Proof.
  apply onSession_sound. intros B s memory ps Hm Hs.
  destruct (readABI_cases memory (p ps 2) (p ps 3) (headerLimits s) Hm (param_range _ _) (param_range _ _)) as [[hs ->]|[st ->]];
    cbn [mbind option_bind]; [|by eexists _, _, _].
  pose proof (live_core B s (DoSendHeaders (p ps 1) hs (endStreamFlag (p ps 4))) _ Hs I eq_refl) as Hl.
  destruct (SendHeaders _ _ _ _) as [c err]. by eexists _, _, _.
Qed.

Lemma streamData_sound : handler_sound (fun ps => [(p ps 5, 4)]) (streamData statusCode).
Proof.
  apply onSession_sound. intros B s memory ps Hm Hs. slices Hm; try by eexists _, _, _.
  set (data := load memory _).
  pose proof (live_core B s (DoSendData (p ps 1) data (endStreamFlag (p ps 4))) _ Hs I eq_refl) as Hl.
  destruct (SendData _ _ _ _) as [c [n err]]. eexists _, _, _. split; [done|]. split; [exact Hl|].
  apply touches_copy; [apply touches_refl | within | left].
Qed.

Lemma sessionSettings_sound : handler_sound (fun _ => []) (sessionSettings statusCode).
Proof.
  apply onSession_sound. intros B s memory ps Hm Hs. cbv zeta. destruct (Z.ltb_spec 64 (p ps 2)) as [|Hc]; [by eexists _, _, _|].
  pose proof (param_range ps 2) as Hn. unfold in_u32, ABISettingV1Size in *. rewrite u32_small by (unfold MaxUint32 in *; lia).
  rewrite abiMemory_eq by first [apply Hm | apply param_range | unfold in_u32, MaxUint32 in *; lia]. cbn [mbind option_bind].
  destruct (Z.ltb_spec (len memory) (p ps 1 + p ps 2 * 8)); [by eexists _, _, _|].
  set (xs := readSettings _ _). assert (Forall value_typed xs) as Hxs.
  { apply readSettings_typed; [apply load_bytes, Hm|].
    pose proof (load_length memory (p ps 1, p ps 2 * 8) ltac:(pose proof (param_range ps 1) as H'; unfold in_u32 in H'; split; [|split]; cbn; lia)) as Hl.
    unfold len in Hl. cbn [snd] in Hl. lia. }
  pose proof (live_run B s (DoUpdateSettings xs) _ Hs Hxs eq_refl) as Hl. destruct (UpdateSettings _ _) as [ss err]. by eexists _, _, _.
Qed.

Lemma sessionPing_sound : handler_sound (fun _ => []) (sessionPing statusCode).
Proof.
  apply onSession_sound. intros B s memory ps Hm Hs. slices Hm; [by eexists _, _, _|]. set (data := load memory _).
  assert (length data = 8%nat) as Hd.
  { pose proof (load_length memory (p ps 1, 8) ltac:(within)) as Hl. fold data in Hl. unfold len in Hl. cbn [snd] in Hl. lia. }
  pose proof (live_core B s (DoPing data) _ Hs Hd eq_refl) as Hl. destruct (Ping _ _) as [c err]. by eexists _, _, _.
Qed.

Lemma sessionGoAway_sound : handler_sound (fun _ => []) (sessionGoAway statusCode).
Proof.
  apply onSession_sound. intros B s memory ps Hm Hs. slices Hm; [by eexists _, _, _|]. set (data := load memory _).
  pose proof (live_core B s (DoGoAway (p ps 1) data) _ Hs I eq_refl) as Hl.
  destruct (GoAway _ _ _) as [c err]. by eexists _, _, _.
Qed.

Lemma streamPriorityUpdate_sound : handler_sound (fun _ => []) (streamPriorityUpdate statusCode).
Proof.
  apply onSession_sound. intros B s memory ps Hm Hs. slices Hm; [by eexists _, _, _|]. set (data := load memory _).
  pose proof (live_core B s (DoPriorityUpdate (p ps 1) data) _ Hs I eq_refl) as Hl.
  destruct (PriorityUpdate _ _ _) as [c err]. by eexists _, _, _.
Qed.

Lemma streamReset_sound : handler_sound (fun _ => []) (streamReset statusCode).
Proof.
  apply onSession_sound. intros B s memory ps Hm Hs.
  pose proof (live_core B s (DoResetStream (p ps 1) (p ps 2)) _ Hs I eq_refl) as Hl.
  destruct (ResetStream _ _ _) as [c err]. by eexists _, _, _.
Qed.

Lemma eventNext_sound : handler_sound (fun ps => [(p ps 1, 32)]) (eventNext statusCode).
Proof.
  apply onSession_sound. intros B s memory ps Hm Hs. unfold ABIEventV1Size. slices Hm; [by eexists _, _, _|].
  pose proof (live_core B s DoNextEvent _ Hs I eq_refl) as Hl. destruct (NextEvent _) as [c [e|]].
  - eexists _, _, _. split; [done|]. split; [exact Hl|]. apply touches_copy; [apply touches_refl | within | left].
  - by eexists _, _, _.
Qed.

Lemma eventData_sound : handler_sound (fun ps => [(p ps 1, p ps 2); (p ps 3, 4)]) (eventData statusCode).
Proof.
  apply onSession_sound. intros B s memory ps Hm Hs. destruct (current s) as [e|]; [|by eexists _, _, _].
  slices Hm; try by eexists _, _, _. set (data := if isPing _ then _ else _).
  eexists _, _, _. split; [done|]. split; [done|].
  assert (touches [(p ps 1, p ps 2); (p ps 3, 4)] memory (copyTo memory (p ps 1, p ps 2) data)) as Ht.
  { apply touches_copy; [apply touches_refl | within | left]. }
  apply touches_copy; [exact Ht | | right; left]. eapply inside_touched; [exact Ht | within].
Qed.

Lemma eventHeader_sound :
  handler_sound (fun ps => [(p ps 2, p ps 3); (p ps 5, p ps 6); (p ps 4, 4); (p ps 7, 4)]) (eventHeader statusCode).
Proof.
  apply onSession_sound. intros B s memory ps Hm Hs. destruct (entryAt _ _ _) as [f|]; [|by eexists _, _, _].
  slices Hm; try by eexists _, _, _. set (regions := [_; _; _; _]).
  eexists _, _, _. split; [done|]. split; [done|]. fold regions.
  assert (touches regions memory (copyTo memory (p ps 2, p ps 3) (Name f))) as T1.
  { apply touches_copy; [apply touches_refl | within | left]. }
  pose proof (touches_copy regions memory _ (p ps 5, p ps 6) (FieldValue f) T1
    ltac:(eapply inside_touched; [exact T1 | within]) ltac:(right; left)) as T2.
  pose proof (touches_copy regions memory _ (p ps 4, 4) (le32 (u32 (len (Name f)))) T2
    ltac:(eapply inside_touched; [exact T2 | within]) ltac:(right; right; left)) as T3.
  apply touches_copy; [exact T3 | eapply inside_touched; [exact T3 | within] | right; right; right; left].
Qed.

Lemma eventSetting_sound : handler_sound (fun ps => [(p ps 2, 8)]) (eventSetting statusCode).
Proof.
  apply onSession_sound. intros B s memory ps Hm Hs. destruct (entryAt _ _ _) as [x|]; [|by eexists _, _, _].
  unfold ABISettingV1Size. slices Hm; [by eexists _, _, _|].
  eexists _, _, _. split; [done|]. split; [done|]. apply touches_copy; [apply touches_refl | within | left].
Qed.
End Calls.

(** ** Handles *)

Section Handles.
Context `{HP : Hpack}.

Definition taken (used : gmap Z abiSession) (h : Z) : Prop := h = 0 \/ is_Some (used !! h).

Lemma taken_spec used h : reflect (taken used h) ((h =? 0) || bool_decide (is_Some (used !! h))).
Proof.
  destruct (Z.eqb_spec h 0) as [->|Hne]; [by left; left|]. destruct (bool_decide_reflect (is_Some (used !! h))); [by left; right|].
  right. by intros [|].
Qed.

Lemma u32_eq x : u32 x = x mod 2 ^ 32.
Proof. exact eq_refl. Qed.

(** Different handles that are taken are at most one more than the sessions. *)
Lemma taken_count used (hs : list Z) : NoDup hs -> Forall (taken used) hs -> (length hs <= S (size used))%nat.
Proof.
  intros Hn Ht. rewrite <- (size_list_to_set (C := gset Z) hs Hn), <- size_dom.
  transitivity (size ({[0]} ∪ dom used : gset Z)).
  - apply subseteq_size. intros h Hh. apply elem_of_list_to_set in Hh. rewrite Forall_forall in Ht.
    apply elem_of_union. destruct (Ht h Hh) as [->|Hs]; [left; by apply elem_of_singleton | right; by apply elem_of_dom].
  - pose proof (size_union_alt ({[0]} : gset Z) (dom used)) as E. rewrite size_singleton in E.
    pose proof (subseteq_size (dom used ∖ {[0]}) (dom used) (subseteq_difference_l _ _ _ (reflexivity _))). lia.
Qed.

(** The handles the search visits. *)
Definition visited (start : Z) (j : nat) : list Z := (fun i => u32 (start + i)) <$> seqZ 0 (Z.of_nat j).

Lemma visited_NoDup start j : Z.of_nat j <= 2 ^ 32 -> NoDup (visited start j).
Proof.
  intros Hj. apply NoDup_fmap_2_strong; [|apply NoDup_seqZ]. intros x y Hx%elem_of_seqZ Hy%elem_of_seqZ E.
  rewrite !u32_eq in E. pose proof (Z.div_mod (start + x) (2 ^ 32)). pose proof (Z.div_mod (start + y) (2 ^ 32)).
  rewrite E in *. nia.
Qed.

Lemma visited_more used start j :
  (j <= S (size used))%nat -> Z.of_nat (size used) < MaxUint32 -> Forall (taken used) (visited start j) ->
  taken used (u32 (start + Z.of_nat j)) -> Forall (taken used) (visited start (S j)) /\ (j <= size used)%nat.
Proof.
  intros Hj Hsz Hv Hh. assert (Forall (taken used) (visited start (S j))) as Hv'.
  { unfold visited. rewrite seqZ_S, fmap_app. apply Forall_app. split; [exact Hv|]. constructor; [exact Hh | constructor]. }
  split; [done|]. assert (length (visited start (S j)) = S j) as Hl by (unfold visited; rewrite length_fmap, length_seqZ; lia).
  pose proof (taken_count used _ (visited_NoDup start (S j) ltac:(unfold MaxUint32 in *; lia)) Hv'). lia.
Qed.

Lemma not_taken used h : in_u32 h -> ~ taken used h -> 0 < h <= MaxUint32 /\ used !! h = None.
Proof. unfold taken, in_u32. intros Hr Hn. split; [lia|]. apply eq_None_not_Some. tauto. Qed.

Lemma findHandle_from used start j fuel :
  Z.of_nat (size used) < MaxUint32 -> in_u32 start -> (fuel + j = S (size used))%nat -> Forall (taken used) (visited start j) ->
  exists h, findHandle fuel used start (u32 (start + Z.of_nat j)) = Some (Some h) /\ 0 < h <= MaxUint32 /\ used !! h = None.
Proof.
  intros Hsz Hst. revert j. induction fuel as [|fuel IH]; intros j Hf Hv; cbn [findHandle];
    (destruct (taken_spec used (u32 (start + Z.of_nat j))) as [Hh|Hh];
     [apply (visited_more used start j) in Hh as [Hv' Hj]; [|lia | done | done]|]).
  - lia.
  - eexists. split; [done|]. apply not_taken; [apply u32_range | done].
  - rewrite !u32_eq, Z.add_mod_idemp_l, <- !u32_eq by lia. replace (start + Z.of_nat j + 1) with (start + Z.of_nat (S j)) by lia.
    destruct (Z.eqb_spec (u32 (start + Z.of_nat (S j))) start) as [E|]; [|apply IH; [lia | done]].
    exfalso. rewrite u32_eq in E. pose proof (Z.div_mod (start + Z.of_nat (S j)) (2 ^ 32)). unfold in_u32, MaxUint32 in *. nia.
  - eexists. split; [done|]. apply not_taken; [apply u32_range | done].
Qed.

(** The search ends with a handle that is free. *)
Lemma findHandle_spec used start :
  Z.of_nat (size used) < MaxUint32 -> in_u32 start ->
  exists h, findHandle (S (size used)) used start start = Some (Some h) /\ 0 < h <= MaxUint32 /\ used !! h = None.
Proof.
  intros Hsz Hst. destruct (findHandle_from used start 0 (S (size used)) Hsz Hst ltac:(lia) ltac:(constructor)) as (h & H).
  exists h. rewrite Z.add_0_r, u32_small in H by done. exact H.
Qed.
End Handles.

(** ** All calls *)

Section All.
Context `{HP : Hpack} `{RO : !RangeOrder} `{HF : !HpackFits} (statusCode : Status -> Z).

Lemma NewSessionRole_live m r session :
  manager_ok m -> NewSessionRole r m.(config).(csession) = inl session -> state_ok (sessionBounds m) session.
Proof.
  intros (Hl & _) E. unfold NewSessionRole in E. destruct (roleOf r) as [role|]; [|done].
  destruct (NewSession_ok role _ session Hl E) as (Hok & _ & _ & _ & Es). left. split; [done|]. by rewrite Es.
Qed.

Lemma sessionOpen_sound : handler_sound (fun ps => [(param ps 1, 4)]) (sessionOpen statusCode).
Proof.
  intros m host ps results Hok Hm. unfold sessionOpen. cbv zeta.
  destruct (negb (len ps =? 2) || negb (len results =? 1)) eqn:Ea; [by exists m, (hostMemory host), results|].
  apply orb_false_elim in Ea as [_ Hr%negb_false_iff%Z.eqb_eq].
  assert (forall c : Z, length [c] = length results) as Hone by (intros c; unfold len in Hr; cbn; lia).
  destruct (caller m host) as [m1 [[i state]|st]] eqn:Ec; apply caller_spec in Ec as ([Hok1 Ecfg] & Hiso & Hr1); try done.
  2: { by eexists _, _, _. }
  destruct Hr1 as (Ei & Em & _ & Hst). slices Hm; [by eexists _, _, _|].
  destruct (Z.leb_spec (maxSessions (config m1)) (u32 (Z.of_nat (size (sessions state))))) as [|Hlt]; [by eexists _, _, _|].
  destruct (NewSessionRole _ _) as [session|err] eqn:Es; [|by eexists _, _, _].
  apply (NewSessionRole_live m1) in Es; [|done]. pose proof Hok1 as (_ & HM & _). destruct Hst as (Hn & Hsz & Hall).
  rewrite Ecfg in *. rewrite u32_small in Hlt by lia.
  destruct (findHandle_spec (sessions state) (next state)) as (h & -> & Hh & Hfree); [lia | done|]. cbn [mbind option_bind].
  eexists _, _, _. split; [done|]. split; [split; [|done]|split; [|split; [done|]]].
  - apply setInstance_ok; [done|]. split; [apply u32_range|]. cbn [sessions next]. rewrite Ecfg. split; [rewrite map_size_insert_None by done; lia|].
    apply map_Forall_insert_2; [split; [done | exact Es]|]. unfold sessionBounds in *. by rewrite Ecfg.
  - apply touches_copy; [apply touches_refl | within | left].
  - intros j Hj. cbn. rewrite lookup_insert_ne by congruence. by apply Hiso.
Qed.

Lemma sessionClose_sound : handler_sound (fun _ => []) (sessionClose statusCode).
Proof.
  intros m host ps results Hok Hm. unfold sessionClose. cbv zeta.
  destruct (negb (len ps =? 1) || negb (len results =? 1)) eqn:Ea; [by exists m, (hostMemory host), results|].
  apply orb_false_elim in Ea as [_ Hr%negb_false_iff%Z.eqb_eq].
  assert (forall c : Z, length [c] = length results) as Hone by (intros c; unfold len in Hr; cbn; lia).
  destruct (caller m host) as [m1 [[i state]|st]] eqn:Ec; apply caller_spec in Ec as ([Hok1 Ecfg] & Hiso & Hr1); try done.
  2: { by eexists _, _, _. }
  destruct Hr1 as (Ei & Em & _ & Hn & Hsz & Hall). set (state' := mkAbiInstance _ _).
  assert (exists st, match sessions state !! param ps 0 with
    | None => answer_ statusCode (setInstance m1 i state') (hostMemory host) StatusBadHandle
    | Some _ => answer_ statusCode (setInstance m1 i state') (hostMemory host) StatusOK end
    = Some (setInstance m1 i state', hostMemory host, [statusCode st])) as [st ->] by (destruct (sessions state !! _); by eexists).
  eexists _, _, _. split; [done|]. split; [split; [|done]|split; [done|split; [done|]]].
  - apply setInstance_ok; [done|]. unfold sessionBounds. rewrite Ecfg. split; [done|]. cbn. split.
    + pose proof (map_size_delete (param ps 0) (sessions state)) as Hd. rewrite Hd. destruct (sessions state !! _); cbn [id]; lia.
    + by apply map_Forall_delete.
  - intros j Hj. cbn. rewrite lookup_insert_ne by congruence. by apply Hiso.
Qed.

Lemma constant_sound (v : Z) :
  handler_sound (fun _ => []) (fun m host params results =>
    if (len params =? 0) && (len results =? 1) then Some (m, host.(hostMemory), [v]) else Some (m, host.(hostMemory), results)).
Proof.
  intros m host ps results Hok Hm. destruct ((len ps =? 0) && (len results =? 1)) eqn:E; [|by eexists _, _, _].
  apply andb_prop in E as [_ E%Z.eqb_eq]. eexists _, _, _. split; [done|]. split; [done|]. split; [done|]. split; [|done]. unfold len in E. cbn. lia.
Qed.

(** The ranges a call may write to, from its parameters. *)
Definition outputs (c : HostCall) (ps : list Z) : list Slice :=
  let p := param ps in
  match c with
  | CallSessionOpen => [(p 1, 4)]
  | CallSessionFeed => [(p 3, 4)]
  | CallSessionOutput | CallEventData => [(p 1, p 2); (p 3, 4)]
  | CallStreamOpen | CallStreamPush => [(p 4, 4)]
  | CallStreamData => [(p 5, 4)]
  | CallEventNext => [(p 1, 32)]
  | CallEventHeader => [(p 2, p 3); (p 5, p 6); (p 4, 4); (p 7, 4)]
  | CallEventSetting => [(p 2, 8)]
  | _ => []
  end.

Lemma handler_ok c : handler_sound (outputs c) (handler statusCode c).
Proof.
  destruct c; cbn [handler]; [apply constant_sound | apply constant_sound | apply sessionOpen_sound | apply sessionClose_sound
    | apply sessionFeed_sound | apply sessionOutput_sound | apply streamOpen_sound | apply streamHeaders_sound | apply streamData_sound
    | apply streamPush_sound | apply streamReset_sound | apply streamPriorityUpdate_sound | apply sessionSettings_sound
    | apply sessionPing_sound | apply sessionGoAway_sound | apply eventNext_sound | apply eventData_sound | apply eventHeader_sound
    | apply eventSetting_sound].
Qed.

(** The managers a runtime can hold: calls of any instance with any arguments,
    and the hooks. *)
Inductive manager_reachable (c : registerConfig) : abiManager -> Prop :=
  | reach_manager : manager_reachable c (newABIManager c)
  | reach_call m k host params results m' memory' results' :
      manager_reachable c m -> memory_ok host.(hostMemory) -> handler statusCode k m host params results = Some (m', memory', results') ->
      manager_reachable c m'
  | reach_closeInstance m i : manager_reachable c m -> manager_reachable c (closeInstance m i).1
  | reach_closeAll m : manager_reachable c m -> manager_reachable c (closeAll m).1.

Lemma normalized_typed l : session_limits_typed l -> session_limits_typed (normalizedSession l).
Proof.
  intros Hl. pose proof (normalizedSession_ok l Hl) as (HF1 & HH & _ & S3 & S2 & S4 & S5 & S6 & S7).
  destruct Hl as (_ & (_ & _ & _ & HMH) & (S1 & _)).
  assert (in_u32 (MaxConcurrentStreams (normalizedSession l))) as HC by (unfold normalizedSession; cbn; destruct (_ =? 0); [by vm_compute | done]).
  assert (0 <= MaxHeaders (Header (normalizedSession l)) < MaxUint32) as HM.
  { unfold normalizedSession, normalizedHeader. cbn. destruct (_ =? 0); [by vm_compute | done]. }
  destruct HF1 as (F1 & F2 & F3). destruct HH as (D1 & D2 & D3 & _). unfold session_limits_typed, in_u32, in_u64 in *.
  rewrite maxFrameSize_eq in F1. unfold MaxInt32, MaxUint32, MaxUint64 in *. lia.
Qed.

Lemma reachable_manager c m :
  session_limits_typed c.(csession) -> in_u32 c.(maxSessions) -> manager_reachable c m ->
  manager_ok m /\ m.(config) = (newABIManager c).(config).
Proof.
  intros Hl Hmax. induction 1 as [|m k host params results m' memory' results' _ [IH Ec] Hm E|m [i|] _ [IH Ec]|m _ [IH Ec]].
  - split; [|done]. split; [by apply normalized_typed|]. split; [|apply map_Forall_empty].
    cbn. unfold in_u32 in Hmax. destruct (Z.eqb_spec (maxSessions c) 0); [by vm_compute | lia].
  - destruct (handler_ok k m host params results IH Hm) as (m1 & mem1 & r1 & E1 & [H1 H2] & _). rewrite E in E1. injection E1 as -> -> ->.
    split; [done | congruence].
  - split; [|done]. destruct IH as (H1 & H2 & H3). split; [done|]. split; [done|]. by apply map_Forall_delete.
  - done.
  - split; [|done]. destruct IH as (H1 & H2 & _). split; [done|]. split; [done | apply map_Forall_empty].
Qed.
End All.
