(* ===== verification/H2AbiProps.v ===== *)
(** * HTTP/2: the properties of the guest bindings

    What the runtime and a guest rely on of [src/http2/abi.go]: calls are safe,
    sessions stay within their bounds, handles name one live session, and the
    header array of a guest is read as it was laid out. *)

From stdpp Require Import gmap.
From S2P Require Import Prelude Registration H2Frame H2FrameWf H2FrameSpec H2Hpack H2Headers H2Session H2SessionTable H2SessionWf H2SessionInbound H2SessionOutbound H2SessionLife H2SessionProps H2Abi H2AbiSound.
Open Scope Z_scope.

(** ** A guest's header array *)

(** The strings of the fields, one after the other. *)
Definition headerStrings (fields : list HeaderField) : list Z := concat (map (fun f => f.(Name) ++ f.(FieldValue)) fields).

(** The entries, for strings that start at [off]. *)
Fixpoint headerEntries (off : Z) (fields : list HeaderField) : list Z :=
  match fields with
  | [] => []
  | f :: fields =>
      le32 off ++ le32 (len f.(Name)) ++ le32 (off + len f.(Name)) ++ le32 (len f.(FieldValue))
      ++ le32 (if f.(Sensitive) then 1 else 0) ++ le32 0
      ++ headerEntries (off + len f.(Name) + len f.(FieldValue)) fields
  end.

(** The array at [base] with its strings behind it. *)
Definition headerArray (base : Z) (fields : list HeaderField) : list Z :=
  headerEntries (base + 24 * len fields) fields ++ headerStrings fields.

(** The size RFC 9113 counts. *)
Definition sectionSize (fields : list HeaderField) : Z :=
  fold_right (fun f n => len f.(Name) + len f.(FieldValue) + 32 + n) 0 fields.

Definition fields_fit (limits : HeaderLimits) (fields : list HeaderField) : Prop :=
  len fields <= limits.(MaxHeaders) /\ sectionSize fields <= limits.(MaxHeaderListBytes) /\
  Forall (fun f => len f.(Name) <= limits.(MaxFieldBytes) /\ len f.(FieldValue) <= limits.(MaxFieldBytes)) fields.

Lemma sectionSize_nonneg fields : 0 <= sectionSize fields.
Proof.
  induction fields as [|f fields IH]; [done|]. cbn [sectionSize fold_right]. fold (sectionSize fields).
  pose proof (len_nonneg (Name f)). pose proof (len_nonneg (FieldValue f)). lia.
Qed.

Lemma headerEntries_length off fields : length (headerEntries off fields) = (24 * length fields)%nat.
Proof. revert off. induction fields as [|f fields IH]; intros off; [done|]. cbn [headerEntries length]. cbn. rewrite IH. lia. Qed.

(** A string of the memory. *)
Lemma load_string memory off s tail :
  0 <= off -> drop (Z.to_nat off) memory = s ++ tail -> load memory (off, len s) = s.
Proof. intros Ho E. unfold load. cbn [fst snd]. rewrite E. unfold len. rewrite Nat2Z.id. apply take_app_length. Qed.

Lemma drop_more {A} (m : list A) k x y : drop k m = x ++ y -> drop (k + length x) m = y.
Proof. intros E. rewrite <- drop_drop, E. apply drop_app_length. Qed.

(** One entry. *)
Definition headerEntry (np nl vp vl flags : Z) : list Z := le32 np ++ le32 nl ++ le32 vp ++ le32 vl ++ le32 flags ++ le32 0.

Lemma readHeader_entry memory limits np (name : list Z) vp (value : list Z) (sensitive : bool) size :
  len memory <= MaxUint32 -> 0 <= np -> 0 <= vp -> np + len name <= len memory -> vp + len value <= len memory ->
  load memory (np, len name) = name -> load memory (vp, len value) = value ->
  len name <= limits.(MaxFieldBytes) -> len value <= limits.(MaxFieldBytes) ->
  0 <= size -> size + len name + len value + 32 <= limits.(MaxHeaderListBytes) <= MaxUint64 ->
  readHeader memory (headerEntry np (len name) vp (len value) (if sensitive then 1 else 0)) limits size =
    Some (inl (mkHeaderField name value sensitive, size + len name + len value + 32)).
Proof.
  intros Hm Hnp Hvp Hn Hv Ln Lv Fn Fv Hs Hl. pose proof (len_nonneg name). pose proof (len_nonneg value). unfold readHeader.
  set (flags := if sensitive then 1 else 0).
  change (take 4 (headerEntry np (len name) vp (len value) flags)) with (le32 np).
  change (take 4 (drop 4 (headerEntry np (len name) vp (len value) flags))) with (le32 (len name)).
  change (take 4 (drop 8 (headerEntry np (len name) vp (len value) flags))) with (le32 vp).
  change (take 4 (drop 12 (headerEntry np (len name) vp (len value) flags))) with (le32 (len value)).
  change (take 4 (drop 16 (headerEntry np (len name) vp (len value) flags))) with (le32 flags).
  rewrite !getLe32_le32 by (unfold in_u32, MaxUint32 in *; first [lia | unfold flags; destruct sensitive; lia]).
  rewrite !abiMemory_eq by (unfold in_u32, MaxUint32 in *; lia). cbn [mbind option_bind].
  rewrite (proj2 (Z.ltb_ge (len memory) _)), (proj2 (Z.ltb_ge (len memory) _)) by lia. cbv zeta. rewrite Ln, Lv.
  rewrite (proj2 (Z.ltb_ge (MaxFieldBytes limits) _)), (proj2 (Z.ltb_ge (MaxFieldBytes limits) _)) by lia. cbn [orb].
  rewrite (u64_small (len name)), (u64_small (len value)), (u64_small (len name + len value)),
    (u64_small (len name + len value + 32)), (u64_small (size + (len name + len value + 32))) by lia.
  rewrite (proj2 (Z.ltb_ge (MaxHeaderListBytes limits) _)) by lia. do 3 f_equal; [|lia]. unfold flags. by destruct sensitive.
Qed.

Lemma readHeaders_array memory limits fields off size tail :
  len memory <= MaxUint32 -> 0 <= off -> drop (Z.to_nat off) memory = headerStrings fields ++ tail ->
  off + len (headerStrings fields) <= len memory ->
  0 <= size -> size + sectionSize fields <= limits.(MaxHeaderListBytes) <= MaxUint64 ->
  Forall (fun f => len f.(Name) <= limits.(MaxFieldBytes) /\ len f.(FieldValue) <= limits.(MaxFieldBytes)) fields ->
  readHeaders memory limits (length fields) (headerEntries off fields) size = Some (inl fields).
Proof.
  intros Hm. revert off size. induction fields as [|f fields IH]; intros off size Ho E Hend Hs Hsz Hf; [done|].
  cbn [length readHeaders headerEntries]. apply Forall_cons_1 in Hf as [[Hn Hv] Hf]. cbn [sectionSize fold_right] in Hsz. fold (sectionSize fields) in Hsz.
  pose proof (sectionSize_nonneg fields). pose proof (len_nonneg (Name f)). pose proof (len_nonneg (FieldValue f)).
  pose proof (len_nonneg (headerStrings fields)).
  assert (headerStrings (f :: fields) = Name f ++ FieldValue f ++ headerStrings fields) as Es
    by (unfold headerStrings; cbn; by rewrite <- app_assoc).
  rewrite Es in E, Hend. rewrite !len_app in Hend. rewrite <- !app_assoc in E.
  pose proof (drop_more _ _ _ _ E) as E1. pose proof (drop_more _ _ _ _ E1) as E2.
  assert (Z.to_nat off + length (Name f) = Z.to_nat (off + len (Name f)))%nat as K1 by (unfold len in *; lia).
  assert (Z.to_nat (off + len (Name f)) + length (FieldValue f) = Z.to_nat (off + len (Name f) + len (FieldValue f)))%nat as K2 by (unfold len in *; lia).
  rewrite K1 in E1, E2. rewrite K2 in E2.
  set (rest := headerEntries _ fields). set (entry := headerEntry off (len (Name f)) (off + len (Name f)) (len (FieldValue f)) (if Sensitive f then 1 else 0)).
  change (le32 off ++ _) with (entry ++ rest). change (take 24 (entry ++ rest)) with entry. change (drop 24 (entry ++ rest)) with rest.
  unfold entry. rewrite readHeader_entry; [| done | done | lia | lia | lia | by eapply load_string | eapply load_string; [lia | done] | done | done | lia | lia].
  cbn [mbind option_bind]. unfold rest. rewrite IH; [| lia | done | lia | lia | lia | done]. cbn [mbind option_bind]. by destruct f.
Qed.

Lemma readABIHeaders_array pre post fields limits :
  let memory := pre ++ headerArray (len pre) fields ++ post in
  len memory <= MaxUint32 -> fields_fit (normalizedHeader limits) fields -> (normalizedHeader limits).(MaxHeaderListBytes) <= MaxUint64 ->
  readABIHeaders memory (len pre) (len fields) limits = Some (inl fields).
Proof.
  intros memory Hm (F1 & F2 & F3) Hl. unfold readABIHeaders. cbv zeta.
  assert (len memory = len pre + 24 * len fields + len (headerStrings fields) + len post) as Hlen.
  { unfold memory, headerArray. rewrite !len_app. unfold len. rewrite headerEntries_length. lia. }
  pose proof (len_nonneg pre) as P1. pose proof (len_nonneg post) as P2. pose proof (len_nonneg fields) as P3. pose proof (len_nonneg (headerStrings fields)) as P4.
  unfold ABIHeaderV1Size. rewrite u64_small, u32_small by (unfold MaxUint32, MaxUint64 in *; lia).
  rewrite (proj2 (Z.ltb_ge (MaxHeaders _) _)), (proj2 (Z.ltb_ge MaxUint32 _)) by lia. cbn [orb].
  rewrite abiMemory_eq by (unfold in_u32; lia). cbn [mbind option_bind]. rewrite (proj2 (Z.ltb_ge (len memory) _)) by lia.
  assert (load memory (len pre, len fields * 24) = headerEntries (len pre + 24 * len fields) fields) as ->.
  { replace (len fields * 24) with (len (headerEntries (len pre + 24 * len fields) fields)) by (unfold len; rewrite headerEntries_length; lia).
    apply (load_string memory (len pre) _ (headerStrings fields ++ post)); [lia|]. unfold memory, headerArray, len. rewrite Nat2Z.id, drop_app_length.
    by rewrite <- app_assoc. }
  unfold len at 1. rewrite Nat2Z.id. apply (readHeaders_array _ _ _ _ _ post); [done | lia | | lia | lia | lia | done].
  unfold memory, headerArray. rewrite <- app_assoc, app_assoc. apply drop_app_length'. rewrite length_app, headerEntries_length. unfold len. lia.
Qed.

(** ** Handles *)

Section Lifecycle.
Context `{HP : Hpack} `{RO : !RangeOrder} `{HF : !HpackFits} (statusCode : Status -> Z).

Definition config_typed (c : registerConfig) : Prop := session_limits_typed c.(csession) /\ in_u32 c.(maxSessions).

Lemma load_copy memory s data : inside memory s -> len data = s.2 -> load (copyTo memory s data) s = data.
Proof.
  intros (H1 & H2 & H3) Hd. unfold load, copyTo, len in *.
  assert (length (take (Z.to_nat s.1) memory) = Z.to_nat s.1) as Hl by (rewrite length_take; lia).
  rewrite drop_app_length' by done. rewrite (take_ge data) by lia. apply take_app_length'. lia.
Qed.

(** What [sessionOpen] has done when it succeeds. *)
Lemma sessionOpen_success m i memory role out r m1 memory1 :
  manager_ok m -> memory_ok memory -> (forall st, statusCode st = statusCode StatusOK -> st = StatusOK) ->
  sessionOpen statusCode m (mkHost (Some i) memory) [role; out] [r] = Some (m1, memory1, [statusCode StatusOK]) ->
  exists h state session, load memory1 (u32 out, 4) = le32 h /\ 0 < h <= MaxUint32 /\
    (forall old, m.(instances) !! i = Some old -> old.(sessions) !! h = None) /\
    m1.(instances) !! i = Some state /\ state.(sessions) !! h = Some (mkAbiSession session None) /\
    NewSessionRole (u8 (u32 role)) m.(config).(csession) = inl session.
Proof.
  intros Hok Hm Hinj. unfold sessionOpen. change (negb (len [role; out] =? 2) || negb (len [r] =? 1)) with false. cbv iota zeta.
  change (hostMemory (mkHost (Some i) memory)) with memory. change (param [role; out] 1) with (u32 out). change (param [role; out] 0) with (u32 role).
  assert (forall m' mem st, answer_ statusCode m' mem st = Some (m1, memory1, [statusCode StatusOK]) -> st = StatusOK) as Hst
    by (intros m' mem st [= _ _ E]; by apply Hinj).
  destruct (caller m _) as [m0 [[i' state]|st]] eqn:Ec; apply caller_spec in Ec as ([Hok1 Ecfg] & Hiso & Hr1); try done.
  destruct Hr1 as ([= <-] & Em & Hold & Hn & Hsz & Hall). rewrite abiMemory_eq by first [apply Hm | apply u32_range | by vm_compute].
  cbn [mbind option_bind]. destruct (Z.ltb_spec (len memory) (u32 out + 4)); [by intros ?%Hst|].
  destruct (Z.leb_spec (maxSessions (config m0)) (u32 (Z.of_nat (size (sessions state))))) as [|Hlt]; [by intros ?%Hst|].
  rewrite Ecfg in *. destruct (NewSessionRole _ _) as [session|err] eqn:Es; [|intros E%Hst; by destruct err].
  pose proof Hok as (_ & HM & _). rewrite u32_small in Hlt by lia.
  destruct (findHandle_spec (sessions state) (next state)) as (h & -> & Hh & Hfree); [lia | done|]. cbn [mbind option_bind].
  intros [= <- <-]. exists h. do 2 eexists. split_and!; [| lia | lia | | apply lookup_insert_eq | apply lookup_insert_eq | done].
  - apply load_copy; [|done]. pose proof (u32_range out). split; [|split]; cbn; lia.
  - intros old Ho. by rewrite (Hold old Ho).
Qed.

(** Closing a session that is there. *)
Lemma sessionClose_live m i memory h r state s :
  in_u32 h -> m.(instances) !! i = Some state -> state.(sessions) !! h = Some s ->
  exists m2, sessionClose statusCode m (mkHost (Some i) memory) [h] [r] = Some (m2, memory, [statusCode StatusOK]) /\
    m2.(instances) !! i = Some (mkAbiInstance state.(next) (delete h state.(sessions))).
Proof.
  intros Hh Hi Hs. unfold sessionClose. change (negb (len [h] =? 1) || negb (len [r] =? 1)) with false. cbv iota zeta.
  unfold caller. cbn [hostInstance]. rewrite Hi. change (param [h] 0) with (u32 h). rewrite u32_small by done. rewrite Hs.
  eexists. split; [done|]. apply lookup_insert_eq.
Qed.

(** A handle that names nothing. *)
Lemma onSession_bad m i memory arity body params r state :
  m.(instances) !! i = Some state -> state.(sessions) !! param params 0 = None -> len params = arity ->
  onSession statusCode arity body m (mkHost (Some i) memory) params [r] = Some (m, memory, [statusCode StatusBadHandle]).
Proof.
  intros Hi Hs Ha. unfold onSession. rewrite (proj2 (Z.eqb_eq _ _) Ha). change (len [r] =? 1) with true. cbn [negb orb].
  unfold lookup_, caller. cbn [hostInstance]. by rewrite Hi, Hs.
Qed.

Lemma sessionClose_bad m i memory params r state :
  m.(instances) !! i = Some state -> state.(sessions) !! param params 0 = None -> len params = 1 ->
  sessionClose statusCode m (mkHost (Some i) memory) params [r] = Some (m, memory, [statusCode StatusBadHandle]).
Proof.
  intros Hi Hs Ha. unfold sessionClose. rewrite (proj2 (Z.eqb_eq _ _) Ha). change (len [r] =? 1) with true. cbn [negb orb].
  unfold caller. cbn [hostInstance hostMemory]. rewrite Hi, Hs, delete_id by done. unfold setInstance, answer_.
  replace (mkAbiInstance _ _) with state by (by destruct state). rewrite insert_id by done. by destruct m.
Qed.

(** Every function of the table that takes a handle looks it up first. *)
Lemma handler_bad b m i memory params r state :
  m.(instances) !! i = Some state -> state.(sessions) !! param params 0 = None ->
  b ∈ http2Bindings -> b.(guestName) ∉ [str "abi_version"; str "feature_flags"; str "session_open"] ->
  len params = len b.(guestParams) ->
  handler statusCode b.(guestCall) m (mkHost (Some i) memory) params [r] = Some (m, memory, [statusCode StatusBadHandle]).
Proof.
  intros Hi Hs Hb Hname Ha. unfold http2Bindings in Hb.
  repeat (apply elem_of_cons in Hb as [->|Hb];
    [first [by (eapply onSession_bad) | by (eapply sessionClose_bad)
           | exfalso; apply Hname; cbn [guestName]; by repeat first [apply list_elem_of_here | apply list_elem_of_further]]|]).
  by apply not_elem_of_nil in Hb.
Qed.
End Lifecycle.

(** ** Answers *)

Section Answers.
Context `{HP : Hpack} `{RO : !RangeOrder} (statusCode : Status -> Z).

(** A status, or one of the two constants. *)
Definition answered (results : list Z) : Prop :=
  (exists st, results = [statusCode st]) \/ results = [ABIVersion1] \/ results = [FeatureAll].

Lemma answer_answered m memory st m' memory' results' :
  answer_ statusCode m memory st = Some (m', memory', results') -> answered results'.
Proof. intros [= _ _ <-]. left. by eexists. Qed.

Lemma onSession_answered arity body m host params r m' memory' results' :
  len params = arity -> onSession statusCode arity body m host params [r] = Some (m', memory', results') -> answered results'.
Proof.
  intros Ha. unfold onSession. rewrite (proj2 (Z.eqb_eq _ _) Ha). change (len [r] =? 1) with true. cbn [negb orb].
  destruct (lookup_ _ _ _) as [m1 [[[i state] s]|st]]; [|apply answer_answered].
  destruct (body _ _ _) as [[[s' mem] st]|]; [|done]. apply answer_answered.
Qed.

Lemma sessionOpen_answered m host params r m' memory' results' :
  len params = 2 -> sessionOpen statusCode m host params [r] = Some (m', memory', results') -> answered results'.
Proof.
  intros Ha. unfold sessionOpen. rewrite Ha. change (negb (2 =? 2) || negb (len [r] =? 1)) with false. cbv iota zeta.
  destruct (caller _ _) as [m1 [[i state]|st]]; [|apply answer_answered]. destruct (abiMemory _ _ _) as [[out|]|]; cbn [mbind option_bind];
    [|apply answer_answered | done]. destruct (_ <=? _); [apply answer_answered|]. destruct (NewSessionRole _ _); [|apply answer_answered].
  destruct (findHandle _ _ _ _) as [[h|]|]; cbn [mbind option_bind]; [apply answer_answered | apply answer_answered | done].
Qed.

Lemma sessionClose_answered m host params r m' memory' results' :
  len params = 1 -> sessionClose statusCode m host params [r] = Some (m', memory', results') -> answered results'.
Proof.
  intros Ha. unfold sessionClose. rewrite Ha. change (negb (1 =? 1) || negb (len [r] =? 1)) with false. cbv iota zeta.
  destruct (caller _ _) as [m1 [[i state]|st]]; [|apply answer_answered]. destruct (sessions state !! _); apply answer_answered.
Qed.

(** With the parameters its binding declares, a call is not ignored. *)
Lemma handler_answered b m host params r m' memory' results' :
  b ∈ http2Bindings -> length params = length b.(guestParams) ->
  handler statusCode b.(guestCall) m host params [r] = Some (m', memory', results') -> answered results'.
Proof.
  intros Hb Hl. assert (len params = len (guestParams b)) as Ha by (unfold len; lia). clear Hl. unfold http2Bindings in Hb.
  repeat (apply elem_of_cons in Hb as [->|Hb]; [cbn [guestCall guestParams] in *;
    first [exact (onSession_answered _ _ _ _ _ _ _ _ _ Ha) | exact (sessionOpen_answered _ _ _ _ _ _ _ Ha)
      | exact (sessionClose_answered _ _ _ _ _ _ _ Ha)
      | cbn [handler]; unfold abiVersion, abiFeatureFlags; rewrite Ha; cbn; intros [= _ _ <-]; first [right; by left | right; by right]]|]).
  by apply not_elem_of_nil in Hb.
Qed.
End Answers.

(** ** Examples *)

Definition demoStatus (s : Status) : Z :=
  match s with
  | StatusOK => 0 | StatusInvalidState => 1 | StatusInvalidArgument => 2 | StatusResourceLimit => 3
  | StatusBadHandle => 4 | StatusAgain => 5 | StatusMessageTooLarge => 6 | StatusIO => 7
  end.

Definition demoConfig : registerConfig := mkRegisterConfig noLimits 2.

Lemma demoConfig_typed : config_typed demoConfig.
Proof. split; [apply noLimits_typed | by vm_compute]. Qed.

Definition demoGuest : list Z := replicate 64 0.

Lemma demoGuest_ok : memory_ok demoGuest.
Proof. split; [by apply Forall_replicate; vm_compute | by vm_compute]. Qed.

(** The manager after a guest has opened a client session. *)
Definition demoManager : abiManager (HP := plainHpack) :=
  match sessionOpen (HP := plainHpack) demoStatus (newABIManager demoConfig) (mkHost (Some 7) demoGuest) [1; 8] [0] with
  | Some (m, _, _) => m
  | None => newABIManager demoConfig
  end.

Definition demoGuest1 : list Z := copyTo demoGuest (8, 4) (le32 1).

Lemma demoOpened :
  sessionOpen (HP := plainHpack) demoStatus (newABIManager demoConfig) (mkHost (Some 7) demoGuest) [1; 8] [0] =
    Some (demoManager, demoGuest1, [0]).
Proof. vm_compute. reflexivity. Qed.

Lemma demoManager_reachable : manager_reachable (RO := mapOrder) demoStatus demoConfig demoManager.
Proof.
  eapply (reach_call (RO := mapOrder) demoStatus demoConfig _ CallSessionOpen (mkHost (Some 7) demoGuest) [1; 8] [0]);
    [apply reach_manager | apply demoGuest_ok | apply demoOpened].
Qed.

(** ** Claims *)

(** C15. Calls are safe: on any manager the runtime can hold, a call of any of the
    nineteen bindings by any guest with any parameters returns (no slice of
    the memory is out of order, no search runs on), keeps the length of the
    guest's memory (any size short of 4 GiB), changes no byte of it outside
    the output ranges the parameters name, and leaves the sessions of every
    other instance as they were; and with as many parameters as its binding
    declares it is not ignored: its one result is a status or a constant of the
    ABI. *)
Theorem abi_calls_safe `{HP : Hpack} `{RO : !RangeOrder} `{HF : !HpackFits} statusCode c m k host params results :
  config_typed c -> manager_reachable statusCode c m -> memory_ok host.(hostMemory) ->
  exists m' memory' results', handler statusCode k m host params results = Some (m', memory', results') /\
    length results' = length results /\ len memory' = len host.(hostMemory) /\
    (forall i : nat, Forall (fun r => ~ (r.1 <= Z.of_nat i < r.1 + r.2)) (outputs k params) -> memory' !! i = host.(hostMemory) !! i) /\
    (forall j, host.(hostInstance) <> Some j -> m'.(instances) !! j = m.(instances) !! j) /\
    (forall b r, b ∈ http2Bindings -> b.(guestCall) = k -> length params = length b.(guestParams) -> results = [r] ->
       answered statusCode results').
Proof.
  intros [Hl Hx] Hr Hm. destruct (reachable_manager statusCode c m Hl Hx Hr) as [Hok _].
  destruct (handler_ok statusCode k m host params results Hok Hm) as (m' & memory' & results' & E & _ & [T1 T2] & Hlen & Hiso).
  exists m', memory', results'. split_and!; [done..|]. intros b r Hb <- Hp ->. by eapply handler_answered.
Qed.

Lemma abi_calls_safe_witness :
  exists m' memory' results', handler (RO := mapOrder) demoStatus CallSessionOutput demoManager (mkHost (Some 7) demoGuest1) [1; 16; 30; 60] [0]
    = Some (m', memory', results') /\ len memory' = 64 /\ memory' !! 8%nat = Some 1.
Proof.
  assert (memory_ok demoGuest1) as Hm by (split; [apply (bool_decide_unpack _); by vm_compute | by vm_compute]).
  destruct (abi_calls_safe (RO := mapOrder) demoStatus demoConfig demoManager CallSessionOutput (mkHost (Some 7) demoGuest1) [1; 16; 30; 60] [0]
    demoConfig_typed demoManager_reachable Hm) as (m' & memory' & results' & H1 & _ & H2 & H3 & _).
  exists m', memory', results'. split; [exact H1|]. split; [rewrite H2; vm_compute; reflexivity|].
  rewrite (H3 8%nat); [vm_compute; reflexivity|]. apply (bool_decide_unpack _). vm_compute. exact I.
Defined.

(** C16. Bounded guests: whatever guests call and in whatever order, an instance
    holds at most the configured number of sessions, under handles that are
    not zero and fit 32 bits, and every one of them is within the configured
    limits of a session: queued output and events, the bytes they retain, and
    remembered streams. *)
Theorem abi_sessions_bounded `{HP : Hpack} `{RO : !RangeOrder} `{HF : !HpackFits} statusCode c m i state :
  config_typed c -> manager_reachable statusCode c m -> m.(instances) !! i = Some state ->
  Z.of_nat (size state.(sessions)) <= (if c.(maxSessions) =? 0 then 8 else c.(maxSessions)) /\
  forall h s, state.(sessions) !! h = Some s ->
    0 < h <= MaxUint32 /\ within (normalizedSession (normalizedSession c.(csession))) s.(asession).(core).
Proof.
  intros [Hl Hx] Hr Hi. destruct (reachable_manager statusCode c m Hl Hx Hr) as [(_ & _ & Hall) Ec].
  destruct (Hall i state Hi) as (_ & Hsz & Hs). unfold sessionBounds in Hs. rewrite Ec in Hsz, Hs. split; [exact Hsz|].
  intros h s Hh. destruct (Hs h s Hh) as [H1 H2]. split; [done|]. apply state_within; [|exact H2].
  by apply normalizedSession_ok, normalized_typed.
Qed.

Lemma abi_sessions_bounded_witness :
  exists state, demoManager.(instances) !! 7 = Some state /\ Z.of_nat (size state.(sessions)) <= 2 /\ is_Some (state.(sessions) !! 1).
Proof.
  destruct (demoManager.(instances) !! 7) as [state|] eqn:E; [|exfalso; revert E; vm_compute; discriminate].
  exists state. split; [reflexivity|]. split.
  - exact (proj1 (abi_sessions_bounded (RO := mapOrder) demoStatus demoConfig demoManager 7 state demoConfig_typed demoManager_reachable E)).
  - assert (bool_decide (is_Some (demoManager.(instances) !! 7 ≫= fun st => st.(sessions) !! 1)) = true) as H by (vm_compute; reflexivity).
    rewrite E in H. exact (bool_decide_eq_true_1 _ H).
Defined.

(** C17. Handles: when [session_open] succeeds, the guest finds in its memory a
    handle that named no session of its instance and now names a new one, whose
    role is the low byte of the one it asked for; [session_close] of it
    succeeds, and then every function of the table that takes a handle (all of
    them but the version, the features and [session_open]), called with the
    parameters its binding declares, reports a bad handle and changes
    nothing. *)
Theorem abi_handle_lifecycle `{HP : Hpack} `{RO : !RangeOrder} `{HF : !HpackFits} statusCode c m i memory role out r m1 memory1 :
  config_typed c -> manager_reachable statusCode c m -> memory_ok memory ->
  (forall st, statusCode st = statusCode StatusOK -> st = StatusOK) ->
  sessionOpen statusCode m (mkHost (Some i) memory) [role; out] [r] = Some (m1, memory1, [statusCode StatusOK]) ->
  let h := getLe32 (load memory1 (u32 out, 4)) in
  (forall old, m.(instances) !! i = Some old -> old.(sessions) !! h = None) /\
  (exists state session, m1.(instances) !! i = Some state /\ state.(sessions) !! h = Some (mkAbiSession session None) /\
     NewSessionRole (u8 (u32 role)) m.(config).(csession) = inl session) /\
  exists m2, sessionClose statusCode m1 (mkHost (Some i) memory1) [h] [r] = Some (m2, memory1, [statusCode StatusOK]) /\
    forall b params, b ∈ http2Bindings -> b.(guestName) ∉ [str "abi_version"; str "feature_flags"; str "session_open"] ->
      len params = len b.(guestParams) -> param params 0 = h ->
      handler statusCode b.(guestCall) m2 (mkHost (Some i) memory1) params [r] = Some (m2, memory1, [statusCode StatusBadHandle]).
Proof.
  intros [Hl Hx] Hr Hm Hinj E h. destruct (reachable_manager statusCode c m Hl Hx Hr) as [Hok _].
  destruct (sessionOpen_success statusCode m i memory role out r m1 memory1 Hok Hm Hinj E) as (h0 & state & session & Eh & Hh & Hold & Hi & Hs & Hn).
  assert (h = h0) as -> by (unfold h; rewrite Eh; apply getLe32_le32; unfold in_u32; lia). split; [done|].
  split; [by exists state, session|].
  destruct (sessionClose_live statusCode m1 i memory1 h0 r state _ ltac:(unfold in_u32; lia) Hi Hs) as (m2 & -> & Hi2).
  exists m2. split; [done|]. intros b params Hb Hname Ha Hp. apply (handler_bad statusCode b m2 i memory1 params r _ Hi2); try done.
  rewrite Hp. apply lookup_delete_eq.
Qed.

Lemma abi_handle_lifecycle_witness :
  exists m2, sessionClose (HP := plainHpack) demoStatus demoManager (mkHost (Some 7) demoGuest1) [getLe32 (load demoGuest1 (u32 8, 4))] [0] = Some (m2, demoGuest1, [0]).
Proof.
  assert (forall st, demoStatus st = demoStatus StatusOK -> st = StatusOK) as Hinj by (intros []; done).
  destruct (abi_handle_lifecycle (RO := mapOrder) demoStatus demoConfig (newABIManager demoConfig) 7 demoGuest 1 8 0 demoManager demoGuest1
    demoConfig_typed (reach_manager _ _) demoGuest_ok Hinj demoOpened) as (_ & _ & m2 & H & _).
  exists m2. exact H.
Defined.

(** C18. Header arrays: [readABIHeaders] on a guest's memory in which the fields
    are laid out as the ABI says (24-byte entries with the place and length of
    name and value and the sensitive flag, the strings behind them) returns
    exactly these fields, wherever the array is and whatever surrounds it, as
    long as they are within the limits of the session. *)
Theorem abi_headers_roundtrip pre post fields limits :
  len (pre ++ headerArray (len pre) fields ++ post) <= MaxUint32 -> fields_fit (normalizedHeader limits) fields ->
  (normalizedHeader limits).(MaxHeaderListBytes) <= MaxUint64 ->
  readABIHeaders (pre ++ headerArray (len pre) fields ++ post) (len pre) (len fields) limits = Some (inl fields).
Proof. apply readABIHeaders_array. Qed.

Lemma abi_headers_roundtrip_witness :
  readABIHeaders ([1; 2] ++ headerArray 2 demoRequest ++ [3]) 2 (len demoRequest) (mkHeaderLimits 0 0 0 0) = Some (inl demoRequest).
Proof.
  refine (abi_headers_roundtrip [1; 2] [3] demoRequest (mkHeaderLimits 0 0 0 0) _ _ _); [by vm_compute | | by vm_compute].
  split; [by vm_compute|]. split; [by vm_compute|]. repeat constructor; by vm_compute.
Defined.

(** ** Narrowing *)

(** A setting whose identifier does not fit 16 bits is taken for another one,
    and a role that does not fit 8 bits for one of the two. *)
Lemma abi_narrowing :
  readSettings 1 (le32 65538 ++ le32 1) = [mkSetting SettingEnablePush 1] /\
  match sessionOpen (HP := plainHpack) demoStatus (newABIManager demoConfig) (mkHost (Some 7) demoGuest) [257; 8] [0] with
  | Some (_, _, r) => r = [demoStatus StatusOK]
  | None => False
  end.
Proof. split; vm_compute; reflexivity. Qed.
