(* ===== verification/H2Server.v ===== *)
(** * HTTP/2: the server connection

    A translation of [src/http2/server/server.go]: a connection that feeds the
    bytes of a transport to a session of [H2Session], sends its output and hands
    its events to a handler, which answers through response writers.

    Every method holds the mutex of the connection in one critical section, or
    in a few; each of them is a function on [ServerConn] here.  A handler is a
    program that calls response writers and goes on with their results
    ([HProgram]), in a state of its own; like the code, [Serve] runs it between
    its critical sections.  A [ResponseWriter] is its stream identifier, as it
    has no state but the connection; the order in which Go ranges over the map
    of writers is a parameter. *)

From stdpp Require Import gmap.
From S2P Require Import Prelude Transport H2Frame H2Hpack H2Headers H2Session.
Open Scope Z_scope.

Inductive ServerError `{Stream} `{Hpack} :=
  | ErrInvalidServer (* invalid stream or handler *)
  | ServerIo (e : IoFailure)
  | ServerSession (e : SessionError).

Record Options := mkOptions {
  optSession : SessionLimits;
  optReadBufferBytes : Z; (* uint32 *)
}.

(** ** Handlers *)

(** A call of a method of a response writer. *)
Inductive WriterCall :=
  | WHeaders (streamID : Z) (fields : list HeaderField) (endStream : bool)
  | WWrite (streamID : Z) (data : list Z) (endStream : bool)
  | WReset (streamID code : Z)
  | WPushPromise (streamID : Z) (requestHeaders : list HeaderField)
  | WPriorityUpdate (streamID : Z) (value : list Z).

(** A call of a method of the handler. *)
Inductive Notice :=
  | NHeaders (writer : Z) (fields : list HeaderField) (endStream trailer : bool)
  | NData (writer : Z) (data : list Z)
  | NEnd (writer : Z)
  | NWritable (writer increment : Z)
  | NReset (streamID code : Z).

(** What a writer returns: the count or the identifier of the pushed stream,
    and the error. *)
Definition WriterResult `{Stream} `{Hpack} : Type := Z * option ServerError.

Section Server.
Context `{ST : Stream} `{HP : Hpack} `{RO : !RangeOrder} (HState : Type) (rangeWriters : gset Z -> list Z).

Inductive HProgram :=
  | Done (h : HState)
  | Call (c : WriterCall) (k : WriterResult -> HProgram).

Definition Handler : Type := HState -> Notice -> HProgram.

Record HandlerFuncs := mkHandlerFuncs {
  OnHeaders : option (HState -> Z -> list HeaderField -> bool -> bool -> HProgram);
  OnData : option (HState -> Z -> list Z -> HProgram);
  OnEnd : option (HState -> Z -> HProgram);
  OnWritable : option (HState -> Z -> Z -> HProgram);
  OnReset : option (HState -> Z -> Z -> HProgram);
}.

Definition Headers_ (f : HandlerFuncs) (h : HState) (writer : Z) (fields : list HeaderField) (endStream trailer : bool) : HProgram :=
  match f.(OnHeaders) with Some on => on h writer fields endStream trailer | None => Done h end.
Definition Data_ (f : HandlerFuncs) (h : HState) (writer : Z) (data : list Z) : HProgram :=
  match f.(OnData) with Some on => on h writer data | None => Done h end.
Definition End_ (f : HandlerFuncs) (h : HState) (writer : Z) : HProgram :=
  match f.(OnEnd) with Some on => on h writer | None => Done h end.
Definition Writable_ (f : HandlerFuncs) (h : HState) (writer increment : Z) : HProgram :=
  match f.(OnWritable) with Some on => on h writer increment | None => Done h end.
Definition Reset_ (f : HandlerFuncs) (h : HState) (streamID code : Z) : HProgram :=
  match f.(OnReset) with Some on => on h streamID code | None => Done h end.

Definition handlerOf (f : HandlerFuncs) : Handler := fun h n =>
  match n with
  | NHeaders w fields fin trailer => Headers_ f h w fields fin trailer
  | NData w data => Data_ f h w data
  | NEnd w => End_ f h w
  | NWritable w n => Writable_ f h w n
  | NReset id c => Reset_ f h id c
  end.

(** ** The connection *)

Record ServerConn := mkServerConn {
  sstream : Conn;
  ssession : Session;
  sbuffer : list Z;
  writers : gset Z;
  sclosed : bool;
  serr : option ServerError;
}.

Definition setSession (c : ServerConn) (w : Conn) (ss : Session) : ServerConn :=
  mkServerConn w ss c.(sbuffer) c.(writers) c.(sclosed) c.(serr).

Definition setCore (ss : Session) (s : Core) : Session := mkSession s ss.(parser).

Definition setWriters (c : ServerConn) (ws : gset Z) : ServerConn :=
  mkServerConn c.(sstream) c.(ssession) c.(sbuffer) ws c.(sclosed) c.(serr).

(** The loop of [flushLocked]: every turn shortens the output or returns, so its
    length is enough fuel; [None] is running out of it. *)
Fixpoint flushLoop (fuel : nat) (w : Conn) (s : Core) : option (Conn * Core * option ServerError) :=
  if len s.(output) =? 0 then Some (w, s, None)
  else
    match fuel with
    | O => None
    | S fuel =>
        let '(w, (written, err)) := SWrite w s.(output) in
        if (written <? 0) || (len s.(output) <? written) then Some (w, s, Some (ServerIo IoShortWrite))
        else
          let (s, consumeErr) := if 0 <? written then ConsumeOutput s written else (s, None) in
          match consumeErr with
          | Some e => Some (w, s, Some (ServerSession e))
          | None =>
              match err with
              | Some e => Some (w, s, Some (ServerIo (IoError e)))
              | None => if written =? 0 then Some (w, s, Some (ServerIo IoShortWrite)) else flushLoop fuel w s
              end
          end
    end.

Definition flushLocked (c : ServerConn) : option (ServerConn * option ServerError) :=
  match flushLoop (length c.(ssession).(core).(output)) c.(sstream) c.(ssession).(core) with
  | Some (w, s, err) => Some (setSession c w (setCore c.(ssession) s), err)
  | None => None
  end.

(** The loop of [collectEventsLocked]; the queue is as long as the fuel. *)
Fixpoint collectEvents (fuel : nat) (s : Core) : option (Core * list Event) :=
  match NextEvent s with
  | (s, None) => Some (s, [])
  | (s, Some e) =>
      match fuel with
      | O => None
      | S fuel => match collectEvents fuel s with Some (s, es) => Some (s, e :: es) | None => None end
      end
  end.

Definition collectEventsLocked (c : ServerConn) : option (ServerConn * list Event) :=
  match collectEvents (length c.(ssession).(core).(events)) c.(ssession).(core) with
  | Some (s, es) => Some (setSession c c.(sstream) (setCore c.(ssession) s), es)
  | None => None
  end.

Definition fail_ (c : ServerConn) (err : ServerError) : ServerConn :=
  if c.(sclosed) then c
  else mkServerConn c.(sstream) (setCore c.(ssession) (H2Session.Close c.(ssession).(core))) c.(sbuffer) c.(writers) true (Some err).

(** [closer] is the [Close] method of the stream, if it is an [io.Closer]: what
    it makes of the stream, and its error. *)
Definition CloseConn (closer : option (Conn -> Conn * option StreamError)) (c : option ServerConn)
  : option (option ServerConn * option ServerError) :=
  match c with
  | None => Some (None, None)
  | Some c =>
      if c.(sclosed) then Some (Some c, c.(serr))
      else
        let c := setSession c c.(sstream) (setCore c.(ssession) (GoAway c.(ssession).(core) ErrCodeNo []).1) in
        match flushLocked c with
        | None => None
        | Some (c, _) =>
            let c := mkServerConn c.(sstream) (setCore c.(ssession) (H2Session.Close c.(ssession).(core))) c.(sbuffer) c.(writers) true c.(serr) in
            match closer with
            | None => Some (Some c, None)
            | Some close =>
                let (w, err) := close c.(sstream) in
                Some (Some (mkServerConn w c.(ssession) c.(sbuffer) c.(writers) c.(sclosed) c.(serr)),
                  option_map (fun e => ServerIo (IoError e)) err)
            end
        end
  end.

(** The connection, or the error with the transport after the attempt. *)
Definition New (stream : option Conn) (handlerSet : bool) (o : Options) : option (ServerConn + (option Conn * ServerError)) :=
  match stream with
  | None => Some (inr (None, ErrInvalidServer))
  | Some w =>
      if negb handlerSet then Some (inr (Some w, ErrInvalidServer))
      else
        let size := if o.(optReadBufferBytes) =? 0 then Z.shiftl 16 10 else o.(optReadBufferBytes) in
        if MaxInt <? size then Some (inr (Some w, ServerIo IoShortBuffer))
        else
          match NewSession RoleServer o.(optSession) with
          | inr e => Some (inr (Some w, ServerSession e))
          | inl ss =>
              match flushLocked (mkServerConn w ss (replicate (Z.to_nat size) 0) ∅ false None) with
              | None => None
              | Some (c, None) => Some (inl c)
              | Some (c, Some err) => Some (inr (Some c.(sstream), err))
              end
          end
  end.

(** ** Response writers *)

(** [if err := flush; err != nil { return err }; k] *)
Definition flushThen {A} (c : ServerConn) (failed : ServerError -> A) (k : ServerConn -> ServerConn * A) : option (ServerConn * A) :=
  match flushLocked c with
  | None => None
  | Some (c, Some err) => Some (c, failed err)
  | Some (c, None) => Some (k c)
  end.

Definition WriterHeaders (c : ServerConn) (id : Z) (fields : list HeaderField) (endStream : bool) : option (ServerConn * WriterResult) :=
  if c.(sclosed) then Some (c, (0, Some (ServerSession ErrSessionClosed)))
  else
    let (s, err) := SendHeaders c.(ssession).(core) id fields endStream in
    let c := setSession c c.(sstream) (setCore c.(ssession) s) in
    match err with
    | Some e => Some (c, (0, Some (ServerSession e)))
    | None =>
        flushThen c (fun err => (0, Some err)) (fun c =>
          (if endStream then setWriters c (c.(writers) ∖ {[id]}) else c, (0, None)))
    end.

Definition WriterWrite (c : ServerConn) (id : Z) (data : list Z) (endStream : bool) : option (ServerConn * WriterResult) :=
  if c.(sclosed) then Some (c, (0, Some (ServerSession ErrSessionClosed)))
  else
    let '(s, (n, err)) := SendData c.(ssession).(core) id data endStream in
    let c := setSession c c.(sstream) (setCore c.(ssession) s) in
    let finish c :=
      (match err with
       | None => if endStream && (n =? len data) then setWriters c (c.(writers) ∖ {[id]}) else c
       | Some _ => c
       end, (n, option_map ServerSession err)) in
    if (0 <? n) || match err with None => true | Some _ => false end
    then flushThen c (fun err => (n, Some err)) finish
    else Some (finish c).

Definition WriterReset (c : ServerConn) (id code : Z) : option (ServerConn * WriterResult) :=
  let (s, err) := ResetStream c.(ssession).(core) id code in
  let c := setSession c c.(sstream) (setCore c.(ssession) s) in
  match err with
  | Some e => Some (c, (0, Some (ServerSession e)))
  | None => flushThen (setWriters c (c.(writers) ∖ {[id]})) (fun err => (0, Some err)) (fun c => (c, (0, None)))
  end.

Definition WriterPushPromise (c : ServerConn) (id : Z) (requestHeaders : list HeaderField) : option (ServerConn * WriterResult) :=
  let '(s, (streamID, err)) := PushPromise c.(ssession).(core) id requestHeaders in
  let c := setSession c c.(sstream) (setCore c.(ssession) s) in
  match err with
  | Some e => Some (c, (0, Some (ServerSession e)))
  | None =>
      flushThen c (fun err => (0, Some err)) (fun c => (setWriters c ({[streamID]} ∪ c.(writers)), (streamID, None)))
  end.

Definition WriterPriorityUpdate (c : ServerConn) (id : Z) (value : list Z) : option (ServerConn * WriterResult) :=
  let (s, err) := PriorityUpdate c.(ssession).(core) id value in
  let c := setSession c c.(sstream) (setCore c.(ssession) s) in
  match err with
  | Some e => Some (c, (0, Some (ServerSession e)))
  | None => flushThen c (fun err => (0, Some err)) (fun c => (c, (0, None)))
  end.

Definition writerCall (c : ServerConn) (call : WriterCall) : option (ServerConn * WriterResult) :=
  match call with
  | WHeaders id fields fin => WriterHeaders c id fields fin
  | WWrite id data fin => WriterWrite c id data fin
  | WReset id code => WriterReset c id code
  | WPushPromise id headers => WriterPushPromise c id headers
  | WPriorityUpdate id value => WriterPriorityUpdate c id value
  end.

(** ** Dispatching *)

Fixpoint runProgram (c : ServerConn) (prog : HProgram) : option (ServerConn * HState) :=
  match prog with
  | Done h => Some (c, h)
  | Call call k => match writerCall c call with Some (c, r) => runProgram c (k r) | None => None end
  end.

Context (handler : Handler).

(** [conn.writer(streamID)]: there is a writer afterwards. *)
Definition writer (c : ServerConn) (id : Z) : ServerConn := setWriters c ({[id]} ∪ c.(writers)).

Definition notify (c : ServerConn) (h : HState) (n : Notice) : option (ServerConn * HState) := runProgram c (handler h n).

(** [Writable] on every writer there was. *)
Fixpoint notifyAll (c : ServerConn) (h : HState) (ids : list Z) (increment : Z) : option (ServerConn * HState) :=
  match ids with
  | [] => Some (c, h)
  | id :: ids => match notify c h (NWritable id increment) with Some (c, h) => notifyAll c h ids increment | None => None end
  end.

Definition dispatchEvent (c : ServerConn) (h : HState) (e : Event) : option (ServerConn * HState) :=
  let id := e.(evStreamID) in
  match e.(evType) with
  | EventHeaders => notify (writer c id) h (NHeaders id e.(evHeaders) e.(evEndStream) e.(evTrailer))
  | EventData => notify (writer c id) h (NData id e.(evData))
  | EventStreamEnd => notify (writer c id) h (NEnd id)
  | EventWindowUpdate =>
      if negb (id =? 0) then notify (writer c id) h (NWritable id e.(evWindowIncrement))
      else notifyAll c h (rangeWriters c.(writers)) e.(evWindowIncrement)
  | EventStreamReset =>
      match notify c h (NReset id e.(evErrorCode)) with
      | Some (c, h) => Some (setWriters c (c.(writers) ∖ {[id]}), h)
      | None => None
      end
  | _ => Some (c, h)
  end.

Fixpoint dispatch (c : ServerConn) (h : HState) (events : list Event) : option (ServerConn * HState) :=
  match events with
  | [] => Some (c, h)
  | e :: events => match dispatchEvent c h e with Some (c, h) => dispatch c h events | None => None end
  end.

(** ** Serving *)

(** The first critical section of a turn: feed, flush, collect. *)
Definition receive (c : ServerConn) (data : list Z) : option (ServerConn * list Event * option ServerError) :=
  match Feed c.(ssession) data with
  | None => None
  | Some (ss, rest, err) =>
      let c := setSession c c.(sstream) ss in
      let err := match err with
                 | Some e => Some (ServerSession e)
                 | None => if negb (len rest =? 0) then Some (ServerIo IoNoProgress) else None
                 end in
      match flushLocked c with
      | None => None
      | Some (c, flushErr) =>
          let err := match err with Some e => Some e | None => flushErr end in
          match collectEventsLocked c with
          | None => None
          | Some (c, es) => Some (c, es, err)
          end
      end
  end.

(** The end of the input. *)
Definition finishServing (c : ServerConn) (eof : StreamError) : ServerConn * ServerError :=
  let (ss, err) := SessionFinish c.(ssession) in
  let c := setSession c c.(sstream) ss in
  let err := match err with Some e => ServerSession e | None => ServerIo (IoError eof) end in
  (fail_ c err, err).

(** [Serve]: the connection, the handler's state and the error it returns.
    [None] is running out of fuel. *)
Fixpoint Serve (fuel : nat) (c : ServerConn) (h : HState) : option (ServerConn * HState * ServerError) :=
  match fuel with
  | O => None
  | S fuel =>
      let '((w, filled), (read, readErr)) := SRead c.(sstream) c.(sbuffer) in
      let c := mkServerConn w c.(ssession) filled c.(writers) c.(sclosed) c.(serr) in
      let failWith c h err := Some (fail_ c err, h, err) in
      if (read <? 0) || (len filled <? read) then failWith c h (ServerIo IoShortBuffer)
      else
        let rest c h :=
          match readErr with
          | Some e => if is_EOF e then let (c, err) := finishServing c e in Some (c, h, err) else failWith c h (ServerIo (IoError e))
          | None => if read =? 0 then failWith c h (ServerIo IoNoProgress) else Serve fuel c h
          end in
        if negb (read =? 0) then
          match receive c (take (Z.to_nat read) filled) with
          | None => None
          | Some (c, _, Some err) => failWith c h err
          | Some (c, events, None) =>
              match dispatch c h events with
              | None => None
              | Some (c, h) => rest c h
              end
          end
        else rest c h
  end.
End Server.
