(* ===== verification/H2ServerSound.v ===== *)
(** * HTTP/2: the invariant of a server connection

    The critical sections of a connection of [H2Server] as a step relation, for
    any handler and any other goroutines that write responses or close it, and
    what every one of them keeps: the session is sound, and what went out to
    the peer is a sequence of complete, valid frames, cut off at most where the
    transport failed. *)

From stdpp Require Import gmap.
From S2P Require Import Prelude Transport H2Frame H2FrameWf H2FrameSpec H2Hpack H2Headers H2Session H2SessionWf H2SessionInbound H2SessionOutbound H2SessionLife H2Server.
Open Scope Z_scope.

Section Sound.
Context `{DX : Duplex} `{HP : Hpack} `{RO : !RangeOrder} `{HF : !HpackFits} (L : SessionLimits).
Implicit Types c : ServerConn.

(** What the peer has been sent since [base], with the queued output behind it:
    complete frames.  A closed connection has dropped its queue. *)
Definition framed (base : list Z) c : Prop :=
  exists frames rest, Forall (H2SessionWf.sent maxFrameSize) frames /\ Transport.sent c.(sstream) ++ rest = base ++ wires frames /\
    (c.(sclosed) = false -> rest = c.(ssession).(core).(output)).

Definition conn_ok (base : list Z) c : Prop :=
  state_ok L c.(ssession) /\ c.(ssession).(core).(closed) = c.(sclosed) /\ framed base c.

(** What no critical section but those that close changes. *)
Definition keeps c c' : Prop :=
  c'.(sclosed) = c.(sclosed) /\ c'.(serr) = c.(serr) /\ pending c'.(sstream) = pending c.(sstream).

#[local] Instance keeps_refl : Reflexive keeps.
Proof. by intros c. Qed.
#[local] Instance keeps_trans : Transitive keeps.
Proof. intros a b c (A1 & A2 & A3) (B1 & B2 & B3). split_and!; congruence. Qed.

(** The step of one critical section: sound again, and nothing closed. *)
Definition goes (base : list Z) c c' : Prop := conn_ok base c' /\ keeps c c'.

Lemma goes_trans base a b c : goes base a b -> goes base b c -> goes base a c.
Proof. intros [_ K1] [H K2]. split; [done | by etrans]. Qed.

(** ** The session of a connection *)

Lemma state_closed ss : state_ok L ss -> ss.(core).(closed) = true -> closed_ok ss.(core).
Proof. intros [[[((Hc & _) & _) _] _]|H] E; [congruence | done]. Qed.

Lemma state_open ss : state_ok L ss -> ss.(core).(closed) = false -> session_ok ss.
Proof. intros [[H _]|(H & _)] E; [done | congruence]. Qed.

Lemma run_goes base c op :
  conn_ok base c -> op_typed op -> emits op = true ->
  exists ss', run op c.(ssession) = Some ss' /\ goes base c (setSession c c.(sstream) ss').
Proof.
  intros (Hs & Hc & frames & rest & F1 & F2 & F3) Ht He. destruct (run_ok L op _ Hs Ht) as (ss' & E & Hs' & _). exists ss'. split; [done|].
  split; [|done]. split; [done|]. destruct (sclosed c) eqn:Ec.
  - destruct (closed_inert op _ (state_closed _ Hs Hc)) as (s2 & E2 & (Hc2 & _) & _). rewrite E in E2. injection E2 as <-.
    cbn. rewrite Ec. split; [done|]. exists frames, rest. cbn. by rewrite Ec.
  - pose proof (state_open _ Hs Hc) as Hok. pose proof Hok as [(_ & _ & (_ & _ & _ & _ & Hm) & _) _].
    destruct (run_good op _ maxFrameSize Hok Ht He ltac:(lia)) as (s2 & E2 & Hok2 & (_ & _ & _ & _ & more & M1 & M2)).
    rewrite E in E2. injection E2 as <-. pose proof Hok2 as [((Hc2 & _) & _) _]. cbn. rewrite Ec. split; [done|].
    exists (frames ++ more), (rest ++ wires more). split; [by apply Forall_app|]. cbn. split; [|intros _; by rewrite M2, (F3 eq_refl)].
    by rewrite wires_app, app_assoc, F2, app_assoc.
Qed.

(** An operation of the core, with what it returns. *)
Lemma core_goes {A} base c op (f : Core -> Core * A) s r :
  conn_ok base c -> op_typed op -> emits op = true -> run op c.(ssession) = Some (on_core (fun s => (f s).1) c.(ssession)) ->
  f c.(ssession).(core) = (s, r) -> goes base c (setSession c c.(sstream) (setCore c.(ssession) s)).
Proof.
  intros Hc Ht He Hr E. destruct (run_goes base c op Hc Ht He) as (ss' & E' & G). rewrite Hr in E'. injection E' as <-.
  unfold on_core in G. by rewrite E in G.
Qed.

Lemma writers_goes base c ws : conn_ok base c -> goes base c (setWriters c ws).
Proof. by split. Qed.

(** ** Flushing *)

(** The loop sends a front part of the output, all of it without an error. *)
Lemma flushLoop_ok fuel w s :
  (length s.(output) <= fuel)%nat ->
  exists w' pre rest err, flushLoop fuel w s = Some (w', s <| output := rest |>, err) /\ s.(output) = pre ++ rest /\
    Transport.sent w' = Transport.sent w ++ pre /\ pending w' = pending w /\ (err = None -> rest = []).
Proof.
  assert (forall s, s <| output := s.(output) |> = s) as Es by by intros [].
  revert w s. induction fuel as [|fuel IH]; intros w s Hf; cbn [flushLoop]; destruct (Z.eqb_spec (len (output s)) 0) as [H0|H0].
  1,3: exists w, [], (output s), None; rewrite Es, app_nil_r; split_and!; try done; intros _; by apply len_zero.
  { exfalso. apply H0. unfold len. lia. }
  destruct (SWrite w (output s)) as [w1 [n e]] eqn:E. pose proof (write_keeps _ _ _ _ E) as Hp. apply write_law in E as [Hn Hw].
  rewrite (proj2 (Z.ltb_ge n 0)), (proj2 (Z.ltb_ge _ n)) by lia. cbn [orb].
  assert ((if 0 <? n then ConsumeOutput s n else (s, None)) = (s <| output := drop (Z.to_nat n) (output s) |>, None)) as ->.
  { unfold ConsumeOutput. rewrite (proj2 (Z.ltb_ge n 0)), (proj2 (Z.ltb_ge (len (output s)) n)) by lia. cbn [orb].
    destruct (Z.ltb_spec 0 n); [done|]. replace n with 0 by lia. change (drop (Z.to_nat 0) (output s)) with (output s). by rewrite Es. }
  assert (output s = take (Z.to_nat n) (output s) ++ drop (Z.to_nat n) (output s)) as Ed by by rewrite take_drop.
  destruct e as [e|]; [by exists w1, (take (Z.to_nat n) (output s)), (drop (Z.to_nat n) (output s)), (Some (ServerIo (IoError e)))|].
  destruct (Z.eqb_spec n 0) as [Hz|Hz].
  { by exists w1, (take (Z.to_nat n) (output s)), (drop (Z.to_nat n) (output s)), (Some (ServerIo IoShortWrite)). }
  destruct (IH w1 (s <| output := drop (Z.to_nat n) (output s) |>)) as (w2 & pre & rest & err & -> & E1 & E2 & E3 & E4).
  { cbn. rewrite length_drop. unfold len in *. lia. }
  exists w2, (take (Z.to_nat n) (output s) ++ pre), rest, err. split; [done|]. cbn in E1. split; [by rewrite <- app_assoc, <- E1|].
  split; [by rewrite E2, Hw, app_assoc|]. split; [congruence | done].
Qed.

Lemma flushLocked_goes base c :
  conn_ok base c -> exists c' err, flushLocked c = Some (c', err) /\ goes base c c' /\ c'.(writers) = c.(writers) /\
    (err = None -> c'.(ssession).(core).(output) = []).
Proof.
  intros (Hs & Hc & frames & queue & F1 & F2 & F3). unfold flushLocked.
  destruct (flushLoop_ok (length (output (core (ssession c)))) (sstream c) (core (ssession c)) ltac:(done))
    as (w' & pre & rest & err & -> & E1 & E2 & E3 & E4).
  eexists _, err. split; [done|]. split; [|done]. split; [|done]. unfold conn_ok. cbn. split; [|split; [done|]].
  - destruct (run_ok L (DoConsumeOutput (len pre)) _ Hs I) as (ss' & E & H & _). cbn [run] in E. injection E as <-.
    unfold on_core, ConsumeOutput in H. pose proof (len_nonneg pre). pose proof (len_nonneg rest).
    rewrite (proj2 (Z.ltb_ge (len pre) 0)), (proj2 (Z.ltb_ge _ (len pre))) in H by (rewrite ?E1, ?len_app; lia).
    cbn [orb fst] in H. rewrite E1 in H. unfold len in H. by rewrite Nat2Z.id, drop_app_length in H.
  - exists frames. unfold framed. cbn. destruct (sclosed c) eqn:Ec.
    + destruct (state_closed _ Hs Hc) as (_ & _ & _ & Eo). rewrite Eo in E1. symmetry in E1. apply app_nil in E1 as [-> ->].
      exists queue. rewrite E2, app_nil_r. by split_and!.
    + exists rest. rewrite E2, <- app_assoc, <- E1, <- (F3 eq_refl). by split_and!.
Qed.

(** ** Collecting events *)

Lemma collectEvents_total fuel s : (length s.(events) <= fuel)%nat -> exists s', collectEvents fuel s = Some (s', s.(events)) /\ s'.(events) = [].
Proof.
  revert s. induction fuel as [|fuel IH]; intros s Hf; cbn [collectEvents]; unfold NextEvent; destruct (events s) as [|e es] eqn:E.
  1,3: by exists s. { cbn in Hf. lia. }
  edestruct IH as (s' & -> & Es); [|by exists s']. cbn in *. lia.
Qed.

Lemma collectEvents_goes base fuel c s es :
  conn_ok base c -> collectEvents fuel c.(ssession).(core) = Some (s, es) ->
  goes base c (setSession c c.(sstream) (setCore c.(ssession) s)).
Proof.
  revert c s es. induction fuel as [|fuel IH]; intros c s es Hc; cbn [collectEvents]; destruct (NextEvent (core (ssession c))) as [s1 [e|]] eqn:E;
    try done; pose proof (core_goes base c DoNextEvent NextEvent _ _ Hc I eq_refl eq_refl E) as G; [by intros [= <- <-] | | by intros [= <- <-]].
  specialize (IH _ s (tail es) (proj1 G)). cbn in IH. destruct (collectEvents fuel s1) as [[s2 es2]|]; [|done]. intros [= <- <-].
  eapply goes_trans; [exact G|]. by apply IH.
Qed.

Lemma collectEventsLocked_goes base c :
  conn_ok base c -> exists c', collectEventsLocked c = Some (c', c.(ssession).(core).(events)) /\ goes base c c' /\ c'.(ssession).(core).(events) = [].
Proof.
  intros Hc. unfold collectEventsLocked.
  destruct (collectEvents_total (length (events (core (ssession c)))) (core (ssession c)) ltac:(done)) as (s' & E & Es). rewrite E.
  eexists. split; [done|]. split; [|done]. by eapply collectEvents_goes.
Qed.

(** ** Response writers *)

Lemma flushThen_goes {A} base c (failed : ServerError -> A) k :
  conn_ok base c -> (forall c', conn_ok base c' -> goes base c' (k c').1) ->
  exists c' r, flushThen c failed k = Some (c', r) /\ goes base c c'.
Proof.
  intros Hc Hk. unfold flushThen. destruct (flushLocked_goes base c Hc) as (c1 & err & -> & G & _).
  destruct err as [e|]; [by exists c1, (failed e)|]. specialize (Hk c1 (proj1 G)). destruct (k c1) as [c2 r]. exists c2, r.
  split; [done|]. by eapply goes_trans.
Qed.

Lemma goes_then {A} base c c1 (res : option (ServerConn * A)) :
  goes base c c1 -> (exists c' r, res = Some (c', r) /\ goes base c1 c') -> exists c' r, res = Some (c', r) /\ goes base c c'.
Proof. intros G (c' & r & -> & G'). exists c', r. split; [done|]. by eapply goes_trans. Qed.

Lemma goes_refl base c : conn_ok base c -> goes base c c.
Proof. by split. Qed.

Lemma writerCall_goes base c call : conn_ok base c -> exists c' r, writerCall c call = Some (c', r) /\ goes base c c'.
Proof.
  intros Hc. pose proof (goes_refl base c Hc) as G0. destruct call as [id fields fin|id data fin|id code|id headers|id value]; cbn [writerCall].
  - unfold WriterHeaders. destruct (sclosed c) eqn:Ec; [by do 2 eexists|]. destruct (SendHeaders _ _ _ _) as [s err] eqn:E.
    pose proof (core_goes base c (DoSendHeaders id fields fin) (fun s => SendHeaders s id fields fin) _ _ Hc I eq_refl eq_refl E) as G.
    destruct err as [e|]; [by do 2 eexists|]. eapply goes_then; [exact G|]. apply flushThen_goes; [apply G|]. intros c' H'. by destruct fin.
  - unfold WriterWrite. destruct (sclosed c) eqn:Ec; [by do 2 eexists|]. destruct (SendData _ _ _ _) as [s [n err]] eqn:E.
    pose proof (core_goes base c (DoSendData id data fin) (fun s => SendData s id data fin) _ _ Hc I eq_refl eq_refl E) as G. cbv zeta.
    eapply goes_then; [exact G|]. destruct G as [G _].
    match goal with |- context [if ?b then flushThen _ _ _ else _] => destruct b end.
    + apply flushThen_goes; [done|]. intros c' H'. cbn [fst]. destruct err; [by split|]. by destruct (_ && _).
    + do 2 eexists. split; [done|]. destruct err; [by split|]. by destruct (_ && _).
  - unfold WriterReset. destruct (ResetStream _ _ _) as [s err] eqn:E.
    pose proof (core_goes base c (DoResetStream id code) (fun s => ResetStream s id code) _ _ Hc I eq_refl eq_refl E) as G.
    destruct err as [e|]; [by do 2 eexists|]. eapply goes_then; [|apply (flushThen_goes base); [apply G | by intros]]. exact G.
  - unfold WriterPushPromise. destruct (PushPromise _ _ _) as [s [streamID err]] eqn:E.
    pose proof (core_goes base c (DoPushPromise id headers) (fun s => PushPromise s id headers) _ _ Hc I eq_refl eq_refl E) as G.
    destruct err as [e|]; [by do 2 eexists|]. eapply goes_then; [exact G|]. apply flushThen_goes; [apply G | by intros].
  - unfold WriterPriorityUpdate. destruct (PriorityUpdate _ _ _) as [s err] eqn:E.
    pose proof (core_goes base c (DoPriorityUpdate id value) (fun s => PriorityUpdate s id value) _ _ Hc I eq_refl eq_refl E) as G.
    destruct err as [e|]; [by do 2 eexists|]. eapply goes_then; [exact G|]. apply flushThen_goes; [apply G | by intros].
Qed.

(** ** Receiving and closing *)

Lemma receive_goes base c data :
  conn_ok base c -> bytes data -> exists c' es err, receive c data = Some (c', es, err) /\ goes base c c'.
Proof.
  intros Hc Hb. unfold receive. destruct (run_goes base c (DoFeed data) Hc Hb eq_refl) as (ss & E & G). cbn [run] in E.
  destruct (Feed (ssession c) data) as [[[ss1 rest] err]|]; [|done]. cbn in E. injection E as ->.
  destruct (flushLocked_goes base _ (proj1 G)) as (c1 & ferr & -> & G1 & _).
  destruct (collectEventsLocked_goes base _ (proj1 G1)) as (c2 & -> & G2 & _). do 3 eexists. split; [done|].
  eapply goes_trans; [exact G|]. by eapply goes_trans.
Qed.

(** Closing the session drops the queue. *)
Lemma close_conn base c err :
  conn_ok base c -> sclosed c = false ->
  conn_ok base (mkServerConn c.(sstream) (setCore c.(ssession) (H2Session.Close c.(ssession).(core))) c.(sbuffer) c.(writers) true err).
Proof.
  intros (Hs & Hc & frames & rest & F1 & F2 & _) Ec. pose proof (state_open _ Hs (eq_trans Hc Ec)) as Hok.
  destruct (close_ok _ (proj1 Hok)) as [Hk _]. split; [by right|]. split; [apply Hk|]. exists frames, rest. by split_and!.
Qed.

Lemma fail_ok base c err :
  conn_ok base c -> conn_ok base (fail_ c err) /\ sclosed (fail_ c err) = true /\ (sclosed c = false -> serr (fail_ c err) = Some err).
Proof.
  intros Hc. unfold fail_. destruct (sclosed c) eqn:Ec; [by split_and!|]. split; [by apply close_conn | by split].
Qed.

(** Closing a stream sends nothing. *)
Definition closes_only (closer : option (Conn -> Conn * option StreamError)) : Prop :=
  match closer with Some close => forall w, Transport.sent (close w).1 = Transport.sent w | None => True end.

Lemma CloseConn_ok base closer c :
  closes_only closer -> conn_ok base c ->
  exists c' r, CloseConn closer (Some c) = Some (Some c', r) /\ conn_ok base c' /\ sclosed c' = true.
Proof.
  intros Hcl Hc. unfold CloseConn. destruct (sclosed c) eqn:Ec; [by exists c, (serr c)|].
  destruct (GoAway (core (ssession c)) ErrCodeNo []) as [s err] eqn:E. cbn [fst].
  pose proof (core_goes base c (DoGoAway ErrCodeNo []) (fun s => GoAway s ErrCodeNo []) _ _ Hc I eq_refl eq_refl E) as G.
  destruct (flushLocked_goes base _ (proj1 G)) as (c1 & ferr & -> & [G1 (K & _)] & _). cbv zeta.
  assert (conn_ok base (mkServerConn (sstream c1) (setCore (ssession c1) (H2Session.Close (core (ssession c1)))) (sbuffer c1) (writers c1)
    true (serr c1))) as Hx by (apply close_conn; [done | by rewrite K]).
  destruct closer as [close|]; [|by do 2 eexists]. cbn [closes_only] in Hcl. cbn [sstream ssession sbuffer writers sclosed serr].
  specialize (Hcl (sstream c1)). destruct (close (sstream c1)) as [w cerr]. do 2 eexists. split; [done|]. split; [|done].
  destruct Hx as (H1 & H2 & frames & rest & F). split; [done|]. split; [done|]. exists frames, rest. cbn in *. by rewrite Hcl.
Qed.

Lemma finish_goes base c : conn_ok base c -> goes base c (setSession c c.(sstream) (SessionFinish c.(ssession)).1).
Proof. intros Hc. by destruct (run_goes base c DoFinish Hc I eq_refl) as (ss & [= <-] & G). Qed.

Lemma read_goes base c w filled r :
  conn_ok base c -> SRead c.(sstream) c.(sbuffer) = ((w, filled), r) ->
  conn_ok base (mkServerConn w c.(ssession) filled c.(writers) c.(sclosed) c.(serr)).
Proof.
  intros (Hs & Hc & frames & rest & F) E. apply read_keeps in E. split; [done|]. split; [done|]. exists frames, rest. cbn. by rewrite E.
Qed.

(** ** The critical sections, in any order *)

Inductive conn_step : ServerConn -> ServerConn -> Prop :=
  | StepRead c w filled r : SRead c.(sstream) c.(sbuffer) = ((w, filled), r) ->
      conn_step c (mkServerConn w c.(ssession) filled c.(writers) c.(sclosed) c.(serr))
  | StepReceive c data c' es err : bytes data -> receive c data = Some (c', es, err) -> conn_step c c'
  | StepCall c call c' r : writerCall c call = Some (c', r) -> conn_step c c'
  | StepWriter c id : conn_step c (writer c id)
  | StepForget c id : conn_step c (setWriters c (c.(writers) ∖ {[id]}))
  | StepFinish c : conn_step c (setSession c c.(sstream) (SessionFinish c.(ssession)).1)
  | StepFail c err : conn_step c (fail_ c err)
  | StepClose closer c c' r : closes_only closer -> CloseConn closer (Some c) = Some (Some c', r) -> conn_step c c'.

Lemma conn_step_ok base c c' : conn_ok base c -> conn_step c c' -> conn_ok base c'.
Proof.
  intros Hc Hs. destruct Hs as [c w filled r E|c data c' es err Hb E|c call c' r E|c id|c id|c|c err|closer c c' r Hcl E].
  - by eapply read_goes.
  - destruct (receive_goes base c data Hc Hb) as (c1 & es1 & e1 & E1 & G & _). rewrite E in E1. by injection E1 as -> _ _.
  - destruct (writerCall_goes base c call Hc) as (c1 & r1 & E1 & G & _). rewrite E in E1. by injection E1 as -> _.
  - apply writers_goes, Hc.
  - apply writers_goes, Hc.
  - apply finish_goes, Hc.
  - by apply fail_ok.
  - destruct (CloseConn_ok base closer c Hcl Hc) as (c1 & r1 & E1 & H & _). rewrite E in E1. by injection E1 as -> _.
Qed.

Lemma conn_steps_ok base c c' : conn_ok base c -> rtc conn_step c c' -> conn_ok base c'.
Proof. intros Hc Hs. induction Hs as [|c c1 c' H1 _ IH]; [done|]. by eapply IH, conn_step_ok. Qed.

(** ** Serving *)

Section Handling.
Context {HState : Type} (rangeWriters : gset Z -> list Z) (handler : Handler HState).

(** A part of [Serve] that returns, by critical sections only. *)
Definition moves base c c' : Prop := goes base c c' /\ rtc conn_step c c'.

Lemma moves_trans base a b c : moves base a b -> moves base b c -> moves base a c.
Proof. intros [G1 S1] [G2 S2]. split; [by eapply goes_trans | by etrans]. Qed.

Lemma moves_refl base c : conn_ok base c -> moves base c c.
Proof. intros Hc. split; [by apply goes_refl | done]. Qed.

Lemma writers_moves base c ws : conn_ok base c -> conn_step c (setWriters c ws) -> moves base c (setWriters c ws).
Proof. intros Hc Hs. split; [by apply writers_goes | by apply rtc_once]. Qed.

(** The results of the handler and of the parts that call it. *)
Definition handled base c (res : option (ServerConn * HState)) : Prop :=
  exists c' h, res = Some (c', h) /\ moves base c c'.

Lemma handled_after base c c1 res : moves base c c1 -> handled base c1 res -> handled base c res.
Proof. intros M (c' & h & E & M'). exists c', h. split; [done|]. by eapply moves_trans. Qed.

Lemma handled_then base c res k :
  handled base c res -> (forall c' h, conn_ok base c' -> handled base c' (k c' h)) ->
  handled base c (match res with Some (c, h) => k c h | None => None end).
Proof. intros (c' & h & -> & M) Hk. eapply handled_after; [exact M|]. apply Hk, M. Qed.

Lemma handled_same base c h : conn_ok base c -> handled base c (Some (c, h)).
Proof. intros Hc. exists c, h. split; [done | by apply moves_refl]. Qed.

Lemma runProgram_handled base c prog : conn_ok base c -> handled base c (runProgram HState c prog).
Proof.
  revert c. induction prog as [h|call k IH]; intros c Hc; cbn [runProgram]; [by apply handled_same|].
  destruct (writerCall_goes base c call Hc) as (c1 & r & E & G). rewrite E. eapply handled_after; [|apply IH, G].
  split; [done|]. eapply rtc_once, StepCall, E.
Qed.

Lemma notifyAll_handled base c h ids inc : conn_ok base c -> handled base c (notifyAll HState handler c h ids inc).
Proof.
  revert c h. induction ids as [|id ids IH]; intros c h Hc; cbn [notifyAll]; [by apply handled_same|].
  apply handled_then; [by apply runProgram_handled | intros; by apply IH].
Qed.

Lemma dispatchEvent_handled base c h e : conn_ok base c -> handled base c (dispatchEvent HState rangeWriters handler c h e).
Proof.
  intros Hc. unfold dispatchEvent.
  assert (forall n, handled base c (notify HState handler (writer c (evStreamID e)) h n)) as Hw.
  { intros n. eapply handled_after; [apply writers_moves; [done | constructor]|]. by apply runProgram_handled, writers_goes. }
  destruct (evType e); try apply Hw; try by apply handled_same.
  - apply handled_then; [by apply runProgram_handled|]. intros c' h' H'. eexists _, h'. split; [done|].
    apply writers_moves; [done | constructor].
  - destruct (negb _); [apply Hw | by apply notifyAll_handled].
Qed.

(** Handlers return to [Serve]: their programs are finite. *)
Lemma dispatch_handled base c h es : conn_ok base c -> handled base c (dispatch HState rangeWriters handler c h es).
Proof.
  revert c h. induction es as [|e es IH]; intros c h Hc; cbn [dispatch]; [by apply handled_same|].
  apply handled_then; [by apply dispatchEvent_handled | intros; by apply IH].
Qed.

(** [Serve] has returned with the connection closed, for the reason it gives if
    it was open. *)
Definition served base c (res : option (ServerConn * HState * ServerError)) : Prop :=
  exists c' h err, res = Some (c', h, err) /\ conn_ok base c' /\ rtc conn_step c c' /\ c'.(sclosed) = true /\
    (c.(sclosed) = false -> c'.(serr) = Some err).

Lemma served_after base c c1 res :
  c1.(sclosed) = c.(sclosed) -> rtc conn_step c c1 -> served base c1 res -> served base c res.
Proof.
  intros E S (c' & h & err & -> & H1 & H2 & H3 & H4). exists c', h, err. split; [done|]. split; [done|].
  split; [by etrans|]. split; [done|]. by rewrite <- E.
Qed.

Lemma served_fail base c h err : conn_ok base c -> served base c (Some (fail_ c err, h, err)).
Proof.
  intros Hc. destruct (fail_ok base c err Hc) as (H1 & H2 & H3). do 3 eexists. split; [done|]. split; [done|].
  split; [apply rtc_once; constructor | done].
Qed.

Lemma served_finish base c h eof :
  conn_ok base c -> served base c (let (c, err) := finishServing c eof in Some (c, h, err)).
Proof.
  intros Hc. pose proof (finish_goes base c Hc) as G. pose proof (StepFinish c) as S. unfold finishServing.
  destruct (SessionFinish (ssession c)) as [ss err]. cbn [fst] in G, S.
  eapply served_after; [|apply rtc_once; exact S | apply served_fail, G]. done.
Qed.

(** Every turn that goes on has read something. *)
Lemma Serve_served base fuel c h :
  conn_ok base c -> bytes (pending c.(sstream)) -> (length (pending c.(sstream)) < fuel)%nat ->
  served base c (Serve HState rangeWriters handler fuel c h).
Proof.
  revert c h. induction fuel as [|fuel IH]; intros c h Hc Hb Hf; [lia|]. cbn [Serve].
  destruct (SRead (sstream c) (sbuffer c)) as [[w filled] [read readErr]] eqn:E.
  pose proof (read_goes base c w filled _ Hc E) as Hr. pose proof (StepRead c w filled _ E) as Sr.
  apply read_law in E as (Hn & Hl & Hp). cbv zeta.
  set (c1 := mkServerConn w _ filled _ _ _) in *.
  assert (pending (sstream c1) = pending w) as Ec1 by done. apply (served_after base c c1); [done | by apply rtc_once|].
  clearbody c1. rewrite Hp in Hb, Hf. apply Forall_app in Hb as [Hb1 Hb2]. rewrite length_app in Hf.
  rewrite (proj2 (Z.ltb_ge read 0)), (proj2 (Z.ltb_ge (len filled) read)) by lia. cbn [orb].
  assert (length (take (Z.to_nat read) filled) = Z.to_nat read) as Ht by (rewrite length_take; unfold len in *; lia).
  assert (forall c2 h2, conn_ok base c2 -> pending (sstream c2) = pending w -> served base c2
    (match readErr with
     | Some e => if is_EOF e then let (c, err) := finishServing c2 e in Some (c, h2, err)
                 else Some (fail_ c2 (ServerIo (IoError e)), h2, ServerIo (IoError e))
     | None => if read =? 0 then Some (fail_ c2 (ServerIo IoNoProgress), h2, ServerIo IoNoProgress)
               else Serve HState rangeWriters handler fuel c2 h2
     end)) as Hrest.
  { intros c2 h2 H2 P2. destruct readErr as [e|].
    - destruct (is_EOF e); [by apply served_finish | by apply served_fail].
    - destruct (Z.eqb_spec read 0); [by apply served_fail|]. apply IH; [done | by rewrite P2 | rewrite P2; lia]. }
  destruct (negb (read =? 0)); [|by apply Hrest].
  destruct (receive_goes base c1 _ Hr Hb1) as (c2 & es & err & E2 & G2). pose proof (StepReceive _ _ _ _ _ Hb1 E2) as S2.
  rewrite E2. apply (served_after base c1 c2); [apply G2 | by apply rtc_once|]. destruct err as [err|]; [apply served_fail, G2|].
  destruct (dispatch_handled base c2 h es (proj1 G2)) as (c3 & h3 & -> & [G3 S3]). apply (served_after base c2 c3); [apply G3 | done|].
  apply Hrest; [apply G3|]. destruct G2 as [_ (_ & _ & P2)], G3 as [_ (_ & _ & P3)]. congruence.
Qed.
End Handling.

(** ** A new connection *)

Lemma New_ok l o w c :
  session_limits_typed o.(optSession) -> L = normalizedSession o.(optSession) -> l = true -> New (Some w) l o = Some (inl c) ->
  conn_ok (Transport.sent w ++ wire (settingsFrame RoleServer L)) c /\ c.(sclosed) = false /\ pending c.(sstream) = pending w /\ c.(writers) = ∅.
Proof.
  intros Hl HL -> Hn. unfold New in Hn. cbn [negb] in Hn. destruct (_ <? _); [done|].
  destruct (NewSession RoleServer (optSession o)) as [ss|e] eqn:E; [|done].
  destruct (NewSession_ok RoleServer _ ss Hl E) as (Hok & Ho & _ & _ & Hs).
  set (c0 := mkServerConn w ss _ ∅ false None) in Hn.
  assert (conn_ok (Transport.sent w ++ wire (settingsFrame RoleServer L)) c0) as H0.
  { split; [left; split; [done | by rewrite HL, <- Hs]|]. split; [apply Hok|].
    exists [], (output (core ss)). split; [done|]. split; [|done]. cbn [ssession sstream]. by rewrite Ho, app_nil_r, HL. }
  destruct (flushLocked_goes _ c0 H0) as (c1 & err & E1 & [G (K1 & K2 & K3)] & Ew & _). rewrite E1 in Hn. destruct err; [done|].
  injection Hn as <-. split; [done|]. split; [done|]. by split.
Qed.
End Sound.
