(* ===== verification/H2ServerProps.v ===== *)
(** * HTTP/2: the properties of the server connection

    What the owner of a connection of [src/http2/server/server.go] and its
    handlers rely on, for any transport that keeps the contracts of [io], any
    handler, and any interleaving of the critical sections of the goroutines
    that use the connection. *)

From stdpp Require Import gmap.
From S2P Require Import Prelude Transport H2Frame H2FrameWf H2FrameSpec H2Hpack H2Headers H2Session H2SessionWf H2SessionInbound H2SessionOutbound H2SessionLife H2SessionProps H2Server H2ServerSound.
Open Scope Z_scope.

(** ** Connections of a transport *)

Definition options_typed (o : Options) : Prop := session_limits_typed o.(optSession) /\ in_u32 o.(optReadBufferBytes).

(** The connections that [New] and any critical sections after it produce. *)
Definition conn_reachable `{DX : Duplex} `{HP : Hpack} `{RO : !RangeOrder} (o : Options) (w : Conn) (c : ServerConn) : Prop :=
  exists c0, New (Some w) true o = Some (inl c0) /\ rtc conn_step c0 c.

Section Reachable.
Context `{DX : Duplex} `{HP : Hpack} `{RO : !RangeOrder} `{HF : !HpackFits}.
Implicit Types c : ServerConn.

Lemma server_reachable o w c :
  options_typed o -> conn_reachable o w c -> 
    conn_ok (normalizedSession o.(optSession)) (Transport.sent w ++ wire (settingsFrame RoleServer (normalizedSession o.(optSession)))) c.
Proof.
  intros [Hl _] (c0 & Hn & Hs). eapply conn_steps_ok; [|exact Hs]. by eapply New_ok.
Qed.

(** ** A closed connection *)

(** Nothing queued, so nothing to send. *)
Lemma flush_closed c : c.(ssession).(core).(output) = [] -> flushLocked c = Some (c, None).
Proof. intros E. unfold flushLocked. rewrite E. cbn. rewrite E. by destruct c as [? [] ?]. Qed.

Lemma call_closed c call :
  sclosed c = true -> closed_ok c.(ssession).(core) ->
  exists n e, writerCall c call = Some (c, (n, Some e)).
Proof.
  intros Hc (Ec & Es & Ee & Eo). assert (forall s, s = core (ssession c) -> setSession c (sstream c) (setCore (ssession c) s) = c) as Esame
    by (intros s ->; by destruct c as [? [] ? ? ? ?]).
  destruct call as [id fields fin|id data fin|id code|id headers|id value]; cbn [writerCall].
  - unfold WriterHeaders. rewrite Hc. by do 2 eexists.
  - unfold WriterWrite. rewrite Hc. by do 2 eexists.
  - unfold WriterReset, ResetStream. rewrite Es, lookup_empty. cbv beta iota zeta; rewrite Esame by done. by do 2 eexists.
  - unfold WriterPushPromise, PushPromise. destruct (_ || _ || _); [|rewrite Es, lookup_empty]; cbn [negb]; cbv beta iota zeta; rewrite Esame by done; by do 2 eexists.
  - unfold WriterPriorityUpdate, PriorityUpdate. destruct (_ <? _); [|unfold appendFrame, ready; rewrite Ec]; cbv beta iota zeta; rewrite Esame by done; by do 2 eexists.
Qed.

Lemma receive_closed c data :
  closed_ok c.(ssession).(core) -> receive c data = Some (c, [], Some (ServerSession ErrSessionClosed)).
Proof.
  intros (Ec & Es & Ee & Eo). unfold receive, Feed. rewrite Ec. cbv zeta. rewrite flush_closed by done.
  unfold collectEventsLocked. cbn. rewrite Ee. cbn. unfold NextEvent. rewrite Ee. by destruct c as [? [] ? ? ? ?].
Qed.

Lemma fail_closed c err : sclosed c = true -> fail_ c err = c.
Proof. intros H. unfold fail_. by rewrite H. Qed.

(** [Serve] of a closed connection ends in its first turn. *)
Lemma Serve_closed {HState : Type} rangeWriters (handler : Handler HState) c h fuel :
  sclosed c = true -> closed_ok c.(ssession).(core) ->
  exists c' err, Serve HState rangeWriters handler (S fuel) c h = Some (c', h, err) /\
    c'.(sclosed) = true /\ c'.(serr) = c.(serr) /\ Transport.sent c'.(sstream) = Transport.sent c.(sstream).
Proof.
  intros Hc Hk. cbn [Serve]. destruct (SRead (sstream c) (sbuffer c)) as [[w filled] [n err]] eqn:E. apply read_keeps in E. cbv zeta.
  set (c1 := mkServerConn w _ _ _ _ _). assert (sclosed c1 = true) as Hc1 by done. assert (closed_ok c1.(ssession).(core)) as Hk1 by done.
  assert (forall e, exists c' err0, Some (fail_ c1 e, h, e) = Some (c', h, err0) /\
    c'.(sclosed) = true /\ c'.(serr) = c.(serr) /\ Transport.sent c'.(sstream) = Transport.sent c.(sstream)) as Hfail
    by (intros e; rewrite fail_closed by done; by exists c1, e).
  destruct (_ || _); [apply Hfail|]. destruct (Z.eqb_spec n 0) as [->|Hn]; cbn [negb].
  - destruct err as [e|]; [|apply Hfail]. destruct (is_EOF e); [|apply Hfail].
    unfold finishServing, SessionFinish. destruct Hk1 as (-> & _). rewrite fail_closed by done. by do 2 eexists.
  - rewrite receive_closed by done. apply Hfail.
Qed.
End Reachable.

(** ** A server for the witnesses *)

(** A transport as in [pipe], with a request of [demoTraffic] on it. *)
Definition demoOptions : Options := mkOptions noLimits 7.

Definition demoWire : @Conn pipe := ([], demoTraffic).

(** Answers the fields of a request with an empty response, at once; the state
    is the list of the calls. *)
Definition answer : HandlerFuncs (ST := pipe) (HP := plainHpack) (list Notice) :=
  mkHandlerFuncs (list Notice)
    (Some (fun h id fields fin trailer =>
       Call (list Notice) (WHeaders id [field (str ":status") (str "204")] true)
         (fun _ => Done (list Notice) (h ++ [NHeaders id fields fin trailer]))))
    (Some (fun h id data => Done (list Notice) (h ++ [NData id data])))
    (Some (fun h id => Done (list Notice) (h ++ [NEnd id]))) None None.

Definition demoConn : ServerConn (ST := pipe) (HP := plainHpack) :=
  match New (ST := pipe) (HP := plainHpack) (Some demoWire) true demoOptions with
  | Some (inl c) => c
  | _ => mkServerConn (ST := pipe) demoWire demoServer [] ∅ true None
  end.

Lemma demoConn_new : New (ST := pipe) (HP := plainHpack) (Some demoWire) true demoOptions = Some (inl demoConn).
Proof. by vm_compute. Qed.

Lemma demoOptions_typed : options_typed demoOptions.
Proof. by vm_compute. Qed.

Definition demoServe : option (ServerConn (ST := pipe) (HP := plainHpack) * list Notice * ServerError (H := pipe) (H0 := plainHpack)) :=
  Serve (ST := pipe) (HP := plainHpack) (RO := mapOrder) (list Notice) elements (handlerOf (list Notice) answer)
    (S (length demoTraffic)) demoConn [].

Lemma demoConn_reachable : conn_reachable (ST := pipe) (HP := plainHpack) (RO := mapOrder) demoOptions demoWire demoConn.
Proof. exists demoConn. split; [exact demoConn_new | done]. Qed.

Lemma demoTraffic_bytes : bytes demoTraffic.
Proof. apply (bool_decide_unpack _). by vm_compute. Qed.

(** ** Claims *)

(** C19. Server frames: from [New] on, whatever the peer sends, whatever the
    handlers and other goroutines call and in whatever order their critical
    sections run, the session of a connection is sound, and the bytes the
    transport has taken, with the queued output behind them, are the SETTINGS
    frame of the server and then complete frames, each valid on the wire and
    none longer than the protocol allows; a connection that closed has sent a
    front part of such a sequence. *)
Theorem server_frames `{DX : Duplex} `{HP : Hpack} `{RO : !RangeOrder} `{HF : !HpackFits} o w (c : ServerConn) :
  options_typed o -> conn_reachable o w c ->
  let l := normalizedSession o.(optSession) in
  state_ok l c.(ssession) /\ c.(ssession).(core).(closed) = c.(sclosed) /\
  exists frames rest, Forall (H2SessionWf.sent maxFrameSize) frames /\
    Transport.sent c.(sstream) ++ rest = Transport.sent w ++ wire (settingsFrame RoleServer l) ++ wires frames /\
    (c.(sclosed) = false -> rest = c.(ssession).(core).(output)).
Proof.
  intros Ho Hc l. destruct (server_reachable o w c Ho Hc) as (H1 & H2 & frames & rest & F1 & F2 & F3). split; [done|]. split; [done|].
  exists frames, rest. by rewrite <- app_assoc in F2.
Qed.

Lemma server_frames_witness :
  exists frames rest, Forall (H2SessionWf.sent maxFrameSize) frames /\
    demoConn.(sstream).1 ++ rest = wire (settingsFrame RoleServer (normalizedSession noLimits)) ++ wires frames /\ rest = [].
Proof.
  destruct (server_frames (ST := pipe) (HP := plainHpack) (RO := mapOrder) demoOptions demoWire demoConn demoOptions_typed demoConn_reachable)
    as (_ & _ & frames & rest & F1 & F2 & F3).
  exists frames, rest. split; [exact F1|]. split; [exact F2|]. rewrite F3; by vm_compute.
Defined.

(** C20. Serving returns: on a transport that delivers finitely many bytes,
    [Serve] of a connection (as long as no other goroutine uses it) returns
    after at most one turn per byte and one more, for every handler (whose
    calls of response writers are finite) and every order of ranging over
    writers; then the connection is closed, has been reached by critical
    sections only, and records the error that [Serve] returns if it was open
    before. *)
Theorem server_serves `{DX : Duplex} `{HP : Hpack} `{RO : !RangeOrder} `{HF : !HpackFits} {HState : Type} rangeWriters
    (handler : Handler HState) o w (c : ServerConn) (h : HState) :
  options_typed o -> conn_reachable o w c -> bytes (pending c.(sstream)) ->
  exists c' h' err, Serve HState rangeWriters handler (S (length (pending c.(sstream)))) c h = Some (c', h', err) /\
    conn_reachable o w c' /\ c'.(sclosed) = true /\ (c.(sclosed) = false -> c'.(serr) = Some err).
Proof.
  intros Ho Hc Hb. destruct (Serve_served (normalizedSession (optSession o)) rangeWriters handler _
    (S (length (pending (sstream c)))) c h (server_reachable o w c Ho Hc) Hb ltac:(lia)) as (c' & h' & err & E & _ & S1 & S2 & S3).
  exists c', h', err. split; [done|]. split; [|by split]. destruct Hc as (c0 & Hn & Hs). exists c0. split; [done | by etrans].
Qed.

Lemma server_serves_witness :
  exists c' h' err, demoServe = Some (c', h', err) /\ c'.(sclosed) = true /\ c'.(serr) = Some err /\
    h' = [NHeaders 1 demoRequest false false; NData 1 (str "abc"); NEnd 1].
Proof.
  destruct (server_serves (ST := pipe) (HP := plainHpack) (RO := mapOrder) elements (handlerOf (list Notice) answer) demoOptions demoWire
    demoConn [] demoOptions_typed demoConn_reachable demoTraffic_bytes) as (c' & h' & err & E & _ & H1 & H2).
  exists c', h', err. split; [exact E|]. split; [exact H1|]. split; [apply H2; by vm_compute|].
  change (demoServe = Some (c', h', err)) in E. assert ((fun r => r.1.2) <$> demoServe = Some h') as E' by by rewrite E.
  revert E'. vm_compute. by intros [= <-].
Defined.

(** C21. After the end: on a connection that has closed, [Headers] and [Write]
    of every response writer return that the session is closed, the other
    methods an error too, and none changes anything; bytes that arrive are
    refused with the same error, without an event; and [Serve] returns in its
    first turn, whatever is read, having sent nothing and told the handler
    nothing, the recorded error kept. *)
Theorem server_closed_refuses `{DX : Duplex} `{HP : Hpack} `{RO : !RangeOrder} `{HF : !HpackFits} {HState : Type} rangeWriters
    (handler : Handler HState) o w (c : ServerConn) (h : HState) fuel :
  options_typed o -> conn_reachable o w c -> c.(sclosed) = true ->
  let refused := Some (ServerSession ErrSessionClosed) in
  (forall id fields fin, writerCall c (WHeaders id fields fin) = Some (c, (0, refused))) /\
  (forall id data fin, writerCall c (WWrite id data fin) = Some (c, (0, refused))) /\
  (forall call, exists n e, writerCall c call = Some (c, (n, Some e))) /\
  (forall data, receive c data = Some (c, [], refused)) /\
  exists c' err, Serve HState rangeWriters handler (S fuel) c h = Some (c', h, err) /\
    c'.(sclosed) = true /\ c'.(serr) = c.(serr) /\ Transport.sent c'.(sstream) = Transport.sent c.(sstream).
Proof.
  intros Ho Hc Hk refused. destruct (server_reachable o w c Ho Hc) as (H1 & H2 & _).
  pose proof (state_closed _ _ H1 (eq_trans H2 Hk)) as Hcl.
  split; [intros; cbn; unfold WriterHeaders; by rewrite Hk|]. split; [intros; cbn; unfold WriterWrite; by rewrite Hk|].
  split; [intros call; by apply call_closed|]. split; [intros data; by apply receive_closed | by apply Serve_closed].
Qed.

Definition demoClosed : ServerConn (ST := pipe) (HP := plainHpack) := fail_ demoConn (ServerIo IoNoProgress).

Lemma server_closed_refuses_witness :
  exists c' err, Serve (ST := pipe) (HP := plainHpack) (RO := mapOrder) (list Notice) elements (handlerOf (list Notice) answer) 1 demoClosed []
    = Some (c', [], err) /\ c'.(serr) = Some (ServerIo IoNoProgress).
Proof.
  destruct (server_closed_refuses (ST := pipe) (HP := plainHpack) (RO := mapOrder) elements (handlerOf (list Notice) answer) demoOptions demoWire
    demoClosed [] 0 demoOptions_typed) as (_ & _ & _ & _ & c' & err & E & _ & H & _).
  - exists demoConn. split; [exact demoConn_new|]. apply rtc_once. exact (StepFail demoConn (ServerIo IoNoProgress)).
  - by vm_compute.
  - exists c', err. split; [exact E|]. rewrite H. by vm_compute.
Defined.

(** ** Findings *)

(** Two requests without a body. *)
Definition twoRequests : list Z :=
  match runs (RO := mapOrder) [DoOpenStream demoRequest true; DoOpenStream demoRequest true] demoClient with
  | Some s => s.(core).(output)
  | None => []
  end.

(** The writers and the states of the streams after a turn of [Serve]. *)
Definition afterTurn (data : list Z) : option (list Z * list (option StreamState)) :=
  match receive (ST := pipe) (RO := mapOrder) demoConn data with
  | Some (c, es, None) =>
      match dispatch (list Notice) elements (handlerOf (list Notice) answer) c [] es with
      | Some (c, _) => Some (elements c.(writers), map (StreamState_ c.(ssession).(core)) [1; 3])
      | None => None
      end
  | _ => None
  end.

(** A handler that answers a request when its fields arrive, as both streams
    here are answered and closed, leaves an entry in the map of writers for
    every one of them: the event of the end of the request follows that of its
    fields, and its dispatch makes the writer again that the answer removed. *)
Example answered_writers_kept : afterTurn twoRequests = Some ([3; 1], [Some StreamClosed; Some StreamClosed]).
Proof. by vm_compute. Qed.
