(* ===== verification/H2Mux.v ===== *)
(** * HTTP/2: the multiplexed transport

    A translation of [src/http2/request/transport.go]: one connection over a
    session of [H2Session], shared by any number of goroutines: the read loop,
    the callers of [Do], the consumers of pushed responses and the callers of
    [Close].

    A goroutine is a value that says where it stands in its function and what
    its local variables are ([Goroutine]).  It moves by atomic steps: a critical
    section of the mutex, one operation on a channel, or a call of the caller's
    code.  A [select] has a step for each case that is ready; the argument
    [Case] of [step] names the case, so that every choice of Go's scheduler and
    of [select] is a sequence of arguments.  [None] is a goroutine that is
    blocked, or a case that is not ready; sending on a closed channel is
    [Panic].

    The channels of the exchanges are a list, by the number in which they were
    made; [window] holds a token or not; [done] is closed or not.  A context is
    cancelled or not.  [flushLocked] and [collectEventsLocked] are the same
    loops as those of the server, [flushLoop] and [collectEvents] of
    [H2Server].  The recycling of body buffers is not modelled. *)

From stdpp Require Import gmap.
From S2P Require Import Prelude Transport H2Frame H2Hpack H2Headers H2Session H2Server H2Request.
Open Scope Z_scope.

(** The [io.Reader] of a request body. *)
Class BodySource := {
  BodyReader : Type;
  BodyError : Type;
  body_EOF : BodyError -> bool;
  BodyRead : BodyReader -> list Z -> BodyReader * list Z * (Z * option BodyError);
}.

Inductive MuxError `{Stream} `{Hpack} `{BodySource} :=
  | MuxInvalidRequest (* ErrInvalidRequest *)
  | MuxInvalidResponse (* ErrInvalidResponse *)
  | MuxBodyTooLarge (* ErrResponseBodyTooLarge *)
  | MuxInvalidStream (* ErrInvalidStream *)
  | MuxReadBufferTooLarge (* ErrReadBufferTooLarge *)
  | MuxStreamError (code : Z) (retryable : bool) (* *StreamError *)
  | MuxGoAwayError (lastStreamID code : Z) (* *GoAwayError *)
  | MuxContext (* ctx.Err() *)
  | MuxIo (e : IoFailure)
  | MuxBody (e : BodyError) (* an error of the body's reader *)
  | MuxSession (e : SessionError)
  | MuxClosedPipe. (* io.ErrClosedPipe, of the pool *)

(** An error of the loops shared with the server. *)
Definition muxError `{Stream} `{Hpack} `{BodySource} (e : ServerError) : MuxError :=
  match e with
  | ErrInvalidServer => MuxInvalidStream (* not an error of the loops *)
  | ServerIo e => MuxIo e
  | ServerSession e => MuxSession e
  end.

Definition ErrCodeCancel : Z := 8.

(** ** Exchanges *)

Record Exchange := mkExchange {
  exHooks : option Hooks;
  exResponse : Response;
  exMaxBody : Z; (* uint64 *)
  exFinalHeaders : bool;
  exComplete : bool;
  exDelivered : list Delivery; (* the calls of the callbacks, newest first *)
}.

Definition newExchange (hooks : option Hooks) (maxBody : Z) : Exchange := mkExchange hooks zeroResponse maxBody false false [].

#[export] Instance eta_Exchange : Eta Exchange := fun x =>
  mkExchange x.(exHooks) x.(exResponse) x.(exMaxBody) x.(exFinalHeaders) x.(exComplete) x.(exDelivered).
#[export] Instance setx_exResponse : Setter exResponse := ltac:(mk_setter exResponse).
#[export] Instance setx_exFinalHeaders : Setter exFinalHeaders := ltac:(mk_setter exFinalHeaders).
#[export] Instance setx_exComplete : Setter exComplete := ltac:(mk_setter exComplete).
#[export] Instance setx_exDelivered : Setter exDelivered := ltac:(mk_setter exDelivered).
#[export] Instance eta_Response : Eta Response := fun r =>
  mkResponse r.(respStatus) r.(respContentLength) r.(respHasContentLength) r.(respBodyBytes) r.(respBuffered).
#[export] Instance setp_respStatus : Setter respStatus := ltac:(mk_setter respStatus).
#[export] Instance setp_respContentLength : Setter respContentLength := ltac:(mk_setter respContentLength).
#[export] Instance setp_respHasContentLength : Setter respHasContentLength := ltac:(mk_setter respHasContentLength).
#[export] Instance setp_respBodyBytes : Setter respBodyBytes := ltac:(mk_setter respBodyBytes).

(** [if exchange.callbacks != nil && exchange.callbacks.F != nil { exchange.callbacks.F(...) }] *)
Definition tell (F : Hooks -> bool) (d : Delivery) (x : Exchange) : Exchange :=
  match x.(exHooks) with
  | Some h => if F h then x <| exDelivered := d :: x.(exDelivered) |> else x
  | None => x
  end.

(** [strconv.ParseUint(value, 10, bits)] without its error values; [max] is the
    largest number of so many bits. *)
Definition ParseUint (value : list Z) (max : Z) : option Z :=
  match value with
  | [] => None
  | _ => if forallb (fun b => Prelude.between (ch "0") b (ch "9")) value && (decimal value <=? max) then Some (decimal value) else None
  end.

Section Mux.
Context `{ST : Stream} `{HP : Hpack} `{RO : !RangeOrder} `{BS : BodySource}.

(** The fields of a section that is not one of trailers: the exchange and the
    status, or the error. *)
Fixpoint consumeFields (x : Exchange) (status : Z) (fields : list HeaderField) : Exchange * (Z + MuxError) :=
  match fields with
  | [] => (x, inl status)
  | f :: fields =>
      let told x := tell hookHeader (OnHeader f false) x in
      if bytes_eqb f.(Name) (str ":status") then
        match ParseUint f.(FieldValue) MaxUint16 with
        | None => (x, inr MuxInvalidResponse)
        | Some status => consumeFields (told x) status fields
        end
      else if bytes_eqb f.(Name) (str "content-length") then
        match ParseUint f.(FieldValue) MaxUint64 with
        | None => (x, inr MuxInvalidResponse)
        | Some n =>
            consumeFields (told (x <| exResponse := x.(exResponse) <| respHasContentLength := true |> <| respContentLength := n |> |>))
              status fields
        end
      else consumeFields (told x) status fields
  end.

Definition consumeTrailers (x : Exchange) (fields : list HeaderField) : Exchange :=
  tell hookTrailersComplete OnTrailersComplete (fold_left (fun x f => tell hookHeader (OnHeader f true) x) fields x).

Definition consume (x : Exchange) (e : Event) : Exchange * option MuxError :=
  match e.(evType) with
  | EventHeaders =>
      if e.(evTrailer) then (consumeTrailers x e.(evHeaders), None)
      else
        match consumeFields x 0 e.(evHeaders) with
        | (x, inr err) => (x, Some err)
        | (x, inl status) =>
            if status =? 0 then (x, Some MuxInvalidResponse)
            else
              let informational := status <? 200 in
              let x := if informational then x
                       else x <| exFinalHeaders := true |> <| exResponse := x.(exResponse) <| respStatus := status |> |> in
              let r := x.(exResponse) in
              (tell hookHeadersComplete
                 (OnHeadersComplete (mkResponse status r.(respContentLength) r.(respHasContentLength) 0 []) informational) x, None)
        end
  | EventData =>
      if negb x.(exFinalHeaders) then (x, Some MuxInvalidResponse)
      else if u64 (x.(exMaxBody) - x.(exResponse).(respBodyBytes)) <? u64 (len e.(evData)) then (x, Some MuxBodyTooLarge)
      else
        let x := x <| exResponse := x.(exResponse) <| respBodyBytes := u64 (x.(exResponse).(respBodyBytes) + u64 (len e.(evData))) |> |> in
        (tell hookBody (OnBody e.(evData)) x, None)
  | EventStreamEnd =>
      if negb x.(exFinalHeaders) then (x, Some MuxInvalidResponse)
      else
        let x := x <| exComplete := true |> in
        (tell hookResponseComplete (OnResponseComplete x.(exResponse)) x, None)
  | EventStreamReset =>
      (x, Some (MuxStreamError e.(evErrorCode) ((e.(evErrorCode) =? ErrCodeRefusedStream) && negb x.(exFinalHeaders))))
  | _ => (x, None)
  end.
(** ** Requests *)

(** [io.EOF] or an error of the caller's reader. *)
Inductive BodyFailure := BodyEnd | BodyFailed (e : BodyError).

(** A body to be sent: [sliceReader] on the bytes that are left, or the reader
    of the request. *)
Inductive Body :=
  | SliceBody (rest : list Z)
  | ReaderBody (r : BodyReader).

Definition bytesReader (data : list Z) : Body := SliceBody data.

(** [body.Read(buffer)]: the body, the contents of the buffer, the count and the
    error. *)
Definition readBody (b : Body) (buffer : list Z) : Body * list Z * (Z * option BodyFailure) :=
  match b with
  | SliceBody [] => (b, buffer, (0, Some BodyEnd))
  | SliceBody rest =>
      let n := minInt (len buffer) (len rest) in
      (SliceBody (drop (Z.to_nat n) rest), take (Z.to_nat n) rest ++ drop (Z.to_nat n) buffer, (n, None))
  | ReaderBody r =>
      let '((r, filled), (n, err)) := BodyRead r buffer in
      (ReaderBody r, filled,
       (n, match err with Some e => Some (if body_EOF e then BodyEnd else BodyFailed e) | None => None end))
  end.

Definition reservedHeaderName (name : list Z) : bool :=
  existsb (equalASCII name) [str "host"; str "content-length"; str "connection"; str "proxy-connection"; str "keep-alive";
    str "transfer-encoding"; str "upgrade"].

Definition reservedTrailer (name : list Z) : bool := reservedHeaderName name || equalASCII name (str "te").

Definition headerField (h : Header) : HeaderField := mkHeaderField h.(hdrName) h.(hdrValue) h.(hdrSensitive).

(** The pseudo-header fields; [None] is [ErrInvalidRequest]. *)
Definition requestPseudo (r : Request) : option (list HeaderField) :=
  let method := mkHeaderField (str ":method") r.(reqMethod) false in
  let authority := mkHeaderField (str ":authority") r.(reqAuthority) false in
  let connect := bytes_eqb r.(reqMethod) (str "CONNECT") in
  if connect && (len r.(reqProtocol) =? 0) then Some [method; authority]
  else if negb (validScheme r.(reqScheme)) || (len r.(reqPath) =? 0) || negb (validPseudoValue r.(reqPath)) then None
  else
    let fields := [method; mkHeaderField (str ":scheme") r.(reqScheme) false; authority; mkHeaderField (str ":path") r.(reqPath) false] in
    if negb (len r.(reqProtocol) =? 0) then
      if negb connect || negb (validLowerName r.(reqProtocol)) then None
      else Some (fields ++ [mkHeaderField (str ":protocol") r.(reqProtocol) false])
    else Some fields.

(** The loop over the headers. *)
Fixpoint requestHeaders (headers : list Header) : option (list HeaderField) :=
  match headers with
  | [] => Some []
  | h :: headers =>
      if negb (validLowerName h.(hdrName)) || negb (validValue h.(hdrValue)) || forbiddenRequestHeader h.(hdrName) h.(hdrValue) then None
      else match requestHeaders headers with Some fields => Some (headerField h :: fields) | None => None end
  end.

(** The body and its length, -1 if it is not known. *)
Definition requestBody (r : Request) (reader : BodyReader) : option (option Body * Z) :=
  if r.(reqBodyReader) then
    if r.(reqHasBodyLength) then
      if r.(reqBodyLength) <? 0 then None else Some (Some (ReaderBody reader), r.(reqBodyLength))
    else Some (Some (ReaderBody reader), -1)
  else if negb (len r.(reqBody) =? 0) then Some (Some (bytesReader r.(reqBody)), len r.(reqBody))
  else Some (None, -1).

(** [reader] is [request.BodyReader], when it is not nil.  [None] is
    [ErrInvalidRequest]. *)
Definition transportRequest (r : Request) (reader : BodyReader) : option (list HeaderField * option Body * Z) :=
  if negb (len r.(reqBody) =? 0) && r.(reqBodyReader) then None
  else if negb (validMethod r.(reqMethod)) || (len r.(reqAuthority) =? 0) || negb (validPseudoValue r.(reqAuthority)) then None
  else
    match requestPseudo r with
    | None => None
    | Some pseudo =>
        match requestHeaders r.(reqHeaders) with
        | None => None
        | Some fields =>
            match requestBody r reader with
            | None => None
            | Some (body, length) =>
                let tail := if (0 <=? length) && match body with Some _ => true | None => false end
                            then [mkHeaderField (str "content-length") (formatUint length) false] else [] in
                Some (pseudo ++ fields ++ tail, body, length)
            end
        end
    end.

(** The loop of [sendTrailers]; [None] is [ErrInvalidRequest]. *)
Fixpoint trailerFields (trailers : list Header) : option (list HeaderField) :=
  match trailers with
  | [] => Some []
  | h :: trailers =>
      if negb (validLowerName h.(hdrName)) || negb (validValue h.(hdrValue)) || reservedTrailer h.(hdrName) then None
      else match trailerFields trailers with Some fields => Some (headerField h :: fields) | None => None end
  end.

End Mux.

(** ** The transport *)

Record TransportOptions := mkTransportOptions {
  toSession : SessionLimits;
  toReadBufferBytes : Z; (* uint32 *)
  toEventBuffer : Z; (* uint32 *)
  toMaxResponseBodyBytes : Z; (* uint64 *)
  toPushHandler : option (Z -> list HeaderField -> option Hooks * bool); (* of a [PushRequest] *)
}.

(** A channel of events: what it holds, and whether it is closed. *)
Record Channel := mkChannel { queue : list Event; chClosed : bool }.

(** [sync.Once]. *)
Inductive Once := NotStarted | Running | Finished.

Record Transport_ `{Stream} `{Hpack} `{BodySource} := mkTransport {
  tstream : Conn;
  tsession : Session;
  treadBuffer : list Z;
  eventBuffer : Z;
  maxResponseBody : Z;
  pushHandler : option (Z -> list HeaderField -> option Hooks * bool);
  tpending : gmap Z nat;
  window : bool;
  done : bool;
  closeOnce : Once;
  terr : option MuxError;
  goAway : option (Z * Z);
  channels : list Channel;
}.
#[export] Instance eta_Transport `{S : Stream} `{H : Hpack} `{B : BodySource} : Eta Transport_ := fun t =>
  mkTransport S H B t.(tstream) t.(tsession) t.(treadBuffer) t.(eventBuffer) t.(maxResponseBody) t.(pushHandler) t.(tpending) t.(window) t.(done) t.(closeOnce) t.(terr) t.(goAway) t.(channels).
#[export] Instance sett_tstream `{S : Stream} `{H : Hpack} `{B : BodySource} : Setter (@tstream S H B) := ltac:(mk_setter (@tstream S H B)).
#[export] Instance sett_tsession `{S : Stream} `{H : Hpack} `{B : BodySource} : Setter (@tsession S H B) := ltac:(mk_setter (@tsession S H B)).
#[export] Instance sett_treadBuffer `{S : Stream} `{H : Hpack} `{B : BodySource} : Setter (@treadBuffer S H B) := ltac:(mk_setter (@treadBuffer S H B)).
#[export] Instance sett_tpending `{S : Stream} `{H : Hpack} `{B : BodySource} : Setter (@tpending S H B) := ltac:(mk_setter (@tpending S H B)).
#[export] Instance sett_window `{S : Stream} `{H : Hpack} `{B : BodySource} : Setter (@window S H B) := ltac:(mk_setter (@window S H B)).
#[export] Instance sett_done `{S : Stream} `{H : Hpack} `{B : BodySource} : Setter (@done S H B) := ltac:(mk_setter (@done S H B)).
#[export] Instance sett_closeOnce `{S : Stream} `{H : Hpack} `{B : BodySource} : Setter (@closeOnce S H B) := ltac:(mk_setter (@closeOnce S H B)).
#[export] Instance sett_terr `{S : Stream} `{H : Hpack} `{B : BodySource} : Setter (@terr S H B) := ltac:(mk_setter (@terr S H B)).
#[export] Instance sett_goAway `{S : Stream} `{H : Hpack} `{B : BodySource} : Setter (@goAway S H B) := ltac:(mk_setter (@goAway S H B)).
#[export] Instance sett_channels `{S : Stream} `{H : Hpack} `{B : BodySource} : Setter (@channels S H B) := ltac:(mk_setter (@channels S H B)).

Section Transport.
Context `{ST : Stream} `{HP : Hpack} `{RO : !RangeOrder} `{BS : BodySource}.
Implicit Types t : Transport_.

Definition coreOf t : Core := t.(tsession).(core).

Definition setCoreOf t (s : Core) : Transport_ := t <| tsession := setCore t.(tsession) s |>.

Definition flushTransport t : option (Transport_ * option MuxError) :=
  match flushLoop (length (coreOf t).(output)) t.(tstream) (coreOf t) with
  | Some (w, s, err) => Some (setCoreOf t s <| tstream := w |>, option_map muxError err)
  | None => None
  end.

Definition collectTransport t : option (Transport_ * list Event) :=
  match collectEvents (length (coreOf t).(events)) (coreOf t) with
  | Some (s, es) => Some (setCoreOf t s, es)
  | None => None
  end.

(** *** Channels *)

(** [make(chan h2.Event, n)] *)
Definition makeChannel t : Transport_ * nat := (t <| channels := t.(channels) ++ [mkChannel [] false] |>, length t.(channels)).

Inductive Sent := Sending (t : Transport_) | SendBlocks | SendPanics.

Definition sendEvent t (chan : nat) (e : Event) : Sent :=
  match t.(channels) !! chan with
  | None => SendBlocks (* no such channel *)
  | Some c =>
      if c.(chClosed) then SendPanics
      else if len c.(queue) <? t.(eventBuffer) then Sending (t <| channels := <[chan := mkChannel (c.(queue) ++ [e]) false]> t.(channels) |>)
      else SendBlocks
  end.

Inductive Received := Receiving (t : Transport_) (e : Event) | ReceiveClosed | ReceiveBlocks.

Definition receiveEvent t (chan : nat) : Received :=
  match t.(channels) !! chan with
  | None => ReceiveBlocks (* no such channel *)
  | Some c =>
      match c.(queue) with
      | e :: rest => Receiving (t <| channels := <[chan := mkChannel rest c.(chClosed)]> t.(channels) |>) e
      | [] => if c.(chClosed) then ReceiveClosed else ReceiveBlocks
      end
  end.

(** *** Critical sections *)

Definition cancelStream t (id : Z) : option Transport_ :=
  match flushTransport (setCoreOf t (ResetStream (coreOf t) id ErrCodeCancel).1) with
  | Some (t, _) => Some (t <| tpending := delete id t.(tpending) |>)
  | None => None
  end.

Definition forget t (id : Z) : Transport_ := t <| tpending := delete id t.(tpending) |>.

(** [connectionError], and the same lines in [Do]. *)
Definition connectionError_ t : MuxError := match t.(terr) with Some e => e | None => MuxIo IoUnexpectedEOF end.

(** The critical section of [fail]. *)
Definition failLocked t (err : MuxError) : Transport_ :=
  let open := (map_to_list t.(tpending)).*2 in
  t <| terr := Some err |>
    <| channels := imap (fun i c => if bool_decide (i ∈ open) then mkChannel c.(queue) true else c) t.(channels) |>
    <| tpending := ∅ |>
    <| tsession := setCore t.(tsession) (H2Session.Close (coreOf t)) |>.

(** The first critical section of [Do]: the stream and its channel. *)
Definition openExchange t (headers : list HeaderField) (endHeaders : bool) : option (Transport_ * ((Z * nat) + MuxError)) :=
  let (t, chan) := makeChannel t in
  match t.(terr), t.(goAway) with
  | Some err, _ => Some (t, inr err)
  | None, Some (last, code) => Some (t, inr (MuxGoAwayError last code))
  | None, None =>
      let '(s, (id, err)) := OpenStream (coreOf t) headers endHeaders in
      let t := setCoreOf t s in
      match err with
      | Some e => Some (t, inr (MuxSession e))
      | None =>
          match flushTransport (t <| tpending := <[id := chan]> t.(tpending) |>) with
          | Some (t, None) => Some (t, inl (id, chan))
          | Some (t, Some err) => Some (t, inr err)
          | None => None
          end
      end
  end.

(** A turn of the loop of [sendBody]: the error of the transport, or the bytes
    sent and the error. *)
Definition sendChunk_ t (id : Z) (chunk : list Z) : option (Transport_ * (MuxError + (Z * option MuxError))) :=
  match t.(terr) with
  | Some err => Some (t, inl err)
  | None =>
      let '(s, (n, err)) := SendData (coreOf t) id chunk false in
      let t := setCoreOf t s in
      let err := option_map MuxSession err in
      if 0 <? n then
        match flushTransport t with
        | Some (t, None) => Some (t, inr (n, err))
        | Some (t, Some e) => Some (t, inr (n, Some e))
        | None => None
        end
      else Some (t, inr (n, err))
  end.

(** [SendData(streamID, nil, true)] and [SendHeaders(streamID, fields, true)],
    flushed. *)
Definition flushAfter t (s : Core) (err : option SessionError) : option (Transport_ * option MuxError) :=
  let t := setCoreOf t s in
  match err with
  | Some e => Some (t, Some (MuxSession e))
  | None => flushTransport t
  end.

Definition sendEnd t (id : Z) : option (Transport_ * option MuxError) :=
  let '(s, (_, err)) := SendData (coreOf t) id [] true in flushAfter t s err.

Definition sendTrailers t (id : Z) (trailers : list Header) : option (Transport_ * option MuxError) :=
  match trailerFields trailers with
  | None => Some (t, Some MuxInvalidRequest)
  | Some fields => let (s, err) := SendHeaders (coreOf t) id fields true in flushAfter t s err
  end.

(** The critical section of the read loop. *)
Definition receiveBytes t (data : list Z) : option (Transport_ * (list Event * option MuxError)) :=
  match Feed t.(tsession) data with
  | None => None
  | Some (ss, rest, err) =>
      let t := t <| tsession := ss |> in
      let err := match err with
                 | Some e => Some (MuxSession e)
                 | None => if negb (len rest =? 0) then Some (MuxIo IoNoProgress) else None
                 end in
      match match err with Some e => Some (t, Some e) | None => flushTransport t end with
      | None => None
      | Some (t, err) => match collectTransport t with Some (t, es) => Some (t, (es, err)) | None => None end
      end
  end.

(** ** Goroutines *)

(** In [fail]: before [closeOnce.Do], between its two steps, behind it. *)
Inductive FailPc :=
  | FCall (err : MuxError)
  | FDone
  | FEnd.

(** In [readLoop]; [readErr] is its variable of that name. *)
Inductive ReadPc :=
  | RRead
  | RFeed (data : list Z) (readErr : option StreamError)
  | RDispatch (events : list Event) (readErr : option StreamError) (* in [dispatch]; behind it for the empty list *)
  | RSend (chan : nat) (e : Event) (rest : list Event) (readErr : option StreamError)
  | RFinish (eof : StreamError)
  | RFail (f : FailPc).

(** The variables of [Do] behind its first critical section. *)
Record DoFrame := mkDoFrame {
  doStream : Z;
  doChannel : nat;
  doTrailers : list Header;
  doExchange : Exchange;
}.

(** In [sendBody]: the reader, the bytes [buffer[offset:read]], [readErr] and
    [read == 0]. *)
Record BodyFrame := mkBodyFrame {
  bfBody : Body;
  bfChunk : list Z;
  bfErr : option BodyFailure;
  bfNone : bool;
}.

Inductive DoPc :=
  | DRead (body : Body)
  | DConsume (b : BodyFrame) (* in [consumeAvailable] *)
  | DSend (b : BodyFrame)
  | DWait (b : BodyFrame) (* at the [select] of [sendBody] *)
  | DBodyError (* in [connectionError], called by [sendBody] *)
  | DTrailers
  | DEnd
  | DCancel (err : option MuxError) (* before [cancelStream] *)
  | DLoop (* at the [select] of [Do] *)
  | DLoopError
  | DDelete. (* the exchange is complete *)

Inductive PushPc := PLoop | PCancel | PDelete | PEnd.

Inductive Goroutine :=
  | Reading (pc : ReadPc)
  | Starting (ctx : bool) (request : Request) (reader : BodyReader) (hooks : option Hooks)
  | Doing (ctx : bool) (f : DoFrame) (pc : DoPc)
  | Returned (x : Exchange) (r : Response + MuxError) (* from [Do] *)
  | Pushing (id : Z) (chan : nat) (x : Exchange) (pc : PushPc)
  | Closing (closeErr : option StreamError) (f : FailPc). (* in [Close], behind the stream's; [closeErr] is returned *)

(** The case of a [select] that is taken; [Run] where there is none. *)
Inductive Case := Run | CaseEvents | CaseWindow | CaseContext | CaseDone.

Inductive Outcome :=
  | Goes (t : Transport_) (g : Goroutine) (started : list Goroutine)
  | Panic.

Definition goes_ (g : Goroutine) t : Outcome := Goes t g [].

(** [fail]: its first caller runs the function, others wait for it. *)
Definition failStep t (f : FailPc) : option (Transport_ * FailPc) :=
  match f with
  | FCall err =>
      match t.(closeOnce) with
      | NotStarted => Some (failLocked t err <| closeOnce := Running |>, FDone)
      | Running => None
      | Finished => Some (t, FEnd)
      end
  | FDone => Some (t <| done := true |> <| closeOnce := Finished |>, FEnd)
  | FEnd => None
  end.

(** Behind the handling of what was read; [none] is [read == 0]. *)
Definition afterRead (none : bool) (readErr : option StreamError) : ReadPc :=
  match readErr with
  | Some e => if is_EOF e then RFinish e else RFail (FCall (MuxIo (IoError e)))
  | None => if none then RFail (FCall (MuxIo IoNoProgress)) else RRead
  end.

(** [acceptPush], up to the start of the goroutine. *)
Definition acceptPush t (e : Event) : option (Transport_ * list Goroutine) :=
  let answer := match t.(pushHandler) with Some f => f e.(evStreamID) e.(evHeaders) | None => (None, false) end in
  if negb answer.2 then match cancelStream t e.(evStreamID) with Some t => Some (t, []) | None => None end
  else
    let (t, chan) := makeChannel t in
    match t.(terr) with
    | Some _ => Some (t, [])
    | None =>
        Some (t <| tpending := <[e.(evStreamID) := chan]> t.(tpending) |>,
              [Pushing e.(evStreamID) chan (newExchange answer.1 t.(maxResponseBody)) PLoop])
    end.

(** A turn of [dispatch]. *)
Definition dispatchStep t (e : Event) (rest : list Event) (readErr : option StreamError) : option Outcome :=
  let next t := Goes t (Reading (RDispatch rest readErr)) in
  match e.(evType) with
  | EventPushPromise => match acceptPush t e with Some (t, started) => Some (next t started) | None => None end
  | _ =>
      if e.(evStreamID) =? 0 then
        match e.(evType) with
        | EventGoAway => Some (next (t <| goAway := Some (e.(evLastStreamID), e.(evErrorCode)) |>) [])
        | _ => Some (next t [])
        end
      else
        match t.(tpending) !! e.(evStreamID) with
        | None => Some (next t [])
        | Some chan => Some (goes_ (Reading (RSend chan e rest readErr)) t)
        end
  end.

Definition readStep t (pc : ReadPc) (case : Case) : option Outcome :=
  match pc, case with
  | RRead, Run =>
      let '((w, filled), (read, readErr)) := SRead t.(tstream) t.(treadBuffer) in
      let t := t <| tstream := w |> <| treadBuffer := filled |> in
      if (read <? 0) || (len filled <? read) then Some (goes_ (Reading (RFail (FCall (MuxIo IoShortBuffer)))) t)
      else if negb (read =? 0) then Some (goes_ (Reading (RFeed (take (Z.to_nat read) filled) readErr)) t)
      else Some (goes_ (Reading (afterRead true readErr)) t)
  | RFeed data readErr, Run =>
      match receiveBytes t data with
      | None => None
      | Some (t, (_, Some err)) => Some (goes_ (Reading (RFail (FCall err))) t)
      | Some (t, (events, None)) => Some (goes_ (Reading (RDispatch events readErr)) t)
      end
  | RDispatch (e :: rest) readErr, Run => dispatchStep t e rest readErr
  | RDispatch [] readErr, Run => Some (goes_ (Reading (afterRead false readErr)) (t <| window := true |>))
  | RSend chan e rest readErr, CaseEvents =>
      match sendEvent t chan e with
      | Sending t => Some (goes_ (Reading (RDispatch rest readErr)) t)
      | SendBlocks => None
      | SendPanics => Some Panic
      end
  | RSend chan e rest readErr, CaseDone => if t.(done) then Some (goes_ (Reading (RDispatch [] readErr)) t) else None
  | RFinish eof, Run =>
      let (ss, err) := SessionFinish t.(tsession) in
      let err := match err with Some e => MuxSession e | None => MuxIo (IoError eof) end in
      Some (goes_ (Reading (RFail (FCall err))) (t <| tsession := ss |>))
  | RFail f, Run => match failStep t f with Some (t, f) => Some (goes_ (Reading (RFail f)) t) | None => None end
  | _, _ => None
  end.

(** Behind the loop over what was read of the body. *)
Definition afterChunk (f : DoFrame) (b : BodyFrame) : DoPc :=
  match b.(bfErr) with
  | Some (BodyFailed e) => DCancel (Some (MuxBody e))
  | Some BodyEnd => if negb (len f.(doTrailers) =? 0) then DTrailers else DEnd
  | None => if b.(bfNone) then DCancel (Some (MuxIo IoNoProgress)) else DRead b.(bfBody)
  end.

(** At the head of that loop. *)
Definition nextChunk (f : DoFrame) (b : BodyFrame) : DoPc := if len b.(bfChunk) =? 0 then afterChunk f b else DSend b.

(** Behind the sending of the request. *)
Definition afterSend (f : DoFrame) : DoPc := if f.(doExchange).(exComplete) then DDelete else DLoop.

(** The result of a last write of [sendBody], or of [sendTrailers]. *)
Definition afterWrite (ctx : bool) (f : DoFrame) (res : option (Transport_ * option MuxError)) : option Outcome :=
  match res with
  | None => None
  | Some (t, Some err) => Some (goes_ (Doing ctx f (DCancel (Some err))) t)
  | Some (t, None) => Some (goes_ (Doing ctx f (afterSend f)) t)
  end.

(** An event on the channel of the exchange: what follows it, and the error or
    the closing of the channel. *)
Definition onEvent t (ctx : bool) (f : DoFrame) (next : DoFrame -> DoPc) (closed : DoPc) : option Outcome :=
  match receiveEvent t f.(doChannel) with
  | ReceiveBlocks => None
  | ReceiveClosed => Some (goes_ (Doing ctx f closed) t)
  | Receiving t e =>
      let (x, err) := consume f.(doExchange) e in
      let f := mkDoFrame f.(doStream) f.(doChannel) f.(doTrailers) x in
      match err with
      | Some err => Some (goes_ (Doing ctx f (DCancel (Some err))) t)
      | None => Some (goes_ (Doing ctx f (next f)) t)
      end
  end.

Definition startStep t (ctx : bool) (request : Request) (reader : BodyReader) (hooks : option Hooks) : option Outcome :=
  let x := newExchange hooks t.(maxResponseBody) in
  match transportRequest request reader with
  | None => Some (goes_ (Returned x (inr MuxInvalidRequest)) t)
  | Some (headers, body, _) =>
      let noTrailers := len request.(reqTrailers) =? 0 in
      let endHeaders := match body with None => noTrailers | Some _ => false end in
      match openExchange t headers endHeaders with
      | None => None
      | Some (t, inr err) => Some (goes_ (Returned x (inr err)) t)
      | Some (t, inl (id, chan)) =>
          let f := mkDoFrame id chan request.(reqTrailers) x in
          Some (goes_ (Doing ctx f
            (match body with
             | Some body => DRead body
             | None => if noTrailers then afterSend f else DTrailers
             end)) t)
      end
  end.

(** [make([]byte, 16<<10)] *)
Definition bodyBuffer : list Z := replicate (Z.to_nat (Z.shiftl 16 10)) 0.

Definition isWouldBlock (err : option MuxError) : bool := match err with Some (MuxSession ErrWouldBlock) => true | _ => false end.

Definition doStep t (ctx : bool) (f : DoFrame) (pc : DoPc) (case : Case) : option Outcome :=
  match pc, case with
  | DRead body, Run =>
      let '((body, filled), (read, err)) := readBody body bodyBuffer in
      if (read <? 0) || (len filled <? read) then Some (goes_ (Doing ctx f (DCancel (Some (MuxIo IoShortBuffer)))) t)
      else Some (goes_ (Doing ctx f (DConsume (mkBodyFrame body (take (Z.to_nat read) filled) err (read =? 0)))) t)
  | DConsume b, CaseEvents => onEvent t ctx f (fun _ => DConsume b) DBodyError
  | DConsume b, Run => (* the default case *)
      match receiveEvent t f.(doChannel) with
      | ReceiveBlocks =>
          Some (goes_ (Doing ctx f (if f.(doExchange).(exComplete) then DCancel None else nextChunk f b)) t)
      | _ => None
      end
  | DSend b, Run =>
      match sendChunk_ t f.(doStream) b.(bfChunk) with
      | None => None
      | Some (t, inl err) => Some (goes_ (Doing ctx f (DCancel (Some err))) t)
      | Some (t, inr (n, err)) =>
          let b := mkBodyFrame b.(bfBody) (drop (Z.to_nat n) b.(bfChunk)) b.(bfErr) b.(bfNone) in
          match err with
          | Some e =>
              if isWouldBlock err then
                Some (goes_ (Doing ctx f (if len b.(bfChunk) =? 0 then nextChunk f b else DWait b)) t)
              else Some (goes_ (Doing ctx f (DCancel (Some e))) t)
          | None =>
              Some (goes_ (Doing ctx f (if negb (len b.(bfChunk) =? 0) && (n =? 0) then DWait b else nextChunk f b)) t)
          end
      end
  | DWait b, CaseEvents =>
      onEvent t ctx f (fun f => if f.(doExchange).(exComplete) then DCancel None else nextChunk f b) DBodyError
  | DWait b, CaseWindow => if t.(window) then Some (goes_ (Doing ctx f (nextChunk f b)) (t <| window := false |>)) else None
  | DWait b, CaseContext => if ctx then Some (goes_ (Doing ctx f (DCancel (Some MuxContext))) t) else None
  | DWait b, CaseDone => if t.(done) then Some (goes_ (Doing ctx f DBodyError) t) else None
  | DBodyError, Run => Some (goes_ (Doing ctx f (DCancel (Some (connectionError_ t)))) t)
  | DTrailers, Run => afterWrite ctx f (sendTrailers t f.(doStream) f.(doTrailers))
  | DEnd, Run => afterWrite ctx f (sendEnd t f.(doStream))
  | DCancel err, Run =>
      match cancelStream t f.(doStream) with
      | None => None
      | Some t =>
          match err with
          | Some err => Some (goes_ (Returned f.(doExchange) (inr err)) t)
          | None => Some (goes_ (Doing ctx f (afterSend f)) t)
          end
      end
  | DLoop, CaseEvents => onEvent t ctx f afterSend DLoopError
  | DLoop, CaseContext => if ctx then Some (goes_ (Doing ctx f (DCancel (Some MuxContext))) t) else None
  | DLoop, CaseDone => if t.(done) then Some (goes_ (Doing ctx f DLoopError) t) else None
  | DLoopError, Run => Some (goes_ (Returned f.(doExchange) (inr (connectionError_ t))) t)
  | DDelete, Run => Some (goes_ (Returned f.(doExchange) (inl f.(doExchange).(exResponse))) (forget t f.(doStream)))
  | _, _ => None
  end.

(** [consumePush] *)
Definition pushStep t (id : Z) (chan : nat) (x : Exchange) (pc : PushPc) (case : Case) : option Outcome :=
  match pc, case with
  | PLoop, CaseEvents =>
      match receiveEvent t chan with
      | ReceiveBlocks => None
      | ReceiveClosed => Some (goes_ (Pushing id chan x PEnd) t)
      | Receiving t e =>
          let (x, err) := consume x e in
          Some (goes_ (Pushing id chan x
            (match err with Some _ => PCancel | None => if x.(exComplete) then PDelete else PLoop end)) t)
      end
  | PCancel, Run => match cancelStream t id with Some t => Some (goes_ (Pushing id chan x PDelete) t) | None => None end
  | PDelete, Run => Some (goes_ (Pushing id chan x PEnd) (forget t id))
  | _, _ => None
  end.

Definition step t (g : Goroutine) (case : Case) : option Outcome :=
  match g with
  | Reading pc => readStep t pc case
  | Starting ctx request reader hooks => match case with Run => startStep t ctx request reader hooks | _ => None end
  | Doing ctx f pc => doStep t ctx f pc case
  | Returned _ _ => None
  | Pushing id chan x pc => pushStep t id chan x pc case
  | Closing closeErr f =>
      match case with
      | Run => match failStep t f with Some (t, f) => Some (goes_ (Closing closeErr f) t) | None => None end
      | _ => None
      end
  end.

(** ** Programs that use a transport *)

Record World := mkWorld {
  transport : Transport_;
  goroutines : list Goroutine;
  panicked : bool;
}.

(** What happens next: a goroutine moves, a context is cancelled, or a caller
    comes. *)
Inductive Action :=
  | Move (i : nat) (case : Case)
  | CancelContext (i : nat)
  | CallDo (request : Request) (reader : BodyReader) (hooks : option Hooks)
  | CallClose (closer : option (Conn -> Conn * option StreamError)). (* the stream's [Close], if it is an [io.Closer] *)

Definition perform (w : World) (a : Action) : option World :=
  if w.(panicked) then None
  else
    match a with
    | Move i case =>
        match w.(goroutines) !! i with
        | None => None
        | Some g =>
            match step w.(transport) g case with
            | None => None
            | Some (Goes t g started) => Some (mkWorld t (<[i := g]> w.(goroutines) ++ started) false)
            | Some Panic => Some (mkWorld w.(transport) w.(goroutines) true)
            end
        end
    | CancelContext i =>
        match w.(goroutines) !! i with
        | Some (Starting _ request reader hooks) =>
            Some (mkWorld w.(transport) (<[i := Starting true request reader hooks]> w.(goroutines)) false)
        | Some (Doing _ f pc) => Some (mkWorld w.(transport) (<[i := Doing true f pc]> w.(goroutines)) false)
        | _ => None
        end
    | CallDo request reader hooks => Some (mkWorld w.(transport) (w.(goroutines) ++ [Starting false request reader hooks]) false)
    | CallClose closer =>
        let (stream, closeErr) := match closer with Some close => close w.(transport).(tstream) | None => (w.(transport).(tstream), None) end in
        Some (mkWorld (w.(transport) <| tstream := stream |>)
          (w.(goroutines) ++ [Closing closeErr (FCall (MuxSession ErrSessionClosed))]) false)
    end.

Fixpoint performs (w : World) (actions : list Action) : option World :=
  match actions with
  | [] => Some w
  | a :: actions => match perform w a with Some w => performs w actions | None => None end
  end.

(** The transport and its read loop, or the error with the stream after the
    attempt. *)
Definition NewTransport (stream : option Conn) (o : TransportOptions) : option (World + (option Conn * MuxError)) :=
  match stream with
  | None => Some (inr (None, MuxInvalidStream))
  | Some w =>
      let size := if o.(toReadBufferBytes) =? 0 then DefaultReadBufferBytes else o.(toReadBufferBytes) in
      if MaxInt <? size then Some (inr (Some w, MuxReadBufferTooLarge))
      else
        let buffer := if o.(toEventBuffer) =? 0 then 16 else o.(toEventBuffer) in
        if Z.shiftl 1 16 <? buffer then Some (inr (Some w, MuxInvalidRequest))
        else
          let maxBody := if o.(toMaxResponseBodyBytes) =? 0 then defaultMaxResponseBody else o.(toMaxResponseBodyBytes) in
          match NewSession RoleClient o.(toSession) with
          | inr e => Some (inr (Some w, MuxSession e))
          | inl ss =>
              match flushTransport (mkTransport _ _ _ w ss (replicate (Z.to_nat size) 0) buffer maxBody o.(toPushHandler)
                      ∅ false false NotStarted None None []) with
              | None => None
              | Some (t, Some err) => Some (inr (Some t.(tstream), err))
              | Some (t, None) => Some (inl (mkWorld t [Reading RRead] false))
              end
          end
  end.
End Transport.
