(* ===== verification/H2MuxSound.v ===== *)
(** * HTTP/2: the invariant of a multiplexed transport

    What every atomic step of every goroutine of [H2Mux] keeps, so that it
    holds in every interleaving: the session is sound and the bytes sent are
    complete frames (through the lemmas of [H2ServerSound], on the part of a
    transport that it shares with a server connection), channels stay within
    their capacity, and an event is only ever queued for the exchange of its
    stream. *)

From stdpp Require Import gmap.
From S2P Require Import Prelude Transport H2Frame H2FrameWf H2FrameSpec H2Hpack H2Headers H2Session H2SessionWf H2SessionInbound H2SessionOutbound H2SessionLife H2Server H2ServerSound H2Request H2Mux.
Open Scope Z_scope.

Section Sound.
Context `{DX : Duplex} `{HP : Hpack} `{RO : !RangeOrder} `{HF : !HpackFits} `{BS : BodySource} (L : SessionLimits) (base : list Z).
Implicit Types t : Transport_.

(** ** The connection of a transport *)

Definition failed_ t : bool := match t.(closeOnce) with NotStarted => false | _ => true end.

(** The session and the stream of a transport, as those of a server connection. *)
Definition view t : ServerConn := mkServerConn t.(tstream) t.(tsession) [] ∅ (failed_ t) None.

Definition link_ok t : Prop := conn_ok L base (view t) /\ bytes (pending t.(tstream)).

(** Only the stream and the session change. *)
Definition linked t t' : Prop := exists w ss, t' = t <| tsession := ss |> <| tstream := w |> /\ link_ok t'.

Lemma linked_ok t t' : linked t t' -> link_ok t'.
Proof. by intros (w & ss & _ & H). Qed.

Lemma linked_trans t1 t2 t3 : linked t1 t2 -> linked t2 t3 -> linked t1 t3.
Proof. intros (w & ss & -> & _) (w' & ss' & -> & H). by exists w', ss'. Qed.

Lemma view_linked t c :
  link_ok t -> goes L base (view t) c -> linked t (t <| tsession := c.(ssession) |> <| tstream := c.(sstream) |>).
Proof.
  intros [_ Hb] [Hc (K1 & _ & K3)]. exists (sstream c), (ssession c). split; [done|]. split; [|cbn; by rewrite K3].
  destruct Hc as (H1 & H2 & H3). unfold conn_ok, framed, view in *. cbn in *. rewrite K1 in *. by split.
Qed.

Lemma run_linked t op :
  link_ok t -> op_typed op -> emits op = true ->
  exists ss, run op t.(tsession) = Some ss /\ linked t (t <| tsession := ss |>).
Proof.
  intros Ht Ho He. destruct (run_goes L base (view t) op (proj1 Ht) Ho He) as (ss & E & G). exists ss. split; [done|].
  pose proof (view_linked t _ Ht G) as H. by destruct t.
Qed.

Lemma core_linked {A} t op (f : Core -> Core * A) s r :
  link_ok t -> op_typed op -> emits op = true -> run op t.(tsession) = Some (on_core (fun s => (f s).1) t.(tsession)) ->
  f (coreOf t) = (s, r) -> linked t (setCoreOf t s).
Proof.
  intros Ht Ho He Hr E. destruct (run_linked t op Ht Ho He) as (ss & E' & H). rewrite Hr in E'. injection E' as <-.
  unfold on_core in H. unfold coreOf in E. by rewrite E in H.
Qed.

Lemma flush_linked t : link_ok t -> exists t' err, flushTransport t = Some (t', err) /\ linked t t'.
Proof.
  intros Ht. destruct (flushLocked_goes L base (view t) (proj1 Ht)) as (c & err & E & G & _). unfold flushTransport, flushLocked in *.
  change (core (ssession (view t))) with (coreOf t) in E. change (sstream (view t)) with (tstream t) in E.
  destruct (flushLoop _ (tstream t) (coreOf t)) as [[[w s] e]|]; [|done]. injection E as <- _. do 2 eexists. split; [done|].
  exact (view_linked t _ Ht G).
Qed.

Lemma collect_linked t : link_ok t -> exists t', collectTransport t = Some (t', (coreOf t).(events)) /\ linked t t'.
Proof.
  intros Ht. destruct (collectEventsLocked_goes L base (view t) (proj1 Ht)) as (c & E & G & _). unfold collectTransport, collectEventsLocked in *.
  change (core (ssession (view t))) with (coreOf t) in E.
  destruct (collectEvents _ (coreOf t)) as [[s es]|]; [|done]. injection E as <- ->. eexists. split; [done|].
  pose proof (view_linked t _ Ht G) as H. by destruct t.
Qed.

(** ** Critical sections *)

(** A transport that differs in nothing the connection depends on. *)
Lemma link_same t t' :
  link_ok t -> t'.(tstream) = t.(tstream) -> t'.(tsession) = t.(tsession) -> failed_ t' = failed_ t -> link_ok t'.
Proof. intros [H Hb] E1 E2 E3. split; [|by rewrite E1]. unfold view in *. by rewrite E1, E2, E3. Qed.

Lemma cancel_linked t id :
  link_ok t -> exists t', cancelStream t id = Some t' /\ linked (forget t id) t'.
Proof.
  intros Ht. unfold cancelStream. destruct (ResetStream (coreOf t) id ErrCodeCancel) as [s e] eqn:E. cbn [fst].
  pose proof (core_linked t (DoResetStream id ErrCodeCancel) (fun s => ResetStream s id ErrCodeCancel) s e Ht I eq_refl eq_refl E) as G.
  destruct (flush_linked _ (linked_ok _ _ G)) as (t1 & err & -> & G1). eexists. split; [done|].
  pose proof (linked_trans _ _ _ G G1) as (w & ss & -> & H). exists w, ss. split; [by destruct t | by eapply link_same].
Qed.

Lemma flushAfter_linked t s err : linked t (setCoreOf t s) -> exists t' e, flushAfter t s err = Some (t', e) /\ linked t t'.
Proof.
  intros G. unfold flushAfter. destruct err as [e|]; [by do 2 eexists|].
  destruct (flush_linked _ (linked_ok _ _ G)) as (t1 & e & -> & G1). do 2 eexists. split; [done|]. exact (linked_trans _ _ _ G G1).
Qed.

Lemma linked_refl t : link_ok t -> linked t t.
Proof. intros H. exists (tstream t), (tsession t). split; [by destruct t | done]. Qed.

Lemma sendEnd_linked t id : link_ok t -> exists t' e, sendEnd t id = Some (t', e) /\ linked t t'.
Proof.
  intros Ht. unfold sendEnd. destruct (SendData (coreOf t) id [] true) as [s [n err]] eqn:E.
  apply flushAfter_linked, (core_linked t (DoSendData id [] true) (fun s => SendData s id [] true) _ _ Ht I eq_refl eq_refl E).
Qed.

Lemma sendTrailers_linked t id trailers : link_ok t -> exists t' e, sendTrailers t id trailers = Some (t', e) /\ linked t t'.
Proof.
  intros Ht. unfold sendTrailers. destruct (trailerFields trailers) as [fields|]; [|do 2 eexists; split; [done | by apply linked_refl]].
  destruct (SendHeaders (coreOf t) id fields true) as [s err] eqn:E.
  apply flushAfter_linked, (core_linked t (DoSendHeaders id fields true) (fun s => SendHeaders s id fields true) _ _ Ht I eq_refl eq_refl E).
Qed.

Lemma sendChunk_linked t id chunk : link_ok t -> exists t' r, sendChunk_ t id chunk = Some (t', r) /\ linked t t'.
Proof.
  intros Ht. unfold sendChunk_. destruct (terr t); [do 2 eexists; split; [done | by apply linked_refl]|].
  destruct (SendData (coreOf t) id chunk false) as [s [n err]] eqn:E.
  pose proof (core_linked t (DoSendData id chunk false) (fun s => SendData s id chunk false) _ _ Ht I eq_refl eq_refl E) as G. cbv zeta.
  destruct (0 <? n); [|by do 2 eexists].
  destruct (flush_linked _ (linked_ok _ _ G)) as (t1 & e & -> & G1). destruct e; (do 2 eexists; split; [done | exact (linked_trans _ _ _ G G1)]).
Qed.

Lemma receiveBytes_linked t data :
  link_ok t -> bytes data -> exists t' r, receiveBytes t data = Some (t', r) /\ linked t t'.
Proof.
  intros Ht Hb. unfold receiveBytes. destruct (run_linked t (DoFeed data) Ht Hb eq_refl) as (ss & E & G). cbn [run] in E.
  destruct (Feed (tsession t) data) as [[[ss1 rest] err]|]; [|done]. cbn in E. injection E as ->. cbv zeta.
  match goal with |- context [match ?m with Some _ => _ | None => None end] =>
    assert (exists t1 e, m = Some (t1, e) /\ linked t t1) as (t1 & e & -> & G1) end.
  { destruct err as [e|]; [by do 2 eexists|]. destruct (negb _); [by do 2 eexists|].
    destruct (flush_linked _ (linked_ok _ _ G)) as (t1 & e & -> & G1). do 2 eexists. split; [done|]. exact (linked_trans _ _ _ G G1). }
  destruct (collect_linked t1 (linked_ok _ _ G1)) as (t2 & -> & G2). do 2 eexists. split; [done|]. exact (linked_trans _ _ _ G1 G2).
Qed.

Lemma finish_linked t : link_ok t -> linked t (t <| tsession := (SessionFinish t.(tsession)).1 |>).
Proof. intros Ht. by destruct (run_linked t DoFinish Ht I eq_refl) as (ss & [= <-] & G). Qed.

(** [fail] closes the session. *)
Lemma failLocked_ok t err : link_ok t -> closeOnce t = NotStarted -> link_ok (failLocked t err <| closeOnce := Running |>).
Proof.
  intros [Hc Hb] E. split; [|done]. unfold view. unfold failed_ at 1. cbn.
  apply (close_conn L base (view t) None Hc). unfold view, failed_. cbn. by rewrite E.
Qed.

Lemma read_ok t w filled r :
  link_ok t -> SRead t.(tstream) t.(treadBuffer) = ((w, filled), r) -> 0 <= r.1 <= len filled /\ bytes (take (Z.to_nat r.1) filled) /\
    link_ok (t <| tstream := w |> <| treadBuffer := filled |>).
Proof.
  intros [Hc Hb] E. destruct r as [n err]. pose proof (read_keeps _ _ _ _ _ E) as Hs. apply read_law in E as (Hn & Hl & Hp).
  rewrite Hp in Hb. apply Forall_app in Hb as [Hb1 Hb2]. cbn [fst]. split; [lia|]. split; [done|]. split; [|done].
  destruct Hc as (H1 & H2 & frames & rest & F). split; [done|]. split; [done|]. exists frames, rest. cbn in *. by rewrite Hs.
Qed.

(** ** Exchanges *)

(** The bytes of body the callbacks were told. *)
Definition bodyTold_ (l : list Delivery) : Z :=
  foldr (fun d n => match d with OnBody data => u64 (u64 (len data) + n) | _ => n end) 0 l.

Definition hears (x : Exchange) : bool := match x.(exHooks) with Some h => h.(hookBody) | None => false end.

Definition exchange_ok (maxBody : Z) (x : Exchange) : Prop :=
  (x.(exMaxBody) = maxBody /\ 0 <= maxBody <= MaxUint64) /\ 0 <= x.(exResponse).(respBodyBytes) <= x.(exMaxBody) /\
  (hears x = true -> bodyTold_ x.(exDelivered) = x.(exResponse).(respBodyBytes)) /\
  (x.(exFinalHeaders) = true -> 200 <= x.(exResponse).(respStatus) <= MaxUint16) /\
  (x.(exComplete) = true -> x.(exFinalHeaders) = true).

Lemma newExchange_ok hooks max : 0 <= max <= MaxUint64 -> exchange_ok max (newExchange hooks max).
Proof. intros H. split; [done|]. cbn. split; [lia|]. by split_and!. Qed.

(** What a step on an exchange keeps. *)
Definition carries (x y : Exchange) : Prop :=
  y.(exHooks) = x.(exHooks) /\ y.(exMaxBody) = x.(exMaxBody) /\ y.(exFinalHeaders) = x.(exFinalHeaders) /\ y.(exComplete) = x.(exComplete) /\
  y.(exResponse).(respStatus) = x.(exResponse).(respStatus) /\ y.(exResponse).(respBodyBytes) = x.(exResponse).(respBodyBytes) /\
  bodyTold_ y.(exDelivered) = bodyTold_ x.(exDelivered).

#[local] Instance carries_refl : Reflexive carries.
Proof. by intros x. Qed.
#[local] Instance carries_trans : Transitive carries.
Proof. intros a b c (A1 & A2 & A3 & A4 & A5 & A6 & A7) (B1 & B2 & B3 & B4 & B5 & B6 & B7). split_and!; congruence. Qed.

Lemma carries_ok m x y : exchange_ok m x -> carries x y -> exchange_ok m y.
Proof. intros H (E1 & E2 & E3 & E4 & E5 & E6 & E7). unfold exchange_ok, hears in *. by rewrite E1, E2, E3, E4, E5, E6, E7. Qed.

Lemma tell_carries F d x : (forall data, d <> OnBody data) -> carries x (tell F d x).
Proof.
  intros Hd. unfold tell. destruct (exHooks x) as [h|]; [|done]. destruct (F h); [|done].
  assert (bodyTold_ (d :: exDelivered x) = bodyTold_ (exDelivered x)) as E by (destruct d; [done | done | by destruct (Hd data) | done | done]). by split_and!.
Qed.

Lemma consumeFields_carries x status fields y r : consumeFields x status fields = (y, r) -> carries x y.
Proof.
  revert x status. induction fields as [|f fields IH]; intros x status; cbn [consumeFields]; [by intros [= <- _]|].
  assert (forall x, carries x (tell hookHeader (OnHeader f false) x)) as Ht by (intros; by apply tell_carries).
  destruct (bytes_eqb (Name f) (str ":status")); [|destruct (bytes_eqb (Name f) (str "content-length"))].
  - destruct (ParseUint _ _) as [v|]; [|by intros [= <- _]]. intros E. etrans; [apply Ht | by eapply IH].
  - destruct (ParseUint _ _) as [v|]; [|by intros [= <- _]]. intros E. apply IH in E. etrans; [|exact E]. etrans; [|apply Ht]. by split_and!.
  - intros E. etrans; [apply Ht | by eapply IH].
Qed.

Lemma consumeFields_status x status fields y s :
  0 <= status <= MaxUint16 -> consumeFields x status fields = (y, inl s) -> 0 <= s <= MaxUint16.
Proof.
  revert x status. induction fields as [|f fields IH]; intros x status Hs; cbn [consumeFields]; [by intros [= _ <-]|].
  destruct (bytes_eqb (Name f) (str ":status")); [|destruct (bytes_eqb (Name f) (str "content-length")); [destruct (ParseUint _ _); [|done]|]; by apply IH].
  destruct (ParseUint _ _) as [v|] eqn:E; [|done]. apply IH. unfold ParseUint in E. destruct (FieldValue f) as [|b l] eqn:Ef; [done|].
  rewrite <- Ef in *. destruct (forallb _ _ && _) eqn:E1; [|done]. injection E as <-. apply andb_prop in E1 as [Hd Hm]. apply Z.leb_le in Hm.
  split; [|done]. apply digits_value_mono; [done | done|]. apply Forall_fmap. rewrite forallb_forall in Hd.
  apply Forall_forall. intros b' Hb. apply list_elem_of_In, Hd in Hb. unfold Prelude.between in Hb. unfold digitOf. cbn. lia.
Qed.

Lemma consumeTrailers_carries x fields : carries x (consumeTrailers x fields).
Proof.
  unfold consumeTrailers. etrans; [|by apply tell_carries]. revert x. induction fields as [|f fields IH]; intros x; [done|].
  cbn [fold_left]. etrans; [|apply IH]. by apply tell_carries.
Qed.

Lemma consume_ok m x e : exchange_ok m x -> exchange_ok m (consume x e).1.
Proof.
  intros Hx. unfold consume. pose proof Hx as (X1 & X2 & X3 & X4 & X5). destruct (evType e); try exact Hx.
  - destruct (evTrailer e); [eapply carries_ok; [exact Hx | apply consumeTrailers_carries]|].
    destruct (consumeFields x 0 (evHeaders e)) as [y r] eqn:E. pose proof (carries_ok m _ _ Hx (consumeFields_carries _ _ _ _ _ E)) as Hy.
    destruct r as [status|err]; [|done]. apply consumeFields_status in E; [|unfold MaxUint16; lia].
    destruct (status =? 0); [done|]. cbn [fst]. eapply carries_ok; [|by apply tell_carries].
    destruct (Z.ltb_spec status 200) as [|Hs]; [done|]. destruct Hy as (Y1 & Y2 & Y3 & Y4 & Y5).
    split; [exact Y1|]. split; [exact Y2|]. split; [exact Y3|]. split; [intros _; cbn; lia | done].
  - destruct (exFinalHeaders x) eqn:Ef; cbn [negb]; [|done]. destruct (Z.ltb_spec (u64 (exMaxBody x - respBodyBytes (exResponse x))) (u64 (len (evData e)))) as [|Hl]; [done|].
    rewrite (u64_small (_ - _)) in Hl by lia. pose proof (u64_range (len (evData e))) as Hr.
    rewrite u64_small by (unfold MaxUint64 in *; lia). cbn [fst].
    set (y := x <| exResponse := _ |>).
    assert (forall d, (hears x = true -> bodyTold_ d = respBodyBytes (exResponse x) + u64 (len (evData e))) -> exchange_ok m (y <| exDelivered := d |>)) as Hok.
    { intros d Hd. split; [done|]. cbn. split; [lia|]. split; [exact Hd|]. split; [intros _; by apply X4 | by rewrite Ef]. }
    unfold tell. change (exHooks y) with (exHooks x). change (exDelivered y) with (exDelivered x).
    assert (y = y <| exDelivered := exDelivered x |>) as Ey by done. unfold hears in Hok, X3.
    destruct (exHooks x) as [h|]; [|rewrite Ey; by apply Hok]. destruct (hookBody h); [|rewrite Ey; by apply Hok].
    apply Hok. intros Hh. cbn [bodyTold_ foldr]. fold (bodyTold_ (exDelivered x)). rewrite (X3 Hh).
    rewrite u64_small by (unfold MaxUint64 in *; lia). lia.
  - destruct (exFinalHeaders x) eqn:Ef; cbn [negb]; [|done]. cbn [fst]. eapply carries_ok; [|by apply tell_carries].
    split; [exact X1|]. split; [exact X2|]. split; [exact X3|]. split; [by intros _; apply X4 | done].
Qed.

End Sound.
