(* ===== verification/H2MuxWorld.v ===== *)
(** * HTTP/2: every interleaving of a multiplexed transport

    The invariant of the programs that use a transport of [H2Mux], by induction
    on their actions: [transport_ok] for the shared state, [goroutine_ok] for
    each goroutine.  [owner] is the history of the channels: the stream each of
    them was made for. *)

From stdpp Require Import gmap.
From S2P Require Import Prelude Transport H2Frame H2FrameWf H2FrameSpec H2Hpack H2Headers H2Session H2SessionWf H2SessionInbound H2SessionOutbound H2SessionLife H2Server H2ServerSound H2Request H2Mux H2MuxSound.
Open Scope Z_scope.

Section World.
Context `{DX : Duplex} `{HP : Hpack} `{RO : !RangeOrder} `{HF : !HpackFits} `{BS : BodySource} (L : SessionLimits) (base : list Z) (maxBody : Z).
Implicit Types (t : Transport_) (owner : list Z).

(** ** The shared state *)

(** What is in a channel: no more than it holds, and events of one stream. *)
Definition channel_ok owner t : Prop :=
  forall k c, t.(channels) !! k = Some c ->
    len c.(queue) <= t.(eventBuffer) /\ Forall (fun e => owner !! k = Some e.(evStreamID)) c.(queue).

Definition all_open t : Prop := forall k c, t.(channels) !! k = Some c -> c.(chClosed) = false.

(** Before, in and behind [fail]. *)
Definition phase_ok t : Prop :=
  match t.(closeOnce) with
  | NotStarted => t.(terr) = None /\ t.(done) = false /\ all_open t
  | Running => t.(terr) <> None /\ t.(done) = false /\ t.(tpending) = ∅
  | Finished => t.(terr) <> None /\ t.(done) = true /\ t.(tpending) = ∅
  end.

Definition limits_ok_ t : Prop := 0 < t.(eventBuffer) /\ t.(maxResponseBody) = maxBody /\ 0 <= maxBody <= MaxUint64.

Definition transport_ok owner t : Prop :=
  link_ok L base t /\ length owner = length t.(channels) /\ channel_ok owner t /\
  (forall id k, t.(tpending) !! id = Some k -> owner !! k = Some id) /\ phase_ok t /\ limits_ok_ t.

(** ** Goroutines *)

(** [late]: [fail] has run its critical section. *)
Definition fail_ok_ (late : bool) (f : FailPc) : Prop := match f with FDone => late = true | _ => True end.

Definition reader_ok owner (late : bool) (pc : ReadPc) : Prop :=
  match pc with
  | RFeed data _ => bytes data
  | RSend k e _ _ => owner !! k = Some e.(evStreamID)
  | RFail f => fail_ok_ late f
  | _ => True
  end.

(** In [Do]: something was read or nothing, something is left to be sent, the
    exchange is complete. *)
Definition pc_ok (f : DoFrame) (pc : DoPc) : Prop :=
  match pc with
  | DConsume b => b.(bfChunk) = [] -> b.(bfNone) = true
  | DSend b | DWait b => b.(bfChunk) <> []
  | DDelete => f.(doExchange).(exComplete) = true
  | _ => True
  end.

Definition goroutine_ok owner (late : bool) (g : Goroutine) : Prop :=
  match g with
  | Reading pc => reader_ok owner late pc
  | Doing _ f pc =>
      owner !! f.(doChannel) = Some f.(doStream) /\ exchange_ok maxBody f.(doExchange) /\ pc_ok f pc
  | Returned x r => exchange_ok maxBody x /\ forall response, r = inl response -> x.(exComplete) = true /\ response = x.(exResponse)
  | Pushing id k x _ => owner !! k = Some id /\ exchange_ok maxBody x
  | Closing _ f => fail_ok_ late f
  | Starting _ _ _ _ => True
  end.

Lemma goroutine_grows owner owner' late late' g :
  owner `prefix_of` owner' -> (late = true -> late' = true) -> goroutine_ok owner late g -> goroutine_ok owner' late' g.
Proof.
  intros Hp Hlate. assert (forall k (x : Z), owner !! k = Some x -> owner' !! k = Some x) as Hl by (intros; by eapply prefix_lookup_Some).
  destruct g as [pc|ctx r b h|ctx f pc|x r|id k x pc|ce f]; cbn; [|done| | done | |destruct f; cbn; auto].
  - destruct pc as [|data e|es e|k e rest err|eof|[]]; cbn; auto.
  - intros (H1 & H2). split; [by apply Hl | done].
  - intros (H1 & H2). split; [by apply Hl | done].
Qed.

(** ** Changes of the shared state *)

Lemma ok_linked owner t t' : transport_ok owner t -> linked L base t t' -> transport_ok owner t'.
Proof. intros (H1 & H2 & H3 & H4 & H5 & H6) (w & ss & -> & H). by repeat (split; [done|]). Qed.

(** Fields that nothing here depends on. *)
Lemma ok_same owner t t' :
  transport_ok owner t -> t'.(tstream) = t.(tstream) -> t'.(tsession) = t.(tsession) -> t'.(channels) = t.(channels) ->
  t'.(eventBuffer) = t.(eventBuffer) -> t'.(maxResponseBody) = t.(maxResponseBody) -> t'.(closeOnce) = t.(closeOnce) ->
  t'.(terr) = t.(terr) -> t'.(done) = t.(done) -> t'.(tpending) = t.(tpending) -> transport_ok owner t'.
Proof.
  intros (H1 & H2 & H3 & H4 & H5 & H6) E1 E2 E3 E4 E5 E6 E7 E8 E9.
  unfold transport_ok, channel_ok, phase_ok, all_open, limits_ok_ in *. rewrite E3, E4, E5, E6, E7, E8, E9. split; [|done].
  eapply link_same; [exact H1 | done | done|]. unfold failed_. by rewrite E6.
Qed.

Lemma ok_forget owner t id : transport_ok owner t -> transport_ok owner (forget t id).
Proof.
  intros (H1 & H2 & H3 & H4 & H5 & H6). split; [exact H1|]. split; [exact H2|]. split; [exact H3|]. split; [|split; [|exact H6]].
  - intros id' k. cbn. rewrite lookup_delete_Some. intros [_ E]. by apply H4.
  - unfold phase_ok in *. cbn. destruct (closeOnce t); [done| |]; destruct H5 as (P1 & P2 & P3); rewrite P3, delete_empty; by split_and!.
Qed.

Lemma ok_cancel owner t id t' : transport_ok owner t -> cancelStream t id = Some t' -> transport_ok owner t'.
Proof.
  intros Ht E. destruct (cancel_linked L base t id (proj1 Ht)) as (t1 & E1 & G). rewrite E in E1. injection E1 as <-.
  exact (ok_linked owner _ _ (ok_forget owner t id Ht) G).
Qed.

(** A new channel, for a stream of one's choice. *)
Lemma ok_make owner t id : transport_ok owner t -> transport_ok (owner ++ [id]) (makeChannel t).1.
Proof.
  intros (H1 & H2 & H3 & H4 & H5 & H6). split; [exact H1|]. split; [cbn; rewrite !length_app, H2; done|]. split; [|split; [|split; [|exact H6]]].
  - intros k c. cbn. rewrite lookup_app_Some. intros [E|[Hk E]].
    + destruct (H3 k c E) as [Q1 Q2]. split; [done|]. eapply Forall_impl; [exact Q2|]. intros e He. by apply lookup_app_l_Some.
    + apply list_lookup_singleton_Some in E as [_ <-]. cbn. rewrite len_nil. destruct H6. split; [lia | constructor].
  - intros id' k E. by apply lookup_app_l_Some, H4.
  - unfold phase_ok in *. cbn. destruct (closeOnce t); try done. destruct H5 as (P1 & P2 & P3). split; [done|]. split; [done|].
    intros k c. cbn. rewrite lookup_app_Some. intros [E|[_ E]]; [by eapply P3|]. by apply list_lookup_singleton_Some in E as [_ <-].
Qed.

Lemma make_owner owner t id : length owner = length t.(channels) -> (owner ++ [id]) !! length t.(channels) = Some id.
Proof. intros <-. by rewrite lookup_app_r, Nat.sub_diag. Qed.

(** The exchange of a stream. *)
Lemma ok_pend owner t id k :
  transport_ok owner t -> owner !! k = Some id -> terr t = None -> transport_ok owner (t <| tpending := <[id := k]> t.(tpending) |>).
Proof.
  intros (H1 & H2 & H3 & H4 & H5 & H6) Ho He. split; [exact H1|]. split; [exact H2|]. split; [exact H3|]. split; [|split; [|exact H6]].
  - intros id' k'. cbn. rewrite lookup_insert_Some. intros [[<- <-]|[_ E]]; [done | by apply H4].
  - unfold phase_ok in *. cbn. destruct (closeOnce t); [done| |]; by destruct H5 as (P1 & _).
Qed.

(** ** Channels *)

Lemma ok_channel owner t k c c' :
  transport_ok owner t -> t.(channels) !! k = Some c -> c'.(chClosed) = c.(chClosed) -> len c'.(queue) <= t.(eventBuffer) ->
  Forall (fun e => owner !! k = Some e.(evStreamID)) c'.(queue) -> transport_ok owner (t <| channels := <[k := c']> t.(channels) |>).
Proof.
  intros (H1 & H2 & H3 & H4 & H5 & H6) E Ec Hl Hq. split; [exact H1|]. split; [cbn; by rewrite length_insert|].
  split; [|split; [exact H4|split; [|exact H6]]].
  - intros j d. cbn. rewrite list_lookup_insert_Some. intros [(<- & <- & _)|[_ Ed]]; [done | by apply H3].
  - unfold phase_ok in *. cbn. destruct (closeOnce t); try done. destruct H5 as (P1 & P2 & P3). split; [done|]. split; [done|].
    intros j d. cbn. rewrite list_lookup_insert_Some. intros [(<- & <- & _)|[_ Ed]]; [rewrite Ec; by eapply P3 | by eapply P3].
Qed.

Lemma ok_send owner t k e t' :
  transport_ok owner t -> owner !! k = Some e.(evStreamID) -> sendEvent t k e = Sending t' -> transport_ok owner t'.
Proof.
  intros Ht Ho. unfold sendEvent. destruct (channels t !! k) as [c|] eqn:E; [|done]. destruct (chClosed c) eqn:Ec; [done|].
  destruct (Z.ltb_spec (len (queue c)) (eventBuffer t)); [|done]. intros [= <-]. destruct Ht as (H1 & H2 & H3 & H4). 
  destruct (H3 k c E) as [Q1 Q2]. apply (ok_channel owner t k c); [done | done | by rewrite Ec | | ]; cbn.
  - rewrite len_app, len_cons, len_nil. lia.
  - apply Forall_app. split; [done|]. by constructor.
Qed.

Lemma ok_receive owner t k t' e :
  transport_ok owner t -> receiveEvent t k = Receiving t' e -> transport_ok owner t' /\ owner !! k = Some e.(evStreamID).
Proof.
  intros Ht. unfold receiveEvent. destruct (channels t !! k) as [c|] eqn:E; [|done]. pose proof Ht as (H1 & H2 & H3 & H4).
  destruct (H3 k c E) as [Q1 Q2]. destruct (queue c) as [|e' rest] eqn:Eq; [by destruct (chClosed c)|]. intros [= <- <-].
  apply Forall_cons in Q2 as [Qe Qr]. split; [|done]. apply (ok_channel owner t k c); [done | done | done | | done]. cbn.
  rewrite len_cons in Q1. lia.
Qed.

(** ** Failing *)

Lemma ok_close_channels owner t (open : list nat) :
  channel_ok owner t ->
  channel_ok owner (t <| channels := imap (fun i c => if bool_decide (i ∈ open) then mkChannel c.(queue) true else c) t.(channels) |>).
Proof.
  intros H k c. cbn. rewrite list_lookup_imap. destruct (channels t !! k) as [d|] eqn:E; [|done]. cbn. intros [= <-].
  destruct (H k d E) as [Q1 Q2]. by destruct (bool_decide _).
Qed.

Lemma ok_fail owner t f t' f' :
  transport_ok owner t -> fail_ok_ (failed_ t) f -> failStep t f = Some (t', f') ->
  transport_ok owner t' /\ fail_ok_ (failed_ t') f' /\ (failed_ t = true -> failed_ t' = true).
Proof.
  intros Ht Hf. pose proof Ht as (H1 & H2 & H3 & H4 & H5 & H6). destruct f as [err| |]; cbn [failStep]; [| |done].
  - destruct (closeOnce t) eqn:Ec; [|done|]; intros [= <- <-]; [|done]. split; [|done]. 
    split; [by apply failLocked_ok|]. split; [cbn; by rewrite length_imap|]. split; [exact (ok_close_channels owner t _ H3)|].
    split; [intros id k; cbn; by rewrite lookup_empty|]. split; [|exact H6]. unfold phase_ok in *. rewrite Ec in H5. destruct H5 as (P1 & P2 & P3). by split_and!.
  - intros [= <- <-]. cbn in Hf. split; [|done]. split; [|split; [exact H2|split; [exact H3|split; [exact H4|split; [|exact H6]]]]].
    + eapply link_same; [exact H1 | done | done|]. by rewrite Hf.
    + unfold phase_ok in *. cbn. unfold failed_ in Hf. destruct (closeOnce t); [done| |]; destruct H5 as (P1 & P2 & P3); by split_and!.
Qed.

(** ** Steps *)

(** The goroutine that has just run the critical section of [fail]. *)
Definition failing (g : Goroutine) : bool :=
  match g with Reading (RFail FDone) | Closing _ FDone => true | _ => false end.

Definition outcome_ok owner t (o : Outcome) : Prop :=
  match o with
  | Panic => True
  | Goes t' g started =>
      exists owner', owner `prefix_of` owner' /\ transport_ok owner' t' /\ goroutine_ok owner' (failed_ t') g /\
        Forall (goroutine_ok owner' (failed_ t')) started /\
        (failed_ t = true -> failed_ t' = true) /\ (failed_ t' = failed_ t \/ failing g = true)
  end.

Lemma linked_failed t t' : linked L base t t' -> failed_ t' = failed_ t.
Proof. by intros (w & ss & -> & _). Qed.

Lemma outcome_same owner t t' g :
  transport_ok owner t' -> failed_ t' = failed_ t -> goroutine_ok owner (failed_ t') g -> outcome_ok owner t (goes_ g t').
Proof. intros Ht Hf Hg. exists owner. split_and!; [done | done | done | constructor | congruence | by left]. Qed.

Lemma outcome_linked owner t t' g :
  transport_ok owner t -> linked L base t t' -> goroutine_ok owner (failed_ t') g -> outcome_ok owner t (goes_ g t').
Proof. intros Ht Hl Hg. apply outcome_same; [by eapply ok_linked | by apply linked_failed | done]. Qed.

Lemma cancel_failed t id t' : link_ok L base t -> cancelStream t id = Some t' -> failed_ t' = failed_ t.
Proof.
  intros Ht E. destruct (cancel_linked L base t id Ht) as (t1 & E1 & G). rewrite E in E1. injection E1 as <-. apply linked_failed in G. done.
Qed.

Lemma receive_failed t k t' e : receiveEvent t k = Receiving t' e -> failed_ t' = failed_ t.
Proof.
  unfold receiveEvent. destruct (channels t !! k) as [c|]; [|done]. destruct (queue c); [by destruct (chClosed c)|]. by intros [= <- _].
Qed.

Lemma afterRead_ok owner late none err : reader_ok owner late (afterRead none err).
Proof. unfold afterRead. destruct err as [e|]; [by destruct (is_EOF e) | by destruct none]. Qed.

Lemma acceptPush_ok owner t e t' started :
  transport_ok owner t -> acceptPush t e = Some (t', started) ->
  exists owner', owner `prefix_of` owner' /\ transport_ok owner' t' /\ Forall (goroutine_ok owner' (failed_ t')) started /\ failed_ t' = failed_ t.
Proof.
  intros Ht. unfold acceptPush. cbv zeta. set (answer := match pushHandler t with Some f => _ | None => _ end). destruct (negb answer.2).
  - destruct (cancelStream t (evStreamID e)) as [t1|] eqn:E; [|done]. intros [= <- <-]. exists owner.
    split; [done|]. split; [by eapply ok_cancel|]. split; [constructor|]. eapply cancel_failed; [apply Ht | done].
  - pose proof (ok_make owner t (evStreamID e) Ht) as Hm. pose proof (make_owner owner t (evStreamID e) (proj1 (proj2 Ht))) as Ho.
    destruct (makeChannel t) as [t1 k] eqn:Em. injection Em as <- <-. cbn [fst] in Hm. set (t1 := t <| channels := _ |>) in *.
    assert (owner `prefix_of` owner ++ [evStreamID e]) as Hp by by exists [evStreamID e].
    destruct (terr t1) eqn:Et; intros [= <- <-]; exists (owner ++ [evStreamID e]); [done|].
    split; [done|]. split; [exact (ok_pend _ t1 _ _ Hm Ho Et)|]. split; [|done]. constructor; [|constructor]. split; [done|]. destruct Hm as (_ & _ & _ & _ & _ & _ & Em & Hmax). change (maxResponseBody t = maxBody) in Em. cbn. rewrite Em. by apply newExchange_ok.
Qed.

Lemma dispatchStep_ok owner t e rest err o :
  transport_ok owner t -> dispatchStep t e rest err = Some o -> outcome_ok owner t o.
Proof.
  intros Ht. unfold dispatchStep. cbv zeta.
  assert (forall t', transport_ok owner t' -> failed_ t' = failed_ t -> outcome_ok owner t (Goes t' (Reading (RDispatch rest err)) [])) as Hn
    by (intros; by apply outcome_same).
  assert (Some o = (if evStreamID e =? 0
    then match evType e with EventGoAway => Some (Goes (t <| goAway := Some (evLastStreamID e, evErrorCode e) |>) (Reading (RDispatch rest err)) [])
         | _ => Some (Goes t (Reading (RDispatch rest err)) []) end
    else match tpending t !! evStreamID e with None => Some (Goes t (Reading (RDispatch rest err)) [])
         | Some chan => Some (goes_ (Reading (RSend chan e rest err)) t) end) -> outcome_ok owner t o) as Hother.
  { destruct (evStreamID e =? 0).
    - assert (transport_ok owner (t <| goAway := Some (evLastStreamID e, evErrorCode e) |>)) as Hg by by apply (ok_same owner t).
      destruct (evType e); intros [= ->]; by apply Hn.
    - destruct (tpending t !! evStreamID e) as [k|] eqn:E; intros [= ->]; [|by apply Hn].
      apply outcome_same; [done | done|]. cbn. by apply Ht. }
  destruct (evType e) eqn:Ee; intros E; try (apply Hother; rewrite <- E; by destruct (evStreamID e =? 0)).
  destruct (acceptPush t e) as [[t1 started]|] eqn:Ea; [|done]. injection E as <-.
  destruct (acceptPush_ok owner t e t1 started Ht Ea) as (owner' & P1 & P2 & P3 & P4). exists owner'.
  split_and!; [done | done | done | done | congruence | by left].
Qed.

Lemma readStep_ok owner t pc case o :
  transport_ok owner t -> reader_ok owner (failed_ t) pc -> readStep t pc case = Some o -> outcome_ok owner t o.
Proof.
  intros Ht Hp. pose proof (proj1 Ht) as Hl. destruct pc as [|data err|[|e es] err|k e rest err|eof|f], case; cbn [readStep]; try done.
  - destruct (SRead (tstream t) (treadBuffer t)) as [[w filled] [n err]] eqn:E.
    destruct (read_ok L base t w filled _ Hl E) as (Hn & Hb & Hl'). cbn [fst] in Hn, Hb. cbv zeta.
    set (t1 := t <| tstream := w |> <| treadBuffer := filled |>) in *.
    assert (transport_ok owner t1) as H1 by (destruct Ht as (_ & T); by split).
    destruct (_ || _); [intros [= <-]; by apply outcome_same|].
    destruct (negb _); intros [= <-]; apply outcome_same; try done. apply afterRead_ok.
  - destruct (receiveBytes_linked L base t data Hl Hp) as (t1 & [es e] & -> & G). destruct e; intros [= <-]; by apply outcome_linked.
  - intros [= <-]. apply outcome_same; [by apply (ok_same owner t) | done | apply afterRead_ok].
  - by apply dispatchStep_ok.
  - destruct (sendEvent t k e) as [t1| |] eqn:E; [| done | by intros [= <-]]. intros [= <-]. apply outcome_same; [by eapply ok_send| |done].
    unfold sendEvent in E. destruct (channels t !! k) as [c|]; [|done]. destruct (chClosed c); [done|]. destruct (_ <? _); [|done]. by injection E as <-.
  - destruct (done t); [|done]. intros [= <-]. by apply outcome_same.
  - pose proof (finish_linked L base t Hl) as G. destruct (SessionFinish (tsession t)) as [ss err]. cbv zeta. intros [= <-]. by apply outcome_linked.
  - destruct (failStep t f) as [[t1 f1]|] eqn:E; [|done]. intros [= <-]. destruct (ok_fail owner t f t1 f1 Ht Hp E) as (H1 & H2 & H3).
    exists owner. split_and!; [done | done | done | constructor | done|]. destruct f; cbn [failStep] in E; [|by injection E as <- <-; left|done].
    destruct (closeOnce t) eqn:Ec; [|done|]; injection E as <- <-; [by right | by left].
Qed.

(** *** Callers *)

Lemma openExchange_ok owner t headers fin t' r :
  transport_ok owner t -> openExchange t headers fin = Some (t', r) ->
  failed_ t' = failed_ t /\ exists owner', owner `prefix_of` owner' /\ transport_ok owner' t' /\ forall id k, r = inl (id, k) -> owner' !! k = Some id.
Proof.
  intros Ht. unfold openExchange. pose proof (fun id => ok_make owner t id Ht) as Hm. pose proof (fun id => make_owner owner t id (proj1 (proj2 Ht))) as Ho.
  assert (forall id : Z, owner `prefix_of` owner ++ [id]) as Hp by (intros id; by exists [id]).
  destruct (makeChannel t) as [t1 k] eqn:Em. injection Em as <- <-. cbn [fst] in Hm. set (t1 := t <| channels := _ |>) in *.
  assert (failed_ t1 = failed_ t) as Hf by done. clearbody t1.
  destruct (terr t1) eqn:Et; [intros [= <- <-]; split; [done|]; exists (owner ++ [0]); by split_and!|].
  destruct (goAway t1) as [[last code]|]; [intros [= <- <-]; split; [done|]; exists (owner ++ [0]); by split_and!|].
  destruct (OpenStream (coreOf t1) headers fin) as [s [id err]] eqn:E.
  pose proof (core_linked L base t1 (DoOpenStream headers fin) (fun s => OpenStream s headers fin) _ _ (proj1 (Hm 0)) I eq_refl eq_refl E) as G.
  destruct err as [e|].
  { intros [= <- <-]. split; [by rewrite <- Hf, (linked_failed _ _ G)|]. exists (owner ++ [0]). split; [done|]. split; [by eapply ok_linked | done]. }
  pose proof (ok_linked _ _ _ (Hm id) G) as H2. set (t2 := setCoreOf t1 s) in *.
  pose proof (ok_pend _ t2 id (length (channels t)) H2 (Ho id) Et) as H3. set (t3 := t2 <| tpending := _ |>) in *.
  destruct (flush_linked L base t3 (proj1 H3)) as (t4 & err & -> & G4).
  pose proof (ok_linked _ _ _ H3 G4) as H4. pose proof (linked_failed _ _ G4) as F4. pose proof (linked_failed _ _ G) as F2.
  assert (failed_ t4 = failed_ t) as F by (rewrite F4; unfold t3; cbn in *; unfold failed_ in *; cbn; congruence).
  destruct err; intros [= <- <-]; (split; [done|]); exists (owner ++ [id]); split_and!; try done. intros ? ? [= <- <-]. apply Ho.
Qed.

Lemma afterSend_ok f : pc_ok f (afterSend f).
Proof. unfold afterSend. by destruct (exComplete _) eqn:E. Qed.

Lemma afterChunk_ok f b : pc_ok f (afterChunk f b).
Proof. unfold afterChunk. destruct (bfErr b) as [[]|]; [by destruct (negb _) | done | by destruct (bfNone b)]. Qed.

Lemma nextChunk_ok f b : pc_ok f (nextChunk f b).
Proof.
  unfold nextChunk. destruct (Z.eqb_spec (len (bfChunk b)) 0) as [|Hn]; [apply afterChunk_ok|]. cbn. intros E. rewrite E in Hn. done.
Qed.

Lemma startStep_ok owner t ctx request reader hooks o :
  transport_ok owner t -> startStep t ctx request reader hooks = Some o -> outcome_ok owner t o.
Proof.
  intros Ht. unfold startStep. cbv zeta. pose proof Ht as (_ & _ & _ & _ & _ & _ & Em & Hmax). pose proof (newExchange_ok hooks maxBody Hmax) as Hx. rewrite Em.
  set (x := newExchange hooks maxBody) in *. clearbody x.
  destruct (transportRequest request reader) as [[[headers body] length]|]; [|intros [= <-]; by apply outcome_same].
  destruct (openExchange t headers _) as [[t1 [[id k]|err]]|] eqn:E; [| |done]; apply (openExchange_ok owner) in E as (F & owner' & P & H1 & H2); try done; intros [= <-].
  - exists owner'. split_and!; [done | done | | constructor | congruence | by left]. cbn [goroutine_ok]. cbn. split; [by apply H2|]. split; [done|].
    destruct body; [done|]. destruct (_ =? _); [apply afterSend_ok | done].
  - exists owner'. split_and!; [done | done | by split | constructor | congruence | by left].
Qed.

Lemma onEvent_ok owner t ctx f next closed o :
  transport_ok owner t -> owner !! f.(doChannel) = Some f.(doStream) -> exchange_ok maxBody f.(doExchange) ->
  (forall f', pc_ok f' (next f')) -> pc_ok f closed ->
  onEvent t ctx f next closed = Some o -> outcome_ok owner t o.
Proof.
  intros Ht Ho Hx Hn Hc. unfold onEvent. destruct (receiveEvent t (doChannel f)) as [t1 e| |] eqn:E; [| |done].
  - pose proof (consume_ok _ _ e Hx) as Hx'. destruct (consume (doExchange f) e) as [x err]. cbn [fst] in Hx'.
    destruct (ok_receive owner t _ _ _ Ht E) as [H1 _]. apply receive_failed in E.
    destruct err; intros [= <-]; apply outcome_same; try done.
  - intros [= <-]. apply outcome_same; [done | done|]. by split_and!.
Qed.

Lemma afterWrite_ok owner t ctx f res o :
  transport_ok owner t -> owner !! f.(doChannel) = Some f.(doStream) -> exchange_ok maxBody f.(doExchange) ->
  (exists t' e, res = Some (t', e) /\ linked L base t t') -> afterWrite ctx f res = Some o -> outcome_ok owner t o.
Proof.
  intros Ht Ho Hx (t' & e & -> & G). unfold afterWrite. destruct e; intros [= <-]; apply outcome_linked; try done; cbn.
  split; [done|]. split; [done|]. apply afterSend_ok.
Qed.

Lemma doStep_ok owner t ctx f pc case o :
  transport_ok owner t -> goroutine_ok owner (failed_ t) (Doing ctx f pc) -> doStep t ctx f pc case = Some o -> outcome_ok owner t o.
Proof.
  intros Ht (Ho & Hx & Hd). pose proof (proj1 Ht) as Hl.
  assert (forall t' pc', transport_ok owner t' -> failed_ t' = failed_ t -> pc_ok f pc' ->
    outcome_ok owner t (goes_ (Doing ctx f pc') t')) as Hgo by (intros; by apply outcome_same).
  destruct pc as [body|b|b|b| | | |err| | |], case; cbn [doStep]; try done.
  - destruct (readBody body bodyBuffer) as [[body' filled] [n err]]. destruct ((n <? 0) || (len filled <? n)) eqn:En; intros [= <-]; [by apply Hgo|].
    apply Hgo; [done | done|]. cbn. intros E. apply orb_false_elim in En as [E1 E2]. bool_to_prop. apply (f_equal length) in E. rewrite length_take in E.
    unfold len in *. cbn in E. apply Z.eqb_eq. lia.
  - destruct (receiveEvent t (doChannel f)); [done | done|]. intros [= <-]. apply Hgo; [done | done|].
    destruct (exComplete (doExchange f)); [done | apply nextChunk_ok].
  - by apply onEvent_ok.
  - destruct (sendChunk_linked L base t (doStream f) (bfChunk b) Hl) as (t1 & r & -> & G).
    pose proof (ok_linked _ _ _ Ht G) as H1. apply linked_failed in G.
    destruct r as [e|[n e]]; [intros [= <-]; by apply Hgo|]. cbv zeta. set (b' := mkBodyFrame _ _ _ _).
    assert (len (drop (Z.to_nat n) (bfChunk b)) <> 0 -> pc_ok f (DWait b')) as Hw by (intros Hn E; apply Hn; cbn in E; by rewrite E). destruct e as [e|].
    + destruct (isWouldBlock _); intros [= <-]; [|by apply Hgo]. apply Hgo; [done | done|].
      destruct (Z.eqb_spec (len (drop (Z.to_nat n) (bfChunk b))) 0); [apply nextChunk_ok | by apply Hw].
    + intros [= <-]. apply Hgo; [done | done|]. destruct (Z.eqb_spec (len (drop (Z.to_nat n) (bfChunk b))) 0); cbn [negb andb]; [apply nextChunk_ok|].
      destruct (n =? 0); [by apply Hw | apply nextChunk_ok].
  - apply onEvent_ok; try done. intros f'. destruct (exComplete (doExchange f')) eqn:E; [done | apply nextChunk_ok].
  - destruct (window t); [|done]. intros [= <-]. apply Hgo; [by apply (ok_same owner t) | done | apply nextChunk_ok].
  - destruct ctx; [|done]. intros [= <-]. by apply Hgo.
  - destruct (done t); [|done]. intros [= <-]. by apply Hgo.
  - intros [= <-]. by apply Hgo.
  - apply afterWrite_ok; try done. by apply sendTrailers_linked.
  - apply afterWrite_ok; try done. by apply sendEnd_linked.
  - destruct (cancelStream t (doStream f)) as [t1|] eqn:E; [|done]. pose proof (ok_cancel owner t _ _ Ht E) as H1.
    apply cancel_failed in E; [|done]. destruct err; intros [= <-]; [by apply outcome_same|]. apply Hgo; [done | done|]. apply afterSend_ok.
  - apply onEvent_ok; try done. apply afterSend_ok.
  - destruct ctx; [|done]. intros [= <-]. by apply Hgo.
  - destruct (done t); [|done]. intros [= <-]. by apply Hgo.
  - intros [= <-]. by apply outcome_same.
  - intros [= <-]. apply outcome_same; [by apply ok_forget | done|]. split; [done|]. intros r [= <-]. by split; [apply Hd|].
Qed.

(** *** Any goroutine *)

Lemma pushStep_ok owner t id k x pc case o :
  transport_ok owner t -> goroutine_ok owner (failed_ t) (Pushing id k x pc) -> pushStep t id k x pc case = Some o -> outcome_ok owner t o.
Proof.
  intros Ht [Ho Hx]. destruct pc, case; cbn [pushStep]; try done.
  - destruct (receiveEvent t k) as [t1 e| |] eqn:E; [| |done].
    + pose proof (consume_ok _ _ e Hx) as Hx'. destruct (consume x e) as [x' err]. destruct (ok_receive owner t _ _ _ Ht E) as [H1 _].
      apply receive_failed in E. intros [= <-]. by apply outcome_same.
    + intros [= <-]. by apply outcome_same.
  - destruct (cancelStream t id) as [t1|] eqn:E; [|done]. intros [= <-]. apply outcome_same; [by eapply ok_cancel | by eapply cancel_failed; [apply Ht|] | done].
  - intros [= <-]. by apply outcome_same; [apply ok_forget| |].
Qed.

Lemma step_ok owner t g case o :
  transport_ok owner t -> goroutine_ok owner (failed_ t) g -> step t g case = Some o -> outcome_ok owner t o.
Proof.
  intros Ht Hg. destruct g as [pc|ctx r b h|ctx f pc|x r|id k x pc|ce f]; cbn [step]; [| | | done | |].
  - by apply readStep_ok.
  - destruct case; try done. by apply startStep_ok.
  - by apply doStep_ok.
  - by apply pushStep_ok.
  - destruct case; try done. destruct (failStep t f) as [[t1 f1]|] eqn:E; [|done]. intros [= <-].
    destruct (ok_fail owner t f t1 f1 Ht Hg E) as (H1 & H2 & H3).
    exists owner. split_and!; [done | done | done | constructor | done|]. destruct f; cbn [failStep] in E; [|by injection E as <- <-; left|done].
    destruct (closeOnce t) eqn:Ec; [|done|]; injection E as <- <-; [by right | by left].
Qed.

(** ** Worlds *)

Definition world_ok (w : World) : Prop :=
  exists owner, transport_ok owner w.(transport) /\ Forall (goroutine_ok owner (failed_ w.(transport))) w.(goroutines).

(** What is asked of the caller's own code: [Close] of the stream sends nothing
    and adds nothing to what can still be read. *)
Definition action_ok (a : Action) : Prop :=
  match a with
  | CallClose (Some close) => forall w, Transport.sent (close w).1 = Transport.sent w /\ exists pre, pending w = pre ++ pending (close w).1
  | _ => True
  end.

Lemma ok_close owner t w pre :
  transport_ok owner t -> Transport.sent w = Transport.sent t.(tstream) -> pending t.(tstream) = pre ++ pending w ->
  transport_ok owner (t <| tstream := w |>).
Proof.
  intros (((S1 & S2 & frames & rest & F) & Hb) & T) Hs Hp. split; [|done]. rewrite Hp in Hb. apply Forall_app in Hb as [_ Hb].
  split; [|done]. split; [done|]. split; [done|]. exists frames, rest. cbn in *. by rewrite Hs.
Qed.

Lemma perform_ok w a w' : world_ok w -> action_ok a -> perform w a = Some w' -> world_ok w'.
Proof.
  intros (owner & Ht & Hg) Ha. unfold perform. destruct (panicked w); [done|]. destruct a as [i case|i|request reader hooks|closer].
  - destruct (goroutines w !! i) as [g|] eqn:Ei; [|done]. pose proof (proj1 (Forall_lookup _ _) Hg i g Ei) as Hgi.
    destruct (step (transport w) g case) as [o|] eqn:E; [|done]. apply (step_ok owner) in E; [|done|done].
    destruct o as [t' g' started|]; intros [= <-]; [|by exists owner]. destruct E as (owner' & P & H1 & H2 & H3 & H4 & _). exists owner'. cbn.
    split; [done|]. apply Forall_app. split; [|done]. apply Forall_insert; [|done]. eapply Forall_impl; [exact Hg|]. intros g0. by apply goroutine_grows.
  - destruct (goroutines w !! i) as [g|] eqn:Ei; [|done]. pose proof (proj1 (Forall_lookup _ _) Hg i g Ei) as Hgi.
    destruct g; try done; intros [= <-]; exists owner; (split; [done|]); by apply Forall_insert.
  - intros [= <-]. exists owner. split; [done|]. apply Forall_app. split; [done|]. by constructor.
  - assert (forall w1 ce, transport_ok owner (transport w <| tstream := w1 |>) ->
      world_ok (mkWorld (transport w <| tstream := w1 |>) (goroutines w ++ [Closing ce (FCall (MuxSession ErrSessionClosed))]) false)) as Hgo.
    { intros w1 ce H1. exists owner. split; [done|]. apply Forall_app. split; [done|]. by constructor. }
    destruct closer as [close|]; cbn in Ha.
    + specialize (Ha (tstream (transport w))) as [Hs [pre Hp]]. destruct (close (tstream (transport w))) as [w1 ce]. intros [= <-].
      by apply Hgo, (ok_close owner _ w1 pre).
    + intros [= <-]. apply Hgo. by apply (ok_close owner _ _ []).
Qed.

Lemma performs_ok w actions w' : world_ok w -> Forall action_ok actions -> performs w actions = Some w' -> world_ok w'.
Proof.
  revert w. induction actions as [|a actions IH]; intros w Hw Ha; cbn [performs]; [by intros [= <-]|].
  apply Forall_cons in Ha as [Ha Hr]. destruct (perform w a) as [w1|] eqn:E; [|done]. apply IH; [by eapply perform_ok | done].
Qed.

(** ** Without [Close], no panic *)

Definition is_reading (g : Goroutine) : bool := match g with Reading _ => true | _ => false end.
Definition is_closing (g : Goroutine) : bool := match g with Closing _ _ => true | _ => false end.
Definition ended_reader (g : Goroutine) : bool := match g with Reading (RFail FDone) | Reading (RFail FEnd) => true | _ => false end.

Lemma step_kind t g case t' g' started :
  step t g case = Some (Goes t' g' started) ->
  is_reading g' = is_reading g /\ is_closing g' = is_closing g /\ Forall (fun s => is_reading s = false /\ is_closing s = false) started.
Proof.
  destruct g as [pc|ctx r b h|ctx f pc|x r|id k x pc|ce f]; cbn [step]; intros E.
  - assert (Forall (fun s : Goroutine => is_reading s = false /\ is_closing s = false) started /\ is_reading g' = true) as [H1 H2].
    { unfold readStep, dispatchStep, acceptPush, goes_ in E. repeat case_match; simplify_eq; split; try done; repeat constructor. }
    split; [done|]. split; [by destruct g'|done].
  - unfold startStep, goes_ in E. repeat case_match; simplify_eq; by split_and!.
  - unfold doStep, onEvent, afterWrite, goes_ in E. repeat case_match; simplify_eq; by split_and!.
  - done.
  - unfold pushStep, goes_ in E. repeat case_match; simplify_eq; by split_and!.
  - unfold goes_ in E. repeat case_match; simplify_eq; by split_and!.
Qed.

Definition calm (w : World) : Prop :=
  w.(panicked) = false /\ forall i g, w.(goroutines) !! i = Some g -> is_closing g = false /\
    (is_reading g = true -> i = 0%nat /\ (failed_ w.(transport) = true -> ended_reader g = true)).

(** Only a send of the reader can panic, and only when channels are closed. *)
Lemma step_no_panic owner t g case :
  transport_ok owner t -> (is_reading g = true -> failed_ t = true -> ended_reader g = true) -> step t g case <> Some Panic.
Proof.
  intros Ht Hr E. destruct g as [pc|ctx r b h|ctx f pc|x r|id k x pc|ce f]; cbn [step] in E.
  - destruct pc as [|data err|[|e es] err|k e rest err|eof|f], case; cbn [readStep] in E; try done;
      try (unfold dispatchStep, acceptPush, goes_ in E; repeat case_match; by simplify_eq).
    unfold sendEvent in E. destruct (channels t !! k) as [c|] eqn:Ek; [|done]. destruct (chClosed c) eqn:Ec; [|by destruct (_ <? _)].
    destruct Ht as (_ & _ & _ & _ & Hp & _). specialize (Hr eq_refl). unfold phase_ok, failed_ in *. destruct (closeOnce t); try by specialize (Hr eq_refl).
    destruct Hp as (_ & _ & Ho). rewrite (Ho k c Ek) in Ec. done.
  - unfold startStep, goes_ in E. repeat case_match; by simplify_eq.
  - unfold doStep, onEvent, afterWrite, goes_ in E. repeat case_match; by simplify_eq.
  - done.
  - unfold pushStep, goes_ in E. repeat case_match; by simplify_eq.
  - unfold goes_ in E. repeat case_match; by simplify_eq.
Qed.

(** A reader that has ended stays so. *)
Lemma ended_step t g case t' g' started :
  ended_reader g = true -> step t g case = Some (Goes t' g' started) -> ended_reader g' = true /\ failed_ t' = true.
Proof.
  destruct g as [[|data err|es err|k e rest err|eof|[]]|ctx r b h|ctx f pc|x r|id k x pc|ce f]; try done; intros _; destruct case; try done.
  cbn. intros [= <- <- <-]. done.
Qed.

Lemma perform_calm w a w' :
  world_ok w -> calm w -> (forall closer, a <> CallClose closer) -> perform w a = Some w' -> calm w'.
Proof.
  intros (owner & Ht & Hg) [Hp Hc] Ha. unfold perform. rewrite Hp. destruct a as [i case|i|request reader hooks|closer]; [| | |by destruct (Ha closer)].
  - destruct (goroutines w !! i) as [g|] eqn:Ei; [|done]. pose proof (proj1 (Forall_lookup _ _) Hg i g Ei) as Hgi. destruct (Hc i g Ei) as [Hcl Hrd].
    destruct (step (transport w) g case) as [[t' g' started|]|] eqn:E; [| |done]; intros [= <-].
    2: { by apply (step_no_panic owner) in E; [|done | intros H; apply (Hrd H)]. }
    destruct (step_kind _ _ _ _ _ _ E) as (K1 & K2 & K3). pose proof (step_ok owner _ _ _ _ Ht Hgi E) as (owner' & _ & _ & _ & _ & Hmono & Hf).
    split; [done|]. cbn. intros j gj. rewrite lookup_app_Some, list_lookup_insert_Some.
    assert (failed_ t' = failed_ (transport w) \/ is_reading g' = true /\ ended_reader g' = true) as Hf'.
    { destruct Hf as [?|Hf]; [by left|]. destruct g' as [[| | | | |[]]| | | | |? []]; try done; [by right|]. rewrite <- K2 in Hcl. done. }
    intros [[(-> & -> & _)|[Hne Hj]]|[_ Hj]].
    + split; [congruence|]. intros Hr. rewrite K1 in Hr. destruct (Hrd Hr) as [-> He]. split; [done|]. intros Hf2.
      destruct Hf' as [Hf'|[_ ?]]; [|done]. rewrite Hf' in Hf2. by destruct (ended_step _ _ _ _ _ _ (He Hf2) E).
    + destruct (Hc j gj Hj) as [C1 C2]. split; [done|]. intros Hr. destruct (C2 Hr) as [-> C3]. split; [done|]. intros Hf2.
      destruct Hf' as [Hf'|[Hr' _]]; [apply C3; congruence|]. rewrite K1 in Hr'. destruct (Hrd Hr') as [-> _]. done.
    + apply list_elem_of_lookup_2 in Hj. rewrite Forall_forall in K3. destruct (K3 gj Hj) as [K4 K5]. split; [done|]. congruence.
  - destruct (goroutines w !! i) as [g|] eqn:Ei; [|done].
    assert (forall g', is_closing g' = false -> is_reading g' = false -> calm (mkWorld (transport w) (<[i := g']> (goroutines w)) false)) as Hgo.
    { intros g' H1 H2. split; [done|]. intros j gj. cbn. rewrite list_lookup_insert_Some. intros [(-> & -> & _)|[_ Hj]]; [|by apply Hc]. split; [done | congruence]. }
    destruct g; try done; intros [= <-]; by apply Hgo.
  - intros [= <-]. split; [done|]. intros j gj. cbn. rewrite lookup_app_Some. intros [Hj|[_ Hj]]; [by apply Hc|].
    apply list_lookup_singleton_Some in Hj as [_ <-]. done.
Qed.

Lemma performs_calm w actions w' :
  world_ok w -> calm w -> Forall action_ok actions -> (forall closer, CallClose closer ∉ actions) -> performs w actions = Some w' -> calm w'.
Proof.
  revert w. induction actions as [|a actions IH]; intros w Hw Hc Ha Hn; cbn [performs]; [by intros [= <-]|].
  apply Forall_cons in Ha as [Ha Hr]. destruct (perform w a) as [w1|] eqn:E; [|done].
  apply IH; [by eapply perform_ok | | done | intros closer Hin; by eapply Hn, list_elem_of_further].
  eapply perform_calm; [exact Hw | done | | exact E]. intros closer ->. eapply Hn, list_elem_of_here.
Qed.
End World.
