(* ===== verification/H2MuxProps.v ===== *)
(** * HTTP/2: the properties of the multiplexed transport

    What the users of a transport of [src/http2/request/transport.go] rely on,
    for any transport of bytes that keeps the contracts of [io], any requests,
    body readers, callbacks and push handlers, and any interleaving of the steps
    of the goroutines, by the invariant of [H2MuxWorld]; and concrete runs in
    which the transport does what it should not. *)

From stdpp Require Import gmap.
From S2P Require Import Prelude Transport H2Frame H2FrameWf H2FrameSpec H2Hpack H2Headers H2Session H2SessionWf H2SessionInbound H2SessionOutbound H2SessionLife H2SessionProps H2SessionFindings H2Server H2ServerSound H2Request H2RequestProps H2Mux H2MuxSound H2MuxWorld.
Open Scope Z_scope.

(** ** A new transport *)

Section Props.
Context `{DX : Duplex} `{HP : Hpack} `{RO : !RangeOrder} `{HF : !HpackFits} `{BS : BodySource}.
Implicit Types (t : Transport_) (o : TransportOptions).






(** ** Callers return *)








Section Failed.
Context (L : SessionLimits) (base : list Z) (maxBody : Z) (owner : list Z).









End Failed.

End Props.

(** ** A transport for the witnesses *)

(** Bodies that give what is left, all at once. *)
Definition listBody : BodySource :=
  {| BodyReader := list Z; BodyError := unit; body_EOF := fun _ => true;
     BodyRead := fun r buffer => ([], r ++ drop (length r) buffer, (len r, if len r =? 0 then Some tt else None)) |}.

Definition noReader : @BodyReader listBody := [].

Definition demoMuxOptions : TransportOptions := mkTransportOptions noLimits 0 1 0 None.

(** The peer: SETTINGS, a response with a body of two frames. *)
Definition demoMuxPeer : @Conn pipe :=
  ([], frame FrameSettings 0 0 [] ++ frame FrameHeaders 4 1 (block [field (str ":status") (str "200")]) ++
       frame FrameData 0 1 (str "ab") ++ frame FrameData 1 1 (str "c")).

Definition demoGetRequest : Request :=
  mkRequest (str "GET") (str "https") (str "h") (str "/x") [] [] [] false 0 false false [].

Definition runMux (o : TransportOptions) (peer : @Conn pipe) (actions : list (@Action pipe listBody)) : option (@World pipe plainHpack listBody) :=
  match NewTransport (ST := pipe) (HP := plainHpack) (BS := listBody) (Some peer) o with
  | Some (inl w) => performs (RO := mapOrder) w actions
  | _ => None
  end.

(** A caller sends its request; the reader has read all the answer and is about
    to queue the first of its events. *)
Definition demoAsked : list (@Action pipe listBody) :=
  [CallDo demoGetRequest noReader (Some demoHooks); Move 1 Run; Move 0 Run; Move 0 Run; Move 0 Run; Move 0 Run].


(** The caller in a world, and the reader's choices. *)
Definition goroutineAt (i : nat) (w : @World pipe plainHpack listBody) := w.(goroutines) !! i.

Definition ready (i : nat) (w : @World pipe plainHpack listBody) : list Case :=
  match w.(goroutines) !! i with
  | Some g => List.filter (fun c => match step (RO := mapOrder) w.(transport) g c with Some _ => true | None => false end)
      [Run; CaseEvents; CaseWindow; CaseContext; CaseDone]
  | None => []
  end.


(** ** Claims *)












(** ** Findings *)

(** [Close] while the reader is about to queue an event for an exchange: [fail]
    closes the channel, and the send panics. *)
Example close_panics : panicked <$> runMux demoMuxOptions demoMuxPeer (demoAsked ++ [CallClose None; Move 2 Run; Move 0 CaseEvents]) = Some true.
Proof. by vm_compute. Qed.

(** A caller gives up while the reader waits for room in its channel: nobody
    empties the channel any more, and the reader, which serves all the streams
    of the connection, has no step left. *)
Example abandoned_exchange_blocks :
  (fun w => (ready 0 w, match goroutineAt 1 w with Some (Returned _ (inr MuxContext)) => true | _ => false end)) <$>
    runMux demoMuxOptions demoMuxPeer (demoAsked ++ [Move 0 CaseEvents; Move 0 Run; CancelContext 1; Move 1 CaseContext; Move 1 Run])
  = Some ([], true).
Proof. by vm_compute. Qed.

Definition demoPostAbc : Request :=
  mkRequest (str "POST") (str "https") (str "h") (str "/x") [] [] (str "abc") false 0 false false [].

(** The peer's SETTINGS close the windows of streams, and then open them. *)
Definition demoWindows : @Conn pipe := ([], frame FrameSettings 0 0 [0; 4; 0; 0; 0; 0] ++ frame FrameSettings 0 0 [0; 4; 0; 0; 0; 10]).

Definition demoSender (i : nat) : list (@Action pipe listBody) :=
  [CallDo demoPostAbc noReader None; Move i Run; Move i Run; Move i Run; Move i Run].

Definition demoFrameRead : list (@Action pipe listBody) := [Move 0 Run; Move 0 Run; Move 0 Run; Move 0 Run].

(** Two callers wait for their windows; both open, but there is one token: the
    first caller takes it and sends, the second has no step, although its stream
    can take all its data. *)
Example window_token_lost :
  (fun w => (ready 1 w, ready 2 w, (SendData (coreOf w.(transport)) 3 (str "abc") false).2)) <$>
    runMux (mkTransportOptions noLimits 15 1 0 None) demoWindows
      (demoFrameRead ++ demoSender 1 ++ demoSender 2 ++ [Move 1 CaseWindow; Move 1 Run] ++ demoFrameRead ++ [Move 1 CaseWindow; Move 1 Run])
  = Some ([Run], [], (3, None)).
Proof. by vm_compute. Qed.
