(* ===== verification/H2Pool.v ===== *)
(** * HTTP/2: the connection pool

    A translation of [src/http2/request/pool.go].  A pool is shared by any
    number of callers of [Do] and [Close]; as in [H2Mux] a goroutine is a value
    that says where it stands, and moves by atomic steps: a critical section of
    the mutex, or a call of code outside of the pool (dialling and
    [NewTransport], [Transport.Do], [ReplayBody], [Transport.Close]), whose
    result is the argument [Answer] of the step.  Transports are numbered in the
    order in which they were made. *)

From stdpp Require Import gmap.
From S2P Require Import Prelude Transport H2Hpack H2Headers H2Session H2Request H2Mux.
Open Scope Z_scope.

Definition idempotentMethod (method : list Z) : bool :=
  existsb (bytes_eqb method) [str "GET"; str "HEAD"; str "PUT"; str "DELETE"; str "OPTIONS"; str "TRACE"].

Section Pool.
Context `{ST : Stream} `{HP : Hpack} `{BS : BodySource}.

Definition retryableRequest (r : Request) (err : MuxError) : bool :=
  if negb (idempotentMethod r.(reqMethod)) then false
  else if r.(reqBodyReader) && negb r.(reqReplayBody) then false
  else
    match err with
    | MuxStreamError _ retryable => retryable
    | MuxGoAwayError _ _ => true
    | _ => false
    end.

(** [replay] is the error of [request.ReplayBody()]; the reader it returns is
    the caller's. *)
Definition replayRequest (r : Request) (replay : option MuxError) : option MuxError := if r.(reqBodyReader) then replay else None.

Record Pool := mkPool {
  current : option nat;
  transports : gset nat;
  pclosed : bool;
}.

(** In [Pool.Do]. *)
Inductive PoolPc :=
  | PoolBegin (* at the first critical section of [transport] *)
  | PoolDial
  | PoolAdopt (t : nat) (* at its second critical section, with a new transport *)
  | PoolShut (t : nat) (selected : option nat) (* before the [Close] of a transport that is not used *)
  | PoolTry (t : nat) (* before [Transport.Do] *)
  | PoolDiscard (t : nat)
  | PoolReplay.

(** [failures] are the errors of the attempts before. *)
Inductive PoolRoutine :=
  | PoolDoing (request : Request) (attempt : Z) (failures : list MuxError) (pc : PoolPc)
  | PoolReturned (request : Request) (failures : list MuxError) (r : Response + MuxError)
  | PoolClose (* before the critical section of [Close] *)
  | PoolClosing (rest : gset nat) (first : option StreamError)
  | PoolClosed (first : option StreamError).

Inductive Answer :=
  | NoAnswer
  | Dialled (* a stream, and a transport on it *)
  | DialFailed (err : MuxError) (* [dial] or [NewTransport]; the stream of the latter is closed *)
  | Tried (r : Response + MuxError)
  | Replayed (err : option MuxError)
  | Shut (t : nat) (err : option StreamError).

(** The pool, the transports made so far, and those that [Close] was called of. *)
Record PoolWorld := mkPoolWorld {
  pool : Pool;
  made : nat;
  shut : gset nat;
  routines : list PoolRoutine;
}.

Section Step.
Context (hasDial : bool) (MaxRetries : Z).

Definition maxRetries : Z := if MaxRetries =? 0 then 1 else MaxRetries.

(** The second critical section of [transport]. *)
Definition adopt (p : Pool) (t : nat) : Pool * PoolPc :=
  if p.(pclosed) then (p, PoolShut t None)
  else
    let selected := match p.(current) with Some s => s | None => t end in
    (mkPool (Some selected) ({[t]} ∪ p.(transports)) false, if bool_decide (selected = t) then PoolTry t else PoolShut t (Some selected)).

Definition discard (p : Pool) (t : nat) : Pool :=
  if bool_decide (p.(current) = Some t) then mkPool None p.(transports) p.(pclosed) else p.

(** A step: the pool, the transports made and shut, and the goroutine. *)
Definition poolStep (p : Pool) (n : nat) (s : gset nat) (g : PoolRoutine) (a : Answer) : option (Pool * nat * gset nat * PoolRoutine) :=
  match g, a with
  | PoolDoing r k fs PoolBegin, NoAnswer =>
      if p.(pclosed) then Some (p, n, s, PoolReturned r fs (inr MuxClosedPipe))
      else
        match p.(current) with
        | Some t => Some (p, n, s, PoolDoing r k fs (PoolTry t))
        | None =>
            if hasDial then Some (p, n, s, PoolDoing r k fs PoolDial) else Some (p, n, s, PoolReturned r fs (inr MuxInvalidStream))
        end
  | PoolDoing r k fs PoolDial, DialFailed err => Some (p, n, s, PoolReturned r fs (inr err))
  | PoolDoing r k fs PoolDial, Dialled => Some (p, S n, s, PoolDoing r k fs (PoolAdopt n))
  | PoolDoing r k fs (PoolAdopt t), NoAnswer => let (p, pc) := adopt p t in Some (p, n, s, PoolDoing r k fs pc)
  | PoolDoing r k fs (PoolShut t selected), Shut t' _ =>
      if bool_decide (t' = t) then
        Some (p, n, {[t]} ∪ s,
          match selected with Some t => PoolDoing r k fs (PoolTry t) | None => PoolReturned r fs (inr MuxClosedPipe) end)
      else None
  | PoolDoing r k fs (PoolTry t), Tried (inl response) => Some (p, n, s, PoolReturned r fs (inl response))
  | PoolDoing r k fs (PoolTry t), Tried (inr err) =>
      if (maxRetries <=? k) || negb (retryableRequest r err) then Some (p, n, s, PoolReturned r fs (inr err))
      else Some (p, n, s, PoolDoing r k (fs ++ [err]) (PoolDiscard t))
  | PoolDoing r k fs (PoolDiscard t), NoAnswer => Some (discard p t, n, s, PoolDoing r k fs PoolReplay)
  | PoolDoing r k fs PoolReplay, Replayed err =>
      match replayRequest r err with
      | Some e => Some (p, n, s, PoolReturned r fs (inr e))
      | None => Some (p, n, s, PoolDoing r (u32 (k + 1)) fs PoolBegin)
      end
  | PoolClose, NoAnswer =>
      if p.(pclosed) then Some (p, n, s, PoolClosed None) else Some (mkPool None ∅ true, n, s, PoolClosing p.(transports) None)
  | PoolClosing rest first, Shut t err =>
      if bool_decide (t ∈ rest) then
        Some (p, n, {[t]} ∪ s, PoolClosing (rest ∖ {[t]}) (match first with Some e => Some e | None => err end))
      else None
  | PoolClosing rest first, NoAnswer => if bool_decide (rest = ∅) then Some (p, n, s, PoolClosed first) else None
  | _, _ => None
  end.

Inductive PoolAction :=
  | PoolMove (i : nat) (a : Answer)
  | PoolCallDo (request : Request)
  | PoolCallClose.

Definition poolPerform (w : PoolWorld) (a : PoolAction) : option PoolWorld :=
  match a with
  | PoolMove i a =>
      match w.(routines) !! i with
      | None => None
      | Some g =>
          match poolStep w.(pool) w.(made) w.(shut) g a with
          | Some (p, n, s, g) => Some (mkPoolWorld p n s (<[i := g]> w.(routines)))
          | None => None
          end
      end
  | PoolCallDo r => Some (mkPoolWorld w.(pool) w.(made) w.(shut) (w.(routines) ++ [PoolDoing r 0 [] PoolBegin]))
  | PoolCallClose => Some (mkPoolWorld w.(pool) w.(made) w.(shut) (w.(routines) ++ [PoolClose]))
  end.

Fixpoint poolPerforms (w : PoolWorld) (actions : list PoolAction) : option PoolWorld :=
  match actions with
  | [] => Some w
  | a :: actions => match poolPerform w a with Some w => poolPerforms w actions | None => None end
  end.
End Step.

Definition newPool : PoolWorld := mkPoolWorld (mkPool None ∅ false) 0 ∅ [].
End Pool.
