(* ===== verification/H2PoolProps.v ===== *)
(** * HTTP/2: the properties of the connection pool

    What the users of [src/http2/request/pool.go] rely on, in every interleaving
    of their calls and for every result of dialling and of the transports: how
    often a request is tried, and what becomes of the connections. *)

From stdpp Require Import gmap.
From S2P Require Import Prelude Transport H2Hpack H2Headers H2Session H2SessionProps H2Request H2RequestProps H2Mux H2MuxProps H2Pool.
Open Scope Z_scope.

Section Sound.
Context `{ST : Stream} `{HP : Hpack} `{BS : BodySource} (hasDial : bool) (MaxRetries : Z) (Hmax : in_u32 MaxRetries).


















End Sound.

(** ** A pool for the witnesses *)

Abbreviation demoPoolAction := (@PoolAction pipe plainHpack listBody).
Abbreviation demoPoolWorld := (@PoolWorld pipe plainHpack listBody).


Definition demoPool (actions : list demoPoolAction) : option demoPoolWorld := poolPerforms true 0 newPool actions.



(** ** Claims *)



(** ** Findings *)

(** A connection that broke stays the current one: the next call tries it again
    instead of dialling, and so does every later one. *)
Example broken_connection_kept :
  (fun w => w.(routines) !! 1%nat) <$>
    demoPool [PoolCallDo demoGetRequest; PoolMove 0 NoAnswer; PoolMove 0 Dialled; PoolMove 0 NoAnswer;
      PoolMove 0 (Tried (inr (MuxIo IoUnexpectedEOF))); PoolCallDo demoGetRequest; PoolMove 1 NoAnswer]
  = Some (Some (PoolDoing demoGetRequest 0 [] (PoolTry 0))).
Proof. by vm_compute. Qed.
